(* ===== verification/_CoqProject ===== *)
-Q . S2P
Prelude.v
K8sTypes.v
ApiTypes.v
Sha256.v
Names.v
Graph.v
CopyFields.v
Options.v
Client.v
Examples.v
Probe.v
Activity.v
State.v
TLS.v
Generate.v
Field.v
Webhook.v
WebhookSpec.v
Owned.v
RoleBindings.v
Reconcile.v
ReconcileSpec.v
Triples.v
Quiescence.v
Pausing.v
KindController.v
Watches.v
FilterRules.v
Base64.v
Validation.v
Revision.v
ListValues.v
WorkspaceModel.v
WorkspaceRepo.v
Paths.v
KindModel.v
KindRepo.v
WorkspaceList.v
Mounts.v
Secrets.v
Pvcs.v
PodLogs.v
Cluster.v
Metrics.v
Http.v
Auth.v
Handlers.v
Startup.v
Indexes.v
HandlersSpec.v
Replies.v
Acknowledged.v
Concurrent.v
BackendSpec.v
