(* ===== verification/Prelude.v ===== *)
(** * Kubeflow Notebooks v2 (workspaces): verification development

    The repository runs Jupyter-like servers, "Workspaces", on Kubernetes.  A
    controller ([src/workspaces/controller]) reconciles Workspace objects, whose
    shape an administrator constrains with WorkspaceKind objects; admission webhooks
    guard both; a REST backend ([src/workspaces/backend]) serves the user interface.
    This library models the Go code of the controller, its webhooks and the backend, and
    proves what they promise.

    ** How the program is modelled

    Fallible code returns [go A]: [Ok], [Err] with the wrapped error, or [Panic] where
    Go would panic (nil dereference, slice out of range).  Effectful code is a program
    ([prog], file [Client]): a tree of requests to the API server, to the clock, to the
    Pod, with a continuation on every answer.  [runs p h r] says that [p] returns [r]
    after the requests and answers [h], in order; a property of all histories holds
    whatever the API server answers, so conflicts, stale lists and missing objects are
    covered.  [interp] runs a program against an executable API server, which is how
    the witnesses compute.  Early returns are the [flow] monad of the reconcilers, the
    [repo] monad of the backend's repositories, whose errors are values of [repo_error],
    and the [hnd] monad of its handlers, which stop once a response is written.  Integers
    are [Z] with the wrap-around of [int32], [int64] and [uint32] written out where the
    code computes with them; strings are bytes; nil and empty maps are distinct
    ([option (gmap ...)]) where the code can tell; Go's iteration over maps is an
    arbitrary order ([MapOrder]).  Objects are held up to [equality.Semantic.DeepEqual], so
    that it is [=]: the quantities of resources are amounts, without their unit ([amount]).

    Code outside the repository is a parameter: text/template ([TemplateLib]), label
    selectors ([SelectorLib]), controller references ([OwnerLib]), the unstructured
    accessors ([UnstructuredLib]), JSON and times in probes ([ProbeLib]), apimachinery's
    validation ([ValidationLib], [NameLib]), quantities and times ([QuantityLib],
    [TimeLib]), the decoders of request bodies ([CodecLib]), the header authenticator
    ([HeaderAuthLib]), httprouter ([RouterLib]) and the predicates of watches ([WatchLib]).  The laws the code relies on are in
    separate classes, with a concrete instance the witnesses use.

    ** Files

    The foundation:
    - [Prelude]: errors, the [go] monad, strings, integers, maps; hints and tactics.
    - [K8sTypes], [ApiTypes]: Kubernetes objects and the API types
      ([api/v1beta1/*_types.go]), with the fields the code reads or writes.
    - [Client]: requests, programs, histories, and the rules to reason on them.
    - [Examples]: concrete objects and an API server.

    The controller and its webhooks:
    - [Sha256], [Names]: object names ([generate*Name] of [workspace_controller.go]).
    - [Graph]: [helper/graph.go].  [CopyFields]: [helper/helper.go].
    - [Options]: [getImageConfig] and [getPodConfig], over one loop.
    - [Probe], [Activity]: [helper/probe.go], [helper/activity.go] and
      [workspace_activity.go]: probing, rules, culling.
    - [State]: [generateWorkspaceStatus] and [generateWorkspaceState].
    - [TLS]: [pkg/tls].
    - [Generate]: the generated StatefulSet, Service, routes and proxy resources.
    - [Field], [Webhook], [WebhookSpec]: field errors, both admission webhooks and what
      they guarantee.
    - [Owned], [RoleBindings], [Reconcile], [ReconcileSpec]: the Workspace reconciler
      by stages, and its safety over histories.
    - [Triples], [Quiescence]: a small program logic for histories, and that every write of
      the reconciler has a reason in what it read, and that what it wrote settles.
    - [Pausing]: the pause patch, and the Pod and the probe it rests on.
    - [KindController]: the WorkspaceKind reconciler and the hashing of ConfigMaps.
    - [Watches], [Indexes]: field indexes and the watches of both controllers, with their
      predicates and map functions; which indexes are registered, that they meet what the
      reconcilers list, and what a change of a watched object queues ([queueOf]).

    The backend, bottom up:
    - [FilterRules]: [filterrules/engine.go].  [Base64]: the decoder of secret values.
    - [Validation]: [helper/validation.go].  [Revision]: revisions and audit annotations.
    - [ListValues]: the options of a kind for a request.
    - [WorkspaceModel], [WorkspaceRepo], [WorkspaceList]: Workspaces: models to write with
      validation and conversion, the repository, models to read.
    - [Paths], [KindModel], [KindRepo]: paths of the API; models and repository of kinds.
    - [Mounts], [Secrets], [Pvcs]: who mounts what, Secrets and volume claims.
    - [PodLogs], [Cluster], [Metrics]: logs, namespaces and storage classes, resource usage.
    - [Http]: requests, responses, error envelopes, and the monad of handlers.
    - [Auth]: authenticators, policies, [requireAuth].
    - [Handlers]: every handler, the routes and the middleware.
    - [HandlersSpec], [Replies], [Acknowledged], [BackendSpec]: what the API guarantees.
    - [Concurrent]: many clients and replicas at once, against an API server with optimistic
      concurrency, the atomic specification that updates refine, and the controller's updates
      among them.

    Both programs: [Startup]: configuration, checks, TLS options, authenticator and limits
    ([cmd/main.go], [internal/server], [internal/config]).

    The interfaces between them are the monads and classes above: a repository is a
    [repo] program of its arguments, a handler applies it through [catch], and the
    theorems on handlers use only the repositories' lemmas on requests and errors.

    ** What is shown

    Safety of the reconciler: the cleanup finalizer goes only after the cluster-wide
    resources; a pause is the last request and follows a probe of the Workspace's Pod that was
    answered well ([pause_patch_is_last]); an unusable TLS profile publishes no template; every
    write has a reason in what was read ([writes_justified]), and updates of Workspaces and
    kinds change nothing but the controller's finalizer in the version they were made from
    ([reconcile_keeps_spec]); what is listed by an index is indexed, and owned objects that are
    listed are watched ([lists_indexed]); a change of a Pod queues its Workspace.  Webhooks:
    validation decides a declarative validity, which updates preserve; options in use are
    protected, so that Workspaces keep resolving; an admitted Workspace selects options that
    exist.  Activity: a pause needs a fresh successful probe of the Pod and an eligible last
    activity; probes are rate limited; rule evaluation refines first-match; eligibility has no
    overflow.  RoleBindings converge, without updates of the role.  TLS fails closed, except
    that a profile of an empty type is the Intermediate one.  Redirects resolve and terminate.
    Copying is idempotent and keeps what it must.  Names fit, and collide only as stated.
    Kinds: the finalizer goes only when no Workspace uses the kind, and a changed asset queues
    the kinds that show it, when the list of kinds succeeds.

    Backend: no request but a token or access review is sent before the user holds the
    permission that a table states per endpoint ([serve_authorized]); a reply below 400 to
    a change comes with exactly one acknowledged write, any other reply with none
    ([write_acknowledged]); replies have the statuses of the OpenAPI comments and the shape
    of their envelope.  Updates are guarded by the revision, values of Secrets leave by no
    operation, updates of Workspaces, kinds and Secrets are atomic under any interleaving and at
    most one of those sent with one revision succeeds ([updates_atomic],
    [one_update_per_revision]), reading and writing back a model is the identity, logs and
    usage are those of the Workspace's Pod, and the asset hash of the controller is the one of
    the bytes served.

    Start-up: a controller that starts is configured consistently and restarts only on a
    changed TLS profile; a backend that starts enforces the table of permissions, with the
    authenticator its configured method stands for, and the limit of 4 MiB on bodies.

    Some theorems prove what the comments of the code rule out: clashing names, a second
    create in one reconcile, a template without the sidecar, a running time that restarts,
    a deny rule that is not enforced, a pause patch of a Workspace that is paused, retries of
    the index registration that cannot succeed.

    ** Fuel

    [followRedirects] gets one more unit than there are options, [detect_loop] two more
    than there are edges: every step visits a new node, and the termination theorems
    prove the fuel enough.

    ** Not modelled

    The wiring of controller-runtime (schemes, caches, rate limiters, health checks, the
    delivery of watch events, and the mapping of owned objects to their owner), listening and shut-down, logging, metrics registration, the HTTP
    and SPDY clients of the probes, the delegating authorizer, Swagger pages, static files and
    compression, the mutex of the metrics cache, generated code, the mock API server of the
    contract tests, and the frontend: they are wiring of libraries, or not Go code.  In
    [Concurrent] the API server stores the content that was submitted: defaulting and
    mutation by other webhooks are left out; deletions carry no precondition in the code, so
    they are not among the atomic operations. *)

From Stdlib Require Import ZArith Ascii.
From stdpp Require Import base gmap strings list pretty fin_maps sorting.

(** ** Scope, automation and hint database *)

Declare Scope go_scope.
Delimit Scope go_scope with go.
Global Open Scope go_scope.

Create HintDb go.
Create Rewrite HintDb go_len.

(** Split every [match]/[if] of the goal and of the hypotheses, keeping the
    equations, and close the contradictory branches. *)
Ltac go_cases :=
  repeat (case_match; simplify_eq/=; try done).

(** Unfold a chain of boolean tests into propositions. *)
Ltac go_bool :=
  repeat match goal with
  | H : (_ && _) = true |- _ => apply andb_true_iff in H as [? ?]
  | H : (_ || _) = false |- _ => apply orb_false_iff in H as [? ?]
  | H : negb _ = true |- _ => apply negb_true_iff in H
  | H : negb _ = false |- _ => apply negb_false_iff in H
  | H : bool_decide _ = true |- _ => apply bool_decide_eq_true in H
  | H : bool_decide _ = false |- _ => apply bool_decide_eq_false in H
  | H : (_ <? _)%Z = true |- _ => apply Z.ltb_lt in H
  | H : (_ <? _)%Z = false |- _ => apply Z.ltb_ge in H
  | H : (_ <=? _)%Z = true |- _ => apply Z.leb_le in H
  | H : (_ <=? _)%Z = false |- _ => apply Z.leb_gt in H
  | H : (_ =? _)%Z = true |- _ => apply Z.eqb_eq in H
  | H : (_ =? _)%Z = false |- _ => apply Z.eqb_neq in H
  end.

(** ** Go errors and run-time panics

    A Go function that returns [(T, error)] is a [go T]: [Ok] with the value,
    [Err] with the error value, or [Panic] when the run time would panic (index
    out of range, assignment to an entry of a nil map, nil dereference). *)

(** The classes of Kubernetes API errors the code distinguishes
    ([apierrors.IsNotFound], [IsConflict], ..., [meta.IsNoMatchError]). *)
Inductive api_reason :=
| NotFound | Conflict | AlreadyExists | Invalid | NoMatch
| ServiceUnavailable | TimeoutReason | ServerTimeout | TooManyRequests | DeadlineExceeded
| Forbidden | Unauthorized | OtherReason.

#[global] Instance api_reason_eq_dec : EqDecision api_reason.
Proof. solve_decision. Defined.

(** An [error] value: an API status error, or an error made by [errors.New] or
    [fmt.Errorf] (with the error it wraps with [%w], if any). *)
Inductive error :=
| ApiError (reason : api_reason) (msg : string)
| ErrorMsg (msg : string)
| ErrorWrap (msg : string) (cause : error).

#[global] Instance error_eq_dec : EqDecision error.
Proof. solve_decision. Defined.

(** [err.Error()]. *)
Definition Error (e : error) : string :=
  match e with ApiError _ m | ErrorMsg m | ErrorWrap m _ => m end.

(** The class found by [errors.As] along the chain of wrapped errors. *)
Fixpoint reason_of (e : error) : option api_reason :=
  match e with
  | ApiError r _ => Some r
  | ErrorMsg _ => None
  | ErrorWrap _ c => reason_of c
  end.

Definition IsReason (r : api_reason) (e : error) : bool :=
  bool_decide (reason_of e = Some r).

Abbreviation IsNotFound := (IsReason NotFound).
Abbreviation IsConflict := (IsReason Conflict).
Abbreviation IsAlreadyExists := (IsReason AlreadyExists).
Abbreviation IsInvalid := (IsReason Invalid).
Abbreviation IsNoMatchError := (IsReason NoMatch).

Inductive go (A : Type) :=
| Ok (a : A)
| Err (e : error)
| Panic (why : string).
Arguments Ok {A} _.
Arguments Err {A} _.
Arguments Panic {A} _.

Definition go_bind {A B} (c : go A) (f : A → go B) : go B :=
  match c with Ok a => f a | Err e => Err e | Panic w => Panic w end.

Notation "'let!' x ':=' c 'in' k" := (go_bind c (λ x, k))
  (at level 10, x pattern, c at level 100, k at level 200) : go_scope.

(** ** Machine integers *)

(** Wrap-around of Go's signed [int32] and [int64]. *)
Definition wrap32 (z : Z) : Z := ((z + 2 ^ 31) mod 2 ^ 32 - 2 ^ 31)%Z.
Definition wrap64 (z : Z) : Z := ((z + 2 ^ 63) mod 2 ^ 64 - 2 ^ 63)%Z.

Definition in_int32 (z : Z) : Prop := (- 2 ^ 31 ≤ z < 2 ^ 31)%Z.
Definition in_int64 (z : Z) : Prop := (- 2 ^ 63 ≤ z < 2 ^ 63)%Z.

Lemma wrap64_small z : in_int64 z → wrap64 z = z.
Proof. unfold in_int64, wrap64. intros. rewrite Z.mod_small; lia. Qed.

Lemma wrap32_small z : in_int32 z → wrap32 z = z.
Proof. unfold in_int32, wrap32. intros. rewrite Z.mod_small; lia. Qed.

Lemma wrap64_range z : in_int64 (wrap64 z).
Proof.
  unfold in_int64, wrap64.
  pose proof (Z.mod_pos_bound (z + 2 ^ 63) (2 ^ 64) eq_refl). lia.
Qed.

(** ** Go strings: byte strings with [len], slicing, [strings.Join], [%q] *)

Abbreviation slen := String.length.
(** [len(s)] as a Go [int]. *)
Definition str_len (s : string) : Z := Z.of_nat (slen s).

(** [s[:n]] with [n] within bounds. *)
Definition str_take (n : nat) (s : string) : string := String.substring 0 n s.

(** [s[:n]]: panics when [n] is out of range. *)
Definition str_slice_to (s : string) (n : Z) : go string :=
  if (0 <=? n)%Z && (n <=? str_len s)%Z
  then Ok (str_take (Z.to_nat n) s) else Panic "slice bounds out of range".

(** [s[i]]: panics when [i] is out of range. *)
Definition str_index (s : string) (i : Z) : go ascii :=
  if (i <? 0)%Z then Panic "index out of range" else
  match String.get (Z.to_nat i) s with
  | Some c => Ok c
  | None => Panic "index out of range"
  end.

(** [strings.Join(l, sep)]. *)
Fixpoint str_join (sep : string) (l : list string) : string :=
  match l with
  | [] => ""
  | [x] => x
  | x :: rest => x +:+ sep +:+ str_join sep rest
  end.

(** The characters of a byte string. *)
Abbreviation chars := String.list_ascii_of_string.

Definition hex_digit (n : N) : ascii :=
  if (n <? 10)%N then ascii_of_N (48 + n) else ascii_of_N (87 + n).

(** The two lower-case hexadecimal digits of a byte. *)
Definition hex_byte (n : N) : string :=
  String (hex_digit (n / 16)) (String (hex_digit (n mod 16)) "").

Definition quote_char (c : ascii) : string :=
  let n := N_of_ascii c in
  if (n =? 34)%N then "\" +:+ String c "" else
  if (n =? 92)%N then "\\" else
  if (n =? 7)%N then "\a" else if (n =? 8)%N then "\b" else
  if (n =? 12)%N then "\f" else if (n =? 10)%N then "\n" else
  if (n =? 13)%N then "\r" else if (n =? 9)%N then "\t" else
  if (n =? 11)%N then "\v" else
  if (n <? 32)%N || (n =? 127)%N then "\x" +:+ hex_byte n else String c "".

Definition dquote : string := String (ascii_of_N 34) "".

(** [fmt]'s [%q] on a string ([strconv.Quote]), exact on ASCII strings; bytes
    above 0x7f are copied, as [%q] does for printable runes. *)
Definition quote (s : string) : string :=
  dquote +:+ String.concat "" (quote_char <$> chars s) +:+ dquote.

(** Decimal rendering of an integer ([%d], [strconv.Itoa]). *)
Definition itoa (z : Z) : string := pretty z.

Lemma slen_app s t : slen (s +:+ t) = slen s + slen t.
Proof. induction s; simpl; [done|]. by rewrite IHs. Qed.

Lemma str_app_assoc s t u : (s +:+ t) +:+ u = s +:+ (t +:+ u).
Proof. induction s as [|c s IH]; [done|]. change (String c ((s +:+ t) +:+ u) = String c (s +:+ t +:+ u)). by rewrite IH. Qed.

Lemma str_app_nil_r s : s +:+ "" = s.
Proof. induction s as [|c s IH]; [done|]. change (String c (s +:+ "") = String c s). by rewrite IH. Qed.

Lemma slen_take n s : slen (str_take n s) = Nat.min n (slen s).
Proof.
  unfold str_take. revert n. induction s as [|c s IH]; intros [|n]; simpl; try done.
  by rewrite IH.
Qed.

Lemma str_take_all n s : slen s ≤ n → str_take n s = s.
Proof.
  unfold str_take. revert n. induction s as [|c s IH]; intros [|n] Hn; simpl in *;
    try done; try lia. f_equal. apply IH. lia.
Qed.

Lemma str_get_last_app s c :
  String.get (slen s) (s +:+ String c "") = Some c.
Proof. induction s; simpl; done. Qed.

Lemma str_get_Some i s : i < slen s → ∃ c, String.get i s = Some c.
Proof.
  revert i. induction s as [|a s IH]; intros [|i] Hi; simpl in *; try lia; [eauto|].
  apply IH. lia.
Qed.

Lemma slen_hex_byte n : slen (hex_byte n) = 2.
Proof. done. Qed.

Lemma str_app_inj_len s1 s2 t1 t2 :
  slen s1 = slen s2 → s1 +:+ t1 = s2 +:+ t2 → s1 = s2 ∧ t1 = t2.
Proof.
  revert s2. induction s1 as [|c s1 IH]; intros [|d s2] Hl Heq; simplify_eq/=; try done.
  destruct (IH s2) as [-> ->]; auto; lia.
Qed.

Lemma str_app_inj_r s1 s2 t : s1 +:+ t = s2 +:+ t → s1 = s2.
Proof.
  intros Heq. apply (str_app_inj_len s1 s2 t t); [|done].
  apply (f_equal slen) in Heq. rewrite !slen_app in Heq. lia.
Qed.

(** A separator that does not occur in the first parts splits a string in one way. *)
Lemma str_sep_inj c a1 a2 b1 b2 :
  c ∉ chars a1 → c ∉ chars a2 →
  a1 +:+ String c b1 = a2 +:+ String c b2 → a1 = a2 ∧ b1 = b2.
Proof.
  revert a2. induction a1 as [|x a1 IH]; intros [|y a2] H1 H2 Heq;
    simpl in *; simplify_eq/=; try done.
  - by destruct H2; left.
  - by destruct H1; left.
  - apply not_elem_of_cons in H1 as [_ H1], H2 as [_ H2].
    by destruct (IH a2) as [-> ->].
Qed.

#[export] Hint Rewrite slen_app slen_take slen_hex_byte : go_len.

(** ** Go maps of strings

    A [map[string]string] is a finite map, or nil: reading a nil map gives the
    zero value, writing to it panics.  [equality.Semantic.DeepEqual] does not
    tell a nil map from an empty one, so it is coarser than equality. *)

Abbreviation gomap := (option (gmap string string)).

(** The entries of a map, none for nil ([m[k]] and [len] read these). *)
Definition gm (m : gomap) : gmap string string := default ∅ m.

(** [m[k]], the zero value when absent. *)
Definition gm_index (m : gomap) (k : string) : string := default "" (gm m !! k).

(** [m[k] = v]. *)
Definition gm_assign (m : gomap) (k v : string) : go gomap :=
  match m with
  | None => Panic "assignment to entry in nil map"
  | Some m => Ok (Some (<[k := v]> m))
  end.

(** [equality.Semantic.DeepEqual] on maps. *)
Definition gm_equiv (m1 m2 : gomap) : Prop := gm m1 = gm m2.
Infix "≡ₘ" := gm_equiv (at level 70, no associativity) : go_scope.

#[global] Instance gm_equiv_dec m1 m2 : Decision (m1 ≡ₘ m2).
Proof. unfold gm_equiv. apply _. Defined.

#[global] Instance gm_equiv_equivalence : Equivalence gm_equiv.
Proof. split; unfold gm_equiv; repeat intros ?; congruence. Qed.

#[global] Instance gm_equiv_rewrite : RewriteRelation gm_equiv := {}.

#[global] Instance gm_proper : Proper (gm_equiv ==> eq) gm.
Proof. intros m1 m2 Hm. exact Hm. Qed.

#[global] Instance gm_index_proper : Proper (gm_equiv ==> eq ==> eq) gm_index.
Proof. intros m1 m2 Hm k ? <-. unfold gm_index, gm_equiv in *. by rewrite Hm. Qed.

(** The map a Go loop [for _, x := range l { m[key(x)] = x }] builds: the last
    value with a key wins. *)
Definition index_by {K A} `{Countable K} (key : A → K) (l : list A) : gmap K A :=
  foldl (λ m x, <[key x := x]> m) ∅ l.

Section index_by.
Context {K A : Type} `{Countable K} (key : A → K).

Lemma index_by_app l x :
  index_by key (l ++ [x]) = <[key x := x]> (index_by key l).
Proof. unfold index_by. by rewrite foldl_app. Qed.

Lemma index_by_lookup_Some l k x :
  index_by key l !! k = Some x → x ∈ l ∧ key x = k.
Proof.
  induction l as [|y l IH] using rev_ind; [done|].
  rewrite index_by_app, lookup_insert_Some. intros [[<- <-]|[_ Hx]]; set_solver.
Qed.

Lemma index_by_lookup_None l k :
  index_by key l !! k = None ↔ ∀ x, x ∈ l → key x ≠ k.
Proof.
  induction l as [|y l IH] using rev_ind; [set_solver|].
  rewrite index_by_app, lookup_insert_None, IH. set_solver.
Qed.

Lemma index_by_is_Some l k :
  is_Some (index_by key l !! k) ↔ ∃ x, x ∈ l ∧ key x = k.
Proof.
  split.
  - intros [x Hx]. exists x. by apply index_by_lookup_Some.
  - intros (x & Hx & Hk). rewrite <-not_eq_None_Some, index_by_lookup_None.
    intros Hno. by eapply Hno.
Qed.

(** When the keys are distinct (a [listType=map] field), lookup is membership. *)
Lemma index_by_NoDup l k x :
  NoDup (key <$> l) → x ∈ l → key x = k → index_by key l !! k = Some x.
Proof.
  induction l as [|y l IH] using rev_ind; [set_solver|].
  rewrite fmap_app, index_by_app. intros (Hnd & Hdisj & _)%NoDup_app Hx <-.
  apply elem_of_app in Hx as [Hx|Hx%list_elem_of_singleton]; [|subst; by simplify_map_eq].
  rewrite lookup_insert_ne; [by apply IH|].
  intros Heq. apply (Hdisj (key x)); [by apply list_elem_of_fmap_2|].
  rewrite <-Heq. set_solver.
Qed.
End index_by.

(** ** Iterating over Go maps

    [range] over a map visits its entries in an unspecified order, which may differ
    from one loop to the next.  [range site m] is the order in which the loop named
    [site] visits [m]; the laws say only that it visits every entry once. *)

Class MapOrder := {
  range : string → ∀ {A}, gmap string A → list (string * A);
  range_keys : string → gset string → list string;
}.

Class MapOrderLaws `{MapOrder} : Prop := {
  range_perm site {A} (m : gmap string A) : range site m ≡ₚ map_to_list m;
  range_keys_perm site s : range_keys site s ≡ₚ elements s;
}.

(** One possible order. *)
Definition canonicalOrder : MapOrder :=
  {| range := λ _ A m, map_to_list m; range_keys := λ _ s, elements s |}.

#[global] Instance canonicalOrder_laws : @MapOrderLaws canonicalOrder.
Proof. split; by intros. Qed.

Lemma elem_of_range `{MapOrderLaws} site {A} (m : gmap string A) k x :
  (k, x) ∈ range site m ↔ m !! k = Some x.
Proof. rewrite range_perm. apply elem_of_map_to_list. Qed.

Lemma elem_of_range_keys `{MapOrderLaws} site s k : k ∈ range_keys site s ↔ k ∈ s.
Proof. rewrite range_keys_perm. apply elem_of_elements. Qed.

Lemma range_NoDup `{MapOrderLaws} {A} site (m : gmap string A) : NoDup (range site m).*1.
Proof. rewrite range_perm. apply NoDup_fst_map_to_list. Qed.

Lemma range_list_to_map `{MapOrderLaws} {A} site (m : gmap string A) :
  list_to_map (range site m) = m.
Proof.
  rewrite (list_to_map_proper _ (map_to_list m)); [apply list_to_map_to_list| |apply range_perm].
  apply range_NoDup.
Qed.

(** A map filled by a loop over a list: the last element of a key counts. *)
Lemma foldl_insert_lookup {A B} (key : A → string) (val : A → B) (l : list A) k :
  foldl (λ m x, <[key x := val x]> m) (∅ : gmap string B) l !! k
  = val <$> last (filter (λ x, key x = k) l).
Proof.
  induction l as [|x l IH] using rev_ind; [done|].
  rewrite foldl_app, filter_app. cbn [foldl]. destruct (decide (key x = k)) as [<-|Hne].
  - by rewrite lookup_insert_eq, filter_cons_True, filter_nil, last_snoc.
  - by rewrite lookup_insert_ne, filter_cons_False, filter_nil, app_nil_r.
Qed.

(** Appending the results of a loop body: empty when every body's is. *)
Lemma concat_nil {A} (l : list (list A)) : concat l = [] ↔ ∀ x, x ∈ l → x = [].
Proof.
  induction l as [|x l IH]; simpl; [set_solver|]. rewrite app_nil, IH. set_solver.
Qed.

Lemma concat_map_nil {A B} (f : A → list B) l : concat (f <$> l) = [] ↔ ∀ x, x ∈ l → f x = [].
Proof. rewrite concat_nil. set_solver. Qed.
