(* ===== verification/K8sTypes.v ===== *)
(** * Kubernetes data the program reads and writes

    The Kubernetes, Istio and Gateway API structs that the controller builds,
    compares or inspects, with the fields it touches.  A struct, or the rest of
    a struct, that the code only carries from one place to another is [opaque]:
    its serialised form, which supports equality and nothing else.

    Objects are held up to [equality.Semantic.DeepEqual], so that this comparison
    is [=]: maps and slices that no code tells from nil are plain finite maps and
    lists, and a [resource.Quantity] is its amount ([amount]), whatever unit it was
    written in.  [ObjectMeta]'s labels and annotations, which the code assigns to,
    keep nil apart ([gomap]). *)

From S2P Require Import Prelude.
From stdpp Require Import base gmap strings list.

(** The serialised form of a value the code never looks into; quantities inside it
    are written as [amount]s. *)
Abbreviation opaque := string (only parsing).

(** A [resource.Quantity] of a container's resources: one text per amount, so that
    the quantities that [Quantity.Cmp] equates ([1Gi] and [1073741824]) are equal, as
    they are for [equality.Semantic].  The unit it was written in is not kept: the
    code only compares and copies these quantities. *)
Abbreviation amount := string (only parsing).

(** ** metav1 *)

Record OwnerReference := mkOwnerReference {
  owner_APIVersion : string;
  owner_Kind : string;
  owner_Name : string;
  owner_UID : string;
  owner_Controller : option bool;
}.

Record ObjectMeta := mkObjectMeta {
  meta_Name : string;
  meta_GenerateName : string;
  meta_Namespace : string;
  meta_UID : string;
  meta_ResourceVersion : string;
  meta_Generation : Z;
  meta_CreationTimestamp : Z;
  meta_DeletionTimestamp : option Z;
  meta_Labels : gomap;
  meta_Annotations : gomap;
  meta_OwnerReferences : list OwnerReference;
  meta_Finalizers : list string;
}.

(** The zero [ObjectMeta]. *)
Definition emptyMeta : ObjectMeta := mkObjectMeta "" "" "" "" "" 0 0 None None None [] [].

(** An [ObjectMeta] literal with a name, namespace and labels. *)
Definition namedMeta (name ns : string) (labels : gmap string string) : ObjectMeta :=
  mkObjectMeta name "" ns "" "" 0 0 None (Some labels) None [] [].

(** An [ObjectMeta] literal with a [GenerateName] prefix. *)
Definition generatedMeta (prefix ns : string) (annotations : gomap)
    (labels : gmap string string) : ObjectMeta :=
  mkObjectMeta "" prefix ns "" "" 0 0 None (Some labels) annotations [] [].

Definition setLabels (m : ObjectMeta) (l : gomap) : ObjectMeta :=
  mkObjectMeta (meta_Name m) (meta_GenerateName m) (meta_Namespace m) (meta_UID m)
    (meta_ResourceVersion m) (meta_Generation m) (meta_CreationTimestamp m)
    (meta_DeletionTimestamp m)
    l (meta_Annotations m) (meta_OwnerReferences m) (meta_Finalizers m).

Definition setAnnotations (m : ObjectMeta) (a : gomap) : ObjectMeta :=
  mkObjectMeta (meta_Name m) (meta_GenerateName m) (meta_Namespace m) (meta_UID m)
    (meta_ResourceVersion m) (meta_Generation m) (meta_CreationTimestamp m)
    (meta_DeletionTimestamp m)
    (meta_Labels m) a (meta_OwnerReferences m) (meta_Finalizers m).

Definition setOwners (m : ObjectMeta) (o : list OwnerReference) : ObjectMeta :=
  mkObjectMeta (meta_Name m) (meta_GenerateName m) (meta_Namespace m) (meta_UID m)
    (meta_ResourceVersion m) (meta_Generation m) (meta_CreationTimestamp m)
    (meta_DeletionTimestamp m)
    (meta_Labels m) (meta_Annotations m) o (meta_Finalizers m).

Definition setFinalizers (m : ObjectMeta) (f : list string) : ObjectMeta :=
  mkObjectMeta (meta_Name m) (meta_GenerateName m) (meta_Namespace m) (meta_UID m)
    (meta_ResourceVersion m) (meta_Generation m) (meta_CreationTimestamp m)
    (meta_DeletionTimestamp m)
    (meta_Labels m) (meta_Annotations m) (meta_OwnerReferences m) f.

(** [metav1.LabelSelector], as data; what it selects is the selector library's. *)
Record LabelSelectorRequirement := mkLabelSelectorRequirement {
  req_Key : string;
  req_Operator : string;
  req_Values : list string;
}.

Record LabelSelector := mkLabelSelector {
  sel_MatchLabels : gmap string string;
  sel_MatchExpressions : list LabelSelectorRequirement;
}.

(** The label selector library ([metav1.LabelSelectorAsSelector],
    [labels.Selector.Matches], [metav1.FormatLabelSelector]). *)
Class SelectorLib := {
  Selector : Type;
  LabelSelectorAsSelector : LabelSelector → Selector + error;
  Matches : Selector → gmap string string → bool;
  FormatLabelSelector : LabelSelector → string;
}.

(** Its documented behaviour: the formatted form is the string form of the compiled
    selector, so selectors with the same form are both invalid or match alike. *)
Class SelectorLibLaws `{SelectorLib} : Prop :=
  format_faithful s1 s2 :
    FormatLabelSelector s1 = FormatLabelSelector s2 →
    match LabelSelectorAsSelector s1, LabelSelectorAsSelector s2 with
    | inl c1, inl c2 => ∀ l, Matches c1 l = Matches c2 l
    | inr _, inr _ => True
    | _, _ => False
    end.

(** ** corev1: containers, pods, volumes *)

Record HTTPGetAction := mkHTTPGetAction {
  httpGet_Path : string;
  httpGet_Port : Z;
  httpGet_Scheme : string;
}.

Record Probe := mkProbe {
  probe_HTTPGet : option HTTPGetAction;
  probe_InitialDelaySeconds : Z;
  probe_TimeoutSeconds : Z;
  probe_PeriodSeconds : Z;
  probe_SuccessThreshold : Z;
  probe_FailureThreshold : Z;
  probe_Rest : opaque;
}.

Record SecurityContext := mkSecurityContext {
  sc_AllowPrivilegeEscalation : option bool;
  sc_ReadOnlyRootFilesystem : option bool;
  sc_RunAsNonRoot : option bool;
  sc_CapabilitiesDrop : list string;
  sc_Rest : opaque;
}.

Record ResourceRequirements := mkResourceRequirements {
  rr_Requests : gmap string amount;
  rr_Limits : gmap string amount;
}.

Record EnvVar := mkEnvVar {
  env_Name : string;
  env_Value : string;
  env_ValueFrom : option opaque;
}.

Record ContainerPort := mkContainerPort {
  cport_Name : string;
  cport_ContainerPort : Z;
  cport_Protocol : string;
}.

Record VolumeMount := mkVolumeMount {
  vm_Name : string;
  vm_MountPath : string;
  vm_ReadOnly : bool;
  vm_Rest : opaque;
}.

Inductive VolumeSource :=
| VolumePVC (claimName : string) (readOnly : bool)
| VolumeSecret (secretName : string) (defaultMode : option Z)
| VolumeConfigMap (name : string)
| VolumeOther (raw : opaque).

Record Volume := mkVolume {
  vol_Name : string;
  vol_Source : VolumeSource;
}.

Record Container := mkContainer {
  ctr_Name : string;
  ctr_Image : string;
  ctr_ImagePullPolicy : string;
  ctr_Args : list string;
  ctr_Ports : list ContainerPort;
  ctr_ReadinessProbe : option Probe;
  ctr_LivenessProbe : option Probe;
  ctr_StartupProbe : option Probe;
  ctr_SecurityContext : option SecurityContext;
  ctr_VolumeMounts : list VolumeMount;
  ctr_Env : list EnvVar;
  ctr_Resources : ResourceRequirements;
}.

Record PodSpec := mkPodSpec {
  pspec_Affinity : option opaque;
  pspec_Containers : list Container;
  pspec_NodeSelector : gmap string string;
  pspec_SchedulerName : string;
  pspec_SecurityContext : option opaque;
  pspec_ServiceAccountName : string;
  pspec_Tolerations : list opaque;
  pspec_Volumes : list Volume;
}.

Record PodTemplateSpec := mkPodTemplateSpec {
  ptpl_Labels : gmap string string;
  ptpl_Annotations : gmap string string;
  ptpl_Spec : PodSpec;
}.

Record StatefulSetSpec := mkStatefulSetSpec {
  stsSpec_Replicas : option Z;
  stsSpec_Selector : gmap string string;  (** [selector.matchLabels] *)
  stsSpec_Template : PodTemplateSpec;
  stsSpec_Rest : opaque;
}.

Record StatefulSet := mkStatefulSet {
  sts_Meta : ObjectMeta;
  sts_Spec : StatefulSetSpec;
}.

Record PodCondition := mkPodCondition {
  cond_Type : string;
  cond_Status : string;
  cond_Reason : string;
  cond_Message : string;
}.

(** The zero [PodCondition]. *)
Definition emptyCondition : PodCondition := mkPodCondition "" "" "" "".

Record ContainerStatus := mkContainerStatus {
  cstat_Name : string;
  cstat_WaitingReason : option string;  (** [state.waiting.reason], None when [waiting] is nil *)
  cstat_LastTerminated : bool;  (** [lastTerminationState.terminated] is not nil *)
}.

(** A container of [spec.containers]: its name and its [resources], which are only
    passed on. *)
Record PodContainer := mkPodContainer {
  pc_Name : string;
  pc_Resources : opaque;
}.

(** A [Pod] as read from the cluster. *)
Record Pod := mkPod {
  pod_Meta : ObjectMeta;
  pod_NodeName : string;
  pod_Containers : list PodContainer;
  pod_InitContainers : list string;  (** names of [spec.initContainers] *)
  pod_Volumes : list (option string);  (** [persistentVolumeClaim.claimName] of the volumes *)
  pod_Phase : string;
  pod_PodIP : string;
  pod_Conditions : list PodCondition;
  pod_ContainerStatuses : list ContainerStatus;
  pod_InitContainerStatuses : list ContainerStatus;
}.

Record Event := mkEvent {
  ev_InvolvedUID : string;
  ev_Type : string;
  ev_LastTimestamp : Z;
  ev_Message : string;
}.

(** ** corev1: services, service accounts, config maps, namespaces *)

(** [intstr.IntOrString]. *)
Inductive IntOrString := FromInt32 (n : Z) | FromString (s : string).

Record ServicePort := mkServicePort {
  sport_Name : string;
  sport_Port : Z;
  sport_TargetPort : IntOrString;
  sport_Protocol : string;
}.

Record ServiceSpec := mkServiceSpec {
  svcSpec_Ports : list ServicePort;
  svcSpec_Selector : gmap string string;
  svcSpec_Type : string;
  svcSpec_ClusterIP : string;
}.

Record Service := mkService {
  svc_Meta : ObjectMeta;
  svc_Spec : ServiceSpec;
}.

Record ServiceAccount := mkServiceAccount { sa_Meta : ObjectMeta }.

Record ConfigMap := mkConfigMap {
  cm_Meta : ObjectMeta;
  cm_Data : gmap string string;
  cm_BinaryData : gmap string string;
}.

Record Namespace := mkNamespace { nsObj_Meta : ObjectMeta }.

(** ** corev1 and storagev1: what Workspaces mount *)

(** The values of [data] are bytes. *)
Record Secret := mkSecret {
  secret_Meta : ObjectMeta;
  secret_Type : string;
  secret_Immutable : option bool;
  secret_Data : gmap string string;
}.

(** [metav1.PartialObjectMetadata]: an object of which only the metadata is read. *)
Record PartialObjectMetadata := mkPartialObjectMetadata { pom_Meta : ObjectMeta }.

Record PersistentVolumeClaimSpec := mkPVCSpec {
  pvcSpec_AccessModes : list string;
  pvcSpec_VolumeName : string;
  pvcSpec_StorageClassName : option string;
  pvcSpec_VolumeMode : option string;
  pvcSpec_Storage : option opaque;  (** the quantity [resources.requests.storage] *)
}.

Record PersistentVolumeClaim := mkPVC {
  pvc_Meta : ObjectMeta;
  pvc_Spec : PersistentVolumeClaimSpec;
}.

Record PersistentVolume := mkPV {
  pv_Meta : ObjectMeta;
  pv_ReclaimPolicy : string;
  pv_VolumeMode : option string;
  pv_AccessModes : list string;
}.

Record StorageClass := mkStorageClass { sc_Meta : ObjectMeta }.

(** ** metricsv1beta1 *)

(** The usage of one container: quantities by resource name. *)
Record ContainerMetrics := mkContainerMetrics {
  cmx_Name : string;
  cmx_Usage : gmap string opaque;
}.

Record PodMetrics := mkPodMetrics {
  pmx_Timestamp : Z;
  pmx_Containers : list ContainerMetrics;
}.

(** ** authenticationv1 and the API server's authorizer *)

(** [user.Info]. *)
Record UserInfo := mkUserInfo {
  user_Name : string;
  user_UID : string;
  user_Groups : list string;
  user_Extra : gmap string (list string);
}.

(** [status] of a [TokenReview]. *)
Record TokenReviewStatus := mkTokenReviewStatus {
  trs_Authenticated : bool;
  trs_User : UserInfo;
}.

(** [authorizer.AttributesRecord], with the fields the code sets. *)
Record Attributes := mkAttributes {
  attr_User : UserInfo;
  attr_Verb : string;
  attr_Namespace : string;
  attr_APIGroup : string;
  attr_APIVersion : string;
  attr_Resource : string;
  attr_Subresource : string;
  attr_Name : string;
  attr_ResourceRequest : bool;
}.

(** [authorizer.Decision]. *)
Inductive AuthorizerDecision := DecisionDeny | DecisionAllow | DecisionNoOpinion.

(** ** rbacv1 *)

Record RoleRef := mkRoleRef {
  rref_APIGroup : string;
  rref_Kind : string;
  rref_Name : string;
}.

Record Subject := mkSubject {
  subj_Kind : string;
  subj_Name : string;
  subj_Namespace : string;
}.

Record RoleBinding := mkRoleBinding {
  rb_Meta : ObjectMeta;
  rb_RoleRef : RoleRef;
  rb_Subjects : list Subject;
}.

Record ClusterRoleBinding := mkClusterRoleBinding {
  crb_Meta : ObjectMeta;
  crb_RoleRef : RoleRef;
  crb_Subjects : list Subject;
}.

(** ** Istio VirtualService *)

Record HeaderOperations := mkHeaderOperations {
  hdr_Set : gmap string string;
  hdr_Add : gmap string string;
  hdr_Remove : list string;
}.

Record IstioHTTPRoute := mkIstioHTTPRoute {
  iroute_Headers : option HeaderOperations;
  iroute_RewriteUri : option string;
  iroute_MatchUriPrefix : string;
  iroute_DestinationHost : string;
  iroute_DestinationPort : Z;
}.

Record VirtualServiceSpec := mkVirtualServiceSpec {
  vsSpec_Gateways : list string;
  vsSpec_Hosts : list string;
  vsSpec_Http : list IstioHTTPRoute;
}.

Record VirtualService := mkVirtualService {
  vs_Meta : ObjectMeta;
  vs_Spec : VirtualServiceSpec;
}.

(** ** Gateway API *)

Record HTTPRouteSpec := mkHTTPRouteSpec {
  hrSpec_ParentName : string;
  hrSpec_ParentNamespace : string;
  hrSpec_PathPrefix : string;
  hrSpec_BackendName : string;
  hrSpec_BackendNamespace : string;
  hrSpec_BackendPort : Z;
}.

Record HTTPRoute := mkHTTPRoute {
  hr_Meta : ObjectMeta;
  hr_Spec : HTTPRouteSpec;
}.

Record ReferenceGrantSpec := mkReferenceGrantSpec {
  rgSpec_FromGroup : string;
  rgSpec_FromKind : string;
  rgSpec_FromNamespace : string;
  rgSpec_ToGroup : string;
  rgSpec_ToKind : string;
  rgSpec_ToName : option string;
}.

Record ReferenceGrant := mkReferenceGrant {
  rg_Meta : ObjectMeta;
  rg_Spec : ReferenceGrantSpec;
}.

(** ** Decidable equality ([DeepEqual]) *)

#[global] Instance OwnerReference_eq_dec : EqDecision OwnerReference.
Proof. solve_decision. Defined.
#[global] Instance ObjectMeta_eq_dec : EqDecision ObjectMeta.
Proof. solve_decision. Defined.
#[global] Instance LabelSelectorRequirement_eq_dec : EqDecision LabelSelectorRequirement.
Proof. solve_decision. Defined.
#[global] Instance LabelSelector_eq_dec : EqDecision LabelSelector.
Proof. solve_decision. Defined.
#[global] Instance HTTPGetAction_eq_dec : EqDecision HTTPGetAction.
Proof. solve_decision. Defined.
#[global] Instance Probe_eq_dec : EqDecision Probe.
Proof. solve_decision. Defined.
#[global] Instance SecurityContext_eq_dec : EqDecision SecurityContext.
Proof. solve_decision. Defined.
#[global] Instance ResourceRequirements_eq_dec : EqDecision ResourceRequirements.
Proof. solve_decision. Defined.
#[global] Instance EnvVar_eq_dec : EqDecision EnvVar.
Proof. solve_decision. Defined.
#[global] Instance ContainerPort_eq_dec : EqDecision ContainerPort.
Proof. solve_decision. Defined.
#[global] Instance VolumeMount_eq_dec : EqDecision VolumeMount.
Proof. solve_decision. Defined.
#[global] Instance VolumeSource_eq_dec : EqDecision VolumeSource.
Proof. solve_decision. Defined.
#[global] Instance Volume_eq_dec : EqDecision Volume.
Proof. solve_decision. Defined.
#[global] Instance Container_eq_dec : EqDecision Container.
Proof. solve_decision. Defined.
#[global] Instance PodSpec_eq_dec : EqDecision PodSpec.
Proof. solve_decision. Defined.
#[global] Instance PodTemplateSpec_eq_dec : EqDecision PodTemplateSpec.
Proof. solve_decision. Defined.
#[global] Instance IntOrString_eq_dec : EqDecision IntOrString.
Proof. solve_decision. Defined.
#[global] Instance ServicePort_eq_dec : EqDecision ServicePort.
Proof. solve_decision. Defined.
#[global] Instance RoleRef_eq_dec : EqDecision RoleRef.
Proof. solve_decision. Defined.
#[global] Instance Subject_eq_dec : EqDecision Subject.
Proof. solve_decision. Defined.
#[global] Instance HeaderOperations_eq_dec : EqDecision HeaderOperations.
Proof. solve_decision. Defined.
#[global] Instance IstioHTTPRoute_eq_dec : EqDecision IstioHTTPRoute.
Proof. solve_decision. Defined.
#[global] Instance VirtualServiceSpec_eq_dec : EqDecision VirtualServiceSpec.
Proof. solve_decision. Defined.
#[global] Instance HTTPRouteSpec_eq_dec : EqDecision HTTPRouteSpec.
Proof. solve_decision. Defined.
#[global] Instance ReferenceGrantSpec_eq_dec : EqDecision ReferenceGrantSpec.
Proof. solve_decision. Defined.

(** ** Owner references and finalizers (controller-runtime) *)

(** [metav1.GetControllerOf]: the owner reference that is the controller. *)
Definition GetControllerOf (m : ObjectMeta) : option OwnerReference :=
  list_find (λ o, owner_Controller o = Some true) (meta_OwnerReferences m) ≫= λ p, Some p.2.

(** [controllerutil.ContainsFinalizer]. *)
Definition ContainsFinalizer (m : ObjectMeta) (f : string) : bool :=
  bool_decide (f ∈ meta_Finalizers m).

(** [controllerutil.AddFinalizer]. *)
Definition AddFinalizer (m : ObjectMeta) (f : string) : ObjectMeta :=
  if ContainsFinalizer m f then m else setFinalizers m (meta_Finalizers m ++ [f]).

(** [controllerutil.RemoveFinalizer]: drops every occurrence. *)
Definition RemoveFinalizer (m : ObjectMeta) (f : string) : ObjectMeta :=
  setFinalizers m (filter (λ x, x ≠ f) (meta_Finalizers m)).

Lemma RemoveFinalizer_gone m f : ContainsFinalizer (RemoveFinalizer m f) f = false.
Proof. apply bool_decide_eq_false. simpl. rewrite list_elem_of_filter. tauto. Qed.

Lemma RemoveFinalizer_other m f g :
  f ≠ g → ContainsFinalizer (RemoveFinalizer m f) g = ContainsFinalizer m g.
Proof.
  intros Hne. apply bool_decide_ext. simpl. rewrite list_elem_of_filter. naive_solver.
Qed.

Lemma AddFinalizer_present m f : ContainsFinalizer (AddFinalizer m f) f = true.
Proof.
  unfold AddFinalizer. destruct (ContainsFinalizer m f) eqn:Hf; [done|].
  apply bool_decide_eq_true. simpl. set_solver.
Qed.
