(* ===== verification/ApiTypes.v ===== *)
(** * The Workspace and WorkspaceKind custom resources

    The data model of [workspaces/controller/api/v1beta1]: one record per Go
    struct, with the source's field names behind a prefix for the struct.
    Pointers are [option]; [int32] and [int64] fields are [Z]; enumerations of
    strings are inductive types. *)

From S2P Require Import Prelude K8sTypes.
From stdpp Require Import base gmap strings list.

(** ** Workspace: spec ([workspace_types.go]) *)

Record WorkspacePodMetadata := mkWorkspacePodMetadata {
  wpm_Labels : gmap string string;
  wpm_Annotations : gmap string string;
}.

Record PodVolumeMount := mkPodVolumeMount {
  pvm_PVCName : string;
  pvm_MountPath : string;
  pvm_ReadOnly : option bool;
}.

Record PodSecretMount := mkPodSecretMount {
  psm_SecretName : string;
  psm_MountPath : string;
  psm_DefaultMode : Z;
}.

Record WorkspacePodVolumes := mkWorkspacePodVolumes {
  wpv_Home : option string;
  wpv_Data : list PodVolumeMount;
  wpv_Secrets : list PodSecretMount;
}.

Record WorkspacePodOptions := mkWorkspacePodOptions {
  wpo_ImageConfig : string;
  wpo_PodConfig : string;
}.

Record WorkspacePodTemplate := mkWorkspacePodTemplate {
  wpt_PodMetadata : option WorkspacePodMetadata;
  wpt_Volumes : WorkspacePodVolumes;
  wpt_Options : WorkspacePodOptions;
}.

Record WorkspaceSpec := mkWorkspaceSpec {
  wsSpec_Paused : bool;
  wsSpec_DisplayName : option string;
  wsSpec_Kind : string;
  wsSpec_PodTemplate : WorkspacePodTemplate;
}.

(** ** Workspace: status *)

(** [WorkspaceStateUnset] is the empty string of a status never written. *)
Inductive WorkspaceState :=
| WorkspaceStateRunning
| WorkspaceStateTerminating
| WorkspaceStatePaused
| WorkspaceStatePending
| WorkspaceStateError
| WorkspaceStateUnknown
| WorkspaceStateUnset.

Inductive WorkspaceProbeResult :=
| WorkspaceProbeResultSuccess
| WorkspaceProbeResultFailure
| WorkspaceProbeResultTimeout.

Record WorkspaceActivityLastProbe := mkLastProbe {
  lp_StartTime : Z;
  lp_EndTime : Z;
  lp_Result : WorkspaceProbeResult;
  lp_Message : string;
}.

Record WorkspaceActivityPauseRule := mkPauseRule { pr_EligibleAfter : Z }.

Record WorkspaceActivityRules := mkActivityRules {
  ar_PauseWorkspace : option WorkspaceActivityPauseRule;
}.

Record WorkspaceActivity := mkWorkspaceActivity {
  act_LastActivity : Z;
  act_LastUpdate : Z;
  act_LastProbe : option WorkspaceActivityLastProbe;
  act_Rules : option WorkspaceActivityRules;
}.

(** The zero [WorkspaceActivity]. *)
Definition emptyActivity : WorkspaceActivity := mkWorkspaceActivity 0 0 None None.

Record WorkspacePodOptionRedirectStep := mkRedirectStep {
  step_Source : string;
  step_Target : string;
}.

Record WorkspacePodOptionInfo := mkPodOptionInfo {
  poi_Desired : string;
  poi_RedirectChain : list WorkspacePodOptionRedirectStep;
}.

Record WorkspacePodOptionsStatus := mkPodOptionsStatus {
  pos_ImageConfig : WorkspacePodOptionInfo;
  pos_PodConfig : WorkspacePodOptionInfo;
}.

Record WorkspacePodContainer := mkWorkspacePodContainer { wpc_Name : string }.

Record WorkspacePodStatus := mkWorkspacePodStatus {
  wps_Name : string;
  wps_NodeName : string;
  wps_ServiceAccountName : string;
  wps_Containers : list WorkspacePodContainer;
  wps_InitContainers : list WorkspacePodContainer;
}.

Record WorkspaceStatus := mkWorkspaceStatus {
  st_Activity : WorkspaceActivity;
  st_LastRunningTime : Z;
  st_PauseTime : Z;
  st_PendingRestart : bool;
  st_PodTemplateOptions : WorkspacePodOptionsStatus;
  st_PodTemplatePod : WorkspacePodStatus;
  st_State : WorkspaceState;
  st_StateMessage : string;
}.

Record Workspace := mkWorkspace {
  ws_Meta : ObjectMeta;
  ws_Spec : WorkspaceSpec;
  ws_Status : WorkspaceStatus;
}.

Definition ws_Name (w : Workspace) : string := meta_Name (ws_Meta w).
Definition ws_Namespace (w : Workspace) : string := meta_Namespace (ws_Meta w).

(** Assignments to [workspace.Status] and to its fields. *)
Definition ws_setStatus (w : Workspace) (s : WorkspaceStatus) : Workspace :=
  mkWorkspace (ws_Meta w) (ws_Spec w) s.
Definition ws_setMeta (w : Workspace) (m : ObjectMeta) : Workspace :=
  mkWorkspace m (ws_Spec w) (ws_Status w).
Definition ws_setPaused (w : Workspace) (b : bool) : Workspace :=
  mkWorkspace (ws_Meta w)
    (mkWorkspaceSpec b (wsSpec_DisplayName (ws_Spec w)) (wsSpec_Kind (ws_Spec w))
       (wsSpec_PodTemplate (ws_Spec w))) (ws_Status w).
Definition st_setActivity (s : WorkspaceStatus) (a : WorkspaceActivity) : WorkspaceStatus :=
  mkWorkspaceStatus a (st_LastRunningTime s) (st_PauseTime s) (st_PendingRestart s)
    (st_PodTemplateOptions s) (st_PodTemplatePod s) (st_State s) (st_StateMessage s).
Definition st_setLastRunningTime (s : WorkspaceStatus) (t : Z) : WorkspaceStatus :=
  mkWorkspaceStatus (st_Activity s) t (st_PauseTime s) (st_PendingRestart s)
    (st_PodTemplateOptions s) (st_PodTemplatePod s) (st_State s) (st_StateMessage s).
Definition st_setPauseTime (s : WorkspaceStatus) (t : Z) : WorkspaceStatus :=
  mkWorkspaceStatus (st_Activity s) (st_LastRunningTime s) t (st_PendingRestart s)
    (st_PodTemplateOptions s) (st_PodTemplatePod s) (st_State s) (st_StateMessage s).
Definition st_setPendingRestart (s : WorkspaceStatus) (b : bool) : WorkspaceStatus :=
  mkWorkspaceStatus (st_Activity s) (st_LastRunningTime s) (st_PauseTime s) b
    (st_PodTemplateOptions s) (st_PodTemplatePod s) (st_State s) (st_StateMessage s).
Definition st_setPodTemplateOptions (s : WorkspaceStatus) (o : WorkspacePodOptionsStatus)
    : WorkspaceStatus :=
  mkWorkspaceStatus (st_Activity s) (st_LastRunningTime s) (st_PauseTime s)
    (st_PendingRestart s) o (st_PodTemplatePod s) (st_State s) (st_StateMessage s).
Definition st_setPodTemplatePod (s : WorkspaceStatus) (p : WorkspacePodStatus)
    : WorkspaceStatus :=
  mkWorkspaceStatus (st_Activity s) (st_LastRunningTime s) (st_PauseTime s)
    (st_PendingRestart s) (st_PodTemplateOptions s) p (st_State s) (st_StateMessage s).
Definition st_setState (s : WorkspaceStatus) (st : WorkspaceState) (msg : string)
    : WorkspaceStatus :=
  mkWorkspaceStatus (st_Activity s) (st_LastRunningTime s) (st_PauseTime s)
    (st_PendingRestart s) (st_PodTemplateOptions s) (st_PodTemplatePod s) st msg.

(** ** WorkspaceKind: spec ([workspacekind_types.go]) *)

Definition DefaultProbeIntervalSeconds : Z := 3600.
Definition DefaultMinProbeIntervalSeconds : Z := 300.
Definition DefaultPodExecTimeoutSeconds : Z := 60.

Abbreviation PortId := string (only parsing).

Record NamespaceMatch := mkNamespaceMatch { nsm_Selector : LabelSelector }.
Record PodConfigMatch := mkPodConfigMatch { pcm_Selector : LabelSelector }.

Record ActivityRuleConfig := mkActivityRuleConfig {
  arc_SecondsSinceActive : Z;
  arc_MinRunningSeconds : option Z;
}.

Record ActivityRuleMatch := mkActivityRuleMatch {
  arm_MatchNamespace : option NamespaceMatch;
  arm_MatchPodConfig : option PodConfigMatch;
}.

Record ActivityRuleEffect := mkActivityRuleEffect { are_PauseWorkspace : option bool }.

Record ActivityRule := mkActivityRule {
  rule_Config : ActivityRuleConfig;
  rule_Match : option ActivityRuleMatch;
  rule_Effect : ActivityRuleEffect;
}.

Record WorkspaceKindAssetConfigMap := mkAssetConfigMap {
  acm_Name : string;
  acm_Namespace : string;
  acm_Key : string;
  acm_MediaType : string;
}.

Record WorkspaceKindAsset := mkAsset {
  asset_Url : option string;
  asset_ConfigMap : option WorkspaceKindAssetConfigMap;
}.

Record WorkspaceKindSpawner := mkSpawner {
  spawner_DisplayName : string;
  spawner_Description : string;
  spawner_Hidden : option bool;
  spawner_Deprecated : option bool;
  spawner_DeprecationMessage : option string;
  spawner_Icon : WorkspaceKindAsset;
  spawner_Logo : WorkspaceKindAsset;
}.

Record IstioHeaderOperations := mkIstioHeaderOperations {
  iho_Set : gmap string string;
  iho_Add : gmap string string;
  iho_Remove : list string;
}.

Record HTTPProxy := mkHTTPProxy {
  hp_RemovePathPrefix : option bool;
  hp_RequestHeaders : option IstioHeaderOperations;
}.

(** The protocol of a port; the only declared value is ["HTTP"]. *)
Abbreviation ImagePortProtocol := string (only parsing).
Definition ImagePortProtocolHTTP : ImagePortProtocol := "HTTP".

Record WorkspaceKindPort := mkKindPort {
  kport_Id : PortId;
  kport_Protocol : ImagePortProtocol;
  kport_DefaultDisplayName : string;
  kport_HTTPProxy : option HTTPProxy;
}.

Record WorkspaceKindPodMetadata := mkKindPodMetadata {
  kpm_Labels : gmap string string;
  kpm_Annotations : gmap string string;
}.

Record WorkspaceKindStatefulSetMetadata := mkKindStatefulSetMetadata {
  ksm_Labels : gmap string string;
  ksm_Annotations : gmap string string;
}.

Record WorkspaceKindClusterRole := mkClusterRole { kcr_Name : string }.

Record WorkspaceKindServiceAccount := mkKindServiceAccount {
  ksa_ClusterRoles : list WorkspaceKindClusterRole;
}.

Record ActivityProbePodExec := mkPodExec {
  pe_TimeoutSeconds : option Z;
  pe_Script : string;
}.

Record ActivityProbeJupyter := mkJupyter {
  jup_LastActivity : bool;
  jup_PortId : PortId;
}.

Record ActivityProbe := mkActivityProbe {
  ap_MinProbeIntervalSeconds : option Z;
  ap_ProbeIntervalSeconds : option Z;
  ap_PodExec : option ActivityProbePodExec;
  ap_Jupyter : option ActivityProbeJupyter;
}.

Record WorkspaceKindProbes := mkKindProbes {
  kp_StartupProbe : option Probe;
  kp_LivenessProbe : option Probe;
  kp_ReadinessProbe : option Probe;
}.

Record WorkspaceKindVolumeMounts := mkKindVolumeMounts { kvm_Home : string }.

Record OptionsSpawnerConfig := mkOptionsSpawnerConfig { osc_Default : string }.

Record OptionSpawnerLabel := mkSpawnerLabel {
  osl_Key : string;
  osl_Value : string;
}.

Record OptionSpawnerInfo := mkSpawnerInfo {
  osi_DisplayName : string;
  osi_Description : option string;
  osi_Labels : list OptionSpawnerLabel;
  osi_Hidden : option bool;
}.

Inductive RedirectMessageLevel :=
| RedirectMessageLevelInfo
| RedirectMessageLevelWarning
| RedirectMessageLevelDanger.

Record RedirectMessage := mkRedirectMessage {
  rm_Level : RedirectMessageLevel;
  rm_Text : string;
}.

Record OptionRedirect := mkRedirect {
  redir_To : string;
  redir_Message : option RedirectMessage;
}.

Record ImagePort := mkImagePort {
  iport_Id : PortId;
  iport_Port : Z;
  iport_DisplayName : option string;
}.

Record ImageConfigSpec := mkImageConfigSpec {
  ics_Image : string;
  ics_ImagePullPolicy : option string;
  ics_Ports : list ImagePort;
}.

Record ImageConfigValue := mkImageConfigValue {
  icv_Id : string;
  icv_Spawner : OptionSpawnerInfo;
  icv_Redirect : option OptionRedirect;
  icv_Spec : ImageConfigSpec;
}.

Record ImageConfig := mkImageConfig {
  ic_Spawner : OptionsSpawnerConfig;
  ic_Values : list ImageConfigValue;
}.

Record PodConfigSpec := mkPodConfigSpec {
  pcs_Affinity : option opaque;
  pcs_NodeSelector : gmap string string;
  pcs_Tolerations : list opaque;
  pcs_Resources : option ResourceRequirements;
  pcs_SchedulerName : option string;
}.

Record PodConfigValue := mkPodConfigValue {
  pcv_Id : string;
  pcv_Spawner : OptionSpawnerInfo;
  pcv_Redirect : option OptionRedirect;
  pcv_Spec : PodConfigSpec;
}.

Record PodConfig := mkPodConfig {
  pc_Spawner : OptionsSpawnerConfig;
  pc_Values : list PodConfigValue;
}.

Record WorkspaceKindPodOptions := mkKindPodOptions {
  kpo_ImageConfig : ImageConfig;
  kpo_PodConfig : PodConfig;
}.

Record WorkspaceKindPodTemplate := mkKindPodTemplate {
  kpt_PodMetadata : option WorkspaceKindPodMetadata;
  kpt_StatefulSetMetadata : option WorkspaceKindStatefulSetMetadata;
  kpt_ServiceAccount : option WorkspaceKindServiceAccount;
  kpt_ActivityProbe : option ActivityProbe;
  kpt_Probes : option WorkspaceKindProbes;
  kpt_VolumeMounts : WorkspaceKindVolumeMounts;
  kpt_Ports : list WorkspaceKindPort;
  kpt_ExtraEnv : list EnvVar;
  kpt_ExtraVolumeMounts : list VolumeMount;
  kpt_ExtraVolumes : list Volume;
  kpt_SecurityContext : option opaque;
  kpt_ContainerSecurityContext : option SecurityContext;
  kpt_SchedulerName : option string;
  kpt_Options : WorkspaceKindPodOptions;
}.

(** ** WorkspaceKind: filter rules *)

Inductive FilterRuleScope :=
| FilterRuleScopeWorkspaceKind
| FilterRuleScopePodConfig
| FilterRuleScopeImageConfig.

Record FilterRuleEffectUI := mkFilterEffectUI { feu_Hide : bool }.

Record FilterRuleDenyMessage := mkDenyMessage { fdm_Text : string }.

Record FilterRuleEffectAPI := mkFilterEffectAPI {
  fea_Hide : option bool;
  fea_Deny : option bool;
  fea_DenyMessage : option FilterRuleDenyMessage;
}.

Record FilterRuleEffect := mkFilterEffect {
  fre_UI : option FilterRuleEffectUI;
  fre_API : option FilterRuleEffectAPI;
}.

Record FilterRuleSelector := mkFilterSelector { frs_Selector : LabelSelector }.

Record FilterRuleMatch := mkFilterMatch {
  frm_MatchNamespace : option FilterRuleSelector;
  frm_MatchImageConfig : option FilterRuleSelector;
  frm_MatchPodConfig : option FilterRuleSelector;
}.

Record FilterRule := mkFilterRule {
  fr_Scope : FilterRuleScope;
  fr_Effect : FilterRuleEffect;
  fr_Match : list FilterRuleMatch;
}.

Record WorkspaceKindSpec := mkKindSpec {
  kspec_Spawner : WorkspaceKindSpawner;
  kspec_PodTemplate : WorkspaceKindPodTemplate;
  kspec_ActivityRules : list ActivityRule;
  kspec_FilterRules : list FilterRule;
}.

(** ** WorkspaceKind: status *)

Inductive ConfigMapError :=
| ConfigMapErrorNotFound
| ConfigMapErrorKeyNotFound
| ConfigMapErrorOther.

Record WorkspaceKindAssetConfigMapStatus := mkAssetConfigMapStatus {
  acs_Error : option ConfigMapError;
  acs_ErrorMessage : option string;
}.

Record ImageAssetStatus := mkImageAssetStatus {
  ias_Sha256 : string;
  ias_ConfigMap : option WorkspaceKindAssetConfigMapStatus;
}.

Record OptionMetric := mkOptionMetric {
  om_Id : string;
  om_Workspaces : Z;
}.

Record PodTemplateOptionsMetrics := mkOptionsMetrics {
  ptom_ImageConfig : list OptionMetric;
  ptom_PodConfig : list OptionMetric;
}.

Record WorkspaceKindStatus := mkKindStatus {
  kst_Workspaces : Z;
  kst_PodTemplateOptions : PodTemplateOptionsMetrics;
  kst_SpawnerIcon : ImageAssetStatus;
  kst_SpawnerLogo : ImageAssetStatus;
}.

Record WorkspaceKind := mkWorkspaceKind {
  wsk_Meta : ObjectMeta;
  wsk_Spec : WorkspaceKindSpec;
  wsk_Status : WorkspaceKindStatus;
}.

Definition wsk_Name (k : WorkspaceKind) : string := meta_Name (wsk_Meta k).

(** [workspaceKind.Spec.PodTemplate] and its options, which nearly every
    function starts from. *)
Definition wsk_PodTemplate (k : WorkspaceKind) : WorkspaceKindPodTemplate :=
  kspec_PodTemplate (wsk_Spec k).
Definition wsk_ImageValues (k : WorkspaceKind) : list ImageConfigValue :=
  ic_Values (kpo_ImageConfig (kpt_Options (wsk_PodTemplate k))).
Definition wsk_PodValues (k : WorkspaceKind) : list PodConfigValue :=
  pc_Values (kpo_PodConfig (kpt_Options (wsk_PodTemplate k))).

(** [workspace.Spec.PodTemplate.Options]. *)
Definition ws_Options (w : Workspace) : WorkspacePodOptions :=
  wpt_Options (wsSpec_PodTemplate (ws_Spec w)).

(** ** Decidable equality *)

#[global] Instance WorkspaceState_eq_dec : EqDecision WorkspaceState.
Proof. solve_decision. Defined.
#[global] Instance WorkspaceProbeResult_eq_dec : EqDecision WorkspaceProbeResult.
Proof. solve_decision. Defined.
#[global] Instance LastProbe_eq_dec : EqDecision WorkspaceActivityLastProbe.
Proof. solve_decision. Defined.
#[global] Instance PauseRule_eq_dec : EqDecision WorkspaceActivityPauseRule.
Proof. solve_decision. Defined.
#[global] Instance ActivityRules_eq_dec : EqDecision WorkspaceActivityRules.
Proof. solve_decision. Defined.
#[global] Instance WorkspaceActivity_eq_dec : EqDecision WorkspaceActivity.
Proof. solve_decision. Defined.
#[global] Instance RedirectStep_eq_dec : EqDecision WorkspacePodOptionRedirectStep.
Proof. solve_decision. Defined.
#[global] Instance PodOptionInfo_eq_dec : EqDecision WorkspacePodOptionInfo.
Proof. solve_decision. Defined.
#[global] Instance PodOptionsStatus_eq_dec : EqDecision WorkspacePodOptionsStatus.
Proof. solve_decision. Defined.
#[global] Instance PodContainer_eq_dec : EqDecision WorkspacePodContainer.
Proof. solve_decision. Defined.
#[global] Instance WorkspacePodStatus_eq_dec : EqDecision WorkspacePodStatus.
Proof. solve_decision. Defined.
#[global] Instance WorkspaceStatus_eq_dec : EqDecision WorkspaceStatus.
Proof. solve_decision. Defined.
#[global] Instance WorkspacePodMetadata_eq_dec : EqDecision WorkspacePodMetadata.
Proof. solve_decision. Defined.
#[global] Instance RedirectMessageLevel_eq_dec : EqDecision RedirectMessageLevel.
Proof. solve_decision. Defined.
#[global] Instance RedirectMessage_eq_dec : EqDecision RedirectMessage.
Proof. solve_decision. Defined.
#[global] Instance OptionRedirect_eq_dec : EqDecision OptionRedirect.
Proof. solve_decision. Defined.
#[global] Instance ImagePort_eq_dec : EqDecision ImagePort.
Proof. solve_decision. Defined.
#[global] Instance ImageConfigSpec_eq_dec : EqDecision ImageConfigSpec.
Proof. solve_decision. Defined.
#[global] Instance PodConfigSpec_eq_dec : EqDecision PodConfigSpec.
Proof. solve_decision. Defined.
#[global] Instance IstioHeaderOperations_eq_dec : EqDecision IstioHeaderOperations.
Proof. solve_decision. Defined.
#[global] Instance HTTPProxy_eq_dec : EqDecision HTTPProxy.
Proof. solve_decision. Defined.
#[global] Instance WorkspaceKindPort_eq_dec : EqDecision WorkspaceKindPort.
Proof. solve_decision. Defined.
#[global] Instance KindPodMetadata_eq_dec : EqDecision WorkspaceKindPodMetadata.
Proof. solve_decision. Defined.
#[global] Instance KindStatefulSetMetadata_eq_dec : EqDecision WorkspaceKindStatefulSetMetadata.
Proof. solve_decision. Defined.
#[global] Instance ActivityProbePodExec_eq_dec : EqDecision ActivityProbePodExec.
Proof. solve_decision. Defined.
#[global] Instance ActivityProbeJupyter_eq_dec : EqDecision ActivityProbeJupyter.
Proof. solve_decision. Defined.
#[global] Instance ActivityProbe_eq_dec : EqDecision ActivityProbe.
Proof. solve_decision. Defined.
#[global] Instance NamespaceMatch_eq_dec : EqDecision NamespaceMatch.
Proof. solve_decision. Defined.
#[global] Instance PodConfigMatch_eq_dec : EqDecision PodConfigMatch.
Proof. solve_decision. Defined.
#[global] Instance ActivityRuleConfig_eq_dec : EqDecision ActivityRuleConfig.
Proof. solve_decision. Defined.
#[global] Instance ActivityRuleMatch_eq_dec : EqDecision ActivityRuleMatch.
Proof. solve_decision. Defined.
#[global] Instance ActivityRuleEffect_eq_dec : EqDecision ActivityRuleEffect.
Proof. solve_decision. Defined.
#[global] Instance ActivityRule_eq_dec : EqDecision ActivityRule.
Proof. solve_decision. Defined.
#[global] Instance FilterRuleScope_eq_dec : EqDecision FilterRuleScope.
Proof. solve_decision. Defined.
#[global] Instance FilterRuleEffectUI_eq_dec : EqDecision FilterRuleEffectUI.
Proof. solve_decision. Defined.
#[global] Instance FilterRuleDenyMessage_eq_dec : EqDecision FilterRuleDenyMessage.
Proof. solve_decision. Defined.
#[global] Instance FilterRuleEffectAPI_eq_dec : EqDecision FilterRuleEffectAPI.
Proof. solve_decision. Defined.
#[global] Instance FilterRuleEffect_eq_dec : EqDecision FilterRuleEffect.
Proof. solve_decision. Defined.
#[global] Instance FilterRuleSelector_eq_dec : EqDecision FilterRuleSelector.
Proof. solve_decision. Defined.
#[global] Instance FilterRuleMatch_eq_dec : EqDecision FilterRuleMatch.
Proof. solve_decision. Defined.
#[global] Instance FilterRule_eq_dec : EqDecision FilterRule.
Proof. solve_decision. Defined.
#[global] Instance ConfigMapError_eq_dec : EqDecision ConfigMapError.
Proof. solve_decision. Defined.
#[global] Instance AssetConfigMapStatus_eq_dec : EqDecision WorkspaceKindAssetConfigMapStatus.
Proof. solve_decision. Defined.
#[global] Instance ImageAssetStatus_eq_dec : EqDecision ImageAssetStatus.
Proof. solve_decision. Defined.
#[global] Instance OptionMetric_eq_dec : EqDecision OptionMetric.
Proof. solve_decision. Defined.
#[global] Instance PodTemplateOptionsMetrics_eq_dec : EqDecision PodTemplateOptionsMetrics.
Proof. solve_decision. Defined.
#[global] Instance WorkspaceKindStatus_eq_dec : EqDecision WorkspaceKindStatus.
Proof. solve_decision. Defined.
