(* ===== verification/Sha256.v ===== *)
(** * SHA-256 ([crypto/sha256], [encoding/hex])

    The hash the controller uses to shorten names and to fingerprint assets,
    executable on 32-bit words (FIPS 180-4), with its output format. *)

From Stdlib Require Import NArith Ascii.
From S2P Require Import Prelude.
From stdpp Require Import base strings list.

Local Open Scope N_scope.

Definition w32 (n : N) : N := N.land n 0xffffffff.
Definition rotr (k x : N) : N := N.lor (N.shiftr x k) (w32 (N.shiftl x (32 - k))).

Definition ch (x y z : N) : N := N.lxor (N.land x y) (N.land (w32 (N.lnot x 32)) z).
Definition maj (x y z : N) : N := N.lxor (N.land x y) (N.lxor (N.land x z) (N.land y z)).
Definition bsig0 (x : N) : N := N.lxor (rotr 2 x) (N.lxor (rotr 13 x) (rotr 22 x)).
Definition bsig1 (x : N) : N := N.lxor (rotr 6 x) (N.lxor (rotr 11 x) (rotr 25 x)).
Definition ssig0 (x : N) : N := N.lxor (rotr 7 x) (N.lxor (rotr 18 x) (N.shiftr x 3)).
Definition ssig1 (x : N) : N := N.lxor (rotr 17 x) (N.lxor (rotr 19 x) (N.shiftr x 10)).

(** The largest [r] of at most [bits] bits with [r ^ k <= n], bit by bit. *)
Fixpoint iroot (k n : N) (bits : nat) (r : N) : N :=
  match bits with
  | O => r
  | S b => let r' := r + 2 ^ N.of_nat b in iroot k n b (if r' ^ k <=? n then r' else r)
  end.

(** The first 32 bits of the fractional part of the [k]-th root of [p < 512]. *)
Definition root_fraction (k p : N) : N := w32 (iroot k (p * 2 ^ (32 * k)) 37 0).

Definition is_prime (p : nat) : bool :=
  forallb (λ d, negb (p mod d =? 0)%nat) (seq 2 (p - 2)).

(** The first 64 primes. *)
Definition primes64 : list N := N.of_nat <$> List.filter is_prime (seq 2 310).

(** The round constants, from the cube roots of the primes. *)
Definition K256 : list N := Eval vm_compute in root_fraction 3 <$> primes64.

(** The eight working words. *)
Record words := mkWords { wA : N; wB : N; wC : N; wD : N; wE : N; wF : N; wG : N; wH : N }.

(** The initial words, from the square roots of the first eight primes. *)
Definition H256 : words :=
  Eval vm_compute in
    mkWords (root_fraction 2 2) (root_fraction 2 3) (root_fraction 2 5) (root_fraction 2 7)
            (root_fraction 2 11) (root_fraction 2 13) (root_fraction 2 17) (root_fraction 2 19).

Definition round (s : words) (kw : N * N) : words :=
  let t1 := w32 (wH s + bsig1 (wE s) + ch (wE s) (wF s) (wG s) + kw.1 + kw.2) in
  let t2 := w32 (bsig0 (wA s) + maj (wA s) (wB s) (wC s)) in
  mkWords (w32 (t1 + t2)) (wA s) (wB s) (wC s) (w32 (wD s + t1)) (wE s) (wF s) (wG s).

(** The message schedule, most recent word first. *)
Fixpoint extend (n : nat) (ws : list N) : list N :=
  match n with
  | O => ws
  | S n' => extend n'
      (w32 (ssig1 (nth 1 ws 0) + nth 6 ws 0 + ssig0 (nth 14 ws 0) + nth 15 ws 0) :: ws)
  end.

Definition compress (h : words) (block : list N) : words :=
  let s := foldl round h (zip K256 (rev (extend 48 (rev block)))) in
  mkWords (w32 (wA h + wA s)) (w32 (wB h + wB s)) (w32 (wC h + wC s)) (w32 (wD h + wD s))
          (w32 (wE h + wE s)) (w32 (wF h + wF s)) (w32 (wG h + wG s)) (w32 (wH h + wH s)).

(** Big-endian words of a byte list (four bytes each). *)
Fixpoint to_words (l : list N) : list N :=
  match l with
  | a :: b :: c :: d :: rest =>
      (N.shiftl a 24 + N.shiftl b 16 + N.shiftl c 8 + d) :: to_words rest
  | _ => []
  end.

Definition word_bytes (w : N) : list N :=
  [N.shiftr w 24 mod 256; N.shiftr w 16 mod 256; N.shiftr w 8 mod 256; w mod 256].

Fixpoint blocks (n : nat) (ws : list N) : list (list N) :=
  match n with
  | O => []
  | S n' => match ws with [] => [] | _ => take 16 ws :: blocks n' (drop 16 ws) end
  end.

Definition pad (msg : list N) : list N :=
  let len := N.of_nat (length msg) in
  let zeros := N.to_nat ((119 - len mod 64) mod 64) in
  let bits := 8 * len in
  msg ++ [0x80] ++ replicate zeros 0
      ++ word_bytes (w32 (N.shiftr bits 32)) ++ word_bytes (w32 bits).

Definition sum256 (msg : list N) : list N :=
  let ws := to_words (pad msg) in
  let h := foldl compress H256 (blocks (length ws) ws) in
  word_bytes (wA h) ++ word_bytes (wB h) ++ word_bytes (wC h) ++ word_bytes (wD h)
  ++ word_bytes (wE h) ++ word_bytes (wF h) ++ word_bytes (wG h) ++ word_bytes (wH h).

(** [hex.EncodeToString]. *)
Definition hex_encode (l : list N) : string := String.concat "" (hex_byte <$> l).

(** [hex.EncodeToString(sha256.Sum256([]byte(s))[:])]. *)
Definition sha256_hex (s : string) : string := hex_encode (sum256 (N_of_ascii <$> chars s)).

(** ** Output format *)

Lemma length_sum256 msg : length (sum256 msg) = 32%nat.
Proof. reflexivity. Qed.

Lemma sconcat_cons x l : String.concat "" (x :: l) = x +:+ String.concat "" l.
Proof. destruct l; [symmetry; apply str_app_nil_r | done]. Qed.

Lemma slen_hex_encode l : slen (hex_encode l) = (2 * length l)%nat.
Proof.
  unfold hex_encode. induction l as [|x l IH]; [done|].
  rewrite fmap_cons, sconcat_cons, slen_app, IH, slen_hex_byte. simpl. lia.
Qed.

Lemma slen_sha256_hex s : slen (sha256_hex s) = 64%nat.
Proof. unfold sha256_hex. by rewrite slen_hex_encode, length_sum256. Qed.

Example sha256_abc : sha256_hex "abc" =
  "ba7816bf8f01cfea414140de5dae2223b00361a396177a9cb410ff61f20015ad".
Proof. vm_compute. reflexivity. Qed.

Example sha256_two_blocks :
  sha256_hex "abcdbcdecdefdefgefghfghighijhijkijkljklmklmnlmnomnopnopq" =
  "248d6a61d20638b8e5c026930c3e6039a33ce45964ff2167f6ecedd419db06c1".
Proof. vm_compute. reflexivity. Qed.
