(* ===== verification/Names.v ===== *)
(** * Names of the resources a Workspace owns

    The name generators of [workspace_controller.go]: [metadata.generateName]
    prefixes, deterministic names with a hash suffix, and the connect path.
    Lengths are byte lengths, slicing panics out of range ([go]). *)

From Stdlib Require Import ZArith Ascii.
From S2P Require Import Prelude Sha256.
From stdpp Require Import base gmap strings list.

Definition generateNameSuffixLength : Z := 6.
Definition nameHashLength : nat := 8.
Definition maxServiceNameLength : Z := 63.
Definition maxVirtualServiceNameLength : Z := 63.
Definition maxStatefulSetNameLength : Z := 52.
Definition maxServiceAccountNameLength : Z := 253.
Definition maxRoleBindingNameLength : Z := 253.

(** [fmt.Sprintf("/workspace/connect/%s/%s/%s/", ...)]. *)
Definition getWorkspaceConnectPath (namespace workspaceName portId : string) : string :=
  "/workspace/connect/" +:+ namespace +:+ "/" +:+ workspaceName +:+ "/" +:+ portId +:+ "/".

Definition generateNamePrefix (workspaceName : string) (maxLength : Z) : go string :=
  let namePrefix := "ws-" +:+ workspaceName in
  let maxLength := (maxLength - generateNameSuffixLength)%Z in
  let maxLength := (maxLength - 1)%Z in
  let! namePrefix :=
    if (maxLength <? str_len namePrefix)%Z
    then str_slice_to namePrefix (Z.min (str_len namePrefix) maxLength)
    else Ok namePrefix in
  let! last := str_index namePrefix (str_len namePrefix - 1) in
  Ok (if Ascii.eqb last "-"%char then namePrefix else namePrefix +:+ "-").

Definition generateWorkspaceSuffixedName (workspaceName suffix : string) : go string :=
  let name := "ws-" +:+ workspaceName +:+ suffix in
  if (str_len name <=? maxServiceNameLength)%Z then Ok name else
  let maxWorkspaceNameLen :=
    Z.max 1 (maxServiceNameLength - str_len "ws-" - str_len suffix) in
  let! workspaceName :=
    if (maxWorkspaceNameLen <? str_len workspaceName)%Z
    then str_slice_to workspaceName maxWorkspaceNameLen
    else Ok workspaceName in
  Ok ("ws-" +:+ workspaceName +:+ suffix).

Definition hashName (parts : list string) : string :=
  str_take nameHashLength (sha256_hex (str_join "/" parts)).

Definition generateServiceAccountName (workspaceName : string) : go string :=
  let name := "ws-" +:+ workspaceName in
  if (str_len name <=? maxServiceAccountNameLength)%Z then Ok name else
  let suffix := hashName [workspaceName] in
  let! prefix := str_slice_to name (maxServiceAccountNameLength - str_len suffix - 1) in
  Ok (prefix +:+ "-" +:+ suffix).

Definition generateRoleBindingName (workspaceName clusterRoleName : string) : go string :=
  let suffix := hashName [workspaceName; clusterRoleName] in
  let prefix := "ws-" +:+ workspaceName in
  let maxPrefixLength := (maxRoleBindingNameLength - str_len suffix - 1)%Z in
  let! prefix :=
    if (maxPrefixLength <? str_len prefix)%Z
    then str_slice_to prefix maxPrefixLength else Ok prefix in
  Ok (prefix +:+ "-" +:+ suffix).

(** [fmt.Sprintf("ws-%s-rbac-%s-auth-delegator", name, namespace)]. *)
Definition clusterRoleBindingName (name namespace : string) : string :=
  "ws-" +:+ name +:+ "-rbac-" +:+ namespace +:+ "-auth-delegator".

(** [fmt.Sprintf("ws-%s-%s", namespace, name)]. *)
Definition httpRouteName (namespace name : string) : string :=
  "ws-" +:+ namespace +:+ "-" +:+ name.

(** [fmt.Sprintf("ws-%s-kube-gateway-reference-grant", name)]. *)
Definition referenceGrantName (name : string) : string :=
  "ws-" +:+ name +:+ "-kube-gateway-reference-grant".

(** ** Slicing and hashing *)

Lemma str_slice_to_ok s n :
  (0 ≤ n ≤ str_len s)%Z → str_slice_to s n = Ok (str_take (Z.to_nat n) s).
Proof.
  intros [H1 H2]. unfold str_slice_to.
  by rewrite (proj2 (Z.leb_le _ _) H1), (proj2 (Z.leb_le _ _) H2).
Qed.

(** [s[:n]] when [n < len(s)], [s] itself otherwise: the code's way to truncate. *)
Lemma truncate_ok s n :
  (0 ≤ n)%Z →
  (if (n <? str_len s)%Z then str_slice_to s n else Ok s) = Ok (str_take (Z.to_nat n) s).
Proof.
  intros Hn. destruct (n <? str_len s)%Z eqn:E; go_bool.
  - apply str_slice_to_ok. lia.
  - rewrite str_take_all; [done|]. unfold str_len in *. lia.
Qed.

Lemma str_index_last s :
  s ≠ "" → ∃ c, str_index s (str_len s - 1) = Ok c ∧ String.get (slen s - 1) s = Some c.
Proof.
  intros Hs. assert (0 < slen s) by (destruct s; simpl; [done|lia]).
  destruct (str_get_Some (slen s - 1) s) as [c Hc]; [lia|].
  exists c. split; [|done]. unfold str_index, str_len.
  replace (_ <? 0)%Z with false by (symmetry; apply Z.ltb_ge; lia).
  replace (Z.to_nat _) with (slen s - 1) by lia. by rewrite Hc.
Qed.

Lemma slen_hashName parts : slen (hashName parts) = 8.
Proof. unfold hashName. by rewrite slen_take, slen_sha256_hex. Qed.

Lemma str_len_hashName parts : str_len (hashName parts) = 8%Z.
Proof. unfold str_len. by rewrite slen_hashName. Qed.

Lemma str_len_app s t : str_len (s +:+ t) = (str_len s + str_len t)%Z.
Proof. unfold str_len. rewrite slen_app. lia. Qed.

(** ** Closed forms of the generators: they never panic *)

Lemma generateNamePrefix_eq workspaceName maxLength :
  (8 ≤ maxLength)%Z →
  let p := str_take (Z.to_nat (maxLength - 7)) ("ws-" +:+ workspaceName) in
  generateNamePrefix workspaceName maxLength =
    Ok (if decide (String.get (slen p - 1) p = Some "-"%char) then p else p +:+ "-").
Proof.
  intros Hm p. unfold generateNamePrefix, generateNameSuffixLength.
  replace (maxLength - 6 - 1)%Z with (maxLength - 7)%Z by lia.
  assert (Hp : (if (maxLength - 7 <? str_len ("ws-" +:+ workspaceName))%Z
    then str_slice_to ("ws-" +:+ workspaceName)
           (Z.min (str_len ("ws-" +:+ workspaceName)) (maxLength - 7))
    else Ok ("ws-" +:+ workspaceName)) = Ok p).
  { unfold p. rewrite <-truncate_ok by lia.
    destruct (_ <? _)%Z eqn:E; [|done]. go_bool. by rewrite Z.min_r by lia. }
  rewrite Hp. cbn [go_bind].
  destruct (str_index_last p) as (c & -> & Hc).
  { unfold p. destruct (Z.to_nat (maxLength - 7)) eqn:E; [lia|done]. }
  cbn [go_bind]. rewrite Hc. f_equal.
  destruct (Ascii.eqb_spec c "-"%char) as [->|]; case_decide; naive_solver.
Qed.

Lemma generateServiceAccountName_eq n :
  generateServiceAccountName n =
    Ok (if decide (slen n ≤ 250) then "ws-" +:+ n
        else str_take 244 ("ws-" +:+ n) +:+ "-" +:+ hashName [n]).
Proof.
  unfold generateServiceAccountName, maxServiceAccountNameLength.
  rewrite str_len_hashName. destruct (_ <=? _)%Z eqn:E; go_bool;
    unfold str_len in E; rewrite slen_app in E; simpl in E.
  - by rewrite decide_True by lia.
  - rewrite decide_False by lia.
    rewrite str_slice_to_ok; [done|]. unfold str_len. rewrite slen_app. simpl. lia.
Qed.

Lemma generateRoleBindingName_eq w c :
  generateRoleBindingName w c =
    Ok (str_take 244 ("ws-" +:+ w) +:+ "-" +:+ hashName [w; c]).
Proof.
  unfold generateRoleBindingName, maxRoleBindingNameLength.
  rewrite str_len_hashName, truncate_ok by lia. done.
Qed.

Lemma generateWorkspaceSuffixedName_eq n suffix :
  slen suffix ≤ 59 →
  generateWorkspaceSuffixedName n suffix =
    Ok ("ws-" +:+ str_take (60 - slen suffix) n +:+ suffix).
Proof.
  intros Hs. unfold generateWorkspaceSuffixedName, maxServiceNameLength.
  change (str_len "ws-") with 3%Z.
  replace (Z.max 1 (63 - 3 - str_len suffix)) with (Z.of_nat (60 - slen suffix))
    by (unfold str_len; lia).
  rewrite truncate_ok, Nat2Z.id by lia. destruct (_ <=? _)%Z eqn:E; [|done]. go_bool.
  rewrite !str_len_app in E. unfold str_len in E. simpl in E.
  by rewrite str_take_all by lia.
Qed.

(** ** Properties *)

(** [generateNamePrefix] never panics, leaves room for the six characters
    [metadata.generateName] needs within the maximum length, starts with the
    ["ws-"] form of the workspace name (truncated when it does not fit) and ends
    with a dash. *)
Theorem generateNamePrefix_fits workspaceName maxLength :
  (8 ≤ maxLength)%Z →
  ∃ p k, generateNamePrefix workspaceName maxLength = Ok p ∧
    (str_len p + generateNameSuffixLength ≤ maxLength)%Z ∧
    String.get (slen p - 1) p = Some "-"%char ∧
    (p = str_take k ("ws-" +:+ workspaceName) ∨
     p = str_take k ("ws-" +:+ workspaceName) +:+ "-").
Proof.
  intros Hm. rewrite generateNamePrefix_eq by done.
  set (p := str_take _ _). assert (slen p ≤ Z.to_nat (maxLength - 7)).
  { unfold p. rewrite slen_take. lia. }
  exists (if decide (String.get (slen p - 1) p = Some "-"%char) then p else p +:+ "-").
  exists (Z.to_nat (maxLength - 7)). split; [done|].
  unfold str_len, generateNameSuffixLength. case_decide as Hd.
  - split; [lia|]. split; [done|by left].
  - rewrite slen_app. simpl. split; [lia|]. split; [|by right].
    replace (slen p + 1 - 1) with (slen p) by lia. apply str_get_last_app.
Qed.

Lemma generateNamePrefix_fits_witness :
  (8 ≤ maxStatefulSetNameLength)%Z ∧
  ∃ p k, generateNamePrefix "my-workspace" maxStatefulSetNameLength = Ok p ∧
    (str_len p + generateNameSuffixLength ≤ maxStatefulSetNameLength)%Z ∧
    String.get (slen p - 1) p = Some "-"%char ∧
    (p = str_take k ("ws-" +:+ "my-workspace") ∨
     p = str_take k ("ws-" +:+ "my-workspace") +:+ "-").
Proof. split; [done|]. apply generateNamePrefix_fits. done. Defined.

(** A string without the ["/"] separator, as every Kubernetes name is. *)
Definition no_slash (s : string) : Prop := "/"%char ∉ chars s.

Lemma no_slash_app_inj a1 a2 b1 b2 :
  no_slash a1 → no_slash a2 →
  a1 +:+ "/" +:+ b1 = a2 +:+ "/" +:+ b2 → a1 = a2 ∧ b1 = b2.
Proof. apply str_sep_inj. Qed.

Lemma no_slash_neq_app a b s : no_slash s → s ≠ a +:+ "/" +:+ b.
Proof.
  unfold no_slash. intros Hs ->. apply Hs. clear.
  induction a; simpl; set_solver.
Qed.

(** Joining with ["/"] loses nothing: the inputs of [hashName] are distinct. *)
Lemma str_join_slash_inj l1 l2 :
  l1 ≠ [] → l2 ≠ [] → Forall no_slash l1 → Forall no_slash l2 →
  str_join "/" l1 = str_join "/" l2 → l1 = l2.
Proof.
  revert l2. induction l1 as [|x l1 IH]; intros [|y l2] N1 N2 F1 F2 Heq; try done.
  apply Forall_cons in F1 as [Hx F1], F2 as [Hy F2].
  destruct l1 as [|x' l1], l2 as [|y' l2]; simpl in Heq.
  - by subst.
  - by apply no_slash_neq_app in Heq.
  - symmetry in Heq. by apply no_slash_neq_app in Heq.
  - apply no_slash_app_inj in Heq as [-> Heq]; [|done..]. f_equal. by apply IH.
Qed.

(** The last eight bytes of a suffixed name are its hash. *)
Lemma hash_suffix_inj p1 p2 l1 l2 :
  p1 +:+ "-" +:+ hashName l1 = p2 +:+ "-" +:+ hashName l2 → p1 = p2 ∧ hashName l1 = hashName l2.
Proof.
  intros Heq. assert (slen p1 = slen p2).
  { apply (f_equal slen) in Heq. rewrite !slen_app, !slen_hashName in Heq. lia. }
  apply str_app_inj_len in Heq as [-> Heq]; [|done].
  split; [done|]. by apply (inj (String.append "-")) in Heq.
Qed.

Lemma slen_ws n : slen ("ws-" +:+ n) = 3 + slen n.
Proof. done. Qed.

Lemma slen_hashed n l :
  slen (str_take 244 ("ws-" +:+ n) +:+ "-" +:+ hashName l) = Nat.min 244 (3 + slen n) + 9.
Proof. by rewrite !slen_app, slen_take, slen_hashName, slen_ws. Qed.

(** a ServiceAccount name always fits the 253-byte limit, is the plain
    ["ws-{name}"] whenever that fits, and two workspaces get the same name only if
    both are over-long and their truncated SHA-256 hashes collide, or one is
    exactly at the limit and spells out the truncated form of the other. *)
Theorem generateServiceAccountName_distinct n1 n2 s :
  generateServiceAccountName n1 = Ok s → generateServiceAccountName n2 = Ok s →
  (str_len s ≤ maxServiceAccountNameLength)%Z ∧
  (slen n1 ≤ 250 → s = "ws-" +:+ n1) ∧
  (n1 = n2 ∨
   (250 < slen n1 ∧ 250 < slen n2 ∧ hashName [n1] = hashName [n2]) ∨
   (slen n1 = 250 ∧ 250 < slen n2) ∨ (slen n2 = 250 ∧ 250 < slen n1)).
Proof.
  rewrite !generateServiceAccountName_eq. intros [= H1] [= H2].
  unfold str_len, maxServiceAccountNameLength.
  pose proof (f_equal slen H1) as L1. pose proof (f_equal slen H2) as L2.
  destruct (decide (slen n1 ≤ 250)), (decide (slen n2 ≤ 250));
    rewrite ?slen_hashed, ?slen_ws in *.
  - split; [lia|]. split; [done|]. left. rewrite <-H2 in H1.
    by apply (inj (String.append "ws-")) in H1.
  - split; [lia|]. split; [done|]. right. right. left. lia.
  - split; [lia|]. split; [lia|]. right. right. right. lia.
  - split; [lia|]. split; [lia|]. right. left. rewrite <-H2 in H1.
    apply hash_suffix_inj in H1 as [_ ?]. split_and!; [lia..|done].
Qed.

Lemma generateServiceAccountName_distinct_witness :
  generateServiceAccountName "nb" = Ok "ws-nb" ∧
  ((str_len "ws-nb" ≤ maxServiceAccountNameLength)%Z ∧
   (slen "nb" ≤ 250 → "ws-nb" = "ws-" +:+ "nb") ∧
   ("nb" = "nb" ∨
    (250 < slen "nb" ∧ 250 < slen "nb" ∧ hashName ["nb"] = hashName ["nb"]) ∨
    (slen "nb" = 250 ∧ 250 < slen "nb") ∨ (slen "nb" = 250 ∧ 250 < slen "nb"))).
Proof.
  split; [reflexivity|].
  apply (generateServiceAccountName_distinct "nb" "nb" "ws-nb"); reflexivity.
Defined.

(** RoleBinding names always fit 253 bytes, and two different (workspace,
    ClusterRole) pairs share a name only when two different strings, ["w1/c1"] and
    ["w2/c2"], collide under SHA-256 truncated to eight hexadecimal digits: the
    plain-join ambiguity ("a" + "b-c" against "a-b" + "c") is gone. *)
Theorem generateRoleBindingName_distinct w1 c1 w2 c2 s :
  no_slash w1 → no_slash c1 → no_slash w2 → no_slash c2 →
  generateRoleBindingName w1 c1 = Ok s → generateRoleBindingName w2 c2 = Ok s →
  (str_len s ≤ maxRoleBindingNameLength)%Z ∧
  ((w1, c1) = (w2, c2) ∨
   let i1 := w1 +:+ "/" +:+ c1 in let i2 := w2 +:+ "/" +:+ c2 in
   i1 ≠ i2 ∧ str_take nameHashLength (sha256_hex i1) = str_take nameHashLength (sha256_hex i2)).
Proof.
  intros ???? H1 H2. rewrite !generateRoleBindingName_eq in *.
  injection H1 as <-. injection H2 as H2. split.
  - unfold str_len, maxRoleBindingNameLength.
    rewrite slen_hashed. lia.
  - destruct (decide ((w1, c1) = (w2, c2))) as [|Hne]; [by left|right].
    apply hash_suffix_inj in H2 as [_ H2]. cbv zeta. split; [|done].
    intros Heq. apply Hne. assert ([w1; c1] = [w2; c2]); [|by simplify_eq].
    by apply str_join_slash_inj; [done|done|repeat constructor..|].
Qed.

Lemma generateRoleBindingName_distinct_witness :
  generateRoleBindingName "a" "b-c" = Ok "ws-a-b88f83c8" ∧
  (str_len "ws-a-b88f83c8" ≤ maxRoleBindingNameLength)%Z ∧
  (("a", "b-c") = ("a", "b-c") ∨
   let i1 := "a" +:+ "/" +:+ "b-c" in let i2 := "a" +:+ "/" +:+ "b-c" in
   i1 ≠ i2 ∧ str_take nameHashLength (sha256_hex i1) = str_take nameHashLength (sha256_hex i2)).
Proof.
  split; [vm_compute; reflexivity|].
  apply (generateRoleBindingName_distinct "a" "b-c" "a" "b-c" "ws-a-b88f83c8");
    try (unfold no_slash; apply (bool_decide_unpack _); vm_compute; exact I);
    vm_compute; reflexivity.
Defined.

(** the names with a fixed suffix (the kube-rbac-proxy Service, ConfigMap and
    TLS Secret) fit the 63-byte limit, but two workspaces share one exactly when
    their names agree on the first [60 - len(suffix)] bytes: there is no hash. *)
Theorem generateWorkspaceSuffixedName_clash n1 n2 suffix :
  slen suffix ≤ 59 →
  (∃ s, generateWorkspaceSuffixedName n1 suffix = Ok s ∧
        (str_len s ≤ maxServiceNameLength)%Z) ∧
  (generateWorkspaceSuffixedName n1 suffix = generateWorkspaceSuffixedName n2 suffix ↔
   str_take (60 - slen suffix) n1 = str_take (60 - slen suffix) n2).
Proof.
  intros Hs. rewrite !generateWorkspaceSuffixedName_eq by done. split.
  - eexists. split; [done|]. unfold str_len, maxServiceNameLength.
    rewrite !slen_app, slen_take. simpl. lia.
  - split; [|by intros ->]. intros Heq.
    assert (Heq' : "ws-" +:+ str_take (60 - slen suffix) n1 +:+ suffix
                 = "ws-" +:+ str_take (60 - slen suffix) n2 +:+ suffix) by congruence.
    apply (inj (String.append "ws-")) in Heq'. by apply str_app_inj_r in Heq'.
Qed.

Lemma generateWorkspaceSuffixedName_clash_witness :
  generateWorkspaceSuffixedName "analytics-team-experiment-tracking-2026-alice" "-kube-rbac-proxy-config"
  = generateWorkspaceSuffixedName "analytics-team-experiment-tracking-2026-bob" "-kube-rbac-proxy-config".
Proof.
  apply (generateWorkspaceSuffixedName_clash _ _ "-kube-rbac-proxy-config");
    [simpl; lia | vm_compute; reflexivity].
Defined.

(** The cluster-wide ClusterRoleBinding name and the HTTPRoute name in the
    controller namespace are plain joins, so workspaces of different namespaces can
    have the same one (workspace [b-c] of [a] and workspace [c] of [a-b]). *)
Theorem joined_names_ambiguous a b c :
  httpRouteName (a +:+ "-" +:+ b) c = httpRouteName a (b +:+ "-" +:+ c) ∧
  clusterRoleBindingName (a +:+ "-rbac-" +:+ b) c
    = clusterRoleBindingName a (b +:+ "-rbac-" +:+ c) ∧
  a +:+ "-" +:+ b ≠ a ∧ a +:+ "-rbac-" +:+ b ≠ a.
Proof.
  unfold httpRouteName, clusterRoleBindingName. rewrite !str_app_assoc.
  split; [done|]. split; [done|].
  split; intros Heq%(f_equal slen); rewrite !slen_app in Heq; simpl in Heq; lia.
Qed.
