(* ===== verification/Graph.v ===== *)
(** * Cycle detection in redirect graphs ([internal/helper/graph.go])

    [DetectGraphCycle] walks a graph in which every node has at most one outgoing
    edge.  The walk is a loop with fuel [size edgeMap + 2], which
    [detect_loop_total] shows to be enough: the path never repeats a node and all
    its nodes have an outgoing edge. *)

From S2P Require Import Prelude.
From stdpp Require Import base gmap strings list relations.

(** ** The function *)

(** How the loop ends: with a cycle, without one (and the nodes visited), or out
    of fuel (never). *)
Inductive detection :=
| CycleFound (cycle : list string)
| NoCycle (currentPathNodes : gset string)
| OutOfFuel.

(** The index of the first occurrence of a node in the path. *)
Definition first_index (node : string) (path : list string) : option nat :=
  fst <$> list_find (node =.) path.

Fixpoint detect_loop (fuel : nat) (checkedNodes : gset string)
    (edgeMap : gmap string string) (currentPath : list string)
    (currentPathNodes : gset string) (currentNode : string) : detection :=
  match fuel with
  | O => OutOfFuel
  | S fuel =>
    if bool_decide (currentNode ∈ checkedNodes) then NoCycle currentPathNodes else
    let found :=
      if bool_decide (currentNode ∈ currentPathNodes)
      then first_index currentNode currentPath else None in
    match found with
    | Some i => CycleFound (drop i currentPath)
    | None =>
      let currentPath := currentPath ++ [currentNode] in
      let currentPathNodes := {[currentNode]} ∪ currentPathNodes in
      match edgeMap !! currentNode with
      | None => NoCycle currentPathNodes
      | Some nextNode =>
          detect_loop fuel checkedNodes edgeMap currentPath currentPathNodes nextNode
      end
    end
  end.

(** The returned slice ([None] is nil) and the updated [checkedNodes]. *)
Definition DetectGraphCycle (startNode : string) (checkedNodes : gset string)
    (edgeMap : gmap string string) : option (list string) * gset string :=
  match detect_loop (S (S (size edgeMap))) checkedNodes edgeMap [] ∅ startNode with
  | CycleFound c => (Some c, checkedNodes)
  | NoCycle nodes => (None, checkedNodes ∪ nodes)
  | OutOfFuel => (None, checkedNodes)
  end.

(** ** Paths and cycles *)

Section graph.
Context (edges : gmap string string).

Definition edge (x y : string) : Prop := edges !! x = Some y.

(** [chain l x]: the nodes of [l] follow each other along the edges, and the
    last one leads to [x]. *)
Fixpoint chain (l : list string) (x : string) : Prop :=
  match l with
  | [] => True
  | y :: l' => edge y (default x (head l')) ∧ chain l' x
  end.

(** A cycle: distinct nodes, each leading to the next and the last to the first. *)
Definition is_cycle (c : list string) : Prop :=
  ∃ x l, c = x :: l ∧ NoDup c ∧ chain c x.

(** The walk from [x] reaches a node with no outgoing edge. *)
Inductive ends : string → Prop :=
| ends_stop x : edges !! x = None → ends x
| ends_step x y : edge x y → ends y → ends x.

Lemma chain_app l1 l2 x :
  chain (l1 ++ l2) x ↔ chain l1 (default x (head l2)) ∧ chain l2 x.
Proof.
  induction l1 as [|y l1 IH]; simpl; [tauto|]. rewrite IH.
  destruct l1; simpl; tauto.
Qed.

Lemma chain_snoc l x y : chain (l ++ [x]) y ↔ chain l x ∧ edge x y.
Proof. rewrite chain_app. simpl. tauto. Qed.

(** Every node of a chain reaches its end. *)
Lemma chain_rtc l x y : chain l x → y ∈ l → tc edge y x.
Proof.
  revert y. induction l as [|z l IH]; intros y; [set_solver|].
  intros [He Hc] [->|Hy]%elem_of_cons; [|auto].
  destruct l as [|w l]; simpl in *; [by constructor|].
  eapply tc_l; [done|]. apply IH; set_solver.
Qed.

Lemma chain_ends l x : chain l x → ends x → Forall ends l.
Proof.
  intros Hc Hx. induction l as [|z l IH]; [done|]. destruct Hc as [He Hc].
  specialize (IH Hc). constructor; [|done]. eapply ends_step; [done|].
  destruct l as [|w l]; simpl; [done|]. by apply Forall_cons in IH as [? _].
Qed.

(** A node from which the walk ends reaches no cycle: a node that reaches itself. *)
Lemma ends_no_cycle x y : ends x → rtc edge x y → ¬ tc edge y y.
Proof.
  intros Hx. revert y. induction Hx as [x Hx|x z Hxz Hz IH]; intros y Hr Hc.
  - inversion Hr as [|? w ? Hxw]; subst; [|unfold edge in *; congruence].
    inversion Hc as [? ? Hyy|? w ? Hyw]; subst; unfold edge in *; congruence.
  - inversion Hr as [|? w ? Hxw Hwy]; subst.
    + assert (rtc edge z y) as Hzy.
      { inversion Hc as [? ? Hyy|? w ? Hyw Hwy]; subst; unfold edge in *; simplify_eq;
          [done|by apply tc_rtc]. }
      apply (IH z); [done|]. eapply tc_rtc_l; [done|]. by constructor.
    + unfold edge in *; simplify_eq. by eapply IH.
Qed.

Lemma cycle_not_ends c x : is_cycle c → x ∈ c → ¬ ends x.
Proof.
  intros (h & l & -> & _ & Hc) Hx Hends.
  apply (ends_no_cycle x h Hends); [by apply tc_rtc, (chain_rtc (h :: l))|].
  apply (chain_rtc (h :: l)); [done|set_solver].
Qed.
End graph.

(** ** The loop invariant *)

Record walk_inv (edges : gmap string string) (checked : gset string) (start : string)
    (path : list string) (nodes : gset string) (cur : string) : Prop := {
  inv_nodes : nodes = list_to_set path;
  inv_nodup : NoDup path;
  inv_chain : chain edges path cur;
  inv_dom : ∀ x, x ∈ path → is_Some (edges !! x);
  inv_start : default cur (head path) = start;
}.

Lemma walk_inv_init edges checked start : walk_inv edges checked start [] ∅ start.
Proof. split; try done; [constructor | set_solver]. Qed.

Lemma walk_inv_step edges checked start path nodes cur next :
  walk_inv edges checked start path nodes cur →
  cur ∉ path → edges !! cur = Some next →
  walk_inv edges checked start (path ++ [cur]) ({[cur]} ∪ nodes) next.
Proof.
  intros [-> Hnd Hc Hd Hs] Hcur He. split.
  - rewrite list_to_set_app_L. set_solver.
  - apply NoDup_app. split; [done|]. split; [set_solver|apply NoDup_singleton].
  - by apply chain_snoc.
  - intros x [Hx|Hx%list_elem_of_singleton]%elem_of_app; [by apply Hd|subst; eauto].
  - by destruct path.
Qed.

Lemma walk_inv_length edges checked start path nodes cur :
  walk_inv edges checked start path nodes cur → length path ≤ size edges.
Proof.
  intros [_ Hnd _ Hd _]. rewrite <-size_dom.
  rewrite <-(size_list_to_set (C := gset string) path) by done.
  apply subseteq_size. intros x. rewrite elem_of_list_to_set, elem_of_dom. apply Hd.
Qed.

Lemma first_index_Some node path i :
  first_index node path = Some i → ∃ l, path = take i path ++ node :: l ∧ drop i path = node :: l.
Proof.
  unfold first_index. intros [[j y] [[Hj [Heq _]]%list_find_Some ->]]%fmap_Some. simpl in *.
  subst y. exists (drop (S j) path). rewrite (drop_S _ _ _ Hj). split; [|done].
  by rewrite <-(drop_S _ _ _ Hj), take_drop.
Qed.

Lemma first_index_elem node path : node ∈ path → is_Some (first_index node path).
Proof.
  intros Hin. unfold first_index. apply fmap_is_Some.
  by eapply list_find_elem_of.
Qed.

(** The specification of the loop's result, from any state that satisfies the
    invariant, with enough fuel. *)
Lemma detect_loop_spec edges checked start fuel path nodes cur :
  walk_inv edges checked start path nodes cur →
  size edges + 2 ≤ fuel + length path →
  match detect_loop fuel checked edges path nodes cur with
  | CycleFound c => is_cycle edges c ∧ (∀ x, x ∈ c → rtc (edge edges) start x)
  | NoCycle nodes' =>
      ((∀ x, x ∈ checked → ends edges x) → ∀ x, x ∈ nodes' → ends edges x) ∧
      (start ∈ nodes' ∨ start ∈ checked)
  | OutOfFuel => False
  end.
Proof.
  revert path nodes cur. induction fuel as [|fuel IH]; intros path nodes cur Hinv Hf; simpl.
  { pose proof (walk_inv_length _ _ _ _ _ _ Hinv). lia. }
  pose proof Hinv as [Hn Hnd Hc Hd Hs].
  destruct (bool_decide (cur ∈ checked)) eqn:Hch; go_bool.
  { split.
    - intros Hck x. rewrite Hn, elem_of_list_to_set. intros Hx.
      pose proof (chain_ends _ _ _ Hc (Hck _ Hch)) as HF. rewrite Forall_forall in HF. auto.
    - destruct path as [|y path]; simpl in Hs; subst; [by right|left; set_solver]. }
  assert (Hfound : (if bool_decide (cur ∈ nodes) then first_index cur path else None)
                   = if bool_decide (cur ∈ path) then first_index cur path else None).
  { rewrite Hn. erewrite bool_decide_ext; [done|]. by rewrite elem_of_list_to_set. }
  rewrite Hfound. clear Hfound. destruct (bool_decide (cur ∈ path)) eqn:Hin; go_bool.
  - destruct (first_index_elem _ _ Hin) as [i Hi]. rewrite Hi.
    destruct (first_index_Some _ _ _ Hi) as (l & Hp & ->). split.
    + exists cur, l. rewrite Hp in Hc, Hnd. apply chain_app in Hc as [_ Hc].
      apply NoDup_app in Hnd as (_ & _ & Hnd). done.
    + intros x Hx. assert (rtc (edge edges) start cur) as Hsc.
      { destruct path as [|y path]; simpl in Hs; subst; [set_solver|].
        apply tc_rtc, (chain_rtc _ (start :: path)); [done|set_solver]. }
      rewrite Hp in Hc. apply chain_app in Hc as [_ Hc].
      etransitivity; [exact Hsc|]. clear -Hc Hx.
      assert (∀ l x z, chain edges (z :: l) cur → x ∈ z :: l → rtc (edge edges) z x) as Hgo.
      { clear. induction l as [|w l IH]; intros x z [He Hc] Hx.
        - apply list_elem_of_singleton in Hx as ->. done.
        - apply elem_of_cons in Hx as [->|Hx]; [done|].
          eapply rtc_l; [exact He|]. by apply IH. }
      by eapply Hgo.
  - destruct (edges !! cur) as [next|] eqn:He.
    + apply IH; [by apply walk_inv_step|]. rewrite length_app. simpl. lia.
    + split.
      * intros Hck x. rewrite elem_of_union, elem_of_singleton, Hn, elem_of_list_to_set.
        pose proof (chain_ends _ _ _ Hc (ends_stop _ _ He)) as HF. rewrite Forall_forall in HF.
        intros [->|Hx]; [by apply ends_stop|auto].
      * left. destruct path as [|y path]; simpl in Hs; subst; set_solver.
Qed.

(** The loop never runs out of fuel. *)
Lemma detect_loop_total edges checked start :
  detect_loop (S (S (size edges))) checked edges [] ∅ start ≠ OutOfFuel.
Proof.
  pose proof (detect_loop_spec edges checked start (S (S (size edges))) [] ∅ start
    (walk_inv_init _ _ _) ltac:(simpl; lia)) as H.
  by intros Heq; rewrite Heq in H.
Qed.

(** Reaching no cycle is the same as the walk ending: the walk with an empty
    [checkedNodes] decides it. *)
Lemma ends_iff_acyclic edges x :
  ends edges x ↔ ∀ y, rtc (edge edges) x y → ¬ tc (edge edges) y y.
Proof.
  split; [intros; by eapply ends_no_cycle|]. intros Hno.
  pose proof (detect_loop_spec edges ∅ x (S (S (size edges))) [] ∅ x
    (walk_inv_init _ _ _) ltac:(simpl; lia)) as H.
  destruct detect_loop as [c|nodes|]; [|set_solver|done].
  destruct H as ((z & l & -> & _ & Hc) & Hr). exfalso.
  apply (Hno z); [apply Hr; set_solver|].
  apply (chain_rtc edges (z :: l)); [done|set_solver].
Qed.

(** The form the clients use: nil adds the start node to [checkedNodes], all of
    whose walks end; a slice exhibits a cycle. *)
Lemma DetectGraphCycle_spec edges start checked :
  (∀ x, x ∈ checked → ends edges x) →
  match DetectGraphCycle start checked edges with
  | (Some c, checked') =>
      checked' = checked ∧ is_cycle edges c ∧ ∀ x, x ∈ c → rtc (edge edges) start x
  | (None, checked') =>
      start ∈ checked' ∧ checked ⊆ checked' ∧ ∀ x, x ∈ checked' → ends edges x
  end.
Proof.
  intros Hck. unfold DetectGraphCycle.
  pose proof (detect_loop_spec edges checked start (S (S (size edges))) [] ∅ start
    (walk_inv_init _ _ _) ltac:(simpl; lia)) as H.
  destruct detect_loop as [c|nodes|]; [by destruct H|set_solver|done].
Qed.

(** ** Properties *)

(** C23: [DetectGraphCycle] is correct on every graph with at most one outgoing
    edge per node: a returned slice is a genuine cycle reachable from the start
    node (and [checkedNodes] is left alone); nil means that no cycle is reachable
    from the start node or from any node added to [checkedNodes], provided
    [checkedNodes] held only such nodes before. The loop always terminates. *)
Theorem DetectGraphCycle_correct edges start checked :
  (∀ x, x ∈ checked → ∀ y, rtc (edge edges) x y → ¬ tc (edge edges) y y) →
  detect_loop (S (S (size edges))) checked edges [] ∅ start ≠ OutOfFuel ∧
  match DetectGraphCycle start checked edges with
  | (Some c, checked') =>
      checked' = checked ∧ is_cycle edges c ∧ ∀ x, x ∈ c → rtc (edge edges) start x
  | (None, checked') =>
      start ∈ checked' ∧ checked ⊆ checked' ∧
      ∀ x, x ∈ checked' → ∀ y, rtc (edge edges) x y → ¬ tc (edge edges) y y
  end.
Proof.
  intros Hck. split; [apply detect_loop_total|].
  pose proof (DetectGraphCycle_spec edges start checked) as H.
  destruct (DetectGraphCycle start checked edges) as [[c|] checked'];
    setoid_rewrite ends_iff_acyclic in H; by apply H.
Qed.

(** A graph with a tail leading into a two-node cycle: the walk from the tail
    returns the cycle without the tail. *)
Lemma DetectGraphCycle_correct_witness :
  let edges : gmap string string := {["t" := "a"; "a" := "b"; "b" := "a"]} in
  DetectGraphCycle "t" ∅ edges = (Some ["a"; "b"], ∅) ∧ is_cycle edges ["a"; "b"].
Proof.
  intros edges. split; [vm_compute; reflexivity|].
  assert (Hck : ∀ x, x ∈ (∅ : gset string) →
    ∀ y, rtc (edge edges) x y → ¬ tc (edge edges) y y) by set_solver.
  exact (proj1 (proj2 (proj2 (DetectGraphCycle_correct edges "t" ∅ Hck)))).
Defined.
