(* ===== verification/CopyFields.v ===== *)
(** * Merging desired objects into existing ones ([internal/helper/helper.go])

    One definition per [Copy*Fields] function, which takes the desired and the
    existing object and gives the updated object and whether an update is
    required.  [CopyFields] is the interface the reconcilers use, with its laws;
    the eight functions are its instances.

    A Go [range] over a map visits the entries in an unspecified order: the loops
    take the entries as a list, and [copy_range_order] and [merge_range_order] show
    that the order does not matter, so the functions themselves use
    [map_to_list]. *)

From S2P Require Import Prelude K8sTypes.
From stdpp Require Import base gmap strings list.

(** ** The map helpers *)

(** The body of the loop of [copyLabelFields] and [copyAnnotationFields]: an entry
    is written when the key is absent or has another value. *)
Fixpoint copy_range (entries : list (string * string)) (target : gomap)
    (requireUpdate : bool) : go (gomap * bool) :=
  match entries with
  | [] => Ok (target, requireUpdate)
  | (k, v) :: rest =>
      if bool_decide (gm target !! k = Some v) then copy_range rest target requireUpdate
      else let! target := gm_assign target k v in copy_range rest target true
  end.

Definition copyLabelFields (desiredLabels targetLabels : gomap) : go (gomap * bool) :=
  let targetLabels :=
    match targetLabels with
    | None => if (0 <? size (gm desiredLabels))%nat then Some ∅ else None
    | Some _ => targetLabels
    end in
  copy_range (map_to_list (gm desiredLabels)) targetLabels false.

(** The same code on the annotations. *)
Definition copyAnnotationFields (desiredAnnotations targetAnnotations : gomap)
    : go (gomap * bool) :=
  let targetAnnotations :=
    match targetAnnotations with
    | None => if (0 <? size (gm desiredAnnotations))%nat then Some ∅ else None
    | Some _ => targetAnnotations
    end in
  copy_range (map_to_list (gm desiredAnnotations)) targetAnnotations false.

(** The loop of [mergeStringMapFields]; [target[k] != v] reads the empty string
    for an absent key. *)
Fixpoint merge_range (entries : list (string * string)) (target : gomap)
    (requireUpdate : bool) : go (gomap * bool) :=
  match entries with
  | [] => Ok (target, requireUpdate)
  | (k, v) :: rest =>
      let target := match target with None => Some ∅ | Some _ => target end in
      if bool_decide (gm_index target k = v) then merge_range rest target requireUpdate
      else let! target := gm_assign target k v in merge_range rest target true
  end.

Definition mergeStringMapFields (desired target : gomap) : go (gomap * bool) :=
  merge_range (map_to_list (gm desired)) target false.

Definition replaceStringMapFields (desired target : gomap) : gomap * bool :=
  (desired, negb (bool_decide (desired ≡ₘ target))).

(** ** The [Copy*Fields] functions *)

Definition CopyStatefulSetFields (desired target : StatefulSet) : go (StatefulSet * bool) :=
  let '(labels, u1) := replaceStringMapFields
    (meta_Labels (sts_Meta desired)) (meta_Labels (sts_Meta target)) in
  let '(annotations, u2) := replaceStringMapFields
    (meta_Annotations (sts_Meta desired)) (meta_Annotations (sts_Meta target)) in
  match stsSpec_Replicas (sts_Spec desired), stsSpec_Replicas (sts_Spec target) with
  | Some desiredReplicas, Some targetReplicas =>
      let u3 := negb (desiredReplicas =? targetReplicas)%Z in
      let replicas := if u3 then desiredReplicas else targetReplicas in
      let u4 := negb (bool_decide (stsSpec_Selector (sts_Spec target)
                                   = stsSpec_Selector (sts_Spec desired))) in
      let selector := if u4 then stsSpec_Selector (sts_Spec desired)
                      else stsSpec_Selector (sts_Spec target) in
      let u5 := negb (bool_decide (stsSpec_Template (sts_Spec target)
                                   = stsSpec_Template (sts_Spec desired))) in
      let template := if u5 then stsSpec_Template (sts_Spec desired)
                      else stsSpec_Template (sts_Spec target) in
      Ok (mkStatefulSet
            (setAnnotations (setLabels (sts_Meta target) labels) annotations)
            (mkStatefulSetSpec (Some replicas) selector template
               (stsSpec_Rest (sts_Spec target))),
          u1 || u2 || u3 || u4 || u5)
  | _, _ => Panic "nil pointer dereference"
  end.

Definition CopyServiceFields (desired target : Service) : go (Service * bool) :=
  let! (labels, u1) := copyLabelFields
    (meta_Labels (svc_Meta desired)) (meta_Labels (svc_Meta target)) in
  let! (annotations, u2) := copyAnnotationFields
    (meta_Annotations (svc_Meta desired)) (meta_Annotations (svc_Meta target)) in
  let d := svc_Spec desired in
  let t := svc_Spec target in
  let u3 := negb (bool_decide (svcSpec_Ports t = svcSpec_Ports d)) in
  let ports := if u3 then svcSpec_Ports d else svcSpec_Ports t in
  let u4 := negb (bool_decide (svcSpec_Selector t = svcSpec_Selector d)) in
  let selector := if u4 then svcSpec_Selector d else svcSpec_Selector t in
  let u5 := negb (bool_decide (svcSpec_Type t = svcSpec_Type d)) in
  let type := if u5 then svcSpec_Type d else svcSpec_Type t in
  Ok (mkService (setAnnotations (setLabels (svc_Meta target) labels) annotations)
        (mkServiceSpec ports selector type (svcSpec_ClusterIP t)),
      u1 || u2 || u3 || u4 || u5).

Definition CopyServiceAccountFields (desired target : ServiceAccount)
    : go (ServiceAccount * bool) :=
  let! (labels, u1) := mergeStringMapFields
    (meta_Labels (sa_Meta desired)) (meta_Labels (sa_Meta target)) in
  let! (annotations, u2) := mergeStringMapFields
    (meta_Annotations (sa_Meta desired)) (meta_Annotations (sa_Meta target)) in
  Ok (mkServiceAccount (setAnnotations (setLabels (sa_Meta target) labels) annotations),
      u1 || u2).

Definition CopyRoleBindingFields (desired target : RoleBinding) : go (RoleBinding * bool) :=
  let '(labels, u1) := replaceStringMapFields
    (meta_Labels (rb_Meta desired)) (meta_Labels (rb_Meta target)) in
  let '(annotations, u2) := replaceStringMapFields
    (meta_Annotations (rb_Meta desired)) (meta_Annotations (rb_Meta target)) in
  let u3 := negb (bool_decide (rb_Subjects target = rb_Subjects desired)) in
  let subjects := if u3 then rb_Subjects desired else rb_Subjects target in
  Ok (mkRoleBinding (setAnnotations (setLabels (rb_Meta target) labels) annotations)
        (rb_RoleRef target) subjects,
      u1 || u2 || u3).

Definition CopyVirtualServiceFields (desired target : VirtualService)
    : go (VirtualService * bool) :=
  let! (labels, u1) := copyLabelFields
    (meta_Labels (vs_Meta desired)) (meta_Labels (vs_Meta target)) in
  let! (annotations, u2) := copyAnnotationFields
    (meta_Annotations (vs_Meta desired)) (meta_Annotations (vs_Meta target)) in
  let u3 := negb (bool_decide (vs_Spec target = vs_Spec desired)) in
  let spec := if u3 then vs_Spec desired else vs_Spec target in
  Ok (mkVirtualService (setAnnotations (setLabels (vs_Meta target) labels) annotations) spec,
      u1 || u2 || u3).

Definition CopyHTTPRouteFields (desired target : HTTPRoute) : go (HTTPRoute * bool) :=
  let! (labels, u1) := copyLabelFields
    (meta_Labels (hr_Meta desired)) (meta_Labels (hr_Meta target)) in
  let! (annotations, u2) := copyAnnotationFields
    (meta_Annotations (hr_Meta desired)) (meta_Annotations (hr_Meta target)) in
  let u3 := negb (bool_decide (hr_Spec target = hr_Spec desired)) in
  let spec := if u3 then hr_Spec desired else hr_Spec target in
  Ok (mkHTTPRoute (setAnnotations (setLabels (hr_Meta target) labels) annotations) spec,
      u1 || u2 || u3).

Definition CopyConfigMapFields (desired target : ConfigMap) : go (ConfigMap * bool) :=
  let! (labels, u1) := copyLabelFields
    (meta_Labels (cm_Meta desired)) (meta_Labels (cm_Meta target)) in
  let! (annotations, u2) := copyAnnotationFields
    (meta_Annotations (cm_Meta desired)) (meta_Annotations (cm_Meta target)) in
  let u3 := negb (bool_decide (cm_Data target = cm_Data desired)) in
  let data := if u3 then cm_Data desired else cm_Data target in
  Ok (mkConfigMap (setAnnotations (setLabels (cm_Meta target) labels) annotations) data
        (cm_BinaryData target),
      u1 || u2 || u3).

Definition CopyReferenceGrantFields (desired target : ReferenceGrant)
    : go (ReferenceGrant * bool) :=
  let! (labels, u1) := copyLabelFields
    (meta_Labels (rg_Meta desired)) (meta_Labels (rg_Meta target)) in
  let! (annotations, u2) := copyAnnotationFields
    (meta_Annotations (rg_Meta desired)) (meta_Annotations (rg_Meta target)) in
  let u3 := negb (bool_decide (rg_Spec target = rg_Spec desired)) in
  let spec := if u3 then rg_Spec desired else rg_Spec target in
  Ok (mkReferenceGrant (setAnnotations (setLabels (rg_Meta target) labels) annotations) spec,
      u1 || u2 || u3).

(** ** What the loops compute *)

(** With every key absent or visited once, the copy loop is the left-biased union,
    and the flag tells whether the union differs from the target. *)
Lemma copy_range_spec entries target u :
  NoDup entries.*1 →
  (entries = [] ∨ is_Some target) →
  ∃ target', copy_range entries target u
    = Ok (target', u || negb (bool_decide (list_to_map entries ⊆@{gmap string string} gm target))) ∧
    gm target' = list_to_map entries ∪ gm target ∧
    (list_to_map entries ⊆@{gmap string string} gm target → target' = target).
Proof.
  revert target u. induction entries as [|[k v] entries IH]; intros target u Hnd Ht.
  { exists target. simpl. rewrite bool_decide_eq_true_2 by apply map_empty_subseteq.
    rewrite orb_false_r, (left_id_L ∅ (∪)). done. }
  destruct Ht as [?|[m ->]]; [done|]. simpl in *. apply NoDup_cons in Hnd as [Hk Hnd].
  assert (Hk' : (list_to_map entries : gmap string string) !! k = None)
    by by apply not_elem_of_list_to_map_1.
  clear Hk. rename Hk' into Hk.
  change (gm (Some m)) with m in *.
  destruct (decide (m !! k = Some v)) as [Hm|Hm];
    [rewrite bool_decide_eq_true_2 by done|rewrite bool_decide_eq_false_2 by done].
  - destruct (IH (Some m) u Hnd) as (t' & -> & Hu & Hs); [eauto|]. simpl in *.
    assert (Heq : <[k := v]> (list_to_map entries) ⊆@{gmap string string} m
                  ↔ list_to_map entries ⊆@{gmap string string} m).
    { split; [|by apply insert_subseteq_l].
      intros H. transitivity (<[k := v]> (list_to_map entries) : gmap string string);
        [by apply insert_subseteq|exact H]. }
    exists t'. rewrite (bool_decide_ext _ _ Heq). split; [done|]. split; [|tauto].
    rewrite Hu. apply map_eq. intros i. rewrite <-insert_union_l.
    destruct (decide (i = k)) as [->|]; simplify_map_eq; [|done].
    by rewrite lookup_union_r.
  - cbn [gm_assign go_bind].
    destruct (IH (Some (<[k := v]> m)) true Hnd) as (t' & Heq & Hu & Hs); [eauto|].
    assert (Hn : ¬ <[k := v]> (list_to_map entries) ⊆@{gmap string string} m).
    { intros Hsub. apply Hm. eapply lookup_weaken; [|exact Hsub]. by simplify_map_eq. }
    exists t'. rewrite (bool_decide_eq_false_2 _ Hn), orb_true_r.
    split; [exact Heq|]. split; [|done]. rewrite Hu. simpl. apply map_eq. intros i.
    rewrite <-insert_union_l. unfold gm. simpl. destruct (decide (i = k)) as [->|Hne].
    + rewrite lookup_union_r by done. by rewrite !lookup_insert_eq.
    + rewrite (lookup_insert_ne (_ ∪ _)) by done. rewrite !lookup_union.
      by rewrite lookup_insert_ne.
Qed.

(** Whatever order the entries are visited in, the copy loop ends in the same map
    with the same flag. *)
Lemma copy_range_order (m : gmap string string) entries target :
  entries ≡ₚ map_to_list m →
  m = ∅ ∨ is_Some target →
  ∃ target', copy_range entries target false
    = Ok (target', negb (bool_decide (m ⊆ gm target))) ∧
    gm target' = m ∪ gm target ∧ (m ⊆ gm target → target' = target).
Proof.
  intros Hp Ht. pose proof (NoDup_fst_map_to_list m) as Hnd.
  assert (Hm : list_to_map entries = m).
  { rewrite <-(list_to_map_to_list m). apply list_to_map_proper; [|done]. by rewrite Hp. }
  destruct (copy_range_spec entries target false) as (t' & Heq & Hu & Hs).
  - by rewrite Hp.
  - destruct Ht as [->|?]; [left|by right]. rewrite map_to_list_empty in Hp.
    by apply Permutation_nil_r in Hp.
  - rewrite Hm in Heq, Hu, Hs. eauto.
Qed.

Lemma copyLabelFields_spec d t :
  ∃ t', copyLabelFields d t = Ok (t', negb (bool_decide (gm d ⊆ gm t))) ∧
    gm t' = gm d ∪ gm t ∧ (gm d ⊆ gm t → t' = t).
Proof.
  unfold copyLabelFields. destruct t as [t|].
  { apply copy_range_order; [done|eauto]. }
  destruct (decide (gm d = ∅)) as [Hd|Hd].
  { rewrite Hd, map_size_empty. simpl. apply copy_range_order; [done|by left]. }
  assert (0 < size (gm d)) as Hlt%Nat.ltb_lt.
  { assert (size (gm d) ≠ 0); [|lia]. by rewrite map_size_empty_iff. }
  rewrite Hlt. destruct (copy_range_order (gm d) (map_to_list (gm d)) (Some ∅)) as
    (t' & Heq & Hu & Hs); [done|eauto|].
  exists t'. rewrite Heq. split; [done|]. split; [done|].
  intros Hsub. destruct Hd. by apply (anti_symm (⊆)); [|apply map_empty_subseteq].
Qed.

Lemma copyAnnotationFields_copyLabelFields : copyAnnotationFields = copyLabelFields.
Proof. done. Qed.

(** What merging leaves under a key: a desired entry wins, except that an empty
    desired value does not create a missing key. *)
Definition merged_lookup (d t : gmap string string) (k : string) : option string :=
  match d !! k with
  | None => t !! k
  | Some v => if bool_decide (v = "" ∧ t !! k = None) then None else Some v
  end.

Lemma merge_range_spec entries target u :
  NoDup entries.*1 →
  let d : gmap string string := list_to_map entries in
  ∃ target', merge_range entries target u
    = Ok (target', u || negb (bool_decide (map_Forall (λ k v, gm_index target k = v) d))) ∧
    (∀ k, gm target' !! k = merged_lookup d (gm target) k).
Proof.
  revert target u. induction entries as [|[k v] entries IH]; intros target u Hnd; simpl.
  { exists target. rewrite bool_decide_eq_true_2 by apply map_Forall_empty.
    by rewrite orb_false_r. }
  simpl in Hnd. apply NoDup_cons in Hnd as [Hk Hnd].
  assert (Hk' : (list_to_map entries : gmap string string) !! k = None)
    by by apply not_elem_of_list_to_map_1.
  set (d := list_to_map entries : gmap string string) in *.
  set (t0 := match target with None => Some ∅ | Some _ => target end).
  assert (Ht0 : gm t0 = gm target) by by destruct target.
  assert (Hidx : gm_index t0 k = gm_index target k) by (unfold gm_index; by rewrite Ht0).
  assert (Hall : map_Forall (λ k v, gm_index target k = v) (<[k := v]> d) ↔
    gm_index target k = v ∧ map_Forall (λ k v, gm_index target k = v) d)
    by exact (map_Forall_insert (λ k v, gm_index target k = v) d k v Hk').
  rewrite (bool_decide_ext _ _ Hall).
  assert (Hmerged : ∀ i, merged_lookup (<[k := v]> d) (gm target) i =
    if decide (i = k) then (if bool_decide (v = "" ∧ gm target !! k = None) then None else Some v)
    else merged_lookup d (gm target) i).
  { intros i. unfold merged_lookup. destruct (decide (i = k)) as [->|].
    - by rewrite lookup_insert_eq.
    - by rewrite lookup_insert_ne. }
  destruct (decide (gm_index t0 k = v)) as [Hv|Hv];
    [rewrite bool_decide_eq_true_2 by done|rewrite bool_decide_eq_false_2 by done].
  - destruct (IH t0 u Hnd) as (t' & Heq & Hl). exists t'. split.
    + rewrite Heq. do 4 f_equal. apply bool_decide_ext. fold d.
      unfold gm_index in *. rewrite Ht0 in *. tauto.
    + intros i. rewrite Hmerged, Hl. fold d. rewrite Ht0.
      destruct (decide (i = k)) as [->|]; [|done]. unfold merged_lookup. rewrite Hk'.
      unfold gm_index in Hv. rewrite Ht0 in Hv.
      destruct (gm target !! k) as [w|] eqn:Hw; simpl in Hv; subst.
      * rewrite bool_decide_eq_false_2; [done|by intros [_ ?]].
      * by rewrite bool_decide_eq_true_2.
  - destruct t0 as [m|] eqn:Em; [|subst t0; by destruct target]. unfold gm in Ht0; simpl in Ht0.
    cbn [gm_assign go_bind].
    destruct (IH (Some (<[k := v]> m)) true Hnd) as (t' & Heq & Hl). exists t'. split.
    + rewrite Heq, (bool_decide_eq_false_2 (_ ∧ _)); [by rewrite orb_true_r|].
      intros [Hv' _]. by rewrite Hidx in Hv.
    + intros i. rewrite Hmerged, Hl. fold d. unfold merged_lookup. unfold gm at 1 3. simpl.
      destruct (decide (i = k)) as [->|Hne].
      * rewrite Hk', lookup_insert_eq, bool_decide_eq_false_2; [done|].
        intros [-> Hn]. apply Hv. rewrite Hidx. unfold gm_index. by rewrite Hn.
      * rewrite lookup_insert_ne by done. by rewrite Ht0.
Qed.

Lemma merge_range_order (m : gmap string string) entries target :
  entries ≡ₚ map_to_list m →
  ∃ target', merge_range entries target false
    = Ok (target', negb (bool_decide (map_Forall (λ k v, gm_index target k = v) m))) ∧
    (∀ k, gm target' !! k = merged_lookup m (gm target) k).
Proof.
  intros Hp. pose proof (NoDup_fst_map_to_list m) as Hnd.
  assert (Hm : list_to_map entries = m).
  { rewrite <-(list_to_map_to_list m). apply list_to_map_proper; [|done]. by rewrite Hp. }
  destruct (merge_range_spec entries target false) as (t' & Heq & Hl); [by rewrite Hp|].
  rewrite Hm in Heq, Hl. eauto.
Qed.

Lemma mergeStringMapFields_spec d t :
  ∃ t', mergeStringMapFields d t
    = Ok (t', negb (bool_decide (map_Forall (λ k v, gm_index t k = v) (gm d)))) ∧
    (∀ k, gm t' !! k = merged_lookup (gm d) (gm t) k).
Proof. by apply merge_range_order. Qed.

(** ** Semantic equality of metadata *)

(** Equal but for nil versus empty labels and annotations: what
    [equality.Semantic.DeepEqual] sees. *)
Definition meta_equiv (m1 m2 : ObjectMeta) : Prop :=
  meta_Labels m1 ≡ₘ meta_Labels m2 ∧ meta_Annotations m1 ≡ₘ meta_Annotations m2 ∧
  setAnnotations (setLabels m1 None) None = setAnnotations (setLabels m2 None) None.

#[global] Instance meta_equiv_equivalence : Equivalence meta_equiv.
Proof.
  split; unfold meta_equiv.
  - done.
  - intros m1 m2 (? & ? & ?). by repeat split.
  - intros m1 m2 m3 (H1 & H2 & H3) (H1' & H2' & H3').
    split; [by rewrite H1|]. split; [by rewrite H2|congruence].
Qed.

(** Everything but the labels and the annotations is the same. *)
Definition meta_frame (m1 m2 : ObjectMeta) : Prop :=
  setAnnotations (setLabels m1 None) None = setAnnotations (setLabels m2 None) None.

(** The three relations between the desired and the existing map: the existing map
    has every desired entry; is the desired map; reads as the desired value on
    every desired key. *)
Definition map_contains (d t : gomap) : Prop := gm d ⊆ gm t.
Definition map_reads (d t : gomap) : Prop := map_Forall (λ k v, gm_index t k = v) (gm d).

#[global] Instance map_reads_proper : Proper (gm_equiv ==> gm_equiv ==> iff) map_reads.
Proof.
  intros d1 d2 Hd t1 t2 Ht. unfold map_reads, gm_equiv, gm_index in *. by rewrite Hd, Ht.
Qed.

#[global] Instance map_contains_proper : Proper (gm_equiv ==> gm_equiv ==> iff) map_contains.
Proof. intros d1 d2 Hd t1 t2 Ht. unfold map_contains. by rewrite Hd, Ht. Qed.

(** ** The interface used by the reconcilers *)

Class CopyFields (T : Type) := {
  (** The merge: the updated target and whether an update is required. *)
  copyFields : T → T → go (T * bool);
  (** No nil pointer is dereferenced. *)
  copyDefined : T → T → Prop;
  (** The target agrees with the desired object on every managed field. *)
  converged : T → T → Prop;
  (** The two objects differ only in managed fields. *)
  sameUnmanaged : T → T → Prop;
  (** Semantic equality. *)
  semEqual : T → T → Prop;
}.

Class CopyFieldsLaws (T : Type) `{CopyFields T} : Prop := {
  copy_total d t : copyDefined d t → ∃ t' u, copyFields d t = Ok (t', u);
  copy_defined d t t' u : copyFields d t = Ok (t', u) → copyDefined d t';
  copy_converged d t t' u : copyFields d t = Ok (t', u) → converged d t';
  copy_exact d t t' u : copyFields d t = Ok (t', u) → (u = false ↔ converged d t);
  copy_noop d t t' : copyFields d t = Ok (t', false) → semEqual t' t;
  copy_frame d t t' u : copyFields d t = Ok (t', u) → sameUnmanaged t t';
}.

(** The laws make repeated merging settle after one step. *)
Lemma copy_settles `{CopyFieldsLaws T} (d t t' : T) u :
  copyFields d t = Ok (t', u) →
  ∃ t'', copyFields d t' = Ok (t'', false) ∧ semEqual t'' t'.
Proof.
  intros Hc. destruct (copy_total d t' (copy_defined _ _ _ _ Hc)) as (t'' & u' & Hc').
  assert (u' = false) as -> by (eapply copy_exact; [exact Hc'|by eapply copy_converged]).
  exists t''. split; [done|]. by eapply copy_noop.
Qed.

(** ** The instances *)

#[global] Instance copy_StatefulSet : CopyFields StatefulSet := {
  copyFields := CopyStatefulSetFields;
  copyDefined d t := is_Some (stsSpec_Replicas (sts_Spec d)) ∧
                     is_Some (stsSpec_Replicas (sts_Spec t));
  converged d t :=
    meta_Labels (sts_Meta d) ≡ₘ meta_Labels (sts_Meta t) ∧
    meta_Annotations (sts_Meta d) ≡ₘ meta_Annotations (sts_Meta t) ∧
    stsSpec_Replicas (sts_Spec t) = stsSpec_Replicas (sts_Spec d) ∧
    stsSpec_Selector (sts_Spec t) = stsSpec_Selector (sts_Spec d) ∧
    stsSpec_Template (sts_Spec t) = stsSpec_Template (sts_Spec d);
  sameUnmanaged t t' := meta_frame (sts_Meta t) (sts_Meta t') ∧
    stsSpec_Rest (sts_Spec t) = stsSpec_Rest (sts_Spec t');
  semEqual t t' := meta_equiv (sts_Meta t) (sts_Meta t') ∧ sts_Spec t = sts_Spec t';
}.

#[global] Instance copy_Service : CopyFields Service := {
  copyFields := CopyServiceFields;
  copyDefined _ _ := True;
  converged d t :=
    map_contains (meta_Labels (svc_Meta d)) (meta_Labels (svc_Meta t)) ∧
    map_contains (meta_Annotations (svc_Meta d)) (meta_Annotations (svc_Meta t)) ∧
    svcSpec_Ports (svc_Spec t) = svcSpec_Ports (svc_Spec d) ∧
    svcSpec_Selector (svc_Spec t) = svcSpec_Selector (svc_Spec d) ∧
    svcSpec_Type (svc_Spec t) = svcSpec_Type (svc_Spec d);
  sameUnmanaged t t' := meta_frame (svc_Meta t) (svc_Meta t') ∧
    svcSpec_ClusterIP (svc_Spec t) = svcSpec_ClusterIP (svc_Spec t');
  semEqual := eq;
}.

#[global] Instance copy_ServiceAccount : CopyFields ServiceAccount := {
  copyFields := CopyServiceAccountFields;
  copyDefined _ _ := True;
  converged d t :=
    map_reads (meta_Labels (sa_Meta d)) (meta_Labels (sa_Meta t)) ∧
    map_reads (meta_Annotations (sa_Meta d)) (meta_Annotations (sa_Meta t));
  sameUnmanaged t t' := meta_frame (sa_Meta t) (sa_Meta t');
  semEqual t t' := meta_equiv (sa_Meta t) (sa_Meta t');
}.

#[global] Instance copy_RoleBinding : CopyFields RoleBinding := {
  copyFields := CopyRoleBindingFields;
  copyDefined _ _ := True;
  converged d t :=
    meta_Labels (rb_Meta d) ≡ₘ meta_Labels (rb_Meta t) ∧
    meta_Annotations (rb_Meta d) ≡ₘ meta_Annotations (rb_Meta t) ∧
    rb_Subjects t = rb_Subjects d;
  sameUnmanaged t t' := meta_frame (rb_Meta t) (rb_Meta t') ∧ rb_RoleRef t = rb_RoleRef t';
  semEqual t t' := meta_equiv (rb_Meta t) (rb_Meta t') ∧ rb_RoleRef t = rb_RoleRef t' ∧
    rb_Subjects t = rb_Subjects t';
}.

#[global] Instance copy_VirtualService : CopyFields VirtualService := {
  copyFields := CopyVirtualServiceFields;
  copyDefined _ _ := True;
  converged d t :=
    map_contains (meta_Labels (vs_Meta d)) (meta_Labels (vs_Meta t)) ∧
    map_contains (meta_Annotations (vs_Meta d)) (meta_Annotations (vs_Meta t)) ∧
    vs_Spec t = vs_Spec d;
  sameUnmanaged t t' := meta_frame (vs_Meta t) (vs_Meta t');
  semEqual := eq;
}.

#[global] Instance copy_HTTPRoute : CopyFields HTTPRoute := {
  copyFields := CopyHTTPRouteFields;
  copyDefined _ _ := True;
  converged d t :=
    map_contains (meta_Labels (hr_Meta d)) (meta_Labels (hr_Meta t)) ∧
    map_contains (meta_Annotations (hr_Meta d)) (meta_Annotations (hr_Meta t)) ∧
    hr_Spec t = hr_Spec d;
  sameUnmanaged t t' := meta_frame (hr_Meta t) (hr_Meta t');
  semEqual := eq;
}.

#[global] Instance copy_ConfigMap : CopyFields ConfigMap := {
  copyFields := CopyConfigMapFields;
  copyDefined _ _ := True;
  converged d t :=
    map_contains (meta_Labels (cm_Meta d)) (meta_Labels (cm_Meta t)) ∧
    map_contains (meta_Annotations (cm_Meta d)) (meta_Annotations (cm_Meta t)) ∧
    cm_Data t = cm_Data d;
  sameUnmanaged t t' := meta_frame (cm_Meta t) (cm_Meta t') ∧ cm_BinaryData t = cm_BinaryData t';
  semEqual := eq;
}.

#[global] Instance copy_ReferenceGrant : CopyFields ReferenceGrant := {
  copyFields := CopyReferenceGrantFields;
  copyDefined _ _ := True;
  converged d t :=
    map_contains (meta_Labels (rg_Meta d)) (meta_Labels (rg_Meta t)) ∧
    map_contains (meta_Annotations (rg_Meta d)) (meta_Annotations (rg_Meta t)) ∧
    rg_Spec t = rg_Spec d;
  sameUnmanaged t t' := meta_frame (rg_Meta t) (rg_Meta t');
  semEqual := eq;
}.

(** ** The laws hold *)

(** The consequences of the map specifications in the form the laws need. *)
Lemma copyLabelFields_ok d t t' u :
  copyLabelFields d t = Ok (t', u) →
  map_contains d t' ∧ (u = false ↔ map_contains d t) ∧ (u = false → t' = t).
Proof.
  destruct (copyLabelFields_spec d t) as (t1 & -> & Hg & Hs). intros [= <- <-].
  unfold map_contains. rewrite Hg, negb_false_iff, bool_decide_eq_true.
  split; [|done]. apply map_union_subseteq_l.
Qed.

Lemma mergeStringMapFields_ok d t t' u :
  mergeStringMapFields d t = Ok (t', u) →
  map_reads d t' ∧ (u = false ↔ map_reads d t) ∧ (u = false → t' ≡ₘ t).
Proof.
  destruct (mergeStringMapFields_spec d t) as (t1 & -> & Hl). intros [= <- <-].
  rewrite negb_false_iff, bool_decide_eq_true. unfold map_reads.
  split; [|split; [done|]].
  - intros k v Hk. unfold gm_index. rewrite Hl. unfold merged_lookup. rewrite Hk.
    case_bool_decide; naive_solver.
  - intros Hr. apply map_eq. intros k. rewrite Hl. unfold merged_lookup.
    destruct (gm d !! k) as [v|] eqn:Hk; [|done]. specialize (Hr k v Hk).
    unfold gm_index in Hr. case_bool_decide as Hd; [naive_solver|].
    destruct (gm t !! k) eqn:Ht; simpl in Hr; subst; [done|]. by destruct Hd.
Qed.

Lemma copied_eq `{EqDecision A} (a b : A) :
  (if negb (bool_decide (a = b)) then b else a) = b.
Proof. case_bool_decide; done. Qed.

Lemma replaceStringMapFields_ok d t :
  (replaceStringMapFields d t).2 = false ↔ d ≡ₘ t.
Proof. simpl. rewrite negb_false_iff. apply bool_decide_eq_true. Qed.

Lemma negb_bool_decide_false (P : Prop) `{Decision P} : negb (bool_decide P) = false ↔ P.
Proof. rewrite negb_false_iff. apply bool_decide_eq_true. Qed.

Lemma orb_false_both a b : a || b = false ↔ a = false ∧ b = false.
Proof. apply orb_false_iff. Qed.

Create Rewrite HintDb go_copy.
#[export] Hint Rewrite @copied_eq @negb_bool_decide_false orb_false_both : go_copy.

(** Unfold a successful [Copy*Fields] into what its map helpers did. *)
Ltac copy_inv :=
  unfold copyFields, copyDefined, converged, sameUnmanaged, semEqual in *;
  repeat match goal with
  | H : go_bind ?c _ = Ok _ |- _ =>
      let E := fresh "E" in destruct c as [[? ?]| |] eqn:E; cbn [go_bind] in H;
      [|discriminate H..]
  | H : copyLabelFields _ _ = Ok _ |- _ => apply copyLabelFields_ok in H as (? & ? & ?)
  | H : copyAnnotationFields _ _ = Ok _ |- _ => apply copyLabelFields_ok in H as (? & ? & ?)
  | H : mergeStringMapFields _ _ = Ok _ |- _ =>
      apply mergeStringMapFields_ok in H as (? & ? & ?)
  end; simplify_eq/=; autorewrite with go_copy in *.

Ltac copy_total_by_maps :=
  rewrite ?copyAnnotationFields_copyLabelFields;
  repeat match goal with
  | |- context [copyLabelFields ?d ?t] =>
      let H := fresh in
      destruct (copyLabelFields_spec d t) as (? & H & _); rewrite H; clear H; cbn [go_bind]
  | |- context [mergeStringMapFields ?d ?t] =>
      let H := fresh in
      destruct (mergeStringMapFields_spec d t) as (? & H & _); rewrite H; clear H; cbn [go_bind]
  end; eauto.

Lemma setMeta_id m : setAnnotations (setLabels m (meta_Labels m)) (meta_Annotations m) = m.
Proof. by destruct m. Qed.

(** An object whose flag stayed false was not changed. *)
Ltac copy_noop_eq t :=
  copy_inv; destruct_and?; subst;
  repeat match goal with H : false = false → _ |- _ => specialize (H eq_refl) end; subst;
  rewrite setMeta_id; destruct t; simpl in *; f_equal; try congruence.

#[global] Instance copy_Service_laws : CopyFieldsLaws Service.
Proof.
  split; cbn; unfold CopyServiceFields; [by intros; copy_total_by_maps|done|..].
  - intros. copy_inv. done.
  - intros. copy_inv. tauto.
  - intros d t t' Hc. copy_noop_eq t. destruct svc_Spec; simpl in *; congruence.
  - intros. copy_inv. done.
Qed.

#[global] Instance copy_VirtualService_laws : CopyFieldsLaws VirtualService.
Proof.
  split; cbn; unfold CopyVirtualServiceFields; [by intros; copy_total_by_maps|done|..].
  - intros. copy_inv. done.
  - intros. copy_inv. tauto.
  - intros d t t' Hc. copy_noop_eq t.
  - intros. copy_inv. done.
Qed.

#[global] Instance copy_HTTPRoute_laws : CopyFieldsLaws HTTPRoute.
Proof.
  split; cbn; unfold CopyHTTPRouteFields; [by intros; copy_total_by_maps|done|..].
  - intros. copy_inv. done.
  - intros. copy_inv. tauto.
  - intros d t t' Hc. copy_noop_eq t.
  - intros. copy_inv. done.
Qed.

#[global] Instance copy_ConfigMap_laws : CopyFieldsLaws ConfigMap.
Proof.
  split; cbn; unfold CopyConfigMapFields; [by intros; copy_total_by_maps|done|..].
  - intros. copy_inv. done.
  - intros. copy_inv. tauto.
  - intros d t t' Hc. copy_noop_eq t.
  - intros. copy_inv. done.
Qed.

#[global] Instance copy_ReferenceGrant_laws : CopyFieldsLaws ReferenceGrant.
Proof.
  split; cbn; unfold CopyReferenceGrantFields; [by intros; copy_total_by_maps|done|..].
  - intros. copy_inv. done.
  - intros. copy_inv. tauto.
  - intros d t t' Hc. copy_noop_eq t.
  - intros. copy_inv. done.
Qed.

#[global] Instance copy_ServiceAccount_laws : CopyFieldsLaws ServiceAccount.
Proof.
  split; cbn; unfold CopyServiceAccountFields; [by intros; copy_total_by_maps|done|..].
  - intros. copy_inv. done.
  - intros. copy_inv. tauto.
  - intros d t t' Hc. copy_inv. unfold meta_equiv. simpl. naive_solver.
  - intros. copy_inv. done.
Qed.

#[global] Instance copy_RoleBinding_laws : CopyFieldsLaws RoleBinding.
Proof.
  split; cbn; unfold CopyRoleBindingFields; [by eauto|done|..].
  - intros. copy_inv. done.
  - intros. copy_inv. tauto.
  - intros d t t' Hc. copy_inv. unfold meta_equiv. simpl. naive_solver.
  - intros. copy_inv. done.
Qed.

(** The StatefulSet function also reads both replica pointers. *)
Lemma CopyStatefulSetFields_ok d t t' u :
  CopyStatefulSetFields d t = Ok (t', u) →
  ∃ rd rt, stsSpec_Replicas (sts_Spec d) = Some rd ∧ stsSpec_Replicas (sts_Spec t) = Some rt ∧
    t' = mkStatefulSet
      (setAnnotations (setLabels (sts_Meta t) (meta_Labels (sts_Meta d)))
         (meta_Annotations (sts_Meta d)))
      (mkStatefulSetSpec (Some rd) (stsSpec_Selector (sts_Spec d))
         (stsSpec_Template (sts_Spec d)) (stsSpec_Rest (sts_Spec t))) ∧
    (u = false ↔ converged d t).
Proof.
  unfold CopyStatefulSetFields. simpl.
  destruct (stsSpec_Replicas (sts_Spec d)) as [rd|] eqn:Hd; [|done].
  destruct (stsSpec_Replicas (sts_Spec t)) as [rt|] eqn:Ht; [|done].
  intros [= <- <-]. exists rd, rt. rewrite !copied_eq. repeat (split; [done|]). split.
  - do 2 f_equal. f_equal. destruct (Z.eqb_spec rd rt); simpl; congruence.
  - autorewrite with go_copy. rewrite negb_false_iff, Z.eqb_eq. simpl. rewrite ?Hd, ?Ht.
    split; [intros ((((? & ?) & ->) & ?) & ?)|intros (? & ? & [= ->] & ? & ?)]; done.
Qed.

#[global] Instance copy_StatefulSet_laws : CopyFieldsLaws StatefulSet.
Proof.
  split.
  - intros d t [[rd Hd] [rt Ht]]. simpl. unfold CopyStatefulSetFields. simpl.
    rewrite Hd, Ht. eauto.
  - intros d t t' u (rd & rt & Hd & Ht & -> & _)%CopyStatefulSetFields_ok. split; simpl; eauto.
  - intros d t t' u (rd & rt & Hd & Ht & -> & _)%CopyStatefulSetFields_ok. by rewrite <-Hd.
  - intros d t t' u (rd & rt & Hd & Ht & -> & Hu)%CopyStatefulSetFields_ok. done.
  - intros d t t' (rd & rt & Hd & Ht & -> & [Hu _])%CopyStatefulSetFields_ok.
    destruct (Hu eq_refl) as (H1 & H2 & H3 & H4 & H5).
    split; [done|]. simpl. destruct t as [m []]; simpl in *; congruence.
  - intros d t t' u (rd & rt & Hd & Ht & -> & _)%CopyStatefulSetFields_ok. done.
Qed.

(** ** Properties *)

(** [CopyStatefulSetFields] never dereferences nil when both objects have
    replicas; it makes the target equal to the desired StatefulSet on labels,
    annotations (stale keys removed), replicas, selector and template, leaves every
    other field alone, requires an update exactly when some managed field
    differed, and a second call requires none. *)
Theorem CopyStatefulSetFields_correct d t :
  is_Some (stsSpec_Replicas (sts_Spec d)) →
  is_Some (stsSpec_Replicas (sts_Spec t)) →
  ∃ t' u, CopyStatefulSetFields d t = Ok (t', u) ∧
    meta_Labels (sts_Meta t') = meta_Labels (sts_Meta d) ∧
    meta_Annotations (sts_Meta t') = meta_Annotations (sts_Meta d) ∧
    meta_frame (sts_Meta t) (sts_Meta t') ∧
    sts_Spec t' = mkStatefulSetSpec (stsSpec_Replicas (sts_Spec d))
      (stsSpec_Selector (sts_Spec d)) (stsSpec_Template (sts_Spec d))
      (stsSpec_Rest (sts_Spec t)) ∧
    (u = false ↔ meta_equiv (sts_Meta t) (sts_Meta t') ∧ sts_Spec t = sts_Spec t') ∧
    CopyStatefulSetFields d t' = Ok (t', false).
Proof.
  intros Hd Ht. destruct (copy_total d t) as (t' & u & Hc); [by split|].
  simpl in Hc.
  exists t', u. pose proof Hc as (rd & rt & Hrd & Hrt & -> & Hu)%CopyStatefulSetFields_ok.
  rewrite Hrd. repeat (split; [done|]). split.
  - rewrite Hu. simpl. unfold meta_equiv. simpl. destruct t as [m []]; simpl in *.
    rewrite Hrd. naive_solver.
  - unfold CopyStatefulSetFields. simpl. rewrite Hrd, Z.eqb_refl.
    by rewrite !bool_decide_eq_true_2.
Qed.

Definition exampleMeta (labels : gomap) : ObjectMeta :=
  mkObjectMeta "sts" "" "ns" "uid" "7" 1 0 None labels None [] ["keep"].

Definition exampleSts (labels : gomap) (replicas : Z) : StatefulSet :=
  mkStatefulSet (exampleMeta labels)
    (mkStatefulSetSpec (Some replicas) {["app" := "ws"]}
       (mkPodTemplateSpec {["app" := "ws"]} ∅
          (mkPodSpec None [] ∅ "" None "" [] [])) "rest").

Lemma CopyStatefulSetFields_correct_witness :
  ∃ t' u,
    CopyStatefulSetFields (exampleSts (Some {["new" := "1"]}) 0)
                          (exampleSts (Some {["stale" := "x"]}) 1) = Ok (t', u) ∧
    meta_Labels (sts_Meta t') = Some {["new" := "1"]}.
Proof.
  destruct (CopyStatefulSetFields_correct
    (exampleSts (Some {["new" := "1"]}) 0) (exampleSts (Some {["stale" := "x"]}) 1))
    as (t' & u & Hc & Hl & _); [by eexists|by eexists|].
  exists t', u. split; [exact Hc|exact Hl].
Defined.

(** [CopyServiceFields] never panics; labels and annotations set by other
    actors and the [clusterIP] are preserved while every desired entry, the ports,
    the selector and the type are applied; without a required update the object is
    returned as it was, the flag is false exactly then, and a second call requires
    no update. *)
Theorem CopyServiceFields_correct d t :
  ∃ t' u, CopyServiceFields d t = Ok (t', u) ∧
    gm (meta_Labels (svc_Meta t')) = gm (meta_Labels (svc_Meta d)) ∪ gm (meta_Labels (svc_Meta t)) ∧
    gm (meta_Annotations (svc_Meta t')) =
      gm (meta_Annotations (svc_Meta d)) ∪ gm (meta_Annotations (svc_Meta t)) ∧
    meta_frame (svc_Meta t) (svc_Meta t') ∧
    svc_Spec t' = mkServiceSpec (svcSpec_Ports (svc_Spec d)) (svcSpec_Selector (svc_Spec d))
      (svcSpec_Type (svc_Spec d)) (svcSpec_ClusterIP (svc_Spec t)) ∧
    (u = false ↔ t' = t) ∧
    CopyServiceFields d t' = Ok (t', false).
Proof.
  destruct (copyLabelFields_spec (meta_Labels (svc_Meta d)) (meta_Labels (svc_Meta t)))
    as (l & El & Gl & _).
  destruct (copyLabelFields_spec (meta_Annotations (svc_Meta d)) (meta_Annotations (svc_Meta t)))
    as (a & Ea & Ga & _).
  destruct (copy_total d t) as (t' & u & Hc); [exact I|].
  destruct (copy_settles d t t' u Hc) as (t'' & Hs & Heq). simpl in Heq. subst t''.
  exists t', u. split; [exact Hc|].
  assert (Hu : u = false ↔ t' = t).
  { split; [intros ->; exact (copy_noop d t t' Hc)|]. intros ->.
    apply (copy_exact d t t u Hc), (copy_converged d t t u Hc). }
  simpl in Hc, Hs. pose proof Hc as Hc'. unfold CopyServiceFields in Hc'.
  rewrite copyAnnotationFields_copyLabelFields, El in Hc'. cbn [go_bind] in Hc'.
  rewrite Ea in Hc'. cbn [go_bind] in Hc'. rewrite !copied_eq in Hc'.
  injection Hc' as <- _. simpl. do 4 (split; [done|]). by split.
Qed.

(** Whatever order Go's [range] visits the desired entries in,
    [copyLabelFields]'s loop (the same as [copyAnnotationFields]') neither panics nor
    changes its result: the desired entries over the existing ones, with an update
    required exactly when a desired entry was missing or different. *)
Theorem copyLabelFields_any_order d t entries t0 :
  entries ≡ₚ map_to_list (gm d) →
  (t0 = t ∨ (t = None ∧ t0 = Some ∅)) → (t0 = None → gm d = ∅) →
  ∃ t', copy_range entries t0 false = Ok (t', negb (bool_decide (gm d ⊆ gm t))) ∧
    gm t' = gm d ∪ gm t ∧
    copyLabelFields d t ≠ Panic "assignment to entry in nil map" ∧
    ∃ t'', copyLabelFields d t = Ok (t'', negb (bool_decide (gm d ⊆ gm t))) ∧ t'' ≡ₘ t'.
Proof.
  intros Hp Ht0 Hn. assert (Hg : gm t0 = gm t) by (destruct Ht0 as [->|[-> ->]]; done).
  destruct (copy_range_order (gm d) entries t0 Hp) as (t' & Heq & Hu & _).
  { destruct t0; [right; eauto|left; auto]. }
  rewrite Hg in *. exists t'. split; [done|]. split; [done|].
  destruct (copyLabelFields_spec d t) as (t'' & -> & Hg'' & _). split; [done|].
  exists t''. split; [done|]. unfold gm_equiv. congruence.
Qed.

Lemma copyLabelFields_any_order_witness :
  ∃ t', copy_range [("b", "2"); ("a", "1")] (Some {["z" := "9"]}) false = Ok (t', true) ∧
    gm t' = gm (Some {["a" := "1"; "b" := "2"]}) ∪ gm (Some {["z" := "9"]}).
Proof.
  destruct (copyLabelFields_any_order (Some {["a" := "1"; "b" := "2"]}) (Some {["z" := "9"]})
    [("b", "2"); ("a", "1")] (Some {["z" := "9"]})) as (t' & Hc & Hg & _).
  - assert (H : map_to_list (gm (Some {["a" := "1"; "b" := "2"]}))
                = [("a", "1"); ("b", "2")] ∨
                map_to_list (gm (Some {["a" := "1"; "b" := "2"]}))
                = [("b", "2"); ("a", "1")]) by (vm_compute; auto).
    destruct H as [->| ->]; [apply Permutation_swap|reflexivity].
  - by left.
  - done.
  - exists t'. split; [|exact Hg]. rewrite Hc. f_equal.
Defined.

(** [CopyServiceAccountFields] never panics and preserves the labels and
    annotations that only the existing ServiceAccount has; afterwards every desired
    key reads as its desired value, but a key whose desired value is empty is not
    created, so it is "set" only in the sense of reading as the empty string. *)
Theorem CopyServiceAccountFields_correct d t :
  ∃ t' u, CopyServiceAccountFields d t = Ok (t', u) ∧
    (∀ k, gm (meta_Labels (sa_Meta t')) !! k =
       merged_lookup (gm (meta_Labels (sa_Meta d))) (gm (meta_Labels (sa_Meta t))) k) ∧
    (∀ k, gm (meta_Annotations (sa_Meta t')) !! k =
       merged_lookup (gm (meta_Annotations (sa_Meta d))) (gm (meta_Annotations (sa_Meta t))) k) ∧
    meta_frame (sa_Meta t) (sa_Meta t') ∧
    (u = false ↔ meta_equiv (sa_Meta t') (sa_Meta t)) ∧
    ∃ t'', CopyServiceAccountFields d t' = Ok (t'', false) ∧ meta_equiv (sa_Meta t'') (sa_Meta t').
Proof.
  destruct (mergeStringMapFields_spec (meta_Labels (sa_Meta d)) (meta_Labels (sa_Meta t)))
    as (l & El & Gl).
  destruct (mergeStringMapFields_spec (meta_Annotations (sa_Meta d))
    (meta_Annotations (sa_Meta t))) as (a & Ea & Ga).
  destruct (copy_total d t) as (t' & u & Hc); [exact I|].
  destruct (copy_settles d t t' u Hc) as (t'' & Hs & Heq). simpl in Heq.
  exists t', u. split; [exact Hc|].
  assert (Hu : u = false ↔ meta_equiv (sa_Meta t') (sa_Meta t)).
  { split; [intros ->; exact (copy_noop d t t' Hc)|]. intros (H1 & H2 & _).
    apply (copy_exact d t t' u Hc). destruct (copy_converged d t t' u Hc) as [C1 C2].
    split; [by rewrite <-H1|by rewrite <-H2]. }
  simpl in Hc, Hs. pose proof Hc as Hc'. unfold CopyServiceAccountFields in Hc'.
  rewrite El in Hc'. cbn [go_bind] in Hc'. rewrite Ea in Hc'. cbn [go_bind] in Hc'.
  injection Hc' as <- _. simpl. do 3 (split; [done|]). split; [done|]. by exists t''.
Qed.
