(* ===== verification/Options.v ===== *)
(** * Resolving the selected options ([workspace_controller.go])

    [getImageConfig] and [getPodConfig] look up the option a Workspace selects in its
    WorkspaceKind and follow the option's redirects.  The two functions are the
    same code on two types, modelled once over the interface [OptionValue].

    The loop's fuel is one more than the number of options: [follow_no_panic] shows
    that it never runs out, since every iteration visits a new option. *)

From S2P Require Import Prelude K8sTypes ApiTypes Graph.
From stdpp Require Import base gmap strings list relations.

(** ** The interface: values with an id and possibly a redirect *)

Class OptionValue (V : Type) := {
  opt_Id : V → string;
  opt_Redirect : V → option OptionRedirect;
  opt_noun : string;  (** how error messages name the option *)
}.
#[global] Hint Mode OptionValue ! : typeclass_instances.

#[global] Instance imageConfig_option : OptionValue ImageConfigValue := {
  opt_Id := icv_Id; opt_Redirect := icv_Redirect; opt_noun := "imageConfig" }.
#[global] Instance podConfig_option : OptionValue PodConfigValue := {
  opt_Id := pcv_Id; opt_Redirect := pcv_Redirect; opt_noun := "podConfig" }.

Section options.
Context {V : Type} `{OptionValue V}.

(** ** The functions *)

(** The [for desired.Redirect != nil] loop: the desired option and the chain of
    redirects, or an error. *)
Fixpoint followRedirects (fuel : nat) (idMap : gmap string V) (visitedNodes : gset string)
    (desired : V) (redirectChain : list WorkspacePodOptionRedirectStep)
    : go (V * list WorkspacePodOptionRedirectStep) :=
  match fuel with
  | O => Panic "redirect loop out of fuel"
  | S fuel =>
    match opt_Redirect desired with
    | None => Ok (desired, redirectChain)
    | Some redirect =>
      if bool_decide (redir_To redirect ∈ visitedNodes) then
        Err (ErrorMsg (opt_noun (V := V) +:+ " with id " +:+ quote (opt_Id desired)
                       +:+ " has a circular redirect"))
      else match idMap !! redir_To redirect with
      | None =>
        Err (ErrorMsg (opt_noun (V := V) +:+ " with id " +:+ quote (redir_To redirect)
                       +:+ " not found, was redirected from " +:+ quote (opt_Id desired)))
      | Some nextNode =>
        followRedirects fuel idMap ({[opt_Id nextNode]} ∪ visitedNodes) nextNode
          (redirectChain ++ [mkRedirectStep (opt_Id desired) (opt_Id nextNode)])
      end
    end
  end.

(** The current option and, when redirects lead elsewhere, the desired one with
    the chain. *)
Definition resolveOption (values : list V) (key : string)
    : go (V * option (V * list WorkspacePodOptionRedirectStep)) :=
  let idMap := index_by opt_Id values in
  match idMap !! key with
  | None => Err (ErrorMsg (opt_noun (V := V) +:+ " with id " +:+ quote key +:+ " not found"))
  | Some current =>
    let! (desired, redirectChain) :=
      followRedirects (S (size idMap)) idMap {[opt_Id current]} current [] in
    if bool_decide (opt_Id current = opt_Id desired) then Ok (current, None)
    else Ok (current, Some (desired, redirectChain))
  end.
End options.

Definition getImageConfig (workspace : Workspace) (workspaceKind : WorkspaceKind)
    : go (ImageConfigValue * option (ImageConfigValue * list WorkspacePodOptionRedirectStep)) :=
  resolveOption (wsk_ImageValues workspaceKind) (wpo_ImageConfig (ws_Options workspace)).

Definition getPodConfig (workspace : Workspace) (workspaceKind : WorkspaceKind)
    : go (PodConfigValue * option (PodConfigValue * list WorkspacePodOptionRedirectStep)) :=
  resolveOption (wsk_PodValues workspaceKind) (wpo_PodConfig (ws_Options workspace)).

(** ** The specification: following redirects as a relation *)

Section resolves.
Context {V : Type} `{OptionValue V} (idMap : gmap string V).

(** [resolves v steps d]: from [v], the redirects [steps] lead to [d], which has
    no redirect. *)
Inductive resolves : V → list WorkspacePodOptionRedirectStep → V → Prop :=
| resolves_here v : opt_Redirect v = None → resolves v [] v
| resolves_step v r w steps d :
    opt_Redirect v = Some r → idMap !! redir_To r = Some w → resolves w steps d →
    resolves v (mkRedirectStep (opt_Id v) (opt_Id w) :: steps) d.

(** The map is keyed by the options' ids. *)
Definition keyed : Prop := ∀ k v, idMap !! k = Some v → opt_Id v = k.

Lemma resolves_fun v s1 d1 s2 d2 :
  resolves v s1 d1 → resolves v s2 d2 → s1 = s2 ∧ d1 = d2.
Proof.
  intros H1. revert s2 d2. induction H1 as [v Hv|v r w s d Hr Hw _ IH]; intros s2 d2 H2;
    inversion H2; simplify_eq; [done|].
  edestruct IH as [-> ->]; [eassumption|done].
Qed.

Lemma resolves_end v s d : resolves v s d → opt_Redirect d = None.
Proof. by induction 1. Qed.

(** A target on the chain resolves along the rest of the chain. *)
Lemma resolves_target v s d t :
  keyed → resolves v s d → t ∈ step_Target <$> s →
  ∃ w s', idMap !! t = Some w ∧ resolves w s' d ∧ length s' < length s.
Proof.
  intros Hkey. induction 1 as [|v r w s d Hr Hw Hres IH]; [set_solver|].
  rewrite fmap_cons, elem_of_cons. simpl. intros [->|Ht].
  - exists w, s. rewrite (Hkey _ _ Hw). auto.
  - destruct (IH Ht) as (w' & s' & ? & ? & ?). exists w', s'. auto with lia.
Qed.

(** No option occurs twice. *)
Lemma resolves_NoDup v s d :
  keyed → idMap !! opt_Id v = Some v → resolves v s d →
  NoDup (opt_Id v :: (step_Target <$> s)).
Proof.
  intros Hkey Hv Hres. revert Hv.
  induction Hres as [v|v r w s d Hr Hw Hres IH]; intros Hv; simpl.
  { apply NoDup_singleton. }
  pose proof (Hkey _ _ Hw) as Hid. rewrite <-Hid in Hw.
  apply NoDup_cons. split; [|by apply IH].
  intros Hin. assert (Hfull := resolves_step v r w s d Hr ltac:(congruence) Hres).
  destruct (resolves_target v (mkRedirectStep (opt_Id v) (opt_Id w) :: s) d (opt_Id v))
    as (v' & s' & Hv' & Hres' & Hlt); [done|done|by rewrite fmap_cons|].
  simplify_eq. destruct (resolves_fun _ _ _ _ _ Hfull Hres') as [<- _]. lia.
Qed.

Lemma resolves_elem v s d t :
  keyed → resolves v s d → t ∈ step_Target <$> s → is_Some (idMap !! t).
Proof. intros Hk Hr Ht. edestruct resolves_target as (w & ? & ? & ?); eauto. Qed.

Lemma resolves_length v s d :
  keyed → idMap !! opt_Id v = Some v → resolves v s d → length s < size idMap.
Proof.
  intros Hkey Hv Hres. pose proof (resolves_NoDup _ _ _ Hkey Hv Hres) as Hnd.
  rewrite <-size_dom. apply (Nat.lt_le_trans _ (length (opt_Id v :: (step_Target <$> s)))).
  { simpl. rewrite length_fmap. lia. }
  rewrite <-(size_list_to_set (C := gset string)) by done. apply subseteq_size.
  intros t. rewrite elem_of_list_to_set, elem_of_dom, elem_of_cons.
  intros [->|Ht]; [eauto|by eapply resolves_elem].
Qed.

(** The chain is a path: it starts at the first option, each target is the next
    source, and it ends at the option without redirect. *)
Fixpoint is_path (from : string) (steps : list WorkspacePodOptionRedirectStep)
    (to : string) : Prop :=
  match steps with
  | [] => from = to
  | s :: rest => step_Source s = from ∧ is_path (step_Target s) rest to
  end.

Lemma resolves_path v s d : resolves v s d → is_path (opt_Id v) s (opt_Id d).
Proof. by induction 1. Qed.

(** ** The loop computes the relation *)

Lemma follow_sound fuel visited v chain d chain' :
  followRedirects fuel idMap visited v chain = Ok (d, chain') →
  ∃ steps, chain' = chain ++ steps ∧ resolves v steps d.
Proof.
  revert visited v chain. induction fuel as [|fuel IH]; intros visited v chain; simpl; [done|].
  destruct (opt_Redirect v) as [r|] eqn:Hr.
  - case_bool_decide; [done|]. destruct (idMap !! redir_To r) as [w|] eqn:Hw; [|done].
    intros (steps & -> & Hres)%IH. eexists. rewrite <-(assoc_L (++)). split; [done|].
    by econstructor.
  - intros [= <- <-]. exists []. rewrite app_nil_r. split; [done|by constructor].
Qed.

Lemma follow_complete fuel visited v chain d steps :
  keyed → resolves v steps d → length steps < fuel →
  NoDup (step_Target <$> steps) →
  (∀ t, t ∈ step_Target <$> steps → t ∉ visited) →
  followRedirects fuel idMap visited v chain = Ok (d, chain ++ steps).
Proof.
  intros Hkey Hres. revert fuel visited chain.
  induction Hres as [v Hv|v r w s d Hr Hw Hres IH]; intros [|fuel] visited chain Hf Hnd Hvis;
    simpl in *; try lia.
  - by rewrite Hv, app_nil_r.
  - rewrite Hr. pose proof (Hkey _ _ Hw) as Hid. apply NoDup_cons in Hnd as [Hw' Hnd].
    rewrite bool_decide_eq_false_2 by (rewrite <-Hid; apply Hvis; set_solver).
    rewrite Hw, IH; [by rewrite <-(assoc_L (++))|lia|done|].
    intros t Ht. rewrite elem_of_union, elem_of_singleton. intros [->|Hin]; [done|].
    by apply (Hvis t); [set_solver|].
Qed.

Lemma follow_no_panic fuel visited v chain why :
  keyed → (∀ t, t ∈ visited → is_Some (idMap !! t)) →
  size idMap < fuel + size visited →
  followRedirects fuel idMap visited v chain ≠ Panic why.
Proof.
  intros Hkey. revert visited v chain. induction fuel as [|fuel IH];
    intros visited v chain Hvis Hf; simpl.
  - assert (size visited ≤ size idMap); [|lia]. rewrite <-size_dom.
    apply subseteq_size. intros t. rewrite elem_of_dom. apply Hvis.
  - destruct (opt_Redirect v) as [r|]; [|done]. case_bool_decide as Hin; [done|].
    destruct (idMap !! redir_To r) as [w|] eqn:Hw; [|done].
    pose proof (Hkey _ _ Hw) as Hid. apply IH.
    + intros t. rewrite elem_of_union, elem_of_singleton. intros [->|?]; [|auto].
      rewrite Hid. eauto.
    + rewrite size_union, size_singleton by (rewrite Hid; set_solver). lia.
Qed.
End resolves.

Lemma index_by_keyed {V} `{OptionValue V} (values : list V) : keyed (index_by opt_Id values).
Proof. intros k v Hv. by apply index_by_lookup_Some in Hv as [_ ?]. Qed.

#[export] Hint Resolve index_by_keyed : go.

Section resolveOption.
Context {V : Type} `{OptionValue V} (values : list V).
Let idMap := index_by opt_Id values.

Lemma resolveOption_no_panic key why : resolveOption values key ≠ Panic why.
Proof.
  unfold resolveOption. fold idMap. destruct (idMap !! key) as [cur|] eqn:Hk; [|done].
  destruct (followRedirects _ _ _ _ _) as [[d c]| |w] eqn:E; simpl; [by case_bool_decide|done|].
  exfalso. revert E. apply follow_no_panic; [apply index_by_keyed| |rewrite size_singleton; lia].
  intros t ->%elem_of_singleton.
  rewrite (index_by_keyed values _ _ Hk). by exists cur.
Qed.

(** Success is exactly resolution; the desired option is reported when there was
    a redirect. *)
Lemma resolveOption_Ok key cur out :
  resolveOption values key = Ok (cur, out) ↔
  idMap !! key = Some cur ∧
  ∃ steps d, resolves idMap cur steps d ∧
    out = match steps with [] => None | _ => Some (d, steps) end.
Proof.
  unfold resolveOption. fold idMap.
  assert (Hkey : keyed idMap) by apply index_by_keyed.
  assert (Hsame : ∀ v steps d, idMap !! opt_Id v = Some v → resolves idMap v steps d →
    (opt_Id v = opt_Id d ↔ steps = [])).
  { intros v steps d Hv Hres. split; [|intros ->; by inversion Hres].
    intros Heq. pose proof (resolves_path _ _ _ _ Hres) as Hp.
    pose proof (resolves_NoDup _ _ _ _ Hkey Hv Hres) as Hnd. rewrite Heq in Hnd.
    destruct steps as [|s steps]; [done|]. exfalso.
    apply NoDup_cons in Hnd as [Hnd _]. apply Hnd. clear -Hp.
    destruct Hp as [_ Hp]. revert s Hp. induction steps as [|s' steps IH]; intros s Hp;
      simpl in *; [subst; set_solver|]. destruct Hp as [_ Hp].
    apply elem_of_cons. right. by apply IH. }
  destruct (idMap !! key) as [v|] eqn:Hk; [|naive_solver].
  pose proof (Hkey _ _ Hk) as Hid. assert (Hv : idMap !! opt_Id v = Some v) by by rewrite Hid.
  split.
  - destruct (followRedirects _ _ _ _ _) as [[d c]| |] eqn:E; [|done..]. simpl.
    apply follow_sound in E as (steps & -> & Hres). simpl.
    specialize (Hsame _ _ _ Hv Hres). case_bool_decide as Hd; intros [= <- <-];
      split; try done; exists steps, d; (split; [done|]).
    + by rewrite (proj1 Hsame Hd).
    + destruct steps; [|done]. by destruct Hd; apply Hsame.
  - intros [[= ->] (steps & d & Hres & ->)].
    rewrite (follow_complete _ _ _ _ _ d steps Hkey Hres); simpl.
    + specialize (Hsame _ _ _ Hv Hres). case_bool_decide as Hd.
      * by rewrite (proj1 Hsame Hd).
      * destruct steps; [|done]. by destruct Hd; apply Hsame.
    + pose proof (resolves_length _ _ _ _ Hkey Hv Hres). lia.
    + by pose proof (resolves_NoDup _ _ _ _ Hkey Hv Hres) as [_ ?]%NoDup_cons.
    + pose proof (resolves_NoDup _ _ _ _ Hkey Hv Hres) as [Hn _]%NoDup_cons.
      intros t Ht ->%elem_of_singleton. done.
Qed.
End resolveOption.

(** ** Redirects as a graph *)

Section edges.
Context {V : Type} `{OptionValue V} (idMap : gmap string V).

(** One edge per option with a redirect. *)
Definition redirectEdges : gmap string string :=
  omap (λ v, redir_To <$> opt_Redirect v) idMap.

Lemma redirectEdges_Some k t :
  redirectEdges !! k = Some t ↔
  ∃ v r, idMap !! k = Some v ∧ opt_Redirect v = Some r ∧ redir_To r = t.
Proof.
  unfold redirectEdges. rewrite lookup_omap, bind_Some.
  setoid_rewrite fmap_Some. naive_solver.
Qed.

(** Every redirect leads to an existing option. *)
Definition targets_exist : Prop :=
  ∀ k t, redirectEdges !! k = Some t → is_Some (idMap !! t).

(** With existing targets, an option whose walk ends resolves. *)
Lemma ends_resolves k v :
  targets_exist → ends redirectEdges k → idMap !! k = Some v →
  ∃ steps d, resolves idMap v steps d.
Proof.
  intros Htgt Hends. revert v. induction Hends as [k Hk|k t Hkt Ht IH]; intros v Hv.
  - exists [], v. constructor. destruct (opt_Redirect v) as [r|] eqn:Hr; [|done].
    assert (redirectEdges !! k = Some (redir_To r)) as Hs
      by (apply redirectEdges_Some; eauto). congruence.
  - destruct (Htgt _ _ Hkt) as [w Hw]. destruct (IH _ Hw) as (steps & d & Hres).
    apply redirectEdges_Some in Hkt as (v' & r & ? & ? & <-). simplify_eq.
    eexists _, d. by econstructor.
Qed.
End edges.

(** ** Properties *)

(** What a call must return for the options [values] and the selected [key]. *)
Definition resolution_correct {V} `{OptionValue V} (values : list V) (key : string)
    (result : go (V * option (V * list WorkspacePodOptionRedirectStep))) : Prop :=
  match result with
  | Ok (current, None) =>
      current ∈ values ∧ opt_Id current = key ∧ opt_Redirect current = None
  | Ok (current, Some (desired, chain)) =>
      current ∈ values ∧ opt_Id current = key ∧
      desired ∈ values ∧ opt_Redirect desired = None ∧
      chain ≠ [] ∧ is_path key chain (opt_Id desired) ∧
      NoDup (key :: (step_Target <$> chain)) ∧
      Forall (λ s, ∃ v r, v ∈ values ∧ opt_Id v = step_Source s ∧
                opt_Redirect v = Some r ∧ redir_To r = step_Target s) chain
  | Err _ => ¬ ∃ current steps desired,
      index_by opt_Id values !! key = Some current ∧
      resolves (index_by opt_Id values) current steps desired
  | Panic _ => False
  end.

Lemma resolves_steps {V} `{OptionValue V} (values : list V) v steps d :
  v ∈ values → resolves (index_by opt_Id values) v steps d →
  d ∈ values ∧
  Forall (λ s, ∃ v r, v ∈ values ∧ opt_Id v = step_Source s ∧
            opt_Redirect v = Some r ∧ redir_To r = step_Target s) steps.
Proof.
  intros Hin Hres. revert Hin. induction Hres as [v Hv|v r w s d Hr Hw Hres IH]; intros Hin.
  { split; [done|constructor]. }
  pose proof (index_by_lookup_Some _ _ _ _ Hw) as [Hw' Hid].
  destruct (IH Hw') as [Hd Hs]. split; [done|]. constructor; [|done].
  exists v, r. auto.
Qed.

Lemma resolveOption_correct {V} `{OptionValue V} (values : list V) key :
  resolution_correct values key (resolveOption values key).
Proof.
  unfold resolution_correct.
  destruct (resolveOption values key) as [[cur out]|e|w] eqn:E.
  - apply resolveOption_Ok in E as [Hcur (steps & d & Hres & ->)].
    pose proof (index_by_lookup_Some _ _ _ _ Hcur) as [Hin Hid].
    destruct (resolves_steps _ _ _ _ Hin Hres) as [Hd Hsteps].
    destruct steps as [|s steps]; [inversion Hres; by subst|].
    pose proof (resolves_path _ _ _ _ Hres) as Hpath. rewrite Hid in Hpath.
    repeat (split; [done|]). split; [by eapply resolves_end|]. split; [done|].
    split; [done|]. split; [|done]. rewrite <-Hid.
    eapply resolves_NoDup; [apply index_by_keyed|by rewrite Hid|done].
  - intros (cur & steps & d & Hcur & Hres).
    assert (resolveOption values key
      = Ok (cur, match steps with [] => None | _ => Some (d, steps) end)) as E'
      by (apply resolveOption_Ok; eauto). congruence.
  - by eapply resolveOption_no_panic.
Qed.

(** C22: [getImageConfig] and [getPodConfig] always terminate without panicking.
    On success the current option is the selected one; a desired option is reported
    exactly when the selected one has a redirect, has no redirect itself, and the
    chain is a repetition-free path of the kind's redirects from the selected to the
    desired option; an error is returned only when the selected option does not
    exist or following its redirects ends at no option. *)
Theorem redirects_resolved workspace workspaceKind :
  resolution_correct (wsk_ImageValues workspaceKind)
    (wpo_ImageConfig (ws_Options workspace)) (getImageConfig workspace workspaceKind) ∧
  resolution_correct (wsk_PodValues workspaceKind)
    (wpo_PodConfig (ws_Options workspace)) (getPodConfig workspace workspaceKind).
Proof. split; apply resolveOption_correct. Qed.
