(* ===== verification/Client.v ===== *)
(** * Programs that call the API server

    The reconcilers are sequences of requests (to the API server, the clock, the
    probes) whose continuation depends on the answers.  [prog] is that tree;
    [runs] relates a program to the histories of requests and answers it can go
    through, with every answer possible, so a theorem about all histories holds
    against an API server that fails, conflicts or serves stale data at any point.
    [sat] is the corresponding weakest precondition, by which the proofs go.
    [interp] runs a program against a stateful handler. *)

From S2P Require Import Prelude K8sTypes ApiTypes.
From stdpp Require Import base gmap strings list.

(** ** Kinds and objects *)

Inductive kind :=
| KWorkspace | KWorkspaceKind | KStatefulSet | KService | KServiceAccount
| KRoleBinding | KClusterRoleBinding | KConfigMap | KVirtualService | KHTTPRoute
| KReferenceGrant | KPod | KEvent | KNamespace
| KSecret | KSecretMetadata | KPersistentVolumeClaim | KPersistentVolume | KStorageClass
| KPodMetrics.

Definition obj (k : kind) : Type :=
  match k with
  | KWorkspace => Workspace | KWorkspaceKind => WorkspaceKind
  | KStatefulSet => StatefulSet | KService => Service | KServiceAccount => ServiceAccount
  | KRoleBinding => RoleBinding | KClusterRoleBinding => ClusterRoleBinding
  | KConfigMap => ConfigMap | KVirtualService => VirtualService | KHTTPRoute => HTTPRoute
  | KReferenceGrant => ReferenceGrant | KPod => Pod | KEvent => Event
  | KNamespace => Namespace
  | KSecret => Secret | KSecretMetadata => PartialObjectMetadata
  | KPersistentVolumeClaim => PersistentVolumeClaim | KPersistentVolume => PersistentVolume
  | KStorageClass => StorageClass | KPodMetrics => PodMetrics
  end.

#[global] Instance kind_eq_dec : EqDecision kind.
Proof. solve_decision. Defined.

(** [client.ListOptions]: a field selector (index name and value), the label
    selector, and the namespace (empty for all). *)
Record ListOptions := mkListOptions {
  lo_field : option (string * string);
  lo_labels : gmap string string;
  lo_namespace : string;
}.

(** ** Outcomes of the activity probes' transports *)

(** [HTTPProber.Get]: an error (and whether it, or the context, is a deadline), or
    a response with a body that can break off with an error. *)
Inductive http_outcome :=
| HTTPError (deadline : bool) (msg : string)
| HTTPResponse (statusCode : Z) (body : string) (readError : option string).

(** [PodExecutor.Exec]: the chunks written to stdout, and an error if any (with the
    exit code that [errors.As] finds in it). *)
Record exec_error := mkExecError {
  xe_deadline : bool;
  xe_exitStatus : option Z;
  xe_msg : string;
}.
Record exec_outcome := mkExecOutcome {
  xo_stdout : list string;
  xo_error : option exec_error;
}.

(** A JSON patch operation, with the values the code sends. *)
Inductive patch_value :=
| PatchBool (b : bool)
| PatchState (s : WorkspaceState).
Record WorkspacePatchOperation := mkPatchOperation {
  patch_Op : string;
  patch_Path : string;
  patch_Value : patch_value;
}.

(** [corev1.PodLogOptions], with the fields the code sets. *)
Record PodLogOptions := mkPodLogOptions {
  plo_Container : string;
  plo_TailLines : Z;
  plo_LimitBytes : Z;
  plo_Previous : bool;
  plo_Follow : bool;
  plo_Timestamps : bool;
  plo_SinceTime : option Z;
}.

(** ** Requests *)

(** An answer of the API server: a value or an error. *)
Abbreviation answer A := (A + error)%type.

Inductive req : Type → Type :=
| Get (k : kind) (namespace name : string) : req (answer (obj k))
| List (k : kind) (opts : ListOptions) : req (answer (list (obj k)))
| Create (k : kind) (o : obj k) : req (answer (obj k))
| Update (k : kind) (o : obj k) : req (answer (obj k))
| UpdateStatus (k : kind) (o : obj k) : req (answer (obj k))
| Patch (k : kind) (o base : obj k) : req (answer (obj k))  (** [client.MergeFrom(base)] *)
| Delete (k : kind) (namespace name : string) : req (answer ())
| Now : req Z  (** nanoseconds since the epoch *)
| HTTPGet (url : string) (timeout : Z) : req http_outcome
| PodExec (namespace pod container : string) (command : list string) (stdin : string)
    (timeout : Z) : req exec_outcome
| RandRead (n : nat) : req (answer (list Z))
| GetUnstructured (gvk name : string) : req (answer string)  (** serialised *)
| FIPS140Enabled : req bool
| ReadFile (path : string) : req (answer string)
| JSONPatch (k : kind) (namespace name : string) (ops : list WorkspacePatchOperation)
    : req (answer (obj k))
| GetPodLogs (namespace pod : string) (opts : PodLogOptions) : req (answer string)
| CreateTokenReview (token : string) : req (answer TokenReviewStatus)
| Authorize (attributes : Attributes) : req (answer (AuthorizerDecision * string))
| MetricsRESTMapping : req (answer ())  (** the mapper knows [PodMetrics] *)
| ContextErr : req (option error).  (** [ctx.Err()] *)

(** The requests that change the cluster. *)
Definition is_write {X} (q : req X) : bool :=
  match q with
  | Create _ _ | Update _ _ | UpdateStatus _ _ | Patch _ _ _ | Delete _ _ _
  | JSONPatch _ _ _ _ => true
  | _ => false
  end.

(** ** Programs *)

Inductive prog (R : Type) : Type :=
| Ret (r : R)
| Vis {X : Type} (q : req X) (k : X → prog R).
Arguments Ret {R} _.
Arguments Vis {R X} _ _.

Fixpoint pbind {A B} (p : prog A) (f : A → prog B) : prog B :=
  match p with
  | Ret a => f a
  | Vis q k => Vis q (λ x, pbind (k x) f)
  end.

(** One request. *)
Definition call {X} (q : req X) : prog X := Vis q Ret.

Notation "x <-- p ;; k" := (pbind p (λ x, k))
  (at level 20, p at level 99, k at level 200) : go_scope.
Notation "' pat <-- p ;; k" := (pbind p (λ x, match x with pat => k end))
  (at level 20, pat pattern, p at level 99, k at level 200) : go_scope.

(** ** Histories *)

Inductive event :=
| Ev {X : Type} (q : req X) (x : X).

(** [runs p h r]: answered as in [h], the program ends with [r]. *)
Fixpoint runs {R} (p : prog R) (h : list event) (r : R) : Prop :=
  match p with
  | Ret r' => h = [] ∧ r' = r
  | Vis q k => ∃ x h', h = Ev q x :: h' ∧ runs (k x) h' r
  end.

(** [sat p h Q]: started after the history [h], every run of [p] ends with a
    history and a result that satisfy [Q]. *)
Fixpoint sat {R} (p : prog R) (h : list event) (Q : list event → R → Prop) : Prop :=
  match p with
  | Ret r => Q h r
  | Vis q k => ∀ x, sat (k x) (h ++ [Ev q x]) Q
  end.

Lemma sat_runs {R} (p : prog R) h Q :
  sat p h Q ↔ ∀ h' r, runs p h' r → Q (h ++ h') r.
Proof.
  revert h. induction p as [r|X q k IH]; intros h; simpl.
  - split.
    + intros HQ h' r' [-> ->]. by rewrite app_nil_r.
    + intros HQ. rewrite <-(app_nil_r h). by apply HQ.
  - split.
    + intros HQ h' r (x & h'' & -> & Hr).
      rewrite (cons_middle (Ev q x)), (assoc_L (++)). by apply (IH x (h ++ [Ev q x])).
    + intros HQ x. apply IH. intros h' r Hr.
      rewrite <-(assoc_L (++)). apply HQ. by exists x, h'.
Qed.

Lemma sat_bind {A B} (p : prog A) (f : A → prog B) h Q :
  sat (pbind p f) h Q ↔ sat p h (λ h' a, sat (f a) h' Q).
Proof. revert h. induction p as [a|X q k IH]; intros h; simpl; [done|]. by setoid_rewrite IH. Qed.

Lemma sat_mono {R} (p : prog R) h (Q Q' : list event → R → Prop) :
  sat p h Q → (∀ h' r, Q h' r → Q' h' r) → sat p h Q'.
Proof. revert h. induction p as [r|X q k IH]; intros h; simpl; eauto. Qed.

Lemma sat_and {R} (p : prog R) h (Q Q' : list event → R → Prop) :
  sat p h Q → sat p h Q' → sat p h (λ h' r, Q h' r ∧ Q' h' r).
Proof. revert h. induction p as [r|X q k IH]; intros h; simpl; eauto. Qed.

Lemma sat_call {X} (q : req X) h Q : sat (call q) h Q ↔ ∀ x, Q (h ++ [Ev q x]) x.
Proof. done. Qed.

Lemma runs_bind {A B} (p : prog A) (f : A → prog B) h r :
  runs (pbind p f) h r ↔ ∃ h1 h2 a, h = h1 ++ h2 ∧ runs p h1 a ∧ runs (f a) h2 r.
Proof.
  revert h. induction p as [a|X q k IH]; intros h; simpl.
  - split; [intros Hr; by exists [], h, a|]. by intros (h1 & h2 & ? & -> & [-> <-] & Hr).
  - split.
    + intros (x & h' & -> & Hr). apply IH in Hr as (h1 & h2 & a & -> & Hp & Hf).
      exists (Ev q x :: h1), h2, a. split_and!; [done|by exists x, h1|done].
    + intros (h1 & h2 & a & -> & (x & h' & -> & Hp) & Hf). exists x, (h' ++ h2).
      split; [done|]. apply IH. by exists h', h2, a.
Qed.

(** The history only grows. *)
Lemma sat_prefix {R} (p : prog R) h : sat p h (λ h' _, h `prefix_of` h').
Proof.
  apply sat_runs. intros h' r _. by exists h'.
Qed.

#[global] Instance sat_proper {R} (p : prog R) h :
  Proper (pointwise_relation _ (pointwise_relation _ impl) ==> impl) (sat p h).
Proof. intros Q Q' HQ Hs. eapply sat_mono; [exact Hs|]. intros. by apply HQ. Qed.

(** ** Properties of every request of a program *)

(** [calls_ok P p]: every request the program can make satisfies [P]. *)
Fixpoint calls_ok {R} (P : ∀ X, req X → Prop) (p : prog R) : Prop :=
  match p with
  | Ret _ => True
  | Vis q k => P _ q ∧ ∀ x, calls_ok P (k x)
  end.

Lemma calls_ok_bind {A B} P (p : prog A) (f : A → prog B) :
  calls_ok P p → (∀ a, calls_ok P (f a)) → calls_ok P (pbind p f).
Proof. intros Hp Hf. induction p as [a|X q k IH]; simpl in *; [done|]. naive_solver. Qed.

Lemma calls_ok_mono {R} (P P' : ∀ X, req X → Prop) (p : prog R) :
  (∀ X (q : req X), P X q → P' X q) → calls_ok P p → calls_ok P' p.
Proof. intros HP. induction p as [r|X q k IH]; simpl; [done|]. naive_solver. Qed.

(** Every event of a run satisfies what every request satisfies. *)
Definition event_ok (P : ∀ X, req X → Prop) (e : event) : Prop :=
  match e with Ev q _ => P _ q end.

Lemma calls_ok_runs {R} P (p : prog R) h r :
  calls_ok P p → runs p h r → Forall (event_ok P) h.
Proof.
  revert h. induction p as [r'|X q k IH]; intros h; simpl; [by intros _ [-> _]|].
  intros [Hq Hk] (x & h' & -> & Hr). constructor; [exact Hq|by eapply IH].
Qed.

(** A program none of whose requests can be an event of some sort adds none. *)
Lemma calls_ok_sat {R} P (p : prog R) h :
  calls_ok P p → sat p h (λ h' _, ∃ k, h' = h ++ k ∧ Forall (event_ok P) k).
Proof.
  intros Hp. apply sat_runs. intros k r Hr. exists k. split; [done|]. by eapply calls_ok_runs.
Qed.

(** [results P p]: every result the program can return satisfies [P]. *)
Fixpoint results {R} (P : R → Prop) (p : prog R) : Prop :=
  match p with
  | Ret r => P r
  | Vis _ k => ∀ x, results P (k x)
  end.

Lemma results_bind {A B} (Q : A → Prop) (P : B → Prop) (p : prog A) (f : A → prog B) :
  results Q p → (∀ a, Q a → results P (f a)) → results P (pbind p f).
Proof. induction p as [a|X q k IH]; simpl; naive_solver. Qed.

Lemma results_mono {R} (P Q : R → Prop) (p : prog R) :
  (∀ r, P r → Q r) → results P p → results Q p.
Proof. induction p as [a|X q k IH]; simpl; naive_solver. Qed.

Lemma results_true {R} (P : R → Prop) (p : prog R) : (∀ r, P r) → results P p.
Proof. induction p as [a|X q k IH]; simpl; naive_solver. Qed.

Lemma results_runs {R} (P : R → Prop) (p : prog R) h r : results P p → runs p h r → P r.
Proof.
  revert h. induction p as [a|X q k IH]; intros h; simpl; [by intros ? [_ <-]|].
  intros Hp (x & h' & -> & Hr). by eapply IH.
Qed.

(** [calls_after P p h]: started after [h], every request the program can make
    satisfies [P] of the history before it. *)
Fixpoint calls_after {R} (P : list event → ∀ X, req X → Prop) (p : prog R) (h : list event)
    : Prop :=
  match p with
  | Ret _ => True
  | Vis q k => P h _ q ∧ ∀ x, calls_after P (k x) (h ++ [Ev q x])
  end.

Lemma calls_after_bind {A B} P (p : prog A) (f : A → prog B) h :
  calls_after P p h → sat p h (λ h' a, calls_after P (f a) h') →
  calls_after P (pbind p f) h.
Proof.
  revert h. induction p as [a|X q k IH]; intros h; simpl; [done|].
  intros [Hq Hk] Hf. split; [done|]. intros x. by apply IH.
Qed.

Lemma calls_after_mono {R} P P' (p : prog R) h :
  (∀ h' X (q : req X), h `prefix_of` h' → P h' X q → P' h' X q) →
  calls_after P p h → calls_after P' p h.
Proof.
  revert h. induction p as [r|X q k IH]; intros h HP; simpl; [done|].
  intros [Hq Hk]. split; [by apply HP|]. intros x. apply IH; [|done].
  intros h' Y q' Hp. apply HP. etrans; [|exact Hp]. by apply prefix_app_r.
Qed.

(** What holds of every later history holds of every request. *)
Lemma calls_after_prefix {R} (P : list event → ∀ X, req X → Prop) (p : prog R) h :
  (∀ h' X (q : req X), h `prefix_of` h' → P h' X q) → calls_after P p h.
Proof.
  intros HP. assert (∀ h', h `prefix_of` h' → calls_after P p h') as Hgen; [|by apply Hgen].
  induction p as [r|X q k IH]; intros h' Hh'; simpl; [done|]. split; [by apply HP|].
  intros x. apply IH. by apply prefix_app_r.
Qed.

Lemma calls_ok_after {R} (P : ∀ X, req X → Prop) (P' : list event → ∀ X, req X → Prop)
    (p : prog R) h :
  (∀ h X (q : req X), P X q → P' h X q) → calls_ok P p → calls_after P' p h.
Proof.
  intros HP. revert h. induction p as [r|X q k IH]; intros h; simpl; [done|].
  intros [Hq Hk]. split; [by apply HP|]. intros x. by apply IH.
Qed.

Lemma calls_after_runs {R} P (p : prog R) h h1 X (q : req X) (x : X) h2 r :
  calls_after P p h → runs p (h1 ++ Ev q x :: h2) r → P (h ++ h1) X q.
Proof.
  revert h h1. induction p as [r'|Y q' k IH]; intros h h1; simpl.
  { intros _ [Heq _]. by destruct h1. }
  intros [Hq Hk] (y & h' & Heq & Hr). destruct h1 as [|e h1].
  - rewrite app_nil_r. assert (Ev q x = Ev q' y) as He
      by exact (f_equal (default (Ev q x) ∘ head) Heq).
    change (match Ev q x with @Ev X q _ => P h X q end). by rewrite He.
  - injection Heq as -> <-. rewrite cons_middle, (assoc_L (++)). by eapply IH.
Qed.

(** Every request has an answer, so every program has a run; a property of the requests of
    all runs is one of every request the program can make. *)
Definition some_answer {X} (q : req X) : X :=
  match q in req X return X with
  | Now => 0%Z
  | HTTPGet _ _ => HTTPError false ""
  | PodExec _ _ _ _ _ _ => mkExecOutcome [] None
  | FIPS140Enabled => false
  | ContextErr => None
  | Get _ _ _ | List _ _ | Create _ _ | Update _ _ | UpdateStatus _ _ | Patch _ _ _
  | Delete _ _ _ | RandRead _ | GetUnstructured _ _ | ReadFile _ | JSONPatch _ _ _ _
  | GetPodLogs _ _ _ | CreateTokenReview _ | Authorize _ | MetricsRESTMapping => inr (ErrorMsg "")
  end.

Lemma runs_exists {R} (p : prog R) : ∃ h r, runs p h r.
Proof.
  induction p as [r|X q k IH]; [by exists [], r|].
  destruct (IH (some_answer q)) as (h & r & Hr). exists (Ev q (some_answer q) :: h), r.
  by exists (some_answer q), h.
Qed.

Lemma runs_calls_after {R} (P : list event → event → Prop) (p : prog R) h0 :
  (∀ h r h1 e h2, runs p h r → h = h1 ++ e :: h2 → P (h0 ++ h1) e) →
  calls_after (λ h X q, ∀ x, P h (Ev q x)) p h0.
Proof.
  revert h0. induction p as [r|X q k IH]; intros h0 HP; simpl; [done|]. split.
  - intros x. destruct (runs_exists (k x)) as (h & r & Hr).
    rewrite <-(app_nil_r h0). apply (HP (Ev q x :: h) r [] (Ev q x) h); [by exists x, h|done].
  - intros x. apply IH. intros h r h1 e h2 Hr ->. rewrite <-(assoc_L (++)).
    eapply (HP _ r (Ev q x :: h1) e h2); [|reflexivity]. by exists x, (h1 ++ e :: h2).
Qed.

(** ** Running against a stateful environment *)

(** How an environment with state [S] answers. *)
Definition handler (S : Type) := ∀ X, req X → S → X * S.

Fixpoint interp {S R} (e : handler S) (p : prog R) (s : S) : R * S :=
  match p with
  | Ret r => (r, s)
  | Vis q k => let '(x, s') := e _ q s in interp e (k x) s'
  end.

Lemma interp_bind {S A B} (e : handler S) (p : prog A) (f : A → prog B) s :
  interp e (pbind p f) s = let '(a, s') := interp e p s in interp e (f a) s'.
Proof.
  revert s. induction p as [a|X q k IH]; intros s; simpl; [done|].
  destruct (e X q s) as [x s']. apply IH.
Qed.

(** The history of a run against an environment is a history of the program. *)
Fixpoint trace {S R} (e : handler S) (p : prog R) (s : S) : list event :=
  match p with
  | Ret _ => []
  | Vis q k => let '(x, s') := e _ q s in Ev q x :: trace e (k x) s'
  end.

Lemma interp_runs {S R} (e : handler S) (p : prog R) s :
  runs p (trace e p s) (interp e p s).1.
Proof.
  revert s. induction p as [r|X q k IH]; intros s; simpl; [done|].
  destruct (e X q s) as [x s'] eqn:E. exists x, (trace e (k x) s'). split; [done|]. apply IH.
Qed.

(** ** Reconcile results and early returns *)

(** [ctrl.Result]. *)
Record Result := mkResultOf { res_RequeueAfter : Z; res_Requeue : bool }.

(** [ctrl.Result{RequeueAfter: t}]. *)
Definition mkResult (t : Z) : Result := mkResultOf t false.

(** The zero [ctrl.Result]. *)
Definition emptyResult : Result := mkResult 0.

(** [ctrl.Result{Requeue: true}]. *)
Definition requeue : Result := mkResultOf 0 true.

(** What a reconciler returns: a result and an error (nil or not), unless the run
    time panics. *)
Inductive outcome :=
| Done (result : Result) (err : option error)
| Crashed (why : string).

(** A piece of a reconciler either hands a value to the code below or returns. *)
Inductive flow (A : Type) :=
| Next (a : A)
| Return (o : outcome).
Arguments Next {A} _.
Arguments Return {A} _.

Definition fbind {A B} (p : prog (flow A)) (f : A → prog (flow B)) : prog (flow B) :=
  pbind p (λ r, match r with Next a => f a | Return o => Ret (Return o) end).

Notation "x <~ p ;; k" := (fbind p (λ x, k))
  (at level 20, p at level 99, k at level 200) : go_scope.
Notation "' pat <~ p ;; k" := (fbind p (λ x, match x with pat => k end))
  (at level 20, pat pattern, p at level 99, k at level 200) : go_scope.

(** [if err != nil { return ctrl.Result{}, err }]. *)
Definition or_return {A} (a : answer A) : prog (flow A) :=
  match a with
  | inl v => Ret (Next v)
  | inr e => Ret (Return (Done emptyResult (Some e)))
  end.

(** A pure computation inside a reconciler; panics propagate. *)
Definition lift_go {A} (g : go A) : prog (flow (answer A)) :=
  match g with
  | Ok a => Ret (Next (inl a))
  | Err e => Ret (Next (inr e))
  | Panic w => Ret (Return (Crashed w))
  end.

Lemma sat_fbind {A B} (p : prog (flow A)) (f : A → prog (flow B)) h Q :
  sat (fbind p f) h Q ↔
  sat p h (λ h' r, match r with Next a => sat (f a) h' Q | Return o => Q h' (Return o) end).
Proof.
  unfold fbind. rewrite sat_bind. split; intros Hs; (eapply sat_mono; [exact Hs|]);
    intros h' [a|o]; done.
Qed.

Lemma calls_ok_fbind {A B} P (p : prog (flow A)) (f : A → prog (flow B)) :
  calls_ok P p → (∀ a, calls_ok P (f a)) → calls_ok P (fbind p f).
Proof. intros Hp Hf. apply calls_ok_bind; [done|]. intros [a|o]; [auto|done]. Qed.

#[export] Hint Resolve calls_ok_bind calls_ok_fbind : go.

Lemma calls_after_fbind {A B} P (p : prog (flow A)) (f : A → prog (flow B)) h :
  calls_after P p h →
  sat p h (λ h' r, match r with Next a => calls_after P (f a) h' | Return _ => True end) →
  calls_after P (fbind p f) h.
Proof.
  intros Hp Hf. apply calls_after_bind; [done|]. eapply sat_mono; [exact Hf|].
  by intros h' [a|o].
Qed.

(** ** Time *)

Definition Millisecond : Z := 1000000.
Definition Second : Z := 1000000000.

(** [t.UnixMilli()] of a time in nanoseconds. *)
Definition UnixMilli (t : Z) : Z := wrap64 (t / Millisecond).

(** [metav1.Now().UnixMilli()]. *)
Definition nowMilli : prog Z := t <-- call Now ;; Ret (UnixMilli t).

(** [mergeReconcileResult]: the sooner requeue. *)
Definition mergeReconcileResult (a b : Result) : Result :=
  if (res_RequeueAfter a <=? 0)%Z then b
  else if (res_RequeueAfter b <=? 0)%Z then a
  else if (res_RequeueAfter a <=? res_RequeueAfter b)%Z then a
  else b.
