(* ===== verification/Examples.v ===== *)
(** * Concrete objects

    Small Workspaces, WorkspaceKinds and Pods on which the witnesses evaluate the
    definitions, and an environment that answers every request. *)

From Stdlib Require Import ZArith.
From stdpp Require Import base gmap strings list.
From S2P Require Import Prelude K8sTypes ApiTypes Client.

Definition exMeta (name ns : string) : ObjectMeta :=
  mkObjectMeta name "" ns "uid-1" "1" 1 0 None None None [] [].

Definition exStatus (state : WorkspaceState) (activity : WorkspaceActivity)
    (lastRunning : Z) : WorkspaceStatus :=
  mkWorkspaceStatus activity lastRunning 0 false
    (mkPodOptionsStatus (mkPodOptionInfo "" []) (mkPodOptionInfo "" []))
    (mkWorkspacePodStatus "" "" "" [] []) state "".

Definition exWorkspace (name : string) (paused : bool) (image pod : string)
    (status : WorkspaceStatus) : Workspace :=
  mkWorkspace (exMeta name "ns")
    (mkWorkspaceSpec paused None "jupyterlab"
       (mkWorkspacePodTemplate None
          (mkWorkspacePodVolumes (Some "home-pvc")
             [mkPodVolumeMount "data-pvc" "/data" (Some false)]
             [mkPodSecretMount "secret-1" "/secrets/one" 420])
          (mkWorkspacePodOptions image pod)))
    status.

Definition exSpawnerInfo : OptionSpawnerInfo := mkSpawnerInfo "option" None [] None.

Definition exImage (id : string) (redirect : option string) (ports : list ImagePort)
    : ImageConfigValue :=
  mkImageConfigValue id exSpawnerInfo
    ((λ t, mkRedirect t None) <$> redirect) (mkImageConfigSpec "image:1" None ports).

Definition exPodConfig (id : string) (redirect : option string) : PodConfigValue :=
  mkPodConfigValue id exSpawnerInfo ((λ t, mkRedirect t None) <$> redirect)
    (mkPodConfigSpec None ∅ [] None None).

Definition exPorts : list ImagePort := [mkImagePort "jupyterlab" 8888 None].

Definition exAsset : WorkspaceKindAsset := mkAsset (Some "https://example.com/x.png") None.

Definition exKind (images : list ImageConfigValue) (pods : list PodConfigValue)
    (probe : option ActivityProbe) (rules : list ActivityRule) : WorkspaceKind :=
  mkWorkspaceKind (exMeta "jupyterlab" "")
    (mkKindSpec (mkSpawner "JupyterLab" "" None None None exAsset exAsset)
       (mkKindPodTemplate None None None probe None
          (mkKindVolumeMounts "/home/jovyan")
          [mkKindPort "jupyterlab" ImagePortProtocolHTTP "JupyterLab" None]
          [] [] [] None None None
          (mkKindPodOptions (mkImageConfig (mkOptionsSpawnerConfig "img") images)
             (mkPodConfig (mkOptionsSpawnerConfig "pod") pods)))
       rules [])
    (mkKindStatus 0 (mkOptionsMetrics [] []) (mkImageAssetStatus "" None)
       (mkImageAssetStatus "" None)).

Definition exPod (uid phase : string) (conditions : list PodCondition)
    (containers : list ContainerStatus) : Pod :=
  mkPod (mkObjectMeta "ws-test-abc-0" "" "ns" uid "1" 1 0 None None None [] [])
    "node" [mkPodContainer "main" ""] [] [] phase "10.0.0.1" conditions containers [].

(** An environment at a fixed time: reads find nothing, writes succeed, the Pod
    answers an exec with [x]. *)
Definition exEnv (t : Z) (x : exec_outcome) : handler () :=
  λ X q s, (match q in req X return X with
            | Get _ _ _ => inr (ApiError NotFound "not found")
            | List _ _ => inl []
            | Create _ o => inl o
            | Update _ o => inl o
            | UpdateStatus _ o => inl o
            | Patch _ o _ => inl o
            | Delete _ _ _ => inl ()
            | Now => t
            | HTTPGet _ _ => HTTPError true "timeout"
            | PodExec _ _ _ _ _ _ => x
            | RandRead _ => inl [0%Z]
            | GetUnstructured _ _ => inr (ApiError NoMatch "no match")
            | FIPS140Enabled => false
            | ReadFile _ => inr (ErrorMsg "no such file")
            | JSONPatch _ _ _ _ => inr (ApiError NotFound "not found")
            | GetPodLogs _ _ _ => inr (ApiError NotFound "not found")
            | CreateTokenReview _ => inr (ApiError Unauthorized "no token reviews")
            | Authorize _ => inl (DecisionNoOpinion, "")
            | MetricsRESTMapping => inr (ApiError NoMatch "no match")
            | ContextErr => None
            end, s).

(** A selector library for examples: the empty selector and selectors on the label
    [team] are valid, anything else is not. *)
Definition exampleCompile (s : LabelSelector) : option string + error :=
  if bool_decide (sel_MatchExpressions s = []) then
    if bool_decide (sel_MatchLabels s = ∅) then inl None
    else match sel_MatchLabels s !! "team" with
         | Some v => if bool_decide (sel_MatchLabels s = {["team" := v]}) then inl (Some v)
                     else inr (ErrorMsg "unsupported key")
         | None => inr (ErrorMsg "unsupported key")
         end
  else inr (ErrorMsg "unsupported expression").

Definition exampleSelectorLib : SelectorLib := {|
  Selector := option string;
  LabelSelectorAsSelector := exampleCompile;
  Matches m l := match m with None => true | Some v => bool_decide (l !! "team" = Some v) end;
  FormatLabelSelector s :=
    match exampleCompile s with
    | inl None => "<none>" | inl (Some v) => "team=" +:+ v | inr _ => "<error>"
    end;
|}.

Lemma exampleSelectorLib_laws : @SelectorLibLaws exampleSelectorLib.
Proof.
  intros s1 s2. simpl.
  destruct (exampleCompile s1) as [[v1|]|], (exampleCompile s2) as [[v2|]|]; try done.
  intros Heq. by apply (inj (String.app _)) in Heq as ->.
Qed.


(** An environment for the backend: one Workspace, and PersistentVolumeClaims, Secrets and
    StorageClasses with the given labels under every name. *)
Definition exLabelledMeta (name ns : string) (labels : gmap string string) : ObjectMeta :=
  setLabels (exMeta name ns) (Some labels).

Definition exBackend (w : Workspace) (labels : gmap string string) : handler () := λ X q s,
  (match q in req X return X → X with
   | Get KWorkspace _ _ => λ _, inl w
   | Get KPersistentVolumeClaim ns name => λ _,
       inl (mkPVC (exLabelledMeta name ns labels) (mkPVCSpec ["ReadWriteOnce"] "" None None None))
   | Get KSecret ns name => λ _,
       inl (mkSecret (exLabelledMeta name ns labels) "Opaque" None {["k" := "old"; "drop" := "x"]})
   | Get KStorageClass ns name => λ _, inl (mkStorageClass (exLabelledMeta name ns labels))
   | JSONPatch KWorkspace _ _ _ => λ _, inl w
   | _ => λ x, x
   end (exEnv 0 (mkExecOutcome [] None) X q s).1, s).
