(* ===== verification/Probe.v ===== *)
(** * Activity probes ([internal/helper/probe.go])

    The Jupyter and podExec probes as programs: the HTTP request, the exec call, the
    clock and the random source are requests, so the results hold for every answer.
    Times are nanoseconds since the epoch.  [encoding/json]'s decoding into the two
    response structs and [time.Parse] are parameters ([ProbeLib]). *)

From Stdlib Require Import ZArith Ascii.
From stdpp Require Import base gmap strings list.
From S2P Require Import Prelude K8sTypes ApiTypes Client.

(** ** Constants *)

Definition maxProbeResponseBytes : Z := 1048576.
Definition probeContainerName : string := "main".
Definition jupyterStatusPath : string := "/api/status".
Definition ProbeMessagePrefixJupyterFailed : string := "Jupyter probe failed: ".
Definition ProbeMessageJupyterSucceeded : string := "Jupyter probe succeeded".
Definition ProbeMessagePrefixPodExecFailed : string := "PodExec probe failed: ".
Definition ProbeMessagePodExecSucceeded : string := "PodExec probe succeeded".
Definition ProbeMessagePodNotReady : string := "probe failed: Workspace Pod is not ready".
Definition ProbeMessageNoTypeConfigured : string := "probe failed: no probe type configured".

(** ** Results *)

Record ProbeResult := mkProbeResult {
  pres_StartTime : Z;
  pres_EndTime : Z;
  pres_Result : WorkspaceProbeResult;
  pres_Message : string;
  pres_LastActivity : option Z;
}.

Definition Succeeded (r : ProbeResult) : bool :=
  bool_decide (pres_Result r = WorkspaceProbeResultSuccess).

Definition newFailureResult (startTime : Z) (message : string) : prog ProbeResult :=
  now <-- call Now ;;
  Ret (mkProbeResult startTime now WorkspaceProbeResultFailure message None).

Definition newTimeoutResult (startTime endTime : Z) (message : string) : ProbeResult :=
  mkProbeResult startTime endTime WorkspaceProbeResultTimeout message None.

Definition newSuccessResult (startTime endTime : Z) (message : string)
    (lastActivity : option Z) : ProbeResult :=
  mkProbeResult startTime endTime WorkspaceProbeResultSuccess message lastActivity.

(** The JSON contract of the podExec output. *)
Record podExecOutput := mkPodExecOutput {
  peo_HasActivity : option bool;
  peo_LastActivity : option string;
}.

(** ** The bounded buffer *)

(** [limitedBuffer]: what it holds and its bound. *)
Record limitedBuffer := mkLimitedBuffer { lb_buf : string; lb_max : Z }.

(** [Write]: the buffer and the count returned, the error being always nil. *)
Definition lb_Write (b : limitedBuffer) (p : string) : go (limitedBuffer * Z) :=
  let len := str_len (lb_buf b) in
  if (lb_max b <=? len)%Z then Ok (b, str_len p)
  else
    let! p := if (lb_max b <? len + str_len p)%Z then str_slice_to p (lb_max b - len) else Ok p in
    Ok (mkLimitedBuffer (lb_buf b +:+ p) (lb_max b), str_len p).

Fixpoint lb_WriteAll (b : limitedBuffer) (chunks : list string) : go limitedBuffer :=
  match chunks with
  | [] => Ok b
  | p :: rest => let! (b, _) := lb_Write b p in lb_WriteAll b rest
  end.

(** ** Small string functions *)

(** [strings.TrimSuffix]. *)
Definition TrimSuffix (s suffix : string) : string :=
  let n := slen s - slen suffix in
  if (slen suffix <=? slen s)%nat && bool_decide (String.substring n (slen suffix) s = suffix)
  then str_take n s else s.

Definition is_space (c : ascii) : bool :=
  let n := N_of_ascii c in ((9 <=? n)%N && (n <=? 13)%N) || (n =? 32)%N.

(** The white space of Unicode beyond ASCII, by its two or three bytes in UTF-8: U+0085, U+00A0;
    U+1680, U+2000 to U+200A, U+2028, U+2029, U+202F, U+205F, U+3000. *)
Definition is_space2 (c1 c2 : ascii) : bool :=
  let n := N_of_ascii c2 in
  (N_of_ascii c1 =? 194)%N && ((n =? 133)%N || (n =? 160)%N).
Definition is_space3 (c1 c2 c3 : ascii) : bool :=
  let n := N_of_ascii c3 in
  match N_of_ascii c1, N_of_ascii c2 with
  | 225, 154 => n =? 128
  | 226, 128 => ((128 <=? n) && (n <=? 138)) || (n =? 168) || (n =? 169) || (n =? 175)
  | 226, 129 => n =? 159
  | 227, 128 => n =? 128
  | _, _ => false
  end%N.

(** Drop the characters of one, two and three bytes in front. *)
Fixpoint trimFront (one : ascii → bool) (two : ascii → ascii → bool)
    (three : ascii → ascii → ascii → bool) (s : string) : string :=
  match s with
  | EmptyString => EmptyString
  | String c1 s1 =>
    if one c1 then trimFront one two three s1 else
    match s1 with
    | EmptyString => s
    | String c2 s2 =>
      if two c1 c2 then trimFront one two three s2 else
      match s2 with
      | EmptyString => s
      | String c3 s3 => if three c1 c2 c3 then trimFront one two three s3 else s
      end
    end
  end.

(** [bytes.TrimSpace] and [strings.TrimSpace]. *)
Definition TrimSpace (s : string) : string :=
  let rev s := String.string_of_list_ascii (reverse (chars s)) in
  let left := trimFront is_space is_space2 is_space3 s in
  rev (trimFront is_space (λ c2 c1, is_space2 c1 c2) (λ c3 c2 c1, is_space3 c1 c2 c3) (rev left)).

(** An ideographic space before, a no-break space and a line feed after. *)
Example TrimSpace_unicode :
  let bytes l := String.string_of_list_ascii (ascii_of_nat <$> l) in
  TrimSpace (bytes [227; 128; 128; 32] +:+ "a b" +:+ bytes [194; 160; 10]) = "a b".
Proof. vm_compute. reflexivity. Qed.

(** [io.ReadAll(io.LimitReader(body, max))] on a body that ends, or breaks off with
    an error: the error is only seen before the limit. *)
Definition readAllLimited (body : string) (readError : option string) (max : Z)
    : string + string :=
  if (max <=? str_len body)%Z then inl (str_take (Z.to_nat max) body)
  else match readError with None => inl body | Some e => inr e end.

(** ** The library functions *)

Class ProbeLib := {
  (** [json.Unmarshal] into [jupyterStatusResponse]: its [last_activity]. *)
  unmarshalStatus : string → string + string;
  (** [json.Unmarshal] into [podExecOutput]. *)
  unmarshalPodExec : string → podExecOutput + string;
  (** [time.Parse] with the layouts RFC3339 and RFC3339Nano. *)
  parseRFC3339 : string → Z + string;
  parseRFC3339Nano : string → Z + string;
}.

Section probe.
Context `{ProbeLib}.

Definition parseISO8601 (value : string) : Z + string :=
  if bool_decide (value = "") then inr "empty timestamp"
  else match parseRFC3339 value with
  | inl t => inl t
  | inr _ =>
    match parseRFC3339Nano value with
    | inl t => inl t
    | inr e => inr ("cannot parse timestamp " +:+ quote value +:+ ": " +:+ e)
    end
  end.

(** The activity timestamp ([None] leaves the known one unchanged) or an error. *)
Definition parsePodExecOutput (raw : string) (endTime : Z) : option Z + string :=
  let trimmed := TrimSpace raw in
  if (str_len trimmed =? 0)%Z then inl (Some endTime)
  else match unmarshalPodExec trimmed with
  | inr e => inr ("invalid JSON file: " +:+ e)
  | inl out =>
    match peo_HasActivity out with
    | Some hasActivity => if hasActivity then inl (Some endTime) else inl None
    | None =>
      match peo_LastActivity out with
      | Some lastActivity =>
        match parseISO8601 lastActivity with
        | inr e => inr ("invalid JSON file: " +:+ e)
        | inl t => inl (Some t)
        end
      | None => inl (Some endTime)
      end
    end
  end.

(** [d.Milliseconds()]: truncates towards zero. *)
Definition Milliseconds (d : Z) : Z := Z.quot d Millisecond.

Definition RunJupyterProbe (serviceHost : string) (port : Z) (basePath : string)
    (timeout : Z) : prog ProbeResult :=
  startTime <-- call Now ;;
  let url := "http://" +:+ serviceHost +:+ ":" +:+ itoa port +:+ TrimSuffix basePath "/"
             +:+ jupyterStatusPath in
  resp <-- call (HTTPGet url timeout) ;;
  endTime <-- call Now ;;
  match resp with
  | HTTPError true _ =>
      Ret (newTimeoutResult startTime endTime
        (ProbeMessagePrefixJupyterFailed +:+ "timeout after " +:+ itoa (Milliseconds timeout) +:+ "ms"))
  | HTTPError false err =>
      newFailureResult startTime (ProbeMessagePrefixJupyterFailed +:+ err)
  | HTTPResponse statusCode body readError =>
      if (statusCode <? 200)%Z || (300 <=? statusCode)%Z then
        newFailureResult startTime
          (ProbeMessagePrefixJupyterFailed +:+ "HTTP " +:+ itoa statusCode)
      else match readAllLimited body readError maxProbeResponseBytes with
      | inr err => newFailureResult startTime
          (ProbeMessagePrefixJupyterFailed +:+ "unable to read response body: " +:+ err)
      | inl body =>
        match unmarshalStatus body with
        | inr _ => newFailureResult startTime
            (ProbeMessagePrefixJupyterFailed +:+ "invalid response body")
        | inl lastActivity =>
          match parseISO8601 lastActivity with
          | inr err => newFailureResult startTime
              (ProbeMessagePrefixJupyterFailed +:+ "invalid last_activity: " +:+ err)
          | inl lastActivity =>
              Ret (newSuccessResult startTime endTime ProbeMessageJupyterSucceeded
                     (Some lastActivity))
          end
        end
      end
  end.

(** [randomOutputPath]. *)
Definition randomOutputPath : prog (string + error) :=
  buf <-- call (RandRead 16) ;;
  Ret match buf with
  | inr e => inr e
  | inl bytes =>
      inl ("/tmp/.ws-activity-probe-"
           +:+ String.concat "" ((λ b, hex_byte (Z.to_N b)) <$> bytes) +:+ ".json")
  end.

Definition quoted (s : string) : string := dquote +:+ s +:+ dquote.

(** The command line: write the script, run it with [OUTPUT_JSON_PATH] set, and
    print the output file. *)
Definition probeShellCommand (scriptPath outputPath : string) : string :=
  "cat > " +:+ quoted scriptPath +:+ " && chmod +x " +:+ quoted scriptPath
  +:+ " && OUTPUT_JSON_PATH=" +:+ quoted outputPath +:+ " " +:+ quoted scriptPath
  +:+ " >/dev/null; rc=$?; rm -f " +:+ quoted scriptPath +:+ "; "
  +:+ "if [ $rc -ne 0 ]; then exit $rc; fi; "
  +:+ "if [ -f " +:+ quoted outputPath +:+ " ]; then cat " +:+ quoted outputPath
  +:+ "; rm -f " +:+ quoted outputPath +:+ "; fi".

Definition RunPodExecProbe (namespace podName script : string) (timeout : Z)
    : prog (go ProbeResult) :=
  startTime <-- call Now ;;
  path <-- randomOutputPath ;;
  match path with
  | inr err =>
      r <-- newFailureResult startTime
        (ProbeMessagePrefixPodExecFailed +:+ "unable to generate output path: " +:+ Error err) ;;
      Ret (Ok r)
  | inl outputPath =>
    let scriptPath := outputPath +:+ ".script" in
    let command := ["/bin/sh"; "-c"; probeShellCommand scriptPath outputPath] in
    x <-- call (PodExec namespace podName probeContainerName command script timeout) ;;
    endTime <-- call Now ;;
    match lb_WriteAll (mkLimitedBuffer "" maxProbeResponseBytes) (xo_stdout x) with
    | Panic w => Ret (Panic w)
    | Err e => Ret (Err e)
    | Ok stdout =>
      match xo_error x with
      | Some execErr =>
        if xe_deadline execErr then
          Ret (Ok (newTimeoutResult startTime endTime
            (ProbeMessagePrefixPodExecFailed +:+ "timeout after "
             +:+ itoa (Milliseconds timeout) +:+ "ms")))
        else
          r <-- newFailureResult startTime
            (ProbeMessagePrefixPodExecFailed +:+
             match xe_exitStatus execErr with
             | Some code => "unexpected exit code " +:+ itoa code
             | None => xe_msg execErr
             end) ;;
          Ret (Ok r)
      | None =>
        match parsePodExecOutput (lb_buf stdout) endTime with
        | inr err =>
            r <-- newFailureResult startTime (ProbeMessagePrefixPodExecFailed +:+ err) ;;
            Ret (Ok r)
        | inl lastActivity =>
            Ret (Ok (newSuccessResult startTime endTime ProbeMessagePodExecSucceeded
                       lastActivity))
        end
      end
    end
  end.
End probe.

(** ** The buffer *)

(** Go's string concatenation of the chunks. *)
Definition str_concat (l : list string) : string := foldr String.app "" l.

Lemma str_take_app_le n s t : n ≤ slen s → str_take n (s +:+ t) = str_take n s.
Proof.
  unfold str_take. revert n. induction s as [|c s IH]; intros [|n] Hn; simpl in *;
    try done; [by destruct t|lia|]. f_equal. apply IH. lia.
Qed.

Lemma str_take_app_ge n s t :
  slen s ≤ n → str_take n (s +:+ t) = s +:+ str_take (n - slen s) t.
Proof.
  unfold str_take. revert n. induction s as [|c s IH]; intros n Hn; simpl in *.
  { change ("" +:+ t) with t. change ("" +:+ ?x) with x. by rewrite Nat.sub_0_r. }
  destruct n as [|n]; [lia|]. simpl.
  change (String c (String.substring 0 n (s +:+ t))
          = String c (s +:+ String.substring 0 (n - slen s) t)).
  rewrite IH; [done|lia].
Qed.

(** One write appends what fits. *)
Lemma lb_Write_spec b p :
  (0 ≤ lb_max b)%Z → (str_len (lb_buf b) ≤ lb_max b)%Z →
  ∃ n, lb_Write b p =
    Ok (mkLimitedBuffer (str_take (Z.to_nat (lb_max b)) (lb_buf b +:+ p)) (lb_max b), n) ∧
    (n = str_len p ∨
     (str_len (lb_buf b) < lb_max b < str_len (lb_buf b) + str_len p)%Z ∧
     n = lb_max b - str_len (lb_buf b))%Z.
Proof.
  destruct b as [buf max]. simpl. intros Hmax Hle. unfold lb_Write. simpl.
  unfold str_len in *. destruct (Z.leb_spec max (Z.of_nat (slen buf))) as [Hfull|Hroom].
  { exists (Z.of_nat (slen p)). split; [|by left]. do 3 f_equal.
    rewrite str_take_app_le by lia. rewrite str_take_all; [done|lia]. }
  destruct (Z.ltb_spec max (Z.of_nat (slen buf) + Z.of_nat (slen p))) as [Hover|Hfits]; simpl.
  - unfold str_slice_to, str_len.
    rewrite (proj2 (Z.leb_le _ _)) by lia. rewrite (proj2 (Z.leb_le _ _)) by lia. simpl.
    eexists. split; [|right; split; [lia|]].
    + do 3 f_equal. rewrite str_take_app_ge by lia. do 2 f_equal. lia.
    + rewrite slen_take. lia.
  - exists (Z.of_nat (slen p)). split; [|by left]. do 3 f_equal.
    rewrite str_take_all; [done|]. rewrite slen_app. lia.
Qed.

Lemma str_take_take n s t :
  str_take n (str_take n s +:+ t) = str_take n (s +:+ t).
Proof.
  destruct (decide (slen s ≤ n)).
  - by rewrite (str_take_all n s).
  - rewrite !str_take_app_le; [|lia|rewrite slen_take; lia].
    apply str_take_all. rewrite slen_take. lia.
Qed.

Lemma lb_WriteAll_spec chunks b :
  (0 ≤ lb_max b)%Z → (str_len (lb_buf b) ≤ lb_max b)%Z →
  lb_WriteAll b chunks = Ok (mkLimitedBuffer
    (str_take (Z.to_nat (lb_max b)) (lb_buf b +:+ str_concat chunks)) (lb_max b)).
Proof.
  revert b. induction chunks as [|p chunks IH]; intros b Hmax Hle; simpl.
  - rewrite str_app_nil_r, str_take_all; [by destruct b|]. unfold str_len in Hle. lia.
  - destruct (lb_Write_spec b p Hmax Hle) as (n & -> & _). simpl.
    rewrite IH; simpl; [|done|].
    + by rewrite str_take_take, str_app_assoc.
    + unfold str_len. rewrite slen_take. lia.
Qed.

(** ** Properties *)

(** Whatever a probe process writes, in whatever chunks, the buffer holds
    exactly the first [max] bytes of its output, never more, and writing never
    panics. *)
Theorem limitedBuffer_bounded max chunks :
  (0 ≤ max)%Z →
  ∃ b, lb_WriteAll (mkLimitedBuffer "" max) chunks = Ok b ∧
    lb_buf b = str_take (Z.to_nat max) (str_concat chunks) ∧
    (str_len (lb_buf b) ≤ max)%Z.
Proof.
  intros Hmax. rewrite lb_WriteAll_spec by done. simpl. eexists. split; [done|].
  split; [done|]. simpl. unfold str_len. rewrite slen_take. lia.
Qed.

Lemma limitedBuffer_bounded_witness :
  ∃ b, lb_WriteAll (mkLimitedBuffer "" 4) ["ab"; "cdef"; "g"] = Ok b ∧ lb_buf b = "abcd".
Proof.
  destruct (limitedBuffer_bounded 4 ["ab"; "cdef"; "g"]) as (b & Hb & Hbuf & _); [lia|].
  exists b. split; [exact Hb|exact Hbuf].
Defined.

(** The write that crosses the bound reports fewer bytes than it was given
    with a nil error, which [io.Writer] forbids (the copy that feeds the buffer stops
    with a short-write error); every other write, also one past the bound, reports all
    its bytes. *)
Theorem limitedBuffer_short_write buf max p b n :
  (0 ≤ max)%Z → (str_len buf ≤ max)%Z →
  lb_Write (mkLimitedBuffer buf max) p = Ok (b, n) →
  ((n < str_len p)%Z ↔ (str_len buf < max < str_len buf + str_len p)%Z).
Proof.
  intros Hmax Hle Hw. destruct (lb_Write_spec (mkLimitedBuffer buf max) p Hmax Hle)
    as (m & Heq & Hm). rewrite Heq in Hw. simplify_eq. simpl in *.
  split; [destruct Hm as [->|[? ->]]; lia|].
  intros Hcross. destruct Hm as [->|[? ->]]; [exfalso|lia].
  revert Heq. unfold lb_Write. simpl.
  rewrite (proj2 (Z.leb_gt _ _)) by lia. rewrite (proj2 (Z.ltb_lt _ _)) by lia.
  unfold str_slice_to. rewrite (proj2 (Z.leb_le _ _)), (proj2 (Z.leb_le _ _)) by lia. simpl.
  intros [= _ Hlen]. unfold str_len in Hlen, Hcross. rewrite slen_take in Hlen. lia.
Qed.

Lemma limitedBuffer_short_write_witness :
  lb_Write (mkLimitedBuffer "abc" 4) "xyz" = Ok (mkLimitedBuffer "abcx" 4, 1%Z) ∧
  (1 < str_len "xyz")%Z.
Proof.
  split; [vm_compute; reflexivity|].
  apply (limitedBuffer_short_write "abc" 4 "xyz" (mkLimitedBuffer "abcx" 4) 1);
    [lia|unfold str_len; simpl; lia|vm_compute; reflexivity|unfold str_len; simpl; lia].
Defined.

Section probe_theorems.
Context `{ProbeLib}.

Lemma newFailureResult_sat startTime msg h (Q : list event → ProbeResult → Prop) :
  (∀ now, Q (h ++ [Ev Now now])
     (mkProbeResult startTime now WorkspaceProbeResultFailure msg None)) →
  sat (newFailureResult startTime msg) h Q.
Proof. intros HQ now. apply HQ. Qed.

(** What a probe promises of its result. *)
Definition probe_contract (r : ProbeResult) : Prop :=
  pres_Result r ≠ WorkspaceProbeResultSuccess → pres_LastActivity r = None.

Lemma RunJupyterProbe_contract serviceHost port basePath timeout h :
  sat (RunJupyterProbe serviceHost port basePath timeout) h
    (λ _ r, probe_contract r ∧
      (pres_Result r = WorkspaceProbeResultSuccess → is_Some (pres_LastActivity r))).
Proof.
  unfold RunJupyterProbe. intros start resp end_. unfold probe_contract.
  destruct resp as [[] err|code body rerr]; [done|by intros now|].
  destruct (_ || _); [by intros now|].
  destruct (readAllLimited _ _ _); [|by intros now].
  destruct (unmarshalStatus _); [|by intros now].
  destruct (parseISO8601 _); [|by intros now].
  simpl. split; [done|eauto].
Qed.

Lemma RunPodExecProbe_contract namespace podName script timeout h :
  sat (RunPodExecProbe namespace podName script timeout) h
    (λ h' g, ∃ r, g = Ok r ∧ probe_contract r ∧
      (pres_Result r = WorkspaceProbeResultSuccess →
       ∃ q x, Ev q x ∈ h' ∧ x.(xo_error) = None ∧
         parsePodExecOutput (str_take (Z.to_nat maxProbeResponseBytes)
           (str_concat (xo_stdout x))) (pres_EndTime r) = inl (pres_LastActivity r))).
Proof.
  unfold RunPodExecProbe. intros start buf. unfold probe_contract.
  destruct buf as [bytes|err]; [|by intros now; eexists].
  intros x end_. rewrite lb_WriteAll_spec by done. simpl.
  destruct (xo_error x) as [e|] eqn:Hx.
  - destruct (xe_deadline e); [by eexists|]. by intros now; eexists.
  - simpl. destruct (parsePodExecOutput _ _) as [la|err] eqn:Hp; [|by intros now; eexists].
    eexists. split; [done|]. split; [done|]. intros _.
    eexists _, x. split; [|by split].
    apply elem_of_app; left. apply elem_of_app; right. by apply list_elem_of_singleton.
Qed.
End probe_theorems.
