(* ===== verification/Activity.v ===== *)
(** * Activity rules and culling ([helper/activity.go], [workspace_activity.go])

    The rule evaluation, the pause decision and [reconcileActivity].  The process-wide
    [selectorCache] is explicit state, threaded through every function that consults
    it; functions that assign to [workspace.Status] return the new Workspace also when
    they fail.  [int64] and [time.Duration] arithmetic wraps. *)

From Stdlib Require Import ZArith.
From stdpp Require Import base gmap strings list.
From S2P Require Import Prelude K8sTypes ApiTypes Names Client Examples Probe.

(** ** Time arithmetic *)

(** [time.Duration(n) * unit]. *)
Definition duration (n unit : Z) : Z := wrap64 (n * unit).

(** [helper.CalculateEligibleAfter]. *)
Definition CalculateEligibleAfter (lastActivity secondsSinceActive : Z) : Z :=
  if (lastActivity <=? 0)%Z then 0
  else wrap64 (lastActivity + Milliseconds (duration secondsSinceActive Second)).

(** [helper.IsEligibleForPause]. *)
Definition IsEligibleForPause (lastActivity lastRunningTime now secondsSinceActive
    minRunningSeconds : Z) : bool * Z :=
  let eligibleAfter := CalculateEligibleAfter lastActivity secondsSinceActive in
  if (lastActivity <=? 0)%Z then (false, eligibleAfter)
  else if (now <? eligibleAfter)%Z then (false, eligibleAfter)
  else if (0 <? minRunningSeconds)%Z then
    if (lastRunningTime <=? 0)%Z then (false, eligibleAfter)
    else
      let runningDuration := duration (wrap64 (now - lastRunningTime)) Millisecond in
      if (runningDuration <? duration minRunningSeconds Second)%Z
      then (false, eligibleAfter) else (true, eligibleAfter)
  else (true, eligibleAfter).

(** [helper.PodConfigLabelsToMap]. *)
Definition PodConfigLabelsToMap (podConfig : option PodConfigValue) : gmap string string :=
  match podConfig with
  | None => ∅
  | Some podConfig =>
      foldl (λ m l, <[osl_Key l := osl_Value l]> m) ∅ (osi_Labels (pcv_Spawner podConfig))
  end.

(** [helper.ActivityRuleDecision]. *)
Record ActivityRuleDecision (T : Type) := mkDecision {
  dec_Matched : bool;
  dec_Value : T;
  dec_SecondsSinceActive : Z;
  dec_MinRunningSeconds : Z;
}.
Arguments mkDecision {T} _ _ _ _.
Arguments dec_Matched {T} _.
Arguments dec_Value {T} _.
Arguments dec_SecondsSinceActive {T} _.
Arguments dec_MinRunningSeconds {T} _.

(** [timeUntilProbeDue]: the remaining time and whether a probe is due. *)
Definition timeUntilProbeDue (workspace : Workspace)
    (now minProbeInterval probeInterval : Z) : Z * bool :=
  match act_LastProbe (st_Activity (ws_Status workspace)) with
  | None => (0, true)
  | Some lastProbe =>
    if (lp_StartTime lastProbe <=? 0)%Z then (0, true)
    else
      let elapsed := duration (wrap64 (now - lp_StartTime lastProbe)) Millisecond in
      let requiredInterval :=
        if bool_decide (lp_Result lastProbe = WorkspaceProbeResultSuccess)
        then probeInterval else minProbeInterval in
      if (elapsed <? requiredInterval)%Z
      then (wrap64 (requiredInterval - elapsed), false) else (0, true)
  end%Z.

(** [imageConfigPortForID]. *)
Fixpoint portForID (ports : list ImagePort) (portID : PortId) : option Z :=
  match ports with
  | [] => None
  | p :: rest => if bool_decide (iport_Id p = portID) then Some (iport_Port p)
                 else portForID rest portID
  end.
Definition imageConfigPortForID (imageConfig : option ImageConfigValue) (portID : PortId)
    : option Z :=
  match imageConfig with
  | None => None
  | Some imageConfig => portForID (ics_Ports (icv_Spec imageConfig)) portID
  end.

Definition act_setLastProbe (a : WorkspaceActivity) (p : WorkspaceActivityLastProbe) :=
  mkWorkspaceActivity (act_LastActivity a) (act_LastUpdate a) (Some p) (act_Rules a).
Definition act_setTimes (a : WorkspaceActivity) (lastActivity lastUpdate : Z) :=
  mkWorkspaceActivity lastActivity lastUpdate (act_LastProbe a) (act_Rules a).
Definition act_setRules (a : WorkspaceActivity) (r : option WorkspaceActivityRules) :=
  mkWorkspaceActivity (act_LastActivity a) (act_LastUpdate a) (act_LastProbe a) r.

(** [workspace.Status.Activity = a]. *)
Definition ws_setActivity (w : Workspace) (a : WorkspaceActivity) : Workspace :=
  ws_setStatus w (st_setActivity (ws_Status w) a).

(** [updateActivityStatusFromProbe]. *)
Definition updateActivityStatusFromProbe (workspace : Workspace) (result : ProbeResult)
    : Workspace :=
  let status := ws_Status workspace in
  let activity := act_setLastProbe (st_Activity status)
    (mkLastProbe (UnixMilli (pres_StartTime result)) (UnixMilli (pres_EndTime result))
       (pres_Result result) (pres_Message result)) in
  if Succeeded result then
    let lastActivity :=
      match pres_LastActivity result with
      | Some t => UnixMilli t
      | None =>
        if (act_LastActivity activity <=? 0)%Z && (0 <? st_LastRunningTime status)%Z
        then st_LastRunningTime status else act_LastActivity activity
      end in
    ws_setActivity workspace
      (act_setTimes activity lastActivity (UnixMilli (pres_EndTime result)))
  else ws_setActivity workspace activity.

(** ** Rule evaluation, with the selector cache *)

Section rules.
Context `{SelectorLib}.

(** [selectorCache]: the compiled selector, or its error, per formatted form. *)
Abbreviation cache := (gmap string (Selector + error)).

(** [selectorMatches]. *)
Definition selectorMatches (selectorCache : cache) (selector : option LabelSelector)
    (lbls : gmap string string) : answer bool * cache :=
  match selector with None => (inl true, selectorCache) | Some selector =>
  let key := FormatLabelSelector selector in
  let '(compiled, selectorCache) :=
    match selectorCache !! key with
    | Some c => (c, selectorCache)
    | None =>
      let c := LabelSelectorAsSelector selector in (c, <[key := c]> selectorCache)
    end in
  match compiled with
  | inr err => (inr err, selectorCache)
  | inl sel => (inl (Matches sel lbls), selectorCache)
  end
  end.

(** [activityRuleMatches]. *)
Definition activityRuleMatches (c : cache) (match_ : option ActivityRuleMatch)
    (namespaceLabels podConfigLabels : gmap string string) : answer bool * cache :=
  match match_ with
  | None => (inl true, c)
  | Some m =>
    if bool_decide (arm_MatchNamespace m = None) && bool_decide (arm_MatchPodConfig m = None)
    then (inl true, c)
    else
      let '(namespaceOk, c) :=
        match arm_MatchNamespace m with
        | None => (inl true, c)
        | Some n => selectorMatches c (Some (nsm_Selector n)) namespaceLabels
        end in
      match namespaceOk with
      | inr err => (inr err, c)
      | inl false => (inl false, c)
      | inl true =>
        match arm_MatchPodConfig m with
        | None => (inl true, c)
        | Some p => selectorMatches c (Some (pcm_Selector p)) podConfigLabels
        end
      end
  end.

(** [EvaluateActivityRule], the loop from rule [i] on; [zero] is the zero value of
    the effect's type. *)
Fixpoint EvaluateActivityRule_from {T} (i : nat) (c : cache) (rules : list ActivityRule)
    (namespaceLabels podConfigLabels : gmap string string)
    (getEffect : ActivityRuleEffect → option T) (zero : T)
    : answer (ActivityRuleDecision T) * cache :=
  match rules with
  | [] => (inl (mkDecision false zero 0 0), c)
  | rule :: rest =>
    match getEffect (rule_Effect rule) with
    | None =>
        EvaluateActivityRule_from (S i) c rest namespaceLabels podConfigLabels getEffect zero
    | Some effect =>
      let '(matched, c) :=
        activityRuleMatches c (rule_Match rule) namespaceLabels podConfigLabels in
      match matched with
      | inr err =>
          (inr (ErrorWrap ("failed to evaluate match for activityRule[" +:+ itoa (Z.of_nat i)
                           +:+ "]: " +:+ Error err) err), c)
      | inl false =>
          EvaluateActivityRule_from (S i) c rest namespaceLabels podConfigLabels getEffect zero
      | inl true =>
          (inl (mkDecision true effect (arc_SecondsSinceActive (rule_Config rule))
                  (default 0%Z (arc_MinRunningSeconds (rule_Config rule)))), c)
      end
    end
  end.

Definition EvaluateActivityRule {T} := @EvaluateActivityRule_from T 0.

Definition EvaluatePauseWorkspaceRule (c : cache) (rules : list ActivityRule)
    (namespaceLabels podConfigLabels : gmap string string)
    : answer (ActivityRuleDecision bool) * cache :=
  EvaluateActivityRule c rules namespaceLabels podConfigLabels are_PauseWorkspace false.

(** [evaluatePauseDecision]: the Workspace with its refreshed rules status, whether
    to pause (or an error), and the cache. *)
Definition clearPauseRule (workspace : Workspace) : Workspace :=
  let activity := st_Activity (ws_Status workspace) in
  match act_Rules activity with
  | Some _ => ws_setActivity workspace (act_setRules activity (Some (mkActivityRules None)))
  | None => workspace
  end.

Definition evaluatePauseDecision (c : cache) (workspace : Workspace)
    (workspaceKind : WorkspaceKind) (namespaceLabels podConfigLabels : gmap string string)
    (now : Z) (allowPause : bool) : Workspace * answer bool * cache :=
  let rules := kspec_ActivityRules (wsk_Spec workspaceKind) in
  if (length rules =? 0)%nat then (clearPauseRule workspace, inl false, c)
  else
    let '(decision, c) := EvaluatePauseWorkspaceRule c rules namespaceLabels podConfigLabels in
    match decision with
    | inr err => (workspace, inr err, c)
    | inl decision =>
      if negb (dec_Matched decision) || negb (dec_Value decision)
      then (clearPauseRule workspace, inl false, c)
      else
        let activity := st_Activity (ws_Status workspace) in
        let '(eligible, eligibleAfter) :=
          IsEligibleForPause (act_LastActivity activity)
            (st_LastRunningTime (ws_Status workspace)) now
            (dec_SecondsSinceActive decision) (dec_MinRunningSeconds decision) in
        (ws_setActivity workspace (act_setRules activity
           (Some (mkActivityRules (Some (mkPauseRule eligibleAfter))))),
         inl (eligible && allowPause), c)
    end.

(** ** The reconciler's part *)

Context `{ProbeLib}.
(** Whether [r.HTTPProber] and [r.PodExecutor] are set. *)
Context (hasHTTPProber hasPodExecutor : bool).

Definition defaultJupyterProbeTimeout : Z := 10 * Second.

(** [runProbe]. *)
Definition runProbe (workspace : Workspace) (activityProbe : ActivityProbe)
    (currentImageConfig : option ImageConfigValue) (pod : option Pod) : prog (go ProbeResult) :=
  now <-- call Now ;;
  let failure msg :=
    Ret (Ok (mkProbeResult now now WorkspaceProbeResultFailure msg None)) in
  match pod with
  | None => failure ProbeMessagePodNotReady
  | Some pod =>
    if bool_decide (pod_PodIP pod = "") then failure ProbeMessagePodNotReady else
    match ap_Jupyter activityProbe, ap_PodExec activityProbe with
    | Some jupyter, _ =>
      match imageConfigPortForID currentImageConfig (jup_PortId jupyter) with
      | None => failure (ProbeMessagePrefixJupyterFailed +:+ "port "
                         +:+ quote (jup_PortId jupyter) +:+ " not found in imageConfig")
      | Some port =>
        if negb hasHTTPProber then
          failure (ProbeMessagePrefixJupyterFailed +:+ "http prober is not configured")
        else
          let basePath := getWorkspaceConnectPath (ws_Namespace workspace) (ws_Name workspace)
                            (jup_PortId jupyter) in
          r <-- RunJupyterProbe (pod_PodIP pod) port basePath defaultJupyterProbeTimeout ;;
          Ret (Ok r)
      end
    | None, Some podExec =>
      if negb hasPodExecutor then
        failure (ProbeMessagePrefixPodExecFailed +:+ "exec is not configured")
      else
        let timeout := duration
          (default DefaultPodExecTimeoutSeconds (pe_TimeoutSeconds podExec)) Second in
        RunPodExecProbe (meta_Namespace (pod_Meta pod)) (meta_Name (pod_Meta pod))
          (pe_Script podExec) timeout
    | None, None => failure ProbeMessageNoTypeConfigured
    end
  end.

(** [getNamespaceLabels]. *)
Definition getNamespaceLabels (namespaceName : string)
    : prog (answer (gmap string string)) :=
  ns <-- call (Get KNamespace "" namespaceName) ;;
  Ret match ns with
  | inr err => if IsNotFound err then inl ∅ else inr err
  | inl ns => inl (gm (meta_Labels (nsObj_Meta ns)))
  end.

(** What [reconcileActivity] leaves and returns: the Workspace as mutated, the
    result with the pause decision (or an error), and the cache. *)
Record activity_outcome := mkActivityOutcome {
  ao_workspace : Workspace;
  ao_result : go (Result * bool);
  ao_cache : cache;
}.

Definition activity_error (w : Workspace) (e : error) (c : cache) : activity_outcome :=
  mkActivityOutcome w (Err e) c.

(** [reconcileActivity]. *)
Definition reconcileActivity (c : cache) (workspace : Workspace)
    (workspaceKind : WorkspaceKind) (currentImageConfig : option ImageConfigValue)
    (currentPodConfig : option PodConfigValue) (pod : option Pod) : prog activity_outcome :=
  match kpt_ActivityProbe (wsk_PodTemplate workspaceKind) with
  | None => Ret (mkActivityOutcome workspace (Ok (emptyResult, false)) c)
  | Some activityProbe =>
    if negb (bool_decide (st_State (ws_Status workspace) = WorkspaceStateRunning)) then
      Ret (mkActivityOutcome workspace (Ok (emptyResult, false)) c)
    else
    now <-- nowMilli ;;
    let minProbeInterval := duration
      (default DefaultMinProbeIntervalSeconds (ap_MinProbeIntervalSeconds activityProbe)) Second in
    let probeInterval := duration
      (default DefaultProbeIntervalSeconds (ap_ProbeIntervalSeconds activityProbe)) Second in
    labels <-- getNamespaceLabels (ws_Namespace workspace) ;;
    match labels with
    | inr err => Ret (activity_error workspace err c)
    | inl namespaceLabels =>
      let podConfigLabels := PodConfigLabelsToMap currentPodConfig in
      let '(remaining, due) :=
        timeUntilProbeDue workspace now minProbeInterval probeInterval in
      if negb due then
        let '(workspace, decision, c) := evaluatePauseDecision c workspace workspaceKind
          namespaceLabels podConfigLabels now false in
        match decision with
        | inr err => Ret (activity_error workspace err c)
        | inl _ => Ret (mkActivityOutcome workspace (Ok (mkResult remaining, false)) c)
        end
      else
        probe <-- runProbe workspace activityProbe currentImageConfig pod ;;
        match probe with
        | Err e => Ret (activity_error workspace e c)
        | Panic w => Ret (mkActivityOutcome workspace (Panic w) c)
        | Ok probeResult =>
          let workspace := updateActivityStatusFromProbe workspace probeResult in
          let '(workspace, decision, c) := evaluatePauseDecision c workspace workspaceKind
            namespaceLabels podConfigLabels now (Succeeded probeResult) in
          match decision with
          | inr err => Ret (activity_error workspace err c)
          | inl paused =>
            let nextInterval :=
              if Succeeded probeResult then probeInterval else minProbeInterval in
            Ret (mkActivityOutcome workspace (Ok (mkResult nextInterval, paused)) c)
          end
        end
    end
  end.
End rules.

(** ** Eligibility *)

Lemma duration_exact n unit : in_int64 (n * unit) → duration n unit = (n * unit)%Z.
Proof. apply wrap64_small. Qed.

Lemma Milliseconds_seconds s :
  in_int32 s → Milliseconds (duration s Second) = (1000 * s)%Z.
Proof.
  unfold in_int32. intros Hs. rewrite duration_exact by (unfold in_int64, Second; lia).
  unfold Milliseconds, Second, Millisecond.
  replace (s * 1000000000)%Z with (1000 * s * 1000000)%Z by lia. apply Z.quot_mul. lia.
Qed.

(** ** The cache is transparent *)

Section cache.
Context `{SelectorLibLaws}.
Abbreviation cache := (gmap string (Selector + error)).

(** Every entry is the compilation of a selector with that form. *)
Definition cache_ok (c : cache) : Prop :=
  ∀ k x, c !! k = Some x → ∃ s, FormatLabelSelector s = k ∧ x = LabelSelectorAsSelector s.

(** The same value, or errors on both sides. *)
Definition same_answer {A} (x y : answer A) : Prop :=
  match x, y with inl a, inl b => a = b | inr _, inr _ => True | _, _ => False end.

#[global] Instance same_answer_equivalence {A} : Equivalence (@same_answer A).
Proof.
  split.
  - by intros [].
  - by intros [] [].
  - intros [] [] []; simpl; naive_solver.
Qed.

(** Matching without a cache. *)
Definition selectorMatches_ref (s : LabelSelector) (l : gmap string string) : answer bool :=
  match LabelSelectorAsSelector s with inl c => inl (Matches c l) | inr e => inr e end.

Definition activityRuleMatches_ref (m : option ActivityRuleMatch)
    (ns pc : gmap string string) : answer bool :=
  let n := match m ≫= arm_MatchNamespace with
           | Some n => selectorMatches_ref (nsm_Selector n) ns | None => inl true end in
  let p := match m ≫= arm_MatchPodConfig with
           | Some p => selectorMatches_ref (pcm_Selector p) pc | None => inl true end in
  match n with inl true => p | _ => n end.

Lemma selectorMatches_transparent c s l :
  cache_ok c →
  cache_ok (selectorMatches c (Some s) l).2 ∧
  same_answer (selectorMatches c (Some s) l).1 (selectorMatches_ref s l).
Proof.
  intros Hc. unfold selectorMatches, selectorMatches_ref.
  destruct (c !! FormatLabelSelector s) as [x|] eqn:Hx.
  - destruct (Hc _ _ Hx) as (s' & Hf & ->). pose proof (format_faithful _ _ Hf) as Hm.
    destruct (LabelSelectorAsSelector s') as [c'|e']; simpl; (split; [done|]);
      destruct (LabelSelectorAsSelector s) as [c''|e'']; simpl; done.
  - assert (cache_ok (<[FormatLabelSelector s := LabelSelectorAsSelector s]> c)).
    { intros k x [[<- <-]|[_ ?]]%lookup_insert_Some; eauto. }
    destruct (LabelSelectorAsSelector s); simpl; done.
Qed.

#[local] Arguments selectorMatches : simpl never.
#[local] Arguments activityRuleMatches : simpl never.

Lemma activityRuleMatches_transparent c m ns pc :
  cache_ok c →
  cache_ok (activityRuleMatches c m ns pc).2 ∧
  same_answer (activityRuleMatches c m ns pc).1 (activityRuleMatches_ref m ns pc).
Proof.
  intros Hc. destruct m as [[n p]|]; [|done].
  unfold activityRuleMatches, activityRuleMatches_ref. simpl.
  destruct n as [n|], p as [p|]; simpl; try done.
  - destruct (selectorMatches_transparent c (nsm_Selector n) ns Hc) as [Hc' Ha].
    destruct (selectorMatches c _ ns) as [a c']. simpl in *.
    destruct a as [[]|e], (selectorMatches_ref (nsm_Selector n) ns) as [[]|e'];
      simpl in Ha; try done. by apply selectorMatches_transparent.
  - destruct (selectorMatches_transparent c (nsm_Selector n) ns Hc) as [Hc' Ha].
    destruct (selectorMatches c _ ns) as [a c']. simpl in *.
    destruct a as [[]|e], (selectorMatches_ref (nsm_Selector n) ns) as [[]|e'];
      simpl in Ha; done.
  - by apply selectorMatches_transparent.
Qed.

(** A rule that is passed over: it does not set the effect or does not match. *)
Definition passed_over (ns pc : gmap string string) (r : ActivityRule) : Prop :=
  are_PauseWorkspace (rule_Effect r) = None ∨
  activityRuleMatches_ref (rule_Match r) ns pc = inl false.

(** The decision that a rule configures. *)
Definition decision_of (r : ActivityRule) (v : bool) : ActivityRuleDecision bool :=
  mkDecision true v (arc_SecondsSinceActive (rule_Config r))
    (default 0%Z (arc_MinRunningSeconds (rule_Config r))).

(** What the evaluation must return: the first rule that sets the effect and
    matches decides. *)
Definition evaluation_correct (rules : list ActivityRule) (ns pc : gmap string string)
    (a : answer (ActivityRuleDecision bool)) : Prop :=
  match a with
  | inl d =>
    (Forall (passed_over ns pc) rules ∧ d = mkDecision false false 0 0) ∨
    ∃ pre r post v, rules = pre ++ r :: post ∧ Forall (passed_over ns pc) pre ∧
      are_PauseWorkspace (rule_Effect r) = Some v ∧
      activityRuleMatches_ref (rule_Match r) ns pc = inl true ∧ d = decision_of r v
  | inr _ =>
    ∃ pre r post v e, rules = pre ++ r :: post ∧ Forall (passed_over ns pc) pre ∧
      are_PauseWorkspace (rule_Effect r) = Some v ∧
      activityRuleMatches_ref (rule_Match r) ns pc = inr e
  end.

Lemma evaluation_correct_cons r rules ns pc a :
  passed_over ns pc r → evaluation_correct rules ns pc a →
  evaluation_correct (r :: rules) ns pc a.
Proof.
  intros Hr. destruct a as [d|e]; simpl.
  - intros [[HF ->]|(pre & r' & post & v & -> & HF & ?)]; [left; by auto|right].
    exists (r :: pre), r', post, v. split; [done|]. by auto.
  - intros (pre & r' & post & v & e' & -> & HF & ?). exists (r :: pre), r', post, v, e'.
    split; [done|]. by auto.
Qed.

Lemma EvaluateActivityRule_from_correct i c rules ns pc :
  cache_ok c →
  let '(a, c') := EvaluateActivityRule_from i c rules ns pc are_PauseWorkspace false in
  cache_ok c' ∧ evaluation_correct rules ns pc a.
Proof.
  revert i c. induction rules as [|r rules IH]; intros i c Hc; simpl; [by auto|].
  destruct (are_PauseWorkspace (rule_Effect r)) as [v|] eqn:He.
  - destruct (activityRuleMatches_transparent c (rule_Match r) ns pc Hc) as [Hc' Ha].
    destruct (activityRuleMatches c (rule_Match r) ns pc) as [a c']. simpl in *.
    destruct a as [[]|e], (activityRuleMatches_ref (rule_Match r) ns pc) as [[]|e'] eqn:Hm;
      simpl in Ha; try done.
    + split; [done|]. right. by exists [], r, rules, v.
    + specialize (IH (S i) c' Hc'). destruct EvaluateActivityRule_from as [a c''].
      destruct IH. split; [done|]. apply evaluation_correct_cons; [by right|done].
    + split; [done|]. by exists [], r, rules, v, e'.
  - specialize (IH (S i) c Hc). destruct EvaluateActivityRule_from as [a c''].
    destruct IH. split; [done|]. apply evaluation_correct_cons; [by left|done].
Qed.
End cache.

(** ** The runs of [reconcileActivity] *)

(** The requests of the probes. *)
Definition is_probe {X} (q : req X) : bool :=
  match q with HTTPGet _ _ | PodExec _ _ _ _ _ _ => true | _ => false end.
Definition probe_event (e : event) : Prop := match e with Ev q _ => is_probe q = true end.

Section reconcile.
Context `{SelectorLib} `{ProbeLib} (hasHTTPProber hasPodExecutor : bool).
Abbreviation cache := (gmap string (Selector + error)).

(** What the rules match of the Namespace as it was read. *)
Definition servedLabels (a : answer Namespace) : answer (gmap string string) :=
  match a with
  | inr err => if IsNotFound err then inl ∅ else inr err
  | inl ns => inl (gm (meta_Labels (nsObj_Meta ns)))
  end.

(** Where the Jupyter probe of a Workspace asks: the Pod's address, the port of the image,
    the path the Workspace is served under. *)
Definition jupyterURL (w : Workspace) (pod : Pod) (port : Z) (portId : string) : string :=
  "http://" +:+ pod_PodIP pod +:+ ":" +:+ itoa port
  +:+ TrimSuffix (getWorkspaceConnectPath (ws_Namespace w) (ws_Name w) portId) "/"
  +:+ jupyterStatusPath.

(** In [h], the probe [p] of [w] was sent to the Pod [pod] and answered well, and [result] is
    what it found: Jupyter's last activity, or what the script in the Pod printed. *)
Definition probe_succeeded (w : Workspace) (p : ActivityProbe) (img : option ImageConfigValue)
    (pod : Pod) (h : list event) (result : ProbeResult) : Prop :=
  pod_PodIP pod ≠ "" ∧ Ev Now (pres_StartTime result) ∈ h ∧ Ev Now (pres_EndTime result) ∈ h ∧
  match ap_Jupyter p, ap_PodExec p with
  | Some jupyter, _ =>
      ∃ port code body rerr text s t,
        imageConfigPortForID img (jup_PortId jupyter) = Some port ∧
        Ev (HTTPGet (jupyterURL w pod port (jup_PortId jupyter)) defaultJupyterProbeTimeout)
          (HTTPResponse code body rerr) ∈ h ∧
        (200 ≤ code < 300)%Z ∧ readAllLimited body rerr maxProbeResponseBytes = inl text ∧
        unmarshalStatus text = inl s ∧ parseISO8601 s = inl t ∧
        pres_LastActivity result = Some t
  | None, Some podExec =>
      ∃ output x,
        Ev (PodExec (meta_Namespace (pod_Meta pod)) (meta_Name (pod_Meta pod)) probeContainerName
              ["/bin/sh"; "-c"; probeShellCommand (output +:+ ".script") output]
              (pe_Script podExec)
              (duration (default DefaultPodExecTimeoutSeconds (pe_TimeoutSeconds podExec)) Second))
          x ∈ h ∧
        xo_error x = None ∧
        parsePodExecOutput (str_take (Z.to_nat maxProbeResponseBytes) (str_concat (xo_stdout x)))
          (pres_EndTime result) = inl (pres_LastActivity result)
  | None, None => False
  end.

(** A success is one of the Pod the reconcile was given. *)
Definition backed (w : Workspace) (p : ActivityProbe) (img : option ImageConfigValue)
    (pod : option Pod) (h : list event) (result : ProbeResult) : Prop :=
  Succeeded result = true → ∃ pod', pod = Some pod' ∧ probe_succeeded w p img pod' h result.

Lemma probe_succeeded_mono w p img pod h h' r :
  h ⊆ h' → probe_succeeded w p img pod h r → probe_succeeded w p img pod h' r.
Proof.
  intros Hsub (? & ? & ? & Hp). unfold probe_succeeded. split_and!; [done|auto..|].
  destruct (ap_Jupyter p) as [jup|], (ap_PodExec p) as [pe|]; [..|done].
  1,2: destruct Hp as (port & code & body & rerr & text & s & t & Hport & Hin & Hrest);
    exists port, code, body, rerr, text, s, t; split; [done|]; split; [by apply Hsub|done].
  destruct Hp as (out & x & Hin & Hrest). exists out, x. split; [by apply Hsub|done].
Qed.

(** It was a request. *)
Lemma probe_succeeded_event w p img pod h r :
  probe_succeeded w p img pod h r → ∃ e, e ∈ h ∧ probe_event e.
Proof.
  intros (_ & _ & _ & Hp). destruct (ap_Jupyter p) as [jup|], (ap_PodExec p) as [pe|]; [..|done].
  1,2: destruct Hp as (port & code & body & rerr & text & s & t & _ & Hin & _); by eexists.
  destruct Hp as (out & x & Hin & _). by eexists.
Qed.

(** The two probes, from any history. *)
Lemma RunJupyterProbe_backed w p img pod jup port h :
  pod_PodIP pod ≠ "" → ap_Jupyter p = Some jup →
  imageConfigPortForID img (jup_PortId jup) = Some port →
  sat (RunJupyterProbe (pod_PodIP pod) port
         (getWorkspaceConnectPath (ws_Namespace w) (ws_Name w) (jup_PortId jup))
         defaultJupyterProbeTimeout) h
    (λ h' r, Succeeded r = true → probe_succeeded w p img pod (drop (length h) h') r).
Proof.
  intros Hip Hjup Hport. unfold RunJupyterProbe, newFailureResult. intros start resp end_.
  rewrite <-!(assoc_L (++)).
  destruct resp as [[] err|code body rerr]; [done|by intros now|].
  destruct (_ || _) eqn:Hcode; [by intros now|]. apply orb_false_iff in Hcode as [H1 H2].
  destruct (readAllLimited _ _ _) as [text|] eqn:Htext; [|by intros now].
  destruct (unmarshalStatus _) as [s|] eqn:Hs; [|by intros now].
  destruct (parseISO8601 _) as [t|] eqn:Ht; [|by intros now].
  simpl. intros _. rewrite drop_app_length. unfold probe_succeeded. simpl. rewrite Hjup.
  split_and!; [done|set_solver..|]. exists port, code, body, rerr, text, s, t.
  split_and!; try done; [set_solver|by apply Z.ltb_ge|by apply Z.leb_gt].
Qed.

Lemma RunPodExecProbe_backed w p img pod pe h :
  pod_PodIP pod ≠ "" → ap_Jupyter p = None → ap_PodExec p = Some pe →
  sat (RunPodExecProbe (meta_Namespace (pod_Meta pod)) (meta_Name (pod_Meta pod)) (pe_Script pe)
         (duration (default DefaultPodExecTimeoutSeconds (pe_TimeoutSeconds pe)) Second)) h
    (λ h' g, ∀ r, g = Ok r → Succeeded r = true →
       probe_succeeded w p img pod (drop (length h) h') r).
Proof.
  intros Hip Hjup Hpe. unfold RunPodExecProbe, newFailureResult. intros start buf.
  destruct buf as [bytes|err]; [|by intros now r [= <-]].
  intros x end_. rewrite lb_WriteAll_spec by done. simpl.
  destruct (xo_error x) as [e|] eqn:Hx.
  - destruct (xe_deadline e); [by intros r [= <-]|]. by intros now r [= <-].
  - simpl. destruct (parsePodExecOutput _ _) as [la|err] eqn:Hp; [|by intros now r [= <-]].
    intros r [= <-] _. rewrite <-!(assoc_L (++)), drop_app_length. unfold probe_succeeded.
    simpl. rewrite Hjup, Hpe. split_and!; [done|set_solver..|].
    eexists _, x. split; [do 2 right; left|done].
Qed.

(** A probe never panics; a success is backed by a good answer of the Pod. *)
Lemma runProbe_sat workspace probe img pod h :
  sat (runProbe hasHTTPProber hasPodExecutor workspace probe img pod) h
    (λ h' g, h `prefix_of` h' ∧ ∃ r, g = Ok r ∧ probe_contract r ∧
      backed workspace probe img pod (drop (length h) h') r).
Proof.
  apply sat_and; [apply sat_prefix|].
  unfold runProbe, call. cbn [pbind sat]. intros now.
  assert (Hfail : ∀ h' msg, ∃ r,
    Ok (mkProbeResult now now WorkspaceProbeResultFailure msg None) = Ok r ∧
    probe_contract r ∧ backed workspace probe img pod h' r) by (intros; by eexists).
  assert (Hlater : ∀ h' r pod', h ++ [Ev Now now] `prefix_of` h' →
    probe_succeeded workspace probe img pod' (drop (length (h ++ [Ev Now now])) h') r →
    probe_succeeded workspace probe img pod' (drop (length h) h') r).
  { intros h' r pod' [l ->]. rewrite drop_app_length, <-(assoc_L (++)), drop_app_length.
    apply probe_succeeded_mono. set_solver. }
  destruct pod as [pod|]; [|by apply Hfail].
  case_bool_decide as Hip; [by apply Hfail|].
  destruct (ap_Jupyter probe) as [jup|] eqn:Hjup, (ap_PodExec probe) as [pe|] eqn:Hpe; [..|by apply Hfail].
  1,2: destruct (imageConfigPortForID img (jup_PortId jup)) as [port|] eqn:Hport; [|by apply Hfail];
    destruct hasHTTPProber; [|by apply Hfail];
    cbn [negb]; rewrite sat_bind;
    eapply sat_mono; [apply sat_and; [apply sat_prefix|apply sat_and;
      [apply RunJupyterProbe_contract|by apply RunJupyterProbe_backed]]|];
    intros h' r (Hp & [Hc _] & Hs); exists r; split; [done|]; split; [done|];
    intros Hok; exists pod; split; [done|]; by apply Hlater, Hs.
  destruct hasPodExecutor; [|by apply Hfail]. cbn [negb].
  eapply sat_mono; [apply sat_and; [apply sat_prefix|apply sat_and;
    [apply RunPodExecProbe_contract|by apply (RunPodExecProbe_backed workspace probe img)]]|].
  intros h' g (Hp & (r & -> & Hc & _) & Hs). exists r. split; [done|]. split; [done|].
  intros Hok. exists pod. split; [done|]. by apply Hlater, Hs.
Qed.

(** The four ways through [reconcileActivity], from the history [h]. *)
Inductive activity_run (c : cache) (w : Workspace) (wk : WorkspaceKind)
    (img : option ImageConfigValue) (pcl : gmap string string) (pod : option Pod) (h : list event) : list event → activity_outcome → Prop :=
| run_skip :
    kpt_ActivityProbe (wsk_PodTemplate wk) = None ∨
    st_State (ws_Status w) ≠ WorkspaceStateRunning →
    activity_run c w wk img pcl pod h h (mkActivityOutcome w (Ok (emptyResult, false)) c)
| run_no_labels h' e :
    Forall (λ e, ¬ probe_event e) h' →
    activity_run c w wk img pcl pod h (h ++ h') (activity_error w e c)
| run_wait p t (a : answer Namespace) ns remaining w' d c' :
    kpt_ActivityProbe (wsk_PodTemplate wk) = Some p →
    st_State (ws_Status w) = WorkspaceStateRunning →
    timeUntilProbeDue w (UnixMilli t)
      (duration (default DefaultMinProbeIntervalSeconds (ap_MinProbeIntervalSeconds p)) Second)
      (duration (default DefaultProbeIntervalSeconds (ap_ProbeIntervalSeconds p)) Second)
      = (remaining, false) →
    servedLabels a = inl ns →
    evaluatePauseDecision c w wk ns pcl (UnixMilli t) false = (w', d, c') →
    activity_run c w wk img pcl pod h
      (h ++ [Ev Now t; Ev (Get KNamespace "" (ws_Namespace w)) a])
      (mkActivityOutcome w'
         match d with inl _ => Ok (mkResult remaining, false) | inr e => Err e end c')
| run_probe p t (a : answer Namespace) ns x h' r w' d c' :
    kpt_ActivityProbe (wsk_PodTemplate wk) = Some p →
    st_State (ws_Status w) = WorkspaceStateRunning →
    timeUntilProbeDue w (UnixMilli t)
      (duration (default DefaultMinProbeIntervalSeconds (ap_MinProbeIntervalSeconds p)) Second)
      (duration (default DefaultProbeIntervalSeconds (ap_ProbeIntervalSeconds p)) Second)
      = (x, true) →
    servedLabels a = inl ns →
    probe_contract r →
    backed w p img pod h' r →
    evaluatePauseDecision c (updateActivityStatusFromProbe w r) wk ns pcl (UnixMilli t)
      (Succeeded r) = (w', d, c') →
    activity_run c w wk img pcl pod h
      ((h ++ [Ev Now t; Ev (Get KNamespace "" (ws_Namespace w)) a]) ++ h')
      (mkActivityOutcome w'
         match d with
         | inl paused => Ok (mkResult (if Succeeded r
             then duration (default DefaultProbeIntervalSeconds (ap_ProbeIntervalSeconds p)) Second
             else duration (default DefaultMinProbeIntervalSeconds
                              (ap_MinProbeIntervalSeconds p)) Second), paused)
         | inr e => Err e
         end c').

Lemma reconcileActivity_sat c w wk img pc pod h :
  sat (reconcileActivity hasHTTPProber hasPodExecutor c w wk img pc pod) h
    (activity_run c w wk img (PodConfigLabelsToMap pc) pod h).
Proof.
  unfold reconcileActivity.
  destruct (kpt_ActivityProbe (wsk_PodTemplate wk)) as [p|] eqn:Hp; [|constructor; by left].
  case_bool_decide as Hst; cbn [negb]; [|constructor; by right].
  unfold nowMilli, getNamespaceLabels, call. cbn [pbind sat]. intros t a.
  rewrite <-(assoc_L (++)). cbn [app]. set (h1 := h ++ _).
  change (match a with inl ns => inl _ | inr err => _ end) with (servedLabels a).
  destruct (servedLabels a) as [ns|e] eqn:Hns; [|subst h1; constructor; by repeat constructor].
  destruct (timeUntilProbeDue _ _ _ _) as [remaining []] eqn:Hdue; cbn [negb].
  - rewrite sat_bind. eapply sat_mono; [apply runProbe_sat|].
    intros h' g ([h2 ->] & r & -> & Hc & Hs).
    destruct (evaluatePauseDecision _ _ _ _ _ _ _) as [[w' d] c'] eqn:He.
    rewrite drop_app_length in Hs.
    assert (Hrun := run_probe c w wk img (PodConfigLabelsToMap pc) pod h p t a ns remaining h2 r
      w' d c' Hp Hst Hdue Hns Hc Hs He). destruct d as [paused|e]; simpl; exact Hrun.
  - destruct (evaluatePauseDecision _ _ _ _ _ _ _) as [[w' d] c'] eqn:He.
    assert (Hrun := run_wait c w wk img (PodConfigLabelsToMap pc) pod h p t a ns remaining w' d c'
      Hp Hst Hdue Hns He). destruct d as [paused|e]; simpl; exact Hrun.
Qed.

Lemma reconcileActivity_runs c w wk img pc pod h out :
  runs (reconcileActivity hasHTTPProber hasPodExecutor c w wk img pc pod) h out →
  activity_run c w wk img (PodConfigLabelsToMap pc) pod [] h out.
Proof.
  intros Hr. exact (proj1 (sat_runs _ [] _) (reconcileActivity_sat c w wk img pc pod []) h out Hr).
Qed.
End reconcile.

(** ** What the pause decision changes *)

Section decision.
Context `{SelectorLib}.
Abbreviation cache := (gmap string (Selector + error)).

(** Only [status.activity.rules] is written. *)
Lemma evaluatePauseDecision_frame c w wk ns pcl now allow w' d c' :
  evaluatePauseDecision c w wk ns pcl now allow = (w', d, c') →
  ∃ r, w' = ws_setActivity w (act_setRules (st_Activity (ws_Status w)) r).
Proof.
  assert (Hclear : ∃ r, clearPauseRule w
    = ws_setActivity w (act_setRules (st_Activity (ws_Status w)) r)).
  { unfold clearPauseRule. destruct (act_Rules _) as [r|] eqn:Hr; [by eexists|].
    exists None. rewrite <-Hr. by destruct w as [? ? [[] ? ? ? ? ? ? ?]]. }
  assert (Hid : ∃ r, w = ws_setActivity w (act_setRules (st_Activity (ws_Status w)) r)).
  { exists (act_Rules (st_Activity (ws_Status w))). by destruct w as [? ? [[] ? ? ? ? ? ? ?]]. }
  unfold evaluatePauseDecision.
  destruct (length _ =? 0)%nat; [by intros [= <- _ _]|].
  destruct (EvaluatePauseWorkspaceRule _ _ _ _) as [[dec|e] c1]; [|by intros [= <- _ _]].
  destruct (_ || _); [by intros [= <- _ _]|].
  destruct (IsEligibleForPause _ _ _ _ _) as [el ea]. intros [= <- _ _]. by eexists.
Qed.

(** A pause is decided only when allowed, by a matched rule that asks for it, and
    on an eligible Workspace. *)
Lemma evaluatePauseDecision_true c w wk ns pcl now allow w' c' :
  evaluatePauseDecision c w wk ns pcl now allow = (w', inl true, c') →
  allow = true ∧ ∃ dec,
    EvaluatePauseWorkspaceRule c (kspec_ActivityRules (wsk_Spec wk)) ns pcl = (inl dec, c') ∧
    dec_Matched dec = true ∧ dec_Value dec = true ∧
    (IsEligibleForPause (act_LastActivity (st_Activity (ws_Status w)))
       (st_LastRunningTime (ws_Status w)) now
       (dec_SecondsSinceActive dec) (dec_MinRunningSeconds dec)).1 = true.
Proof.
  unfold evaluatePauseDecision. destruct (length _ =? 0)%nat; [done|].
  destruct (EvaluatePauseWorkspaceRule _ _ _ _) as [[dec|e] c1] eqn:He; [|done].
  destruct (_ || _) eqn:Hm; [done|]. go_bool.
  destruct (IsEligibleForPause _ _ _ _ _) as [el ea] eqn:Hel. intros [= _ Hand ->].
  apply andb_true_iff in Hand as [-> ->]. split; [done|]. exists dec. by rewrite Hel.
Qed.
End decision.

(** ** Properties *)

(** Eligibility for pausing is exact in the range of real timestamps and
    [int32] rule values: a Workspace is eligible iff its last activity is known, at
    least [secondsSinceActive] ago, and, when a minimum running time is set, it is
    known to have run at least that long; no intermediate computation overflows. *)
Theorem IsEligibleForPause_iff lastActivity lastRunningTime now s m :
  in_int32 s → in_int32 m →
  (lastActivity ≤ 2 ^ 62)%Z →
  (0 ≤ now ≤ 9000000000000)%Z → (lastRunningTime ≤ 9000000000000)%Z →
  (IsEligibleForPause lastActivity lastRunningTime now s m).1 = true ↔
  (0 < lastActivity ∧ lastActivity + 1000 * s ≤ now ∧
   (0 < m → 0 < lastRunningTime ∧ 1000 * m ≤ now - lastRunningTime))%Z.
Proof.
  intros Hs Hm Hla Hnow Hlr. unfold IsEligibleForPause, CalculateEligibleAfter.
  destruct (Z.leb_spec lastActivity 0); [simpl; split; [done|lia]|].
  rewrite Milliseconds_seconds by done.
  unfold in_int32 in *. rewrite wrap64_small by (unfold in_int64; lia).
  destruct (Z.ltb_spec now (lastActivity + 1000 * s)); [simpl; split; [done|lia]|].
  destruct (Z.ltb_spec 0 m); [|simpl; split; [lia|done]].
  destruct (Z.leb_spec lastRunningTime 0); [simpl; split; [done|lia]|].
  rewrite wrap64_small by (unfold in_int64; lia).
  rewrite !duration_exact by (unfold in_int64, Second, Millisecond; lia).
  destruct (Z.ltb_spec ((now - lastRunningTime) * Millisecond) (m * Second));
    unfold Millisecond, Second in *; simpl; split; try done; lia.
Qed.

Lemma IsEligibleForPause_iff_witness :
  (IsEligibleForPause 1700000000000 1700000000000 1700000600000 600 300).1 = true ∧
  (0 < 1700000000000 ∧ 1700000000000 + 1000 * 600 ≤ 1700000600000)%Z.
Proof.
  split; [|lia].
  apply (IsEligibleForPause_iff 1700000000000 1700000000000 1700000600000 600 300);
    unfold in_int32; lia.
Defined.

(** With any cache built by earlier evaluations, the pause rule evaluation
    decides as if every selector were compiled afresh, first match wins: the first
    rule that sets [pauseWorkspace] and whose selectors match decides with its own
    thresholds, rules that do not set it fall through, no match gives an unmatched
    decision, and an error is returned only for an invalid selector reached before
    any match. The cache stays valid. *)
Theorem EvaluatePauseWorkspaceRule_first_match `{SelectorLibLaws} c rules ns pc a c' :
  cache_ok c →
  EvaluatePauseWorkspaceRule c rules ns pc = (a, c') →
  cache_ok c' ∧ evaluation_correct rules ns pc a.
Proof.
  intros Hc He. pose proof (EvaluateActivityRule_from_correct 0 c rules ns pc Hc) as Hcor.
  unfold EvaluatePauseWorkspaceRule, EvaluateActivityRule in He. by rewrite He in Hcor.
Qed.

Definition exampleRule (labels : gmap string string) (pause : option bool) (secs : Z)
    : ActivityRule :=
  mkActivityRule (mkActivityRuleConfig secs (Some 60%Z))
    (Some (mkActivityRuleMatch (Some (mkNamespaceMatch (mkLabelSelector labels []))) None))
    (mkActivityRuleEffect pause).

Lemma EvaluatePauseWorkspaceRule_first_match_witness :
  let rules := [exampleRule ∅ None 1; exampleRule {["team" := "b"]} (Some true) 2;
                exampleRule {["team" := "a"]} (Some true) 3; exampleRule ∅ (Some false) 4] in
  let e := EvaluatePauseWorkspaceRule (H := exampleSelectorLib) ∅ rules {["team" := "a"]} ∅ in
  e.1 = inl (mkDecision true true 3 60) ∧
  evaluation_correct (H := exampleSelectorLib) rules {["team" := "a"]} ∅
    (inl (mkDecision true true 3 60)).
Proof.
  intros rules e. assert (He : e.1 = inl (mkDecision true true 3 60)) by (vm_compute; reflexivity).
  split; [exact He|]. rewrite <-He.
  apply (@EvaluatePauseWorkspaceRule_first_match exampleSelectorLib exampleSelectorLib_laws
    ∅ rules {["team" := "a"]} ∅ e.1 e.2).
  - intros k x Hx. by rewrite lookup_empty in Hx.
  - subst e. by destruct EvaluatePauseWorkspaceRule.
Defined.

Section activity_properties.
Context `{SelectorLib} `{ProbeLib} (hasHTTPProber hasPodExecutor : bool).

(** The last activity that a success records: the one the probe found; if it found none, the
    one on record, or else the time the Workspace started to run. *)
Definition recordedActivity (w : Workspace) (result : ProbeResult) : Z :=
  let known := act_LastActivity (st_Activity (ws_Status w)) in
  let running := st_LastRunningTime (ws_Status w) in
  match pres_LastActivity result with
  | Some t => UnixMilli t
  | None => if (known <=? 0)%Z && (0 <? running)%Z then running else known
  end.

(** C17: [reconcileActivity] asks for a pause only when the Workspace is Running and the same
    reconcile sent the probe of the WorkspaceKind to the Pod it was given, at the address or
    name of that Pod, and got a good answer.  The status then records this success, at the
    times it was sent and answered, and the last activity the probe found.  By that last
    activity the Workspace is eligible for a pause, under the thresholds of the rule that
    matched the labels of its Namespace as read in this reconcile and those of its pod
    configuration, at a time read in this reconcile. *)
Theorem reconcileActivity_pause_fresh c w wk img pc pod h out res :
  runs (reconcileActivity hasHTTPProber hasPodExecutor c w wk img pc pod) h out →
  ao_result out = Ok (res, true) →
  st_State (ws_Status w) = WorkspaceStateRunning ∧
  ∃ p pod' result rules,
    kpt_ActivityProbe (wsk_PodTemplate wk) = Some p ∧ pod = Some pod' ∧
    probe_succeeded w p img pod' h result ∧
    ao_workspace out = ws_setActivity w (mkWorkspaceActivity
      (recordedActivity w result) (UnixMilli (pres_EndTime result))
      (Some (mkLastProbe (UnixMilli (pres_StartTime result)) (UnixMilli (pres_EndTime result))
               WorkspaceProbeResultSuccess (pres_Message result))) rules) ∧
    ∃ t a ns dec, Ev Now t ∈ h ∧
      Ev (Get KNamespace "" (ws_Namespace w)) a ∈ h ∧ servedLabels a = inl ns ∧
      (EvaluatePauseWorkspaceRule c (kspec_ActivityRules (wsk_Spec wk)) ns
         (PodConfigLabelsToMap pc)).1 = inl dec ∧
      dec_Matched dec = true ∧ dec_Value dec = true ∧
      (IsEligibleForPause (recordedActivity w result) (st_LastRunningTime (ws_Status w))
         (UnixMilli t) (dec_SecondsSinceActive dec) (dec_MinRunningSeconds dec)).1 = true.
Proof.
  intros Hr%reconcileActivity_runs Hres.
  destruct Hr as [|?|? ? ? ? ? ? d|p t a ns x h' r w' d c' Hp Hst Hdue Hns Hcon Hsucc He];
    simpl in *; [done|done|by destruct d|].
  destruct d as [paused|]; [|done]. injection Hres as Hres ->.
  pose proof (evaluatePauseDecision_frame _ _ _ _ _ _ _ _ _ _ He) as [rules ->].
  apply evaluatePauseDecision_true in He as [Hok (dec & Hdec & Hm & Hv & Hel)].
  destruct (Hsucc Hok) as (pod' & Hpod & Hprobe).
  unfold updateActivityStatusFromProbe in *. rewrite Hok in *.
  unfold Succeeded in Hok. apply bool_decide_eq_true_1 in Hok.
  split; [done|]. exists p, pod', r, rules. split_and!; [done|done|..].
  - eapply probe_succeeded_mono; [|exact Hprobe]. set_solver.
  - simpl. by rewrite <-Hok.
  - exists t, a, ns, dec. rewrite Hdec. split_and!; [set_solver|set_solver|done..].
Qed.

(** A reconcile whose probe fails or times out, or that runs no probe, leaves
    [lastActivity] and [lastUpdate] as they were: they change only when the probe that
    [lastProbe] now records reached the Pod and succeeded. The spec, the metadata and
    every status field outside [activity] never change, and nothing panics. *)
Theorem reconcileActivity_failure_preserves c w wk img pc pod h out :
  runs (reconcileActivity hasHTTPProber hasPodExecutor c w wk img pc pod) h out →
  let a := st_Activity (ws_Status w) in
  let a' := st_Activity (ws_Status (ao_workspace out)) in
  ((act_LastActivity a' = act_LastActivity a ∧ act_LastUpdate a' = act_LastUpdate a) ∨
   ((∃ e, e ∈ h ∧ probe_event e) ∧
    ∃ lp, act_LastProbe a' = Some lp ∧ lp_Result lp = WorkspaceProbeResultSuccess ∧
      act_LastUpdate a' = lp_EndTime lp)) ∧
  ao_workspace out = ws_setActivity w a' ∧
  (∀ why, ao_result out ≠ Panic why).
Proof.
  intros Hr%reconcileActivity_runs.
  assert (Hset : ∀ w a1 a2, ws_setActivity (ws_setActivity w a1) a2 = ws_setActivity w a2) by done.
  assert (Hid : ∀ w, w = ws_setActivity w (st_Activity (ws_Status w)))
    by (intros [? ? []]; done).
  destruct Hr as [|h' e|? ? ? ? ? ? d ? ? ? ? ? He|p t a ns x h' r w' d c'
    Hp Hst Hdue Hns Hcon Hsucc He]; simpl.
  - split; [by left|]. by split.
  - split; [by left|]. by split.
  - apply evaluatePauseDecision_frame in He as [rr ->]. split; [by left|]. split; [done|].
    by destruct d.
  - apply evaluatePauseDecision_frame in He as [rr ->].
    unfold updateActivityStatusFromProbe. destruct (Succeeded r) eqn:Hok.
    + split; [right|split; [done|by destruct d]]. split.
      * destruct (Hsucc Hok) as (pod' & _ & (e & He & Hpe)%probe_succeeded_event).
        exists e. split; [|done]. by do 2 (apply elem_of_cons; right).
      * eexists. split; [done|]. unfold Succeeded in Hok. simpl. by go_bool.
    + split; [by left|]. split; [done|by destruct d].
Qed.

(** Probes are rate limited: a request reaches the Pod only when no probe is on
    record, or the interval required after the last one ([probeInterval] after a
    success, [minProbeInterval] otherwise) has elapsed at a time read in this
    reconcile. When it has not, the reconcile is requeued for the rest of the
    interval and never pauses. *)
Theorem reconcileActivity_rate_limited c w wk img pc pod h out :
  runs (reconcileActivity hasHTTPProber hasPodExecutor c w wk img pc pod) h out →
  ((∃ e, e ∈ h ∧ probe_event e) →
   ∃ p t x, kpt_ActivityProbe (wsk_PodTemplate wk) = Some p ∧ Ev Now t ∈ h ∧
     timeUntilProbeDue w (UnixMilli t)
       (duration (default DefaultMinProbeIntervalSeconds (ap_MinProbeIntervalSeconds p)) Second)
       (duration (default DefaultProbeIntervalSeconds (ap_ProbeIntervalSeconds p)) Second)
       = (x, true)) ∧
  (∀ p lp res, kpt_ActivityProbe (wsk_PodTemplate wk) = Some p →
   st_State (ws_Status w) = WorkspaceStateRunning →
   act_LastProbe (st_Activity (ws_Status w)) = Some lp → (0 < lp_StartTime lp)%Z →
   ao_result out = Ok res →
   let required := duration
     (if bool_decide (lp_Result lp = WorkspaceProbeResultSuccess)
      then default DefaultProbeIntervalSeconds (ap_ProbeIntervalSeconds p)
      else default DefaultMinProbeIntervalSeconds (ap_MinProbeIntervalSeconds p)) Second in
   ∃ t, Ev Now t ∈ h ∧
     let elapsed := duration (wrap64 (UnixMilli t - lp_StartTime lp)) Millisecond in
     ((elapsed < required)%Z →
      res = (mkResult (wrap64 (required - elapsed)), false) ∧
      ¬ ∃ e, e ∈ h ∧ probe_event e)).
Proof.
  intros Hr%reconcileActivity_runs.
  destruct Hr as [Hskip|h' e Hno|p t a ns rem w' d c' Hp Hst Hdue Hns He|p t a ns x h' r w' d c'
    Hp Hst Hdue Hns Hcon Hsucc He]; simpl.
  - split; [intros (e & He & _); set_solver|].
    intros p lp res Hp Hst _ _ _. destruct Hskip; congruence.
  - split; [|done]. intros (e' & He' & Hpe). rewrite Forall_forall in Hno. by destruct (Hno e').
  - split.
    + intros (e' & He' & Hpe). apply elem_of_cons in He' as [->|He']; [done|].
      by apply list_elem_of_singleton in He' as ->.
    + intros p' lp res Hp' _ Hlp Hpos Hres. simplify_eq.
      exists t. split; [by left|]. intros Hlt. revert Hdue. unfold timeUntilProbeDue.
      rewrite Hlp, (proj2 (Z.leb_gt _ _)) by done.
      case_bool_decide; rewrite (proj2 (Z.ltb_lt _ _)) by done; intros [= <-];
        (split; [destruct d; by simplify_eq|]); intros (e' & He' & Hpe);
        (apply elem_of_cons in He' as [->|He']; [done|]);
        by apply list_elem_of_singleton in He' as ->.
  - split; [intros _; exists p, t, x; split; [done|]; split; [by left|done]|].
    intros p' lp res Hp' _ Hlp Hpos Hres. simplify_eq. exists t. split; [by left|].
    intros Hlt. exfalso. revert Hdue. unfold timeUntilProbeDue.
    rewrite Hlp, (proj2 (Z.leb_gt _ _)) by done.
    case_bool_decide; by rewrite (proj2 (Z.ltb_lt _ _)).
Qed.
End activity_properties.

(** A podExec probe that reports no activity, one hour after the last activity. *)
Definition exampleProbeLib : ProbeLib := {|
  unmarshalStatus s := inl s;
  unmarshalPodExec _ := inl (mkPodExecOutput (Some false) None);
  parseRFC3339 _ := inr "not a time";
  parseRFC3339Nano _ := inr "not a time";
|}.

Definition exampleIdleKind : WorkspaceKind :=
  exKind [exImage "img" None exPorts] [exPodConfig "pod" None]
    (Some (mkActivityProbe None None (Some (mkPodExec None "#!/bin/sh")) None))
    [exampleRule ∅ (Some true) 600].

Definition exampleIdle (lastProbe : option WorkspaceActivityLastProbe) : Workspace :=
  exWorkspace "test" false "img" "pod"
    (exStatus WorkspaceStateRunning
       (mkWorkspaceActivity 1699996400000 1699996400000 lastProbe None) 1699990000000).

(** The program on that Workspace, at the time of the second argument. *)
Definition exampleActivity (lastProbe : option WorkspaceActivityLastProbe)
    : prog (activity_outcome (H := exampleSelectorLib)) :=
  reconcileActivity (H := exampleSelectorLib) (H0 := exampleProbeLib) true true ∅
    (exampleIdle lastProbe) exampleIdleKind None None
    (Some (exPod "pod-uid" "Running" [] [])).

Definition exampleActivityEnv : handler () :=
  exEnv 1700000000000000000 (mkExecOutcome ["{}"] None).

Lemma reconcileActivity_pause_fresh_witness :
  ao_result (interp exampleActivityEnv (exampleActivity None) tt).1
    = Ok (mkResult (3600 * Second), true) ∧
  ∃ p result, probe_succeeded (H0 := exampleProbeLib) (exampleIdle None) p None
    (exPod "pod-uid" "Running" [] []) (trace exampleActivityEnv (exampleActivity None) tt) result ∧
  recordedActivity (exampleIdle None) result
    = act_LastActivity (st_Activity (ws_Status (ao_workspace
        (interp exampleActivityEnv (exampleActivity None) tt).1))).
Proof.
  assert (Hok : ao_result (interp exampleActivityEnv (exampleActivity None) tt).1
    = Ok (mkResult (3600 * Second), true)) by (vm_compute; reflexivity).
  split; [exact Hok|].
  destruct (reconcileActivity_pause_fresh (H := exampleSelectorLib)
    (H0 := exampleProbeLib) true true ∅ (exampleIdle None) exampleIdleKind None None
    (Some (exPod "pod-uid" "Running" [] [])) _ _ _
    (interp_runs exampleActivityEnv (exampleActivity None) tt) Hok)
    as (_ & p & pod & result & rules & _ & Hpod & Hprobe & Hw & _).
  injection Hpod as <-. exists p, result. split; [exact Hprobe|]. rewrite Hw. reflexivity.
Defined.

Lemma reconcileActivity_failure_preserves_witness :
  let env := exEnv 1700000000000000000
    (mkExecOutcome [] (Some (mkExecError false (Some 1%Z) "exit"))) in
  let out := (interp env (exampleActivity None) tt).1 in
  act_LastActivity (st_Activity (ws_Status (ao_workspace out))) = 1699996400000%Z ∧
  ao_workspace out = ws_setActivity (exampleIdle None) (st_Activity (ws_Status (ao_workspace out))).
Proof.
  intros env out. split; [vm_compute; reflexivity|].
  exact (proj1 (proj2 (reconcileActivity_failure_preserves (H := exampleSelectorLib)
    (H0 := exampleProbeLib) true true ∅ (exampleIdle None) exampleIdleKind None None
    (Some (exPod "pod-uid" "Running" [] [])) _ _
    (interp_runs env (exampleActivity None) tt)))).
Defined.

Lemma reconcileActivity_rate_limited_witness :
  let lp := mkLastProbe 1699999900000 1699999901000 WorkspaceProbeResultSuccess "" in
  let out := (interp exampleActivityEnv (exampleActivity (Some lp)) tt).1 in
  ao_result out = Ok (mkResult (3500 * Second), false) ∧
  ∃ t, Ev Now t ∈ trace exampleActivityEnv (exampleActivity (Some lp)) tt.
Proof.
  intros lp out.
  assert (Hok : ao_result out = Ok (mkResult (3500 * Second), false)) by (vm_compute; reflexivity).
  split; [exact Hok|].
  destruct (proj2 (reconcileActivity_rate_limited (H := exampleSelectorLib)
    (H0 := exampleProbeLib) true true ∅ (exampleIdle (Some lp)) exampleIdleKind None None
    (Some (exPod "pod-uid" "Running" [] [])) _ _
    (interp_runs exampleActivityEnv (exampleActivity (Some lp)) tt))
    (mkActivityProbe None None (Some (mkPodExec None "#!/bin/sh")) None) lp
    (mkResult (3500 * Second), false)) as (t & Ht & _);
    [reflexivity|reflexivity|reflexivity|simpl; lia|exact Hok|].
  exists t. exact Ht.
Defined.
