(* ===== verification/State.v ===== *)
(** * The Workspace state and status ([workspace_controller.go])

    [generateWorkspaceState], [generateWorkspacePodStatus], [recordRunningTransition]
    and [generateWorkspaceStatus]: how the observed Pod, the StatefulSet's and Pod's
    events and the spec become [status.state] and the fields around it. *)

From Stdlib Require Import ZArith.
From stdpp Require Import base gmap strings list.
From S2P Require Import Prelude K8sTypes ApiTypes Client Examples.

(** ** Constants *)

Definition workspacePodTemplateContainerName : string := "main".
Definition IndexEventInvolvedObjectUidField : string := ".involvedObject.uid".

Definition stateMsgErrorStatefulSetWarningEvent (m : string) : string :=
  "Workspace StatefulSet has warning event: " +:+ m.
Definition stateMsgErrorPodUnschedulable (m : string) : string :=
  "Workspace Pod is unschedulable: " +:+ m.
Definition stateMsgErrorPodSchedulingGate (m : string) : string :=
  "Workspace Pod is waiting for scheduling gate: " +:+ m.
Definition stateMsgErrorPodSchedulerError (m : string) : string :=
  "Workspace Pod has scheduler error: " +:+ m.
Definition stateMsgErrorPodWarningEvent (m : string) : string :=
  "Workspace Pod has warning event: " +:+ m.
Definition stateMsgErrorContainerCrashLoopBackOff : string :=
  "Workspace Container is not running (CrashLoopBackOff)".
Definition stateMsgErrorContainerImagePullBackOff : string :=
  "Workspace Container is not running (ImagePullBackOff)".
Definition stateMsgPaused : string := "Workspace is paused".
Definition stateMsgPending : string := "Workspace is pending".
Definition stateMsgRunning : string := "Workspace is running".
Definition stateMsgTerminating : string := "Workspace is terminating".
Definition stateMsgUnknown : string := "Workspace is in an unknown state".

(** ** Reading the Pod *)

(** The loop over the events: the last Warning event, the first one seen among
    those with the same timestamp. *)
Definition lastWarningEvent (events : list Event) : option Event :=
  foldl (λ last event,
    if bool_decide (ev_Type event = "Warning") then
      match last with
      | None => Some event
      | Some l => if (ev_LastTimestamp l <? ev_LastTimestamp event)%Z then Some event else last
      end
    else last) None events.

(** The loop over the conditions: the PodScheduled and Ready conditions, the last one
    of each type, or zero conditions. *)
Definition podConditions (conditions : list PodCondition) : PodCondition * PodCondition :=
  foldl (λ acc condition,
    if bool_decide (cond_Type condition = "PodScheduled") then (condition, acc.2)
    else if bool_decide (cond_Type condition = "Ready") then (acc.1, condition)
    else acc) (emptyCondition, emptyCondition) conditions.

(** The first status of the main container; [None] stands for the zero value. *)
Definition mainContainerStatus (statuses : list ContainerStatus) : option ContainerStatus :=
  snd <$> list_find (λ c, cstat_Name c = workspacePodTemplateContainerName) statuses.

(** Events of the object with this UID, in the namespace. *)
Definition eventListOptions (uid namespace : string) : ListOptions :=
  mkListOptions (Some (IndexEventInvolvedObjectUidField, uid)) ∅ namespace.

(** The state, the message, the result and the error. *)
Definition state_result := (WorkspaceState * string * Result * option error)%type.

Definition generateWorkspaceState (paused : bool) (statefulSet : StatefulSet)
    (pod : option Pod) : prog state_result :=
  let return_ state msg : prog state_result := Ret (state, msg, emptyResult, None) in
  let fail err : prog state_result :=
    Ret (WorkspaceStateUnknown, stateMsgUnknown, emptyResult, Some err) in
  match pod with
  | None =>
    if paused then return_ WorkspaceStatePaused stateMsgPaused
    else
      events <-- call (List KEvent (eventListOptions (meta_UID (sts_Meta statefulSet))
                                     (meta_Namespace (sts_Meta statefulSet)))) ;;
      match events with
      | inr err => fail err
      | inl items =>
        match lastWarningEvent items with
        | Some event => return_ WorkspaceStateError
            (stateMsgErrorStatefulSetWarningEvent (ev_Message event))
        | None => return_ WorkspaceStateUnknown stateMsgUnknown
        end
      end
  | Some pod =>
    match meta_DeletionTimestamp (pod_Meta pod) with
    | Some _ => return_ WorkspaceStateTerminating stateMsgTerminating
    | None =>
      let '(podScheduledCondition, podReadyCondition) := podConditions (pod_Conditions pod) in
      let podScheduled := bool_decide (cond_Status podScheduledCondition = "True") in
      let podReady := bool_decide (cond_Status podReadyCondition = "True") in
      let reason := cond_Reason podScheduledCondition in
      let message := cond_Message podScheduledCondition in
      if negb podScheduled && bool_decide (reason = "Unschedulable") then
        return_ WorkspaceStateError (stateMsgErrorPodUnschedulable message)
      else if negb podScheduled && bool_decide (reason = "SchedulingGated") then
        return_ WorkspaceStateError (stateMsgErrorPodSchedulingGate message)
      else if negb podScheduled && bool_decide (reason = "SchedulerError") then
        return_ WorkspaceStateError (stateMsgErrorPodSchedulerError message)
      else if bool_decide (pod_Phase pod = "Running") && podReady then
        return_ WorkspaceStateRunning stateMsgRunning
      else
      let waiting :=
        mainContainerStatus (pod_ContainerStatuses pod) ≫= cstat_WaitingReason in
      if bool_decide (waiting = Some "CrashLoopBackOff") then
        return_ WorkspaceStateError stateMsgErrorContainerCrashLoopBackOff
      else if bool_decide (waiting = Some "ImagePullBackOff") then
        return_ WorkspaceStateError stateMsgErrorContainerImagePullBackOff
      else
        events <-- call (List KEvent (eventListOptions (meta_UID (pod_Meta pod))
                                       (meta_Namespace (pod_Meta pod)))) ;;
        match events with
        | inr err => fail err
        | inl items =>
          match lastWarningEvent items with
          | Some event => return_ WorkspaceStateError
              (stateMsgErrorPodWarningEvent (ev_Message event))
          | None =>
            if bool_decide (pod_Phase pod = "Pending") then
              Ret (WorkspaceStatePending, stateMsgPending, mkResult (15 * Second), None)
            else return_ WorkspaceStateUnknown stateMsgUnknown
          end
        end
    end
  end.

Definition generateWorkspacePodStatus (pod : option Pod) : WorkspacePodStatus :=
  match pod with
  | None => mkWorkspacePodStatus "" "" "" [] []
  | Some pod =>
      mkWorkspacePodStatus (meta_Name (pod_Meta pod)) (pod_NodeName pod) ""
        ((λ c, mkWorkspacePodContainer (pc_Name c)) <$> pod_Containers pod)
        (mkWorkspacePodContainer <$> pod_InitContainers pod)
  end.

Definition recordRunningTransition (status : WorkspaceStatus)
    (currentState newState : WorkspaceState) : prog WorkspaceStatus :=
  if negb (bool_decide (newState = WorkspaceStateRunning)) then Ret status
  else if negb (bool_decide (currentState = WorkspaceStateRunning))
          || (st_LastRunningTime status =? 0)%Z then
    now <-- nowMilli ;;
    Ret (st_setActivity (st_setLastRunningTime status now) emptyActivity)
  else Ret status.

(** [generateWorkspaceStatus]: the status, the result and the error. *)
Definition generateWorkspaceStatus (workspace : Workspace) (pod : option Pod)
    (statefulSet : StatefulSet) (serviceAccountName : string)
    : prog (WorkspaceStatus * Result * option error) :=
  let status := ws_Status workspace in
  let workspacePaused := wsSpec_Paused (ws_Spec workspace) in
  status <--
    (if workspacePaused then
       if (st_PauseTime status =? 0)%Z then
         now <-- nowMilli ;; Ret (st_setPauseTime status now)
       else Ret status
     else Ret (if negb (st_PauseTime status =? 0)%Z then st_setPauseTime status 0 else status)) ;;
  let podStatus := generateWorkspacePodStatus pod in
  let status := st_setPodTemplatePod status
    (mkWorkspacePodStatus (wps_Name podStatus) (wps_NodeName podStatus) serviceAccountName
       (wps_Containers podStatus) (wps_InitContainers podStatus)) in
  '(workspaceState, workspaceStateMessage, result, err) <--
    generateWorkspaceState workspacePaused statefulSet pod ;;
  match err with
  | Some e => Ret (status, emptyResult, Some e)
  | None =>
    status <-- recordRunningTransition (st_setState status workspaceState workspaceStateMessage)
                 (st_State (ws_Status workspace)) workspaceState ;;
    Ret (status, result, None)
  end.

(** ** The latest warning *)

Definition is_warning (e : Event) : Prop := ev_Type e = "Warning".

(** One step of the loop of [lastWarningEvent]. *)
Lemma lastWarningEvent_snoc events e :
  lastWarningEvent (events ++ [e]) =
  if bool_decide (ev_Type e = "Warning") then
    match lastWarningEvent events with
    | None => Some e
    | Some l => if (ev_LastTimestamp l <? ev_LastTimestamp e)%Z then Some e
                else lastWarningEvent events
    end
  else lastWarningEvent events.
Proof. unfold lastWarningEvent. by rewrite foldl_app. Qed.

Lemma lastWarningEvent_spec events :
  match lastWarningEvent events with
  | None => ∀ e, e ∈ events → ¬ is_warning e
  | Some l => l ∈ events ∧ is_warning l ∧
      ∀ e, e ∈ events → is_warning e → (ev_LastTimestamp e ≤ ev_LastTimestamp l)%Z
  end.
Proof.
  induction events as [|e events IH] using rev_ind; [set_solver|].
  rewrite lastWarningEvent_snoc. case_bool_decide as He.
  - destruct (lastWarningEvent events) as [l|].
    + destruct IH as (Hl & Hw & Hmax). destruct (Z.ltb_spec (ev_LastTimestamp l) (ev_LastTimestamp e)).
      * split; [set_solver|]. split; [done|].
        intros e' [He'| ->%list_elem_of_singleton]%elem_of_app Hw'; [|lia].
        specialize (Hmax _ He' Hw'). lia.
      * split; [set_solver|]. split; [done|].
        intros e' [He'| ->%list_elem_of_singleton]%elem_of_app Hw'; [by apply Hmax|lia].
    + split; [set_solver|]. split; [done|].
      intros e' [He'| ->%list_elem_of_singleton]%elem_of_app Hw'; [by destruct (IH _ He')|lia].
  - destruct (lastWarningEvent events) as [l|].
    + destruct IH as (Hl & Hw & Hmax). split; [set_solver|]. split; [done|].
      intros e' [He'| ->%list_elem_of_singleton]%elem_of_app Hw'; [by apply Hmax|done].
    + intros e' [He'| ->%list_elem_of_singleton]%elem_of_app; [by apply IH|done].
Qed.

(** ** The state as a classification *)

(** The Pod is held back by the scheduler. *)
Definition pod_blocked (p : Pod) : Prop :=
  cond_Status (podConditions (pod_Conditions p)).1 ≠ "True" ∧
  cond_Reason (podConditions (pod_Conditions p)).1
    ∈ ["Unschedulable"; "SchedulingGated"; "SchedulerError"].

(** The Pod runs and is ready. *)
Definition pod_up (p : Pod) : Prop :=
  meta_DeletionTimestamp (pod_Meta p) = None ∧ ¬ pod_blocked p ∧
  pod_Phase p = "Running" ∧ cond_Status (podConditions (pod_Conditions p)).2 = "True".

(** The latest warning among the events an answer lists. *)
Definition answered_warning (e : event) : option Event :=
  match e with
  | Ev q x =>
    match q in req X return X → option Event with
    | List k _ =>
      match k return answer (list (obj k)) → option Event with
      | KEvent => λ x, match x with inl items => lastWarningEvent items | inr _ => None end
      | _ => λ _, None
      end
    | _ => λ _, None
    end x
  end.

(** Some answer listed a warning. *)
Definition listed_warning (h : list event) : Prop :=
  ∃ e, e ∈ h ∧ is_Some (answered_warning e).

(** The classification that [generateWorkspaceState] computes. *)
Record state_correct (paused : bool) (pod : option Pod) (h : list event)
    (r : state_result) : Prop := {
  sc_running : r.1.1.1 = WorkspaceStateRunning ↔ ∃ p, pod = Some p ∧ pod_up p;
  sc_paused : r.1.1.1 = WorkspaceStatePaused ↔ pod = None ∧ paused = true;
  sc_terminating : r.1.1.1 = WorkspaceStateTerminating ↔
    ∃ p, pod = Some p ∧ is_Some (meta_DeletionTimestamp (pod_Meta p));
  sc_pending : r.1.1.1 = WorkspaceStatePending → ∃ p, pod = Some p ∧ pod_Phase p = "Pending";
  sc_requeue : (0 < res_RequeueAfter r.1.2)%Z ↔ r.1.1.1 = WorkspaceStatePending;
  sc_blocked p : pod = Some p → meta_DeletionTimestamp (pod_Meta p) = None → pod_blocked p →
    r.1.1.1 = WorkspaceStateError;
  sc_warning : listed_warning h → r.1.1.1 = WorkspaceStateError;
  sc_error e : r.2 = Some e → r.1.1.1 = WorkspaceStateUnknown ∧
    ∃ o, Ev (List KEvent o) (inr e) ∈ h;
}.

(** The three tests on the scheduling condition together. *)
Lemma pod_blocked_tests p :
  let c := (podConditions (pod_Conditions p)).1 in
  let scheduled := bool_decide (cond_Status c = "True") in
  pod_blocked p ↔
  negb scheduled && bool_decide (cond_Reason c = "Unschedulable") = true ∨
  negb scheduled && bool_decide (cond_Reason c = "SchedulingGated") = true ∨
  negb scheduled && bool_decide (cond_Reason c = "SchedulerError") = true.
Proof.
  simpl. unfold pod_blocked. rewrite !andb_true_iff, !negb_true_iff, !bool_decide_eq_true,
    !bool_decide_eq_false, !elem_of_cons, elem_of_nil. tauto.
Qed.

(** A state reached without listing events. *)
Lemma state_correct_direct paused pod st msg :
  st ≠ WorkspaceStatePending →
  (st = WorkspaceStateRunning ↔ ∃ p, pod = Some p ∧ pod_up p) →
  (st = WorkspaceStatePaused ↔ pod = None ∧ paused = true) →
  (st = WorkspaceStateTerminating ↔
    ∃ p, pod = Some p ∧ is_Some (meta_DeletionTimestamp (pod_Meta p))) →
  (∀ p, pod = Some p → meta_DeletionTimestamp (pod_Meta p) = None → pod_blocked p →
    st = WorkspaceStateError) →
  state_correct paused pod [] (st, msg, emptyResult, None).
Proof.
  intros Hp ? ? ? ?. split; simpl; try done.
  intros (e & He & _). set_solver.
Qed.

Lemma state_correct_pod paused p st msg :
  st ≠ WorkspaceStatePending → st ≠ WorkspaceStatePaused →
  (st = WorkspaceStateRunning ↔ pod_up p) →
  (st = WorkspaceStateTerminating ↔ is_Some (meta_DeletionTimestamp (pod_Meta p))) →
  (meta_DeletionTimestamp (pod_Meta p) = None → pod_blocked p → st = WorkspaceStateError) →
  state_correct paused (Some p) [] (st, msg, emptyResult, None).
Proof.
  intros Hpe Hpa Hr Ht Hb. apply state_correct_direct; [done|..].
  - rewrite Hr. split; [eauto|]. by intros (? & [= <-] & ?).
  - split; [done|]. by intros [? _].
  - rewrite Ht. split; [eauto|]. by intros (? & [= <-] & ?).
  - by intros ? [= <-].
Qed.

(** A state reached after listing the events of the StatefulSet or the Pod. *)
Lemma state_correct_listed paused pod o (answered : answer (list Event)) st msg res err :
  (∀ p, pod = Some p → meta_DeletionTimestamp (pod_Meta p) = None ∧ ¬ pod_blocked p ∧
    ¬ pod_up p) →
  (pod = None → paused = false) →
  st ∈ [WorkspaceStateError; WorkspaceStatePending; WorkspaceStateUnknown] →
  (st = WorkspaceStatePending → ∃ p, pod = Some p ∧ pod_Phase p = "Pending") →
  ((0 < res_RequeueAfter res)%Z ↔ st = WorkspaceStatePending) →
  (is_Some (answered_warning (Ev (List KEvent o) answered)) → st = WorkspaceStateError) →
  (∀ e, err = Some e → st = WorkspaceStateUnknown ∧ answered = inr e) →
  state_correct paused pod [Ev (List KEvent o) answered] (st, msg, res, err).
Proof.
  intros Hpod Hpaused Hst Hpend Hreq Hwarn Herr.
  assert (st ≠ WorkspaceStateRunning ∧ st ≠ WorkspaceStatePaused ∧
          st ≠ WorkspaceStateTerminating) as (Hr & Hpa & Ht).
  { rewrite !elem_of_cons, elem_of_nil in Hst. by destruct Hst as [->|[->|[->|[]]]]. }
  split; simpl; try done.
  - split; [done|]. intros (p & -> & Hup). by destruct (Hpod p) as (_ & _ & ?).
  - split; [done|]. intros [-> ->]. by discriminate Hpaused.
  - split; [done|]. intros (p & -> & Hdel). destruct (Hpod p) as (Hn & _); [done|].
    rewrite Hn in Hdel. by destruct Hdel.
  - intros p -> _ Hb. by destruct (Hpod p) as (_ & ? & _).
  - intros (e & ->%list_elem_of_singleton & Hw). auto.
  - intros e ->. destruct (Herr e) as [-> ->]; [done|]. split; [done|]. exists o. by left.
Qed.

Lemma generateWorkspaceState_sat paused sts pod :
  sat (generateWorkspaceState paused sts pod) [] (state_correct paused pod).
Proof.
  unfold generateWorkspaceState. destruct pod as [p|].
  - destruct (meta_DeletionTimestamp (pod_Meta p)) as [ts|] eqn:Hdel.
    { apply state_correct_pod; [done|done| |by rewrite Hdel|by rewrite Hdel].
      split; [done|]. intros [Hd _]. congruence. }
    assert (Hnt : ∀ st, st ≠ WorkspaceStateTerminating →
      st = WorkspaceStateTerminating ↔ is_Some (meta_DeletionTimestamp (pod_Meta p)))
      by (intros; rewrite Hdel; split; [done|by intros []]).
    assert (Herr : ∀ msg, pod_blocked p ∨ ¬ pod_up p →
      state_correct paused (Some p) [] (WorkspaceStateError, msg, emptyResult, None)).
    { intros msg Hor. apply state_correct_pod; [done|done| |by apply Hnt|done].
      split; [done|]. unfold pod_up in *. tauto. }
    pose proof (pod_blocked_tests p) as Hb. cbv zeta in Hb.
    destruct (podConditions (pod_Conditions p)) as [sch ready] eqn:Hcond. cbn [fst] in Hb.
    destruct (negb _ && bool_decide (cond_Reason sch = "Unschedulable")); [apply Herr; tauto|].
    destruct (negb _ && bool_decide (cond_Reason sch = "SchedulingGated")); [apply Herr; tauto|].
    destruct (negb _ && bool_decide (cond_Reason sch = "SchedulerError")); [apply Herr; tauto|].
    assert (Hnb : ¬ pod_blocked p) by (rewrite Hb; naive_solver). clear Hb.
    destruct (bool_decide (pod_Phase p = "Running") && _) eqn:Hrun.
    { go_bool. apply state_correct_pod; [done|done| |by apply Hnt|done].
      split; [intros _|done]. unfold pod_up. by rewrite Hcond. }
    assert (Hnup : ¬ pod_up p).
    { intros (_ & _ & Hph & Hr). rewrite Hcond in Hr. simpl in Hr.
      by rewrite !bool_decide_eq_true_2 in Hrun. }
    clear Hrun. case_bool_decide; [apply Herr; by right|]. case_bool_decide; [apply Herr; by right|].
    intros answered.
    assert (Hpod : ∀ p', Some p = Some p' → meta_DeletionTimestamp (pod_Meta p') = None ∧
      ¬ pod_blocked p' ∧ ¬ pod_up p') by by intros ? [= <-].
    destruct answered as [items|e]; simpl;
      [destruct (lastWarningEvent items) as [l|] eqn:Hl; [|case_bool_decide]|];
      apply state_correct_listed; simpl; rewrite ?Hl; try done; try set_solver.
  - destruct paused.
    { apply state_correct_direct; try done; (split; [done|]); by intros (? & ? & _). }
    intros answered. destruct answered as [items|e]; simpl;
      [destruct (lastWarningEvent items) as [l|] eqn:Hl|];
      apply state_correct_listed; simpl; rewrite ?Hl; try done; try set_solver.
Qed.

(** ** Properties *)

(** Whatever the API server answers, [generateWorkspaceState] classifies
    correctly: Running exactly when the Pod exists, is not being deleted, is not held
    back by the scheduler, and is in phase Running and Ready; Paused exactly when
    there is no Pod and the spec says paused; Terminating exactly when the Pod is being
    deleted; a Pod held back, or a listed Warning event, is an Error; only Pending
    requeues; a failed list is returned as the error with state Unknown. *)
Theorem generateWorkspaceState_classifies paused sts pod h r :
  runs (generateWorkspaceState paused sts pod) h r → state_correct paused pod h r.
Proof.
  exact (proj1 (sat_runs _ [] _) (generateWorkspaceState_sat paused sts pod) h r).
Qed.

Definition exSts : StatefulSet :=
  mkStatefulSet (exMeta "ws-test-abc" "ns")
    (mkStatefulSetSpec (Some 1%Z) ∅ (mkPodTemplateSpec ∅ ∅
       (mkPodSpec None [] ∅ "" None "" [] [])) "").

Definition exRunningPod : Pod :=
  exPod "pod-uid" "Running"
    [mkPodCondition "PodScheduled" "True" "" ""; mkPodCondition "Ready" "True" "" ""] [].

Lemma generateWorkspaceState_classifies_witness :
  let p := generateWorkspaceState false exSts (Some exRunningPod) in
  let env := exEnv 0 (mkExecOutcome [] None) in
  (interp env p tt).1 = (WorkspaceStateRunning, stateMsgRunning, emptyResult, None) ∧
  state_correct false (Some exRunningPod) (trace env p tt) (interp env p tt).1.
Proof.
  intros p env. split; [vm_compute; reflexivity|].
  exact (generateWorkspaceState_classifies false exSts (Some exRunningPod) _ _ (interp_runs env p tt)).
Defined.

(** The warning shown to the user is a latest one: the loop returns a Warning
    event with the greatest timestamp of all Warning events, and none exactly when
    there is no Warning event. *)
Theorem lastWarningEvent_latest events :
  match lastWarningEvent events with
  | None => ∀ e, e ∈ events → ¬ is_warning e
  | Some l => l ∈ events ∧ is_warning l ∧
      ∀ e, e ∈ events → is_warning e → (ev_LastTimestamp e ≤ ev_LastTimestamp l)%Z
  end.
Proof. apply lastWarningEvent_spec. Qed.

(** ** The status *)

(** The Workspace enters a Running period. *)
Definition enters_running (w : Workspace) (s' : WorkspaceStatus) : Prop :=
  st_State s' = WorkspaceStateRunning ∧
  (st_State (ws_Status w) ≠ WorkspaceStateRunning ∨ st_LastRunningTime (ws_Status w) = 0%Z).

#[global] Instance enters_running_dec w s' : Decision (enters_running w s').
Proof. unfold enters_running. apply _. Defined.

(** What [generateWorkspaceStatus] makes of a Workspace. *)
Record status_correct (w : Workspace) (pod : option Pod) (sa : string) (h : list event)
    (s' : WorkspaceStatus) (err : option error) : Prop := {
  stc_pause_time :
    if wsSpec_Paused (ws_Spec w) then
      if (st_PauseTime (ws_Status w) =? 0)%Z
      then ∃ t, Ev Now t ∈ h ∧ st_PauseTime s' = UnixMilli t
      else st_PauseTime s' = st_PauseTime (ws_Status w)
    else st_PauseTime s' = 0%Z;
  stc_pod : wps_Name (st_PodTemplatePod s') = default "" ((λ p, meta_Name (pod_Meta p)) <$> pod) ∧
    wps_ServiceAccountName (st_PodTemplatePod s') = sa;
  stc_kept : st_PendingRestart s' = st_PendingRestart (ws_Status w) ∧
    st_PodTemplateOptions s' = st_PodTemplateOptions (ws_Status w);
  stc_error e : err = Some e →
    st_State s' = st_State (ws_Status w) ∧ st_Activity s' = st_Activity (ws_Status w);
  stc_running : err = None →
    (st_State s' = WorkspaceStateRunning ↔ ∃ p, pod = Some p ∧ pod_up p);
  stc_transition : err = None → enters_running w s' →
    st_Activity s' = emptyActivity ∧ ∃ t, Ev Now t ∈ h ∧ st_LastRunningTime s' = UnixMilli t;
  stc_no_transition : err = None → ¬ enters_running w s' →
    st_Activity s' = st_Activity (ws_Status w) ∧
    st_LastRunningTime s' = st_LastRunningTime (ws_Status w);
}.

(** The prefix of the function: the pause time is settled. *)
Definition pauseTimeStep (w : Workspace) : prog WorkspaceStatus :=
  let status := ws_Status w in
  if wsSpec_Paused (ws_Spec w) then
    if (st_PauseTime status =? 0)%Z then
      now <-- nowMilli ;; Ret (st_setPauseTime status now)
    else Ret status
  else Ret (if negb (st_PauseTime status =? 0)%Z then st_setPauseTime status 0 else status).

Lemma pauseTimeStep_sat w :
  sat (pauseTimeStep w) [] (λ h s, ∃ z, s = st_setPauseTime (ws_Status w) z ∧
    if wsSpec_Paused (ws_Spec w) then
      if (st_PauseTime (ws_Status w) =? 0)%Z then ∃ t, Ev Now t ∈ h ∧ z = UnixMilli t
      else z = st_PauseTime (ws_Status w)
    else z = 0%Z).
Proof.
  assert (Hid : ws_Status w = st_setPauseTime (ws_Status w) (st_PauseTime (ws_Status w)))
    by by destruct (ws_Status w).
  unfold pauseTimeStep. destruct (wsSpec_Paused (ws_Spec w)).
  - destruct (st_PauseTime (ws_Status w) =? 0)%Z eqn:Hz.
    + intros t. simpl. eexists. split; [done|]. exists t. split; [by left|done].
    + simpl. by eexists.
  - destruct (Z.eqb_spec (st_PauseTime (ws_Status w)) 0) as [Hz|Hz]; simpl;
      exists 0%Z; (split; [|done]); [by rewrite Hz in Hid|done].
Qed.

Lemma generateWorkspaceStatus_runs w pod sts sa h s' res err :
  runs (generateWorkspaceStatus w pod sts sa) h (s', res, err) →
  status_correct w pod sa h s' err.
Proof.
  set (Q := λ h (r : WorkspaceStatus * Result * option error),
    status_correct w pod sa h r.1.1 r.2).
  assert (Hsat : sat (generateWorkspaceStatus w pod sts sa) [] Q);
    [|intros Hr; exact (proj1 (sat_runs _ [] Q) Hsat h _ Hr)].
  unfold generateWorkspaceStatus. cbv zeta.
  rewrite sat_bind. eapply sat_mono; [exact (pauseTimeStep_sat w)|].
  intros h1 s1 (z & -> & Hz). rewrite sat_bind. apply sat_runs. intros h2 r2 Hr2.
  pose proof (proj1 (sat_runs _ [] _) (generateWorkspaceState_sat _ _ _) h2 r2 Hr2) as Hsc.
  destruct r2 as [[[st msg] rs] e]. destruct Hsc as [Hrun _ _ _ _ _ _ _]. cbn [fst snd] in Hrun.
  assert (Hz2 : ∀ h3, if wsSpec_Paused (ws_Spec w) then
      if (st_PauseTime (ws_Status w) =? 0)%Z
      then ∃ t, Ev Now t ∈ (h1 ++ h2) ++ h3 ∧ z = UnixMilli t
      else z = st_PauseTime (ws_Status w) else z = 0%Z).
  { intros h3. destruct (wsSpec_Paused _); [|done]. destruct (_ =? 0)%Z; [|done].
    destruct Hz as (t & Ht & ->). exists t. split; [|done].
    apply elem_of_app; left. by apply elem_of_app; left. }
  assert (Hpod : wps_Name (generateWorkspacePodStatus pod)
    = default "" ((λ p, meta_Name (pod_Meta p)) <$> pod)) by by destruct pod.
  destruct e as [e|].
  { subst Q. specialize (Hz2 []). rewrite app_nil_r in Hz2. by split. }
  rewrite sat_bind. unfold recordRunningTransition. specialize (Hz2 []) as Hz3.
  rewrite app_nil_r in Hz3. case_bool_decide as Hst; cbn [negb].
  - destruct (negb _ || _) eqn:Htr; cbn [sat pbind].
    + intros t. specialize (Hz2 [Ev Now t]). subst Q. split; try done; simpl.
      * intros _ _. split; [done|]. exists t. split; [|done]. apply elem_of_app; right. by left.
      * intros _ Hno. destruct Hno. split; [done|]. apply orb_true_iff in Htr as [Htr|Htr].
        -- left. by go_bool.
        -- right. simpl in Htr. by go_bool.
    + subst Q. apply orb_false_iff in Htr as [Htr1 Htr2]. simpl in Htr2. go_bool.
      split; try done. intros _ [_ [?|?]]; simpl in *; done.
  - subst Q. split; try done. intros _ [? _]. done.
Qed.

(** C39: On every run, [generateWorkspaceStatus] keeps the pause time in step with
    the spec (zero when not paused, set once when paused), reports Running exactly for
    a Pod that is up, and on entering a Running period stamps [lastRunningTime] with
    the clock and clears the activity of the previous period; otherwise both are
    preserved. When listing events fails, the state and the activity are kept. *)
Theorem generateWorkspaceStatus_correct w pod sts sa h s' res err :
  runs (generateWorkspaceStatus w pod sts sa) h (s', res, err) →
  status_correct w pod sa h s' err.
Proof. apply generateWorkspaceStatus_runs. Qed.

Lemma generateWorkspaceStatus_correct_witness :
  let w := exWorkspace "test" false "img" "pod" (exStatus WorkspaceStatePaused
    (mkWorkspaceActivity 5 5 None None) 7) in
  let p := generateWorkspaceStatus w (Some exRunningPod) exSts "sa" in
  let env := exEnv 1700000000000000000 (mkExecOutcome [] None) in
  ∃ s' res, (interp env p tt).1 = (s', res, None) ∧ st_Activity s' = emptyActivity ∧
    st_LastRunningTime s' = 1700000000000%Z.
Proof.
  intros w p env. destruct (interp env p tt).1 as [[s' res] err] eqn:E.
  assert (Herr : err = None) by (vm_compute in E; by injection E as _ _ <-).
  assert (Hst : st_State s' = WorkspaceStateRunning) by (vm_compute in E; by injection E as <- _ _).
  assert (Hlr : st_LastRunningTime s' = 1700000000000%Z)
    by (vm_compute in E; by injection E as <- _ _).
  subst err. exists s', res. split; [reflexivity|]. split; [|exact Hlr].
  pose proof (interp_runs env p tt) as Hr. rewrite E in Hr.
  apply (stc_transition _ _ _ _ _ _ (generateWorkspaceStatus_correct w (Some exRunningPod)
    exSts "sa" (trace env p tt) s' res None Hr)); [reflexivity|].
  split; [exact Hst|left; discriminate].
Defined.
