(* ===== verification/TLS.v ===== *)
(** * TLS profiles ([pkg/tls/proxy.go], [tls.go], [watcher.go])

    How the cluster's TLS profile becomes the flags of the kube-rbac-proxy sidecar
    ([ResolveProxyTLS]), the controller's own server settings ([resolve]) and the reload
    decision of the watcher.  The APIServer object is unstructured: its serialised form,
    read with the library's [Nested*] accessors, which are parameters. *)

From Stdlib Require Import ZArith.
From stdpp Require Import base gmap strings list.
From S2P Require Import Prelude K8sTypes ApiTypes Client Examples Probe.

(** ** Names *)

Definition apiServerName : string := "cluster".
Definition apiServerGVK : string := "config.openshift.io/v1, Kind=APIServer".

Definition tlsVersionName10 : string := "VersionTLS10".
Definition tlsVersionName11 : string := "VersionTLS11".
Definition tlsVersionName12 : string := "VersionTLS12".
Definition tlsVersionName13 : string := "VersionTLS13".

Definition http2CipherECDSA : string := "TLS_ECDHE_ECDSA_WITH_AES_128_GCM_SHA256".
Definition http2CipherRSA : string := "TLS_ECDHE_RSA_WITH_AES_128_GCM_SHA256".
Definition fipsCipherECDSA256 : string := "TLS_ECDHE_ECDSA_WITH_AES_256_GCM_SHA384".
Definition fipsCipherRSA256 : string := "TLS_ECDHE_RSA_WITH_AES_256_GCM_SHA384".
Definition ianaCipherTLS13AES128 : string := "TLS_AES_128_GCM_SHA256".
Definition ianaCipherTLS13AES256 : string := "TLS_AES_256_GCM_SHA384".
Definition ianaCipherTLS13ChaCha : string := "TLS_CHACHA20_POLY1305_SHA256".
Definition ianaCipherECDHEECDSAChaCha : string :=
  "TLS_ECDHE_ECDSA_WITH_CHACHA20_POLY1305_SHA256".
Definition ianaCipherECDHERSAChaCha : string := "TLS_ECDHE_RSA_WITH_CHACHA20_POLY1305_SHA256".

(** [tls.CipherSuites()]: the names and ids of the secure suites. *)
Definition CipherSuites : list (string * Z) :=
  [ (ianaCipherTLS13AES128, 0x1301); (ianaCipherTLS13AES256, 0x1302);
    (ianaCipherTLS13ChaCha, 0x1303);
    ("TLS_ECDHE_ECDSA_WITH_AES_128_CBC_SHA", 0xc009);
    ("TLS_ECDHE_ECDSA_WITH_AES_256_CBC_SHA", 0xc00a);
    ("TLS_ECDHE_RSA_WITH_AES_128_CBC_SHA", 0xc013);
    ("TLS_ECDHE_RSA_WITH_AES_256_CBC_SHA", 0xc014);
    (http2CipherECDSA, 0xc02b); (fipsCipherECDSA256, 0xc02c);
    (http2CipherRSA, 0xc02f); (fipsCipherRSA256, 0xc030);
    (ianaCipherECDHERSAChaCha, 0xcca8); (ianaCipherECDHEECDSAChaCha, 0xcca9) ]%Z.

(** [tls.CipherSuiteName]. *)
Definition CipherSuiteName (id : Z) : string :=
  match list_find (λ s, s.2 = id) CipherSuites with
  | Some (_, s) => s.1
  | None => "0x" +:+ hex_byte (Z.to_N (id / 256)) +:+ hex_byte (Z.to_N (id mod 256))
  end.

(** [IntermediateCiphers]. *)
Definition IntermediateCiphers : list Z :=
  [0xc02b; 0xc02f; 0xc02c; 0xc030; 0xcca9; 0xcca8]%Z.

(** [openSSLToIANA]. *)
Definition openSSLToIANA : list (string * string) :=
  [ ("ECDHE-ECDSA-AES128-GCM-SHA256", http2CipherECDSA);
    ("ECDHE-RSA-AES128-GCM-SHA256", http2CipherRSA);
    ("ECDHE-ECDSA-AES256-GCM-SHA384", fipsCipherECDSA256);
    ("ECDHE-RSA-AES256-GCM-SHA384", fipsCipherRSA256);
    ("ECDHE-ECDSA-CHACHA20-POLY1305", ianaCipherECDHEECDSAChaCha);
    ("ECDHE-RSA-CHACHA20-POLY1305", ianaCipherECDHERSAChaCha);
    ("ECDHE-ECDSA-CHACHA20-POLY1305-SHA256", ianaCipherECDHEECDSAChaCha);
    ("ECDHE-RSA-CHACHA20-POLY1305-SHA256", ianaCipherECDHERSAChaCha) ].

(** [registerCipherSuites] and the rest of [init]: the name map and the set of
    TLS 1.3 suites. *)
Definition registeredSuites : gmap string string :=
  foldl (λ m s, <[s.1 := s.1]> m) ∅ CipherSuites.
Definition tls13Cipher : gset string :=
  foldl (λ t s, if (0x1300 <=? s.2)%Z && (s.2 <=? 0x13ff)%Z then {[s.1]} ∪ t else t) ∅ CipherSuites.
Definition cipherNames : gmap string string :=
  foldl (λ m e, if bool_decide (is_Some (m !! e.2)) then <[e.1 := e.2]> m else m)
    registeredSuites openSSLToIANA.

(** [groupToCurveID]. *)
Definition groupToCurveID : gmap string string :=
  {[ "secp256r1" := "23"; "secp384r1" := "24"; "secp521r1" := "25"; "X25519" := "29";
     "X25519MLKEM768" := "4588" ]}.

Definition defaultProfileGroups : list string :=
  ["X25519MLKEM768"; "X25519"; "secp256r1"; "secp384r1"].

Definition intermediateProfileCiphers : list string :=
  [ ianaCipherTLS13AES128; ianaCipherTLS13AES256; ianaCipherTLS13ChaCha;
    "ECDHE-ECDSA-AES128-GCM-SHA256"; "ECDHE-RSA-AES128-GCM-SHA256";
    "ECDHE-ECDSA-AES256-GCM-SHA384"; "ECDHE-RSA-AES256-GCM-SHA384";
    "ECDHE-ECDSA-CHACHA20-POLY1305"; "ECDHE-RSA-CHACHA20-POLY1305" ].

Definition modernProfileCiphers : list string :=
  [ianaCipherTLS13AES128; ianaCipherTLS13AES256; ianaCipherTLS13ChaCha].

Definition oldProfileCiphers : list string :=
  intermediateProfileCiphers ++
  [ "ECDHE-ECDSA-AES128-SHA256"; "ECDHE-RSA-AES128-SHA256"; "ECDHE-ECDSA-AES128-SHA";
    "ECDHE-RSA-AES128-SHA"; "ECDHE-ECDSA-AES256-SHA384"; "ECDHE-RSA-AES256-SHA384";
    "ECDHE-ECDSA-AES256-SHA"; "ECDHE-RSA-AES256-SHA"; "AES128-GCM-SHA256";
    "AES256-GCM-SHA384"; "AES128-SHA256"; "AES256-SHA256"; "AES128-SHA"; "AES256-SHA";
    "DES-CBC3-SHA" ].

(** ** kube-rbac-proxy settings *)

Record ProxyTLS := mkProxyTLS {
  ptls_MinVersion : string;
  ptls_Ciphers : list string;
  ptls_Curves : list string;
}.

(** [ProxyTLS.Args]. *)
Definition Args (p : ProxyTLS) : list string :=
  (if bool_decide (ptls_MinVersion p = "") then [] else ["--tls-min-version=" +:+ ptls_MinVersion p]) ++
  (if (0 <? length (ptls_Ciphers p))%nat
   then ["--tls-cipher-suites=" +:+ str_join "," (ptls_Ciphers p)] else []) ++
  (if (0 <? length (ptls_Curves p))%nat
   then ["--tls-curve-preferences=" +:+ str_join "," (ptls_Curves p)] else []).

(** [ErrProxyTLSUnusable], and an error that wraps it. *)
Definition ErrProxyTLSUnusable : error := ErrorMsg "kube-rbac-proxy TLS profile is unusable".
Definition unusable (what : string) : error :=
  ErrorWrap (Error ErrProxyTLSUnusable +:+ ": " +:+ what) ErrProxyTLSUnusable.

(** [errors.Is(err, ErrProxyTLSUnusable)]. *)
Fixpoint IsUnusable (e : error) : bool :=
  bool_decide (e = ErrProxyTLSUnusable) ||
  match e with ErrorWrap _ c => IsUnusable c | _ => false end.

Definition strictAdherence (adherence : string) : bool :=
  negb (bool_decide (adherence ∈ [""; "NoOpinion"; "LegacyAdheringComponentsOnly"])).

Record profileSpec := mkProfileSpec {
  psp_minVersion : string;
  psp_ciphers : list string;
  psp_groups : list string;
}.

Definition builtinOld : profileSpec :=
  mkProfileSpec tlsVersionName10 oldProfileCiphers defaultProfileGroups.
Definition builtinIntermediate : profileSpec :=
  mkProfileSpec tlsVersionName12 intermediateProfileCiphers defaultProfileGroups.
Definition builtinModern : profileSpec :=
  mkProfileSpec tlsVersionName13 modernProfileCiphers defaultProfileGroups.

Definition hasHTTP2Cipher (names : list string) : bool :=
  existsb (λ n, bool_decide (n = http2CipherECDSA) || bool_decide (n = http2CipherRSA)) names.

Definition fipsCipher (name : string) : bool :=
  bool_decide (name ∈ [http2CipherECDSA; http2CipherRSA; fipsCipherECDSA256; fipsCipherRSA256]).

Definition fipsCurve (id : string) : bool := bool_decide (id ∈ ["23"; "24"; "25"]).

Definition intermediateProxyTLS (fips : bool) : ProxyTLS :=
  mkProxyTLS tlsVersionName12
    (filter (λ name, negb (fips && negb (fipsCipher name)) = true)
       (CipherSuiteName <$> IntermediateCiphers)) [].

(** The loops of [tls12Ciphers] and [curvesFromGroups]: look a name up, drop what is
    rejected or already kept. *)
Fixpoint keep_known (table : gmap string string) (reject : string → bool)
    (seen : gset string) (requested : list string) : list string :=
  match requested with
  | [] => []
  | name :: rest =>
    match table !! name with
    | None => keep_known table reject seen rest
    | Some v =>
      if reject v then keep_known table reject seen rest
      else if bool_decide (v ∈ seen) then keep_known table reject seen rest
      else v :: keep_known table reject ({[v]} ∪ seen) rest
    end
  end.

Definition tls12Ciphers (requested : list string) (fips : bool) : go (list string) :=
  if (length requested =? 0)%nat then Err (unusable "no usable TLS 1.2 ciphers remain")
  else
    let out := keep_known cipherNames
      (λ iana, bool_decide (iana ∈ tls13Cipher) || (fips && negb (fipsCipher iana))) ∅ requested in
    if (length out =? 0)%nat then Err (unusable "no usable TLS 1.2 ciphers remain")
    else if negb (hasHTTP2Cipher out)
    then Err (unusable "TLS 1.2 cipher list has no HTTP/2 AES_128_GCM_SHA256 suite")
    else Ok out.

Definition curvesFromGroups (groups : list string) (fips : bool) : go (list string) :=
  let curves := keep_known groupToCurveID (λ id, fips && negb (fipsCurve id)) ∅ groups in
  if (length curves =? 0)%nat then Err (unusable "no usable TLS groups remain") else Ok curves.

Definition specToProxyTLS (spec : profileSpec) (fips : bool) : go ProxyTLS :=
  if negb (bool_decide (psp_minVersion spec ∈ [tlsVersionName12; tlsVersionName13]))
  then Err (unusable ("minimum TLS version " +:+ quote (psp_minVersion spec)
                      +:+ " cannot be represented"))
  else
    let! ciphers := if bool_decide (psp_minVersion spec = tlsVersionName12)
                    then tls12Ciphers (psp_ciphers spec) fips else Ok [] in
    let! curves := if (0 <? length (psp_groups spec))%nat
                   then curvesFromGroups (psp_groups spec) fips else Ok [] in
    Ok (mkProxyTLS (psp_minVersion spec) ciphers curves).

(** ** Reading the profile *)

(** [unstructured.NestedString], [NestedMap] and [NestedStringSlice] on a serialised
    object: absent (or nil), the value, or an error. *)
Class UnstructuredLib := {
  NestedString : string → list string → option string + error;
  NestedMap : string → list string → option string + error;
  NestedStringSlice : string → list string → option (list string) + error;
}.

Section profile.
Context `{UnstructuredLib}.

Definition applySpecFields (spec : profileSpec) (block : string) (custom : bool)
    : go profileSpec :=
  match NestedString block ["minTLSVersion"] with
  | inr e => Err (unusable ("reading minTLSVersion: " +:+ Error e))
  | inl minVersion =>
    let! minVersion :=
      match minVersion with
      | Some v => if bool_decide (v = "") then
                    if custom then Err (unusable "custom TLS profile is missing minTLSVersion")
                    else Ok (psp_minVersion spec)
                  else Ok v
      | None => if custom then Err (unusable "custom TLS profile is missing minTLSVersion")
                else Ok (psp_minVersion spec)
      end in
    match NestedStringSlice block ["ciphers"] with
    | inr e => Err (unusable ("reading ciphers: " +:+ Error e))
    | inl ciphers =>
      match NestedStringSlice block ["groups"] with
      | inr e => Err (unusable ("reading groups: " +:+ Error e))
      | inl groups =>
          Ok (mkProfileSpec minVersion (default (psp_ciphers spec) ciphers)
                (default (psp_groups spec) groups))
      end
    end
  end.

Definition applyOptionalBlock (spec : profileSpec) (profile key : string) : go profileSpec :=
  match NestedMap profile [key] with
  | inr e => Err (unusable ("reading " +:+ key +:+ " profile block: " +:+ Error e))
  | inl None => Ok spec
  | inl (Some block) => applySpecFields spec block false
  end.

Definition specForType (profile profileType : string) : go profileSpec :=
  if bool_decide (profileType = "Old") then applyOptionalBlock builtinOld profile "old"
  else if bool_decide (profileType = "Intermediate")
  then applyOptionalBlock builtinIntermediate profile "intermediate"
  else if bool_decide (profileType = "Modern")
  then applyOptionalBlock builtinModern profile "modern"
  else if bool_decide (profileType = "Custom") then
    match NestedMap profile ["custom"] with
    | inr e => Err (unusable ("reading custom profile: " +:+ Error e))
    | inl None => Err (unusable "custom TLS profile is missing its custom block")
    | inl (Some block) => applySpecFields (mkProfileSpec "" [] []) block true
    end
  else Err (unusable ("unknown TLS profile type " +:+ quote profileType)).

Definition proxyTLSFromProfile (profile : string) (fips : bool) : go ProxyTLS :=
  match NestedString profile ["type"] with
  | inr e => Err (unusable ("reading profile type: " +:+ Error e))
  | inl profileType =>
    let profileType := default "" profileType in
    if bool_decide (profileType = "") then Ok (intermediateProxyTLS fips)
    else let! spec := specForType profile profileType in specToProxyTLS spec fips
  end.

(** [FIPSEnabled]. *)
Definition FIPSEnabled : prog bool :=
  enabled <-- call FIPS140Enabled ;;
  if enabled then Ret true
  else
    data <-- call (ReadFile "/proc/sys/crypto/fips_enabled") ;;
    Ret match data with inr _ => false | inl data => bool_decide (TrimSpace data = "1") end.

(** [ResolveProxyTLS]. *)
Definition ResolveProxyTLS (fips : bool) : prog (go ProxyTLS) :=
  apiServer <-- call (GetUnstructured apiServerGVK apiServerName) ;;
  Ret match apiServer with
  | inr err =>
      if IsNoMatchError err || IsNotFound err then Ok (intermediateProxyTLS fips)
      else Err (ErrorWrap ("reading APIServer for kube-rbac-proxy TLS: " +:+ Error err) err)
  | inl apiServer =>
    match NestedString apiServer ["spec"; "tlsAdherence"] with
    | inr err =>
        Err (ErrorWrap ("reading APIServer tlsAdherence for kube-rbac-proxy: " +:+ Error err) err)
    | inl adherence =>
      if negb (strictAdherence (default "" adherence)) then Ok (intermediateProxyTLS fips)
      else match NestedMap apiServer ["spec"; "tlsSecurityProfile"] with
      | inr err => Err (unusable ("reading tlsSecurityProfile: " +:+ Error err))
      | inl None => Ok (intermediateProxyTLS fips)
      | inl (Some profile) => proxyTLSFromProfile profile fips
      end
    end
  end.

(** ** The controller's own servers ([tls.go]) *)

Definition VersionTLS10 : Z := 0x0301.
Definition VersionTLS11 : Z := 0x0302.
Definition VersionTLS12 : Z := 0x0303.
Definition VersionTLS13 : Z := 0x0304.

Definition tlsVersionMap : gmap string Z :=
  {[ tlsVersionName10 := VersionTLS10; tlsVersionName11 := VersionTLS11;
     tlsVersionName12 := VersionTLS12; tlsVersionName13 := VersionTLS13 ]}.

(** [openSSLToGoCipher]. *)
Definition openSSLToGoCipher : gmap string Z :=
  {[ ianaCipherTLS13AES128 := 0x1301; ianaCipherTLS13AES256 := 0x1302;
     ianaCipherTLS13ChaCha := 0x1303;
     "ECDHE-ECDSA-AES128-GCM-SHA256" := 0xc02b; "ECDHE-RSA-AES128-GCM-SHA256" := 0xc02f;
     "ECDHE-ECDSA-AES256-GCM-SHA384" := 0xc02c; "ECDHE-RSA-AES256-GCM-SHA384" := 0xc030;
     "ECDHE-ECDSA-CHACHA20-POLY1305-SHA256" := 0xcca9;
     "ECDHE-RSA-CHACHA20-POLY1305-SHA256" := 0xcca8;
     "ECDHE-ECDSA-CHACHA20-POLY1305" := 0xcca9;
     "ECDHE-RSA-CHACHA20-POLY1305" := 0xcca8 ]}%Z.

(** [parseCustomProfile]: the version and the suites; a nil slice is [None]. *)
Definition parseCustomProfile (spec : string) : Z * option (list Z) :=
  match NestedMap spec ["custom"] with
  | inr _ | inl None => (VersionTLS12, Some IntermediateCiphers)
  | inl (Some custom) =>
    let minTLSStr := match NestedString custom ["minTLSVersion"] with
                     | inl (Some s) => s | _ => "" end in
    let minVersion := default VersionTLS12 (tlsVersionMap !! minTLSStr) in
    match NestedStringSlice custom ["ciphers"] with
    | inr _ | inl None | inl (Some []) => (minVersion, None)
    | inl (Some names) => (minVersion, Some (omap (λ name, openSSLToGoCipher !! name) names))
    end
  end.

Definition parseProfile (apiServer : string) : Z * option (list Z) :=
  match NestedMap apiServer ["spec"; "tlsSecurityProfile"] with
  | inr _ | inl None => (VersionTLS12, Some IntermediateCiphers)
  | inl (Some spec) =>
    let profileType := match NestedString spec ["type"] with
                       | inl (Some t) => t | _ => "" end in
    if bool_decide (profileType ∈ ["Intermediate"; ""])
    then (VersionTLS12, Some IntermediateCiphers)
    else if bool_decide (profileType = "Modern") then (VersionTLS13, None)
    else if bool_decide (profileType = "Old") then (VersionTLS10, None)
    else if bool_decide (profileType = "Custom") then parseCustomProfile spec
    else (VersionTLS12, Some IntermediateCiphers)
  end.

(** What the option function sets on a [tls.Config]: the suites only when non-empty. *)
Record TLSOpts := mkTLSOpts { topt_MinVersion : Z; topt_CipherSuites : option (list Z) }.

Record TLSResult := mkTLSResult {
  tr_TLSOpts : TLSOpts;
  tr_APIAvailable : bool;
  tr_Profile : option string;
  tr_Adherence : string;
}.

Definition intermediateWithALPN : TLSOpts := mkTLSOpts VersionTLS12 (Some IntermediateCiphers).

Definition intermediateProfileMap : string :=
  "{" +:+ dquote +:+ "type" +:+ dquote +:+ ":" +:+ dquote +:+ "Intermediate" +:+ dquote +:+ "}".

Definition normalizeProfileMap (m : option string) : string := default intermediateProfileMap m.

(** The profile and the adherence of an APIServer object; read errors give nil. *)
Definition readProfile (apiServer : string) : string * string :=
  (normalizeProfileMap
     match NestedMap apiServer ["spec"; "tlsSecurityProfile"] with inl m => m | inr _ => None end,
   match NestedString apiServer ["spec"; "tlsAdherence"] with
   | inl a => default "" a | inr _ => "" end).

Definition resolve : prog (go TLSResult) :=
  apiServer <-- call (GetUnstructured apiServerGVK apiServerName) ;;
  Ret match apiServer with
  | inr err =>
    let transient := existsb (λ r, IsReason r err)
      [ServiceUnavailable; TimeoutReason; ServerTimeout; TooManyRequests; DeadlineExceeded;
       Forbidden; Unauthorized] in
    if IsNoMatchError err || IsNotFound err
    then Ok (mkTLSResult intermediateWithALPN false None "")
    else if transient
    then Ok (mkTLSResult intermediateWithALPN true (Some intermediateProfileMap) "")
    else Err (ErrorWrap ("failed to read APIServer TLS profile: " +:+ Error err) err)
  | inl apiServer =>
    let '(profile, adherence) := readProfile apiServer in
    let '(minVersion, ciphers) := parseProfile apiServer in
    if bool_decide (ciphers = Some [])
    then Err (ErrorMsg "custom TLS profile specified ciphers but none are supported by Go")
    else Ok (mkTLSResult (mkTLSOpts minVersion ciphers) true (Some profile) adherence)
  end.

(** ** The watcher ([watcher.go]) *)

Record ProfileWatcher := mkProfileWatcher { pw_lastProfile : string; pw_lastAdherence : string }.

(** [ProfileWatcher.Reconcile]: the new state, whether [OnProfileChange] was called,
    and the error. *)
Definition watcherReconcile (w : ProfileWatcher) (name : string)
    : prog (ProfileWatcher * bool * option error) :=
  if negb (bool_decide (name = apiServerName)) then Ret (w, false, None)
  else
    apiServer <-- call (GetUnstructured apiServerGVK name) ;;
    Ret match apiServer with
    | inr err => (w, false, if IsNotFound err then None else Some err)
    | inl apiServer =>
      let '(current, adherence) := readProfile apiServer in
      if negb (bool_decide (pw_lastProfile w = current))
         || negb (bool_decide (pw_lastAdherence w = adherence))
      then (mkProfileWatcher current adherence, true, None)
      else (w, false, None)
    end.
End profile.

(** ** Lemmas *)

Section keep_known.
Context (table : gmap string string) (reject : string → bool).

Lemma keep_known_spec seen requested :
  NoDup (keep_known table reject seen requested) ∧
  ∀ v, v ∈ keep_known table reject seen requested ↔
    v ∉ seen ∧ reject v = false ∧ ∃ n, n ∈ requested ∧ table !! n = Some v.
Proof.
  revert seen. induction requested as [|n rest IH]; intros seen; simpl.
  { split; [constructor|]. set_solver. }
  destruct (table !! n) as [v|] eqn:Hv.
  - destruct (reject v) eqn:Hr; [|case_bool_decide as Hin].
    + destruct (IH seen) as [Hnd Hel]. split; [done|]. intros w. rewrite Hel. split.
      * set_solver.
      * intros (? & ? & m & [->|Hm]%elem_of_cons & ?); [congruence|eauto 10].
    + destruct (IH seen) as [Hnd Hel]. split; [done|]. intros w. rewrite Hel. split.
      * set_solver.
      * intros (? & ? & m & [->|Hm]%elem_of_cons & ?); [congruence|eauto 10].
    + destruct (IH ({[v]} ∪ seen)) as [Hnd Hel]. split.
      * apply NoDup_cons. split; [|done]. rewrite Hel. set_solver.
      * intros w. rewrite elem_of_cons, Hel. split.
        -- intros [->|(? & ? & m & ? & ?)]; [|set_solver]. split; [done|]. split; [done|].
           exists n. set_solver.
        -- intros (? & ? & m & [->|Hm]%elem_of_cons & ?); [left; congruence|].
           destruct (decide (w = v)) as [->|]; [by left|right].
           split; [set_solver|eauto].
  - destruct (IH seen) as [Hnd Hel]. split; [done|]. intros w. rewrite Hel. split.
    + set_solver.
    + intros (? & ? & m & [->|Hm]%elem_of_cons & ?); [congruence|eauto 10].
Qed.
End keep_known.

(** What every accepted listener configuration satisfies. *)
Record listener_ok (fips : bool) (p : ProxyTLS) : Prop := {
  lok_version : ptls_MinVersion p = tlsVersionName12 ∨ ptls_MinVersion p = tlsVersionName13;
  lok_tls13 : ptls_MinVersion p = tlsVersionName13 → ptls_Ciphers p = [];
  lok_http2 : ptls_MinVersion p = tlsVersionName12 →
    http2CipherECDSA ∈ ptls_Ciphers p ∨ http2CipherRSA ∈ ptls_Ciphers p;
  lok_nodup : NoDup (ptls_Ciphers p) ∧ NoDup (ptls_Curves p);
  lok_known c : c ∈ ptls_Ciphers p → c ∈ CipherSuites.*1 ∧ c ∉ tls13Cipher;
  lok_curves c : c ∈ ptls_Curves p → ∃ g, groupToCurveID !! g = Some c;
  lok_fips : fips = true →
    (∀ c, c ∈ ptls_Ciphers p → fipsCipher c = true) ∧
    (∀ c, c ∈ ptls_Curves p → fipsCurve c = true);
}.

Lemma cipherNames_known n v : cipherNames !! n = Some v → v ∈ CipherSuites.*1.
Proof.
  intros Hn. assert (Hall : bool_decide
    (map_Forall (λ _ v, v ∈ CipherSuites.*1) cipherNames) = true) by (vm_compute; reflexivity).
  apply bool_decide_eq_true in Hall. exact (Hall n v Hn).
Qed.

Lemma hasHTTP2Cipher_spec l :
  hasHTTP2Cipher l = true ↔ http2CipherECDSA ∈ l ∨ http2CipherRSA ∈ l.
Proof.
  unfold hasHTTP2Cipher. rewrite existsb_exists.
  setoid_rewrite orb_true_iff. setoid_rewrite bool_decide_eq_true.
  setoid_rewrite <-list_elem_of_In. naive_solver.
Qed.

(** Membership in a concrete list, by evaluation. *)
Lemma Forall_eval {A} (P : A → Prop) `{∀ x, Decision (P x)} l :
  bool_decide (Forall P l) = true → ∀ x, x ∈ l → P x.
Proof. intros H1%bool_decide_eq_true. by apply Forall_forall. Qed.

Lemma intermediate_listener_ok fips : listener_ok fips (intermediateProxyTLS fips).
Proof.
  split.
  - by left.
  - done.
  - intros _. left. destruct fips; refine (bool_decide_eq_true_1 _ _); vm_compute; reflexivity.
  - destruct fips; split; refine (bool_decide_eq_true_1 _ _); vm_compute; reflexivity.
  - refine (Forall_eval _ _ _). destruct fips; vm_compute; reflexivity.
  - intros c Hc. by apply elem_of_nil in Hc.
  - intros ->. split; [refine (Forall_eval _ _ _); vm_compute; reflexivity|].
    intros c Hc. by apply elem_of_nil in Hc.
Qed.

Lemma tls12Ciphers_ok requested fips out :
  tls12Ciphers requested fips = Ok out →
  NoDup out ∧ (http2CipherECDSA ∈ out ∨ http2CipherRSA ∈ out) ∧
  (∀ c, c ∈ out → c ∈ CipherSuites.*1 ∧ c ∉ tls13Cipher ∧ (fips = true → fipsCipher c = true)).
Proof.
  unfold tls12Ciphers. destruct (length requested =? 0)%nat; [done|].
  set (reject := λ iana, _). destruct (keep_known_spec cipherNames reject ∅ requested) as [Hnd Hel].
  destruct (length _ =? 0)%nat; [done|].
  destruct (hasHTTP2Cipher _) eqn:H2; [|done]. simpl. intros [= <-].
  split; [done|]. split; [by apply hasHTTP2Cipher_spec|].
  intros c (_ & Hr & n & _ & Hn)%Hel. subst reject. simpl in Hr.
  apply orb_false_iff in Hr as [H13 Hf]. go_bool.
  split; [by eapply cipherNames_known|]. split; [done|].
  intros ->. simpl in Hf. by go_bool.
Qed.

Lemma curvesFromGroups_ok groups fips out :
  curvesFromGroups groups fips = Ok out →
  NoDup out ∧ ∀ c, c ∈ out →
    (∃ g, groupToCurveID !! g = Some c) ∧ (fips = true → fipsCurve c = true).
Proof.
  unfold curvesFromGroups. set (reject := λ id, _).
  destruct (keep_known_spec groupToCurveID reject ∅ groups) as [Hnd Hel].
  destruct (length _ =? 0)%nat; [done|]. intros [= <-]. split; [done|].
  intros c (_ & Hr & n & _ & Hn)%Hel. split; [eauto|]. intros ->. subst reject. simpl in Hr.
  by go_bool.
Qed.

Lemma specToProxyTLS_ok spec fips p :
  specToProxyTLS spec fips = Ok p →
  listener_ok fips p ∧ ptls_MinVersion p = psp_minVersion spec.
Proof.
  unfold specToProxyTLS. case_bool_decide as Hv; [simpl|done].
  destruct (if bool_decide (psp_minVersion spec = _) then _ else _) as [cs| |] eqn:Hc; [|done..].
  destruct (if (0 <? _)%nat then _ else _) as [gs| |] eqn:Hg; [|done..]. simpl. intros [= <-].
  split; [|done].
  assert (Hgs : NoDup gs ∧ ∀ c, c ∈ gs →
    (∃ g, groupToCurveID !! g = Some c) ∧ (fips = true → fipsCurve c = true)).
  { destruct (0 <? _)%nat; [by apply curvesFromGroups_ok in Hg|]. injection Hg as <-.
    split; [constructor|]. intros c Hin. by apply elem_of_nil in Hin. }
  destruct Hgs as [Hgnd Hgel].
  case_bool_decide as H12.
  - apply tls12Ciphers_ok in Hc as (Hnd & H2 & Hel).
    split; simpl; [by left|by rewrite H12|done|done| | |].
    + intros c Hin. by destruct (Hel c Hin) as (? & ? & _).
    + intros c Hin. by destruct (Hgel c Hin).
    + intros Hf. split; intros c Hin; [by apply (Hel c Hin)|by apply (Hgel c Hin)].
  - injection Hc as <-. rewrite !elem_of_cons in Hv.
    destruct Hv as [Hv|[Hv|Hv%elem_of_nil]]; [done| |done].
    split; simpl; [by right|done|by rewrite Hv|split; [constructor|done]| | |].
    + intros c Hin. by apply elem_of_nil in Hin.
    + intros c Hin. by destruct (Hgel c Hin).
    + intros Hf. split; intros c Hin; [by apply elem_of_nil in Hin|by apply (Hgel c Hin)].
Qed.

Section tls_theorems.
Context `{UnstructuredLib}.

Lemma unusable_IsUnusable what : IsUnusable (unusable what) = true.
Proof. done. Qed.






Lemma proxyTLSFromProfile_ok profile fips p :
  proxyTLSFromProfile profile fips = Ok p → listener_ok fips p.
Proof.
  unfold proxyTLSFromProfile. destruct (NestedString _ _) as [t|e]; [|done].
  case_bool_decide; [intros [= <-]; apply intermediate_listener_ok|].
  destruct (specForType _ _) as [spec| |]; [|done..]. simpl. intros Hs.
  by apply specToProxyTLS_ok in Hs as [? _].
Qed.

(** ** Properties *)

(** C19: Whatever the APIServer object holds, a kube-rbac-proxy configuration that
    [ResolveProxyTLS] accepts listens with TLS 1.2 or 1.3; under 1.2 its cipher list is
    duplicate-free, consists of suites Go implements for 1.2, and includes a suite
    HTTP/2 requires; under 1.3 the list is empty; curves are known ids; and in FIPS mode
    every cipher and curve is FIPS-approved. *)
Theorem ResolveProxyTLS_sound fips h p :
  runs (ResolveProxyTLS fips) h (Ok p) → listener_ok fips p.
Proof.
  intros (x & h' & -> & -> & Heq). revert Heq.
  destruct x as [obj|err].
  - destruct (NestedString _ _) as [a|e]; [|done].
    destruct (strictAdherence _); simpl; [|intros [= <-]; apply intermediate_listener_ok].
    destruct (NestedMap _ _) as [[profile|]|]; [|intros [= <-]; apply intermediate_listener_ok|done].
    apply proxyTLSFromProfile_ok.
  - destruct (_ || _); [|done]. intros [= <-]. apply intermediate_listener_ok.
Qed.








(** The controller's own servers never run with an explicitly empty cipher list,
    and negotiate below TLS 1.2 only when the cluster profile on record is of type Old
    or Custom; an unsupported custom cipher list and unclassified read errors stop the
    start instead of weakening it. *)
Theorem resolve_hardened h r :
  runs resolve h r →
  match r with
  | Ok res =>
      topt_CipherSuites (tr_TLSOpts res) ≠ Some [] ∧
      ((topt_MinVersion (tr_TLSOpts res) < VersionTLS12)%Z →
       ∃ apiServer spec t, h = [Ev (GetUnstructured apiServerGVK apiServerName) (inl apiServer)] ∧
         NestedMap apiServer ["spec"; "tlsSecurityProfile"] = inl (Some spec) ∧
         NestedString spec ["type"] = inl (Some t) ∧ t ∈ ["Old"; "Custom"])
  | Err _ =>
      ∃ x, h = [Ev (GetUnstructured apiServerGVK apiServerName) x] ∧
        match x with
        | inl apiServer => (parseProfile apiServer).2 = Some []
        | inr err => IsNoMatchError err = false ∧ IsNotFound err = false
        end
  | Panic _ => False
  end.
Proof.
  intros (x & h' & -> & -> & <-). destruct x as [obj|err].
  - destruct (readProfile obj) as [prof adh]. destruct (parseProfile obj) as [mv cs] eqn:Hp.
    case_bool_decide as Hcs.
    + exists (inl obj). split; [done|]. by rewrite Hp.
    + simpl. split; [done|]. intros Hlt. revert Hp. unfold parseProfile.
      destruct (NestedMap obj _) as [[spec|]|] eqn:Hm; [|by intros [= <- <-]..].
      set (t := match NestedString spec ["type"] with inl (Some t) => t | _ => "" end).
      case_bool_decide; [by intros [= <- <-]|]. case_bool_decide; [by intros [= <- <-]|].
      assert (Ht : t ∈ ["Old"; "Custom"] → NestedString spec ["type"] = inl (Some t)).
      { subst t. destruct (NestedString spec ["type"]) as [[t|]|]; [done|set_solver..]. }
      case_bool_decide; [intros _; exists obj, spec, t; set_solver|].
      case_bool_decide; [intros _; exists obj, spec, t; set_solver|by intros [= <- <-]].
  - destruct (IsNoMatchError err || IsNotFound err) eqn:Hr; [done|].
    apply orb_false_iff in Hr as [H1 H2]. destruct (existsb _ _); [done|].
    by exists (inr err).
Qed.

(** The watcher calls back exactly when the profile or the adherence it reads
    differs from the last one it saw, keeps what it read, and a second event for an
    unchanged APIServer does not call back again; a failed read changes nothing. *)
Theorem watcher_fires_on_change w w' fired err h :
  runs (watcherReconcile w apiServerName) h (w', fired, err) →
  ∃ x, h = [Ev (GetUnstructured apiServerGVK apiServerName) x] ∧
  match x with
  | inl apiServer =>
      (fired = true ↔ (pw_lastProfile w, pw_lastAdherence w) ≠ readProfile apiServer) ∧
      (pw_lastProfile w', pw_lastAdherence w') = readProfile apiServer ∧ err = None ∧
      runs (watcherReconcile w' apiServerName)
        [Ev (GetUnstructured apiServerGVK apiServerName) (inl apiServer)] (w', false, None)
  | inr e => fired = false ∧ w' = w ∧ (err = None ↔ IsNotFound e = true)
  end.
Proof.
  intros (x & h' & -> & -> & Heq). exists x. split; [done|]. destruct x as [obj|e].
  - destruct (readProfile obj) as [prof adh] eqn:Hrp.
    assert (Hrest : runs (watcherReconcile (mkProfileWatcher prof adh) apiServerName)
        [Ev (GetUnstructured apiServerGVK apiServerName) (inl obj)]
        (mkProfileWatcher prof adh, false, None)).
    { eexists _, _. split; [done|]. split; [done|]. rewrite Hrp.
      by rewrite !bool_decide_eq_true_2. }
    destruct (negb _ || negb _) eqn:Hne; simplify_eq.
    + split; [|done]. split; [|done]. intros _ [= <- <-].
      by rewrite !bool_decide_eq_true_2 in Hne.
    + apply orb_false_iff in Hne as [H1 H2]. go_bool. subst.
      destruct w' as [p a]. simpl in *. split; [|done]. split; [done|]. by intros [].
  - simplify_eq. split; [done|]. split; [done|]. by destruct (IsNotFound e).
Qed.
End tls_theorems.

(** An APIServer with a strict Modern profile. *)
Definition exampleUnstructured : UnstructuredLib := {|
  NestedString o path :=
    if bool_decide (o = "apiserver" ∧ path = ["spec"; "tlsAdherence"])
    then inl (Some "StrictAllComponents")
    else if bool_decide (o = "profile" ∧ path = ["type"]) then inl (Some "Modern")
    else inl None;
  NestedMap o path :=
    if bool_decide (o = "apiserver" ∧ path = ["spec"; "tlsSecurityProfile"])
    then inl (Some "profile") else inl None;
  NestedStringSlice _ _ := inl None;
|}.

(** The answer of the API server in these examples. *)
Definition exampleAPIServerRead : list event :=
  [Ev (GetUnstructured apiServerGVK apiServerName) (inl "apiserver")].

Lemma ResolveProxyTLS_sound_witness :
  let p := mkProxyTLS tlsVersionName13 [] ["23"; "24"] in
  runs (ResolveProxyTLS (H := exampleUnstructured) true) exampleAPIServerRead (Ok p) ∧
  listener_ok true p.
Proof.
  intros p.
  assert (Hr : runs (ResolveProxyTLS (H := exampleUnstructured) true) exampleAPIServerRead (Ok p)).
  { exists (inl "apiserver"), []. split; [reflexivity|]. split; [reflexivity|].
    vm_compute. reflexivity. }
  split; [exact Hr|]. exact (ResolveProxyTLS_sound (H := exampleUnstructured) true _ p Hr).
Defined.


Lemma resolve_hardened_witness :
  ∃ res, runs (resolve (H := exampleUnstructured)) exampleAPIServerRead (Ok res) ∧
    topt_MinVersion (tr_TLSOpts res) = VersionTLS13 ∧
    topt_CipherSuites (tr_TLSOpts res) ≠ Some [].
Proof.
  eexists. assert (Hr : runs (resolve (H := exampleUnstructured)) exampleAPIServerRead
    (Ok (mkTLSResult (mkTLSOpts VersionTLS13 None) true (Some "profile") "StrictAllComponents"))).
  { exists (inl "apiserver"), []. split; [reflexivity|]. split; [reflexivity|].
    vm_compute. reflexivity. }
  split; [exact Hr|]. split; [reflexivity|].
  exact (proj1 (resolve_hardened (H := exampleUnstructured) _ _ Hr)).
Defined.

Lemma watcher_fires_on_change_witness :
  let w := mkProfileWatcher "profile" "" in
  let w' := mkProfileWatcher "profile" "StrictAllComponents" in
  runs (watcherReconcile (H := exampleUnstructured) w apiServerName) exampleAPIServerRead
    (w', true, None) ∧
  ∃ x, exampleAPIServerRead = [Ev (GetUnstructured apiServerGVK apiServerName) x].
Proof.
  intros w w'.
  assert (Hr : runs (watcherReconcile (H := exampleUnstructured) w apiServerName)
    exampleAPIServerRead (w', true, None)).
  { exists (inl "apiserver"), []. split; [reflexivity|]. split; [reflexivity|].
    vm_compute. reflexivity. }
  split; [exact Hr|].
  destruct (watcher_fires_on_change (H := exampleUnstructured) w w' true None _ Hr) as (x & Hx & _).
  exists x. exact Hx.
Defined.
