(* ===== verification/Generate.v ===== *)
(** * Desired resources of a Workspace ([workspace_controller.go])

    The [generate*] functions: from a Workspace, its WorkspaceKind and the resolved
    options to the StatefulSet, Service, ServiceAccount, RoleBindings, VirtualService,
    HTTPRoute, ReferenceGrant and the kube-rbac-proxy resources.  [text/template] is a
    parameter ([TemplateLib]). *)

From Stdlib Require Import ZArith Ascii.
From stdpp Require Import base gmap strings list.
From S2P Require Import Prelude K8sTypes ApiTypes Names State TLS Examples.

(** ** Constants and configuration *)

Definition workspaceNameLabel : string := "notebooks.kubeflow.org/workspace-name".
Definition workspaceSelectorLabel : string := "statefulset".
Definition odhComponentLabelKey : string := "opendatahub.io/component".
Definition odhNamespaceLabelKey : string := "opendatahub.io/namespace".
Definition odhComponentWorkspace : string := "workspace".
Definition workspaceKubeRbacProxyServicePortName : string := "kube-rbac-proxy".
Definition workspaceKubeRbacProxyPort : Z := 8443.
Definition workspaceKubeRbacProxyHealthPort : Z := 8444.
Definition workspaceKubeRbacProxyConfigVolumeName : string := "kube-rbac-proxy-config".
Definition workspaceKubeRbacProxyConfigMountPath : string := "/etc/kube-rbac-proxy".
Definition workspaceKubeRbacProxyConfigFilePath : string :=
  "/etc/kube-rbac-proxy/config-file.yaml".
Definition workspaceKubeRbacProxyTLSCertsVolumeName : string := "kube-rbac-proxy-tls-certs".
Definition workspaceKubeRbacProxyTLSCertsMountPath : string := "/etc/tls/private".
Definition workspaceKubeRbacProxyTLSCertFilePath : string := "/etc/tls/private/tls.crt".
Definition workspaceKubeRbacProxyTLSKeyFilePath : string := "/etc/tls/private/tls.key".

(** [config.EnvConfig], the fields the reconciler reads. *)
Record EnvConfig := mkEnvConfig {
  cfg_IstioGateway : string;
  cfg_IstioHosts : string;
  cfg_ClusterDomain : string;
  cfg_UseIstio : bool;
  cfg_UseKubeGateway : bool;
  cfg_KubeGatewayName : string;
  cfg_KubeGatewayNamespace : string;
  cfg_ControllerNamespace : string;
  cfg_KubeRbacProxyImage : string;
}.

(** [text/template]: parsing with the [httpPathPrefix] function declared, and
    executing. *)
Class TemplateLib := {
  Template : Type;
  parseTemplate : string → Template + error;
  executeTemplate : Template → (PortId → string) → string + error;
}.

(** The labels every owned resource carries. *)
Definition nameLabels (w : Workspace) : gmap string string :=
  {[workspaceNameLabel := ws_Name w]}.
Definition selectorLabels (w : Workspace) : gmap string string :=
  {[workspaceNameLabel := ws_Name w; workspaceSelectorLabel := ws_Name w]}.

(** ** ServiceAccount and RoleBindings *)

Definition generateServiceAccount (workspace : Workspace) : go ServiceAccount :=
  let! name := generateServiceAccountName (ws_Name workspace) in
  Ok (mkServiceAccount (namedMeta name (ws_Namespace workspace) (nameLabels workspace))).

Definition generateRoleBinding (workspace : Workspace)
    (serviceAccountName clusterRoleName : string) : go RoleBinding :=
  let! name := generateRoleBindingName (ws_Name workspace) clusterRoleName in
  Ok (mkRoleBinding (namedMeta name (ws_Namespace workspace) (nameLabels workspace))
        (mkRoleRef "rbac.authorization.k8s.io" "ClusterRole" clusterRoleName)
        [mkSubject "ServiceAccount" serviceAccountName (ws_Namespace workspace)]).

(** ** StatefulSet: volumes *)

(** The volumes and mounts built so far, with the names and paths seen. *)
Record volume_state := mkVolumeState {
  vst_volumes : list Volume;
  vst_mounts : list VolumeMount;
  vst_seenNames : gset string;
  vst_seenPaths : gset string;
}.

Definition addVolumeAndMount (st : volume_state) (v : Volume) (m : VolumeMount) : volume_state :=
  mkVolumeState (vst_volumes st ++ [v]) (vst_mounts st ++ [m])
    ({[vol_Name v]} ∪ vst_seenNames st) ({[vm_MountPath m]} ∪ vst_seenPaths st).

(** Skip a volume whose name or mount path was seen. *)
Definition addUnlessSeen (st : volume_state) (v : Volume) (m : VolumeMount) : volume_state :=
  if bool_decide (vol_Name v ∈ vst_seenNames st) then st
  else if bool_decide (vm_MountPath m ∈ vst_seenPaths st) then st
  else addVolumeAndMount st v m.

Definition addHomeVolume (workspace : Workspace) (workspaceKind : WorkspaceKind)
    : volume_state :=
  let empty := mkVolumeState [] [] ∅ ∅ in
  match wpv_Home (wpt_Volumes (wsSpec_PodTemplate (ws_Spec workspace))) with
  | None => empty
  | Some home =>
      addVolumeAndMount empty
        (mkVolume "home-volume" (VolumePVC home false))
        (mkVolumeMount "home-volume" (kvm_Home (kpt_VolumeMounts (wsk_PodTemplate workspaceKind)))
           false "")
  end.

Fixpoint addDataVolumes (i : nat) (data : list PodVolumeMount) (st : volume_state)
    : go volume_state :=
  match data with
  | [] => Ok st
  | d :: rest =>
    let name := "data-volume-" +:+ itoa (Z.of_nat i) in
    match pvm_ReadOnly d with
    | None => Panic "nil pointer dereference"
    | Some readOnly =>
        addDataVolumes (S i) rest
          (addUnlessSeen st (mkVolume name (VolumePVC (pvm_PVCName d) readOnly))
             (mkVolumeMount name (pvm_MountPath d) readOnly ""))
    end
  end.

Fixpoint addSecretMounts (i : nat) (secrets : list PodSecretMount) (st : volume_state)
    : volume_state :=
  match secrets with
  | [] => st
  | s :: rest =>
    let name := "secret-volume-" +:+ itoa (Z.of_nat i) in
    addSecretMounts (S i) rest
      (addUnlessSeen st
         (mkVolume name (VolumeSecret (psm_SecretName s) (Some (psm_DefaultMode s))))
         (mkVolumeMount name (psm_MountPath s) false ""))
  end.

Definition addExtraVolume (st : volume_state) (v : Volume) : volume_state :=
  if bool_decide (vol_Name v ∈ vst_seenNames st) then st
  else mkVolumeState (vst_volumes st ++ [v]) (vst_mounts st)
         ({[vol_Name v]} ∪ vst_seenNames st) (vst_seenPaths st).

Definition addExtraVolumeMount (st : volume_state) (m : VolumeMount) : volume_state :=
  if bool_decide (vm_MountPath m ∈ vst_seenPaths st) then st
  else if negb (bool_decide (vm_Name m ∈ vst_seenNames st)) then st
  else mkVolumeState (vst_volumes st) (vst_mounts st ++ [m])
         (vst_seenNames st) ({[vm_MountPath m]} ∪ vst_seenPaths st).

Definition generateVolumes (workspace : Workspace) (workspaceKind : WorkspaceKind)
    : go volume_state :=
  let volumes := wpt_Volumes (wsSpec_PodTemplate (ws_Spec workspace)) in
  let st := addHomeVolume workspace workspaceKind in
  let! st := addDataVolumes 0 (wpv_Data volumes) st in
  let st := addSecretMounts 0 (wpv_Secrets volumes) st in
  let st := foldl addExtraVolume st (kpt_ExtraVolumes (wsk_PodTemplate workspaceKind)) in
  Ok (foldl addExtraVolumeMount st (kpt_ExtraVolumeMounts (wsk_PodTemplate workspaceKind))).

(** ** Ports *)

Definition duplicatePort (port : Z) : error :=
  ErrorMsg ("duplicate port number " +:+ itoa port +:+ " in imageConfig").

Fixpoint generateContainerPorts (seenPorts : gset Z) (ports : list ImagePort)
    : go (list ContainerPort) :=
  match ports with
  | [] => Ok []
  | p :: rest =>
    if bool_decide (iport_Port p ∈ seenPorts) then Err (duplicatePort (iport_Port p))
    else
      let! cs := generateContainerPorts ({[iport_Port p]} ∪ seenPorts) rest in
      Ok (mkContainerPort ("http-" +:+ itoa (iport_Port p)) (iport_Port p) "TCP" :: cs)
  end.

Fixpoint generateServicePorts (seenPorts : gset Z) (ports : list ImagePort)
    : go (list ServicePort) :=
  match ports with
  | [] => Ok []
  | p :: rest =>
    if bool_decide (iport_Port p ∈ seenPorts) then Err (duplicatePort (iport_Port p))
    else
      let! cs := generateServicePorts ({[iport_Port p]} ∪ seenPorts) rest in
      Ok (mkServicePort ("http-" +:+ itoa (iport_Port p)) (iport_Port p)
            (FromInt32 (iport_Port p)) "TCP" :: cs)
  end.

(** [httpPathPrefixFunc]: the connect path of a port of the image, or empty. *)
Definition httpPathPrefixFunc (workspace : Workspace) (ports : list ImagePort)
    (portId : PortId) : string :=
  match index_by iport_Id ports !! portId with
  | Some port => getWorkspaceConnectPath (ws_Namespace workspace) (ws_Name workspace) (iport_Id port)
  | None => ""
  end.

Section generate.
Context `{TemplateLib}.

(** [helper.RenderGoTemplate]. *)
Definition RenderGoTemplate (rawValue : string) (f : PortId → string) : go string :=
  match parseTemplate rawValue with
  | inr err => Err (ErrorWrap ("failed to parse template " +:+ quote rawValue +:+ ": "
                               +:+ Error err) err)
  | inl tmpl =>
    match executeTemplate tmpl f with
    | inr err => Err (ErrorWrap ("failed to execute template " +:+ quote rawValue +:+ ": "
                                 +:+ Error err) err)
    | inl out => Ok out
    end
  end.

Fixpoint generateContainerEnv (f : PortId → string) (extraEnv : list EnvVar)
    : go (list EnvVar) :=
  match extraEnv with
  | [] => Ok []
  | env :: rest =>
    let! env :=
      if bool_decide (env_Value env = "") then Ok env
      else match RenderGoTemplate (env_Value env) f with
           | Ok out => Ok (mkEnvVar (env_Name env) out (env_ValueFrom env))
           | Err err => Err (ErrorWrap ("failed to render extraEnv " +:+ quote (env_Name env)
                                        +:+ ": " +:+ Error err) err)
           | Panic w => Panic w
           end in
    let! rest := generateContainerEnv f rest in
    Ok (env :: rest)
  end.

(** ** StatefulSet and Service *)

Definition generateStatefulSet (workspace : Workspace) (workspaceKind : WorkspaceKind)
    (imageConfigSpec : ImageConfigSpec) (podConfigSpec : PodConfigSpec)
    (serviceAccountName : string) : go StatefulSet :=
  let kpt := wsk_PodTemplate workspaceKind in
  let wpt := wsSpec_PodTemplate (ws_Spec workspace) in
  let! namePrefix := generateNamePrefix (ws_Name workspace) maxStatefulSetNameLength in
  let replicas := if wsSpec_Paused (ws_Spec workspace) then 0%Z else 1%Z in
  let podAnnotations :=
    default ∅ (wpm_Annotations <$> wpt_PodMetadata wpt) ∪
    default ∅ (kpm_Annotations <$> kpt_PodMetadata kpt) in
  let podLabels :=
    default ∅ (wpm_Labels <$> wpt_PodMetadata wpt) ∪
    default ∅ (kpm_Labels <$> kpt_PodMetadata kpt) in
  let stsAnnotations := default ∅ (ksm_Annotations <$> kpt_StatefulSetMetadata kpt) in
  let stsLabels := default ∅ (ksm_Labels <$> kpt_StatefulSetMetadata kpt) in
  let imagePullPolicy := default "IfNotPresent" (ics_ImagePullPolicy imageConfigSpec) in
  let! containerPorts := generateContainerPorts ∅ (ics_Ports imageConfigSpec) in
  let! containerEnv := generateContainerEnv
    (httpPathPrefixFunc workspace (ics_Ports imageConfigSpec)) (kpt_ExtraEnv kpt) in
  let containerResources :=
    default (mkResourceRequirements ∅ ∅) (pcs_Resources podConfigSpec) in
  let schedulerName :=
    match pcs_SchedulerName podConfigSpec with
    | Some s => s
    | None => default "" (kpt_SchedulerName kpt)
    end in
  let readinessProbe := kpt_Probes kpt ≫= kp_ReadinessProbe in
  let livenessProbe := kpt_Probes kpt ≫= kp_LivenessProbe in
  let startupProbe := kpt_Probes kpt ≫= kp_StartupProbe in
  let! vols := generateVolumes workspace workspaceKind in
  Ok (mkStatefulSet
    (generatedMeta namePrefix (ws_Namespace workspace) (Some stsAnnotations)
       (nameLabels workspace ∪ stsLabels))
    (mkStatefulSetSpec (Some replicas) (selectorLabels workspace)
       (mkPodTemplateSpec (selectorLabels workspace ∪ podLabels) podAnnotations
          (mkPodSpec (pcs_Affinity podConfigSpec)
             [mkContainer workspacePodTemplateContainerName (ics_Image imageConfigSpec)
                imagePullPolicy [] containerPorts readinessProbe livenessProbe startupProbe
                (kpt_ContainerSecurityContext kpt) (vst_mounts vols) containerEnv
                containerResources]
             (pcs_NodeSelector podConfigSpec) schedulerName (kpt_SecurityContext kpt)
             serviceAccountName (pcs_Tolerations podConfigSpec) (vst_volumes vols))) "")).

Definition generateService (workspace : Workspace) (imageConfigSpec : ImageConfigSpec)
    : go Service :=
  let! namePrefix := generateNamePrefix (ws_Name workspace) maxServiceNameLength in
  let! servicePorts := generateServicePorts ∅ (ics_Ports imageConfigSpec) in
  Ok (mkService (generatedMeta namePrefix (ws_Namespace workspace) None (nameLabels workspace))
        (mkServiceSpec servicePorts (selectorLabels workspace) "ClusterIP" "")).

(** ** VirtualService *)

(** [uint32(p)] of an [int32]. *)
Definition to_uint32 (p : Z) : Z := (p mod 2 ^ 32)%Z.

(** The loop that renders the values of a header map. *)
Fixpoint renderHeaders (field : string) (f : PortId → string)
    (entries : list (string * string)) (acc : gmap string string) : go (gmap string string) :=
  match entries with
  | [] => Ok acc
  | (k, v) :: rest =>
    match RenderGoTemplate v f with
    | Ok rendered => renderHeaders field f rest (<[k := rendered]> acc)
    | Err err => Err (ErrorWrap ("failed to render requestHeaders." +:+ field +:+ " " +:+ quote k
                                 +:+ ": " +:+ Error err) err)
    | Panic w => Panic w
    end
  end.

Definition generateVirtualServiceHTTPRoute (cfg : EnvConfig) (workspace : Workspace)
    (service : Service) (imageConfigPort : ImagePort) (podTemplatePort : WorkspaceKindPort)
    (f : PortId → string) : go IstioHTTPRoute :=
  let matchUriPrefix := getWorkspaceConnectPath (ws_Namespace workspace) (ws_Name workspace)
                          (iport_Id imageConfigPort) in
  let rewrite :=
    if default false (kport_HTTPProxy podTemplatePort ≫= hp_RemovePathPrefix)
    then Some "/" else None in
  let! headers :=
    match kport_HTTPProxy podTemplatePort ≫= hp_RequestHeaders with
    | None => Ok None
    | Some ops =>
      let! setHeaders := renderHeaders "set" f (map_to_list (iho_Set ops)) ∅ in
      let! addHeaders := renderHeaders "add" f (map_to_list (iho_Add ops)) ∅ in
      Ok (Some (mkHeaderOperations setHeaders addHeaders (iho_Remove ops)))
    end in
  Ok (mkIstioHTTPRoute headers rewrite matchUriPrefix
        (meta_Name (svc_Meta service) +:+ "." +:+ meta_Namespace (svc_Meta service)
         +:+ ".svc." +:+ cfg_ClusterDomain cfg)
        (to_uint32 (iport_Port imageConfigPort))).

(** The port declarations of the kind, by id. *)
Definition podTemplatePortsMap (workspaceKind : WorkspaceKind) : gmap string WorkspaceKindPort :=
  index_by kport_Id (kpt_Ports (wsk_PodTemplate workspaceKind)).

(** The kind's declaration of an image port, when it is an HTTP port. *)
Definition httpPort (workspaceKind : WorkspaceKind) (p : ImagePort) : option WorkspaceKindPort :=
  match podTemplatePortsMap workspaceKind !! iport_Id p with
  | None => None
  | Some kp => if bool_decide (kport_Protocol kp = ImagePortProtocolHTTP) then Some kp else None
  end.

Fixpoint generateHTTPRoutes (cfg : EnvConfig) (workspace : Workspace)
    (workspaceKind : WorkspaceKind) (service : Service) (f : PortId → string)
    (ports : list ImagePort) : go (list IstioHTTPRoute) :=
  match ports with
  | [] => Ok []
  | p :: rest =>
    match httpPort workspaceKind p with
    | None => generateHTTPRoutes cfg workspace workspaceKind service f rest
    | Some kp =>
      let! route := generateVirtualServiceHTTPRoute cfg workspace service p kp f in
      let! routes := generateHTTPRoutes cfg workspace workspaceKind service f rest in
      Ok (route :: routes)
    end
  end.

Definition generateVirtualService (cfg : EnvConfig) (workspace : Workspace)
    (workspaceKind : WorkspaceKind) (service : Service) (imageConfigSpec : ImageConfigSpec)
    : go VirtualService :=
  let! namePrefix := generateNamePrefix (ws_Name workspace) maxVirtualServiceNameLength in
  let! httpRoutes := generateHTTPRoutes cfg workspace workspaceKind service
    (httpPathPrefixFunc workspace (ics_Ports imageConfigSpec)) (ics_Ports imageConfigSpec) in
  Ok (mkVirtualService
        (generatedMeta namePrefix (ws_Namespace workspace) None (nameLabels workspace))
        (mkVirtualServiceSpec [cfg_IstioGateway cfg] [cfg_IstioHosts cfg] httpRoutes)).
End generate.

(** ** Gateway API *)

Definition generateKubeGatewayReferenceGrant (cfg : EnvConfig) (workspace : Workspace)
    (service : Service) : ReferenceGrant :=
  mkReferenceGrant
    (namedMeta (referenceGrantName (ws_Name workspace)) (ws_Namespace workspace)
       (nameLabels workspace))
    (mkReferenceGrantSpec "gateway.networking.k8s.io" "HTTPRoute" (cfg_ControllerNamespace cfg)
       "" "Service" (Some (meta_Name (svc_Meta service)))).

(** The first image port that is an HTTP port: the one the sidecar and the
    HTTPRoute serve. *)
Fixpoint firstHTTPPort (workspaceKind : WorkspaceKind) (ports : list ImagePort)
    : option ImagePort :=
  match ports with
  | [] => None
  | p :: rest =>
    match httpPort workspaceKind p with
    | Some _ => Some p
    | None => firstHTTPPort workspaceKind rest
    end
  end.

Definition generateGatewayV1HTTPRoute (cfg : EnvConfig) (workspace : Workspace)
    (workspaceKind : WorkspaceKind) (service : Service) (imageConfigSpec : ImageConfigSpec)
    : option HTTPRoute :=
  match firstHTTPPort workspaceKind (ics_Ports imageConfigSpec) with
  | None => None
  | Some p =>
    Some (mkHTTPRoute
      (namedMeta (httpRouteName (ws_Namespace workspace) (ws_Name workspace))
         (cfg_ControllerNamespace cfg)
         {[workspaceNameLabel := ws_Name workspace; "notebook-name" := ws_Name workspace;
           "notebook-namespace" := ws_Namespace workspace]})
      (mkHTTPRouteSpec (cfg_KubeGatewayName cfg) (cfg_KubeGatewayNamespace cfg)
         (getWorkspaceConnectPath (ws_Namespace workspace) (ws_Name workspace) (iport_Id p))
         (meta_Name (svc_Meta service)) (ws_Namespace workspace) workspaceKubeRbacProxyPort))
  end.

(** ** kube-rbac-proxy *)

Definition kubeRBACProxySidecarNeeded (workspaceKind : WorkspaceKind)
    (imageConfigSpec : ImageConfigSpec) : bool :=
  let protocols : gmap string string :=
    foldl (λ m p, <[kport_Id p := kport_Protocol p]> m) ∅ (kpt_Ports (wsk_PodTemplate workspaceKind)) in
  existsb (λ p, bool_decide (default "" (protocols !! iport_Id p) = ImagePortProtocolHTTP))
    (ics_Ports imageConfigSpec).

Definition proxyHealthProbe (initialDelay : Z) : Probe :=
  mkProbe (Some (mkHTTPGetAction "/healthz" workspaceKubeRbacProxyHealthPort "HTTPS"))
    initialDelay 1 5 1 3 "".

Definition generateKubeRBACProxySidecar (cfg : EnvConfig) (workspace : Workspace)
    (workspaceKind : WorkspaceKind) (imageConfigSpec : ImageConfigSpec) (proxyTLS : ProxyTLS)
    : go (option (Container * list Volume)) :=
  match firstHTTPPort workspaceKind (ics_Ports imageConfigSpec) with
  | None => Ok None
  | Some p =>
    let! configName := generateWorkspaceSuffixedName (ws_Name workspace) "-kube-rbac-proxy-config" in
    let! secretName := generateWorkspaceSuffixedName (ws_Name workspace) "-kube-rbac-proxy-tls" in
    Ok (Some
      (mkContainer workspaceKubeRbacProxyServicePortName (cfg_KubeRbacProxyImage cfg) "Always"
         ([ "--secure-listen-address=0.0.0.0:" +:+ itoa workspaceKubeRbacProxyPort;
            "--upstream=http://127.0.0.1:" +:+ itoa (iport_Port p) +:+ "/";
            "--logtostderr=true"; "--v=0";
            "--proxy-endpoints-port=" +:+ itoa workspaceKubeRbacProxyHealthPort;
            "--config-file=" +:+ workspaceKubeRbacProxyConfigFilePath;
            "--tls-cert-file=" +:+ workspaceKubeRbacProxyTLSCertFilePath;
            "--tls-private-key-file=" +:+ workspaceKubeRbacProxyTLSKeyFilePath;
            "--auth-header-fields-enabled=true";
            "--auth-header-user-field-name=X-Auth-Request-User";
            "--auth-header-groups-field-name=X-Auth-Request-Groups" ] ++ Args proxyTLS)
         [mkContainerPort workspaceKubeRbacProxyServicePortName workspaceKubeRbacProxyPort "TCP"]
         (Some (proxyHealthProbe 5)) (Some (proxyHealthProbe 30)) None
         (Some (mkSecurityContext (Some false) (Some true) (Some true) ["ALL"] ""))
         [mkVolumeMount workspaceKubeRbacProxyConfigVolumeName
            workspaceKubeRbacProxyConfigMountPath false "";
          mkVolumeMount workspaceKubeRbacProxyTLSCertsVolumeName
            workspaceKubeRbacProxyTLSCertsMountPath false ""]
         []
         (mkResourceRequirements {["cpu" := "200m"; "memory" := "128Mi"]}
            {["cpu" := "200m"; "memory" := "256Mi"]}),
       [mkVolume workspaceKubeRbacProxyConfigVolumeName (VolumeConfigMap configName);
        mkVolume workspaceKubeRbacProxyTLSCertsVolumeName (VolumeSecret secretName None)]))
  end.

(** The labels of the kube-rbac-proxy resources. *)
Definition odhLabels (workspace : Workspace) : gmap string string :=
  {[workspaceNameLabel := ws_Name workspace; odhComponentLabelKey := odhComponentWorkspace;
    odhNamespaceLabelKey := ws_Namespace workspace]}.

Definition generateKubeRBACProxyClusterRoleBinding (workspace : Workspace)
    (serviceAccountName : string) : ClusterRoleBinding :=
  mkClusterRoleBinding
    (namedMeta (clusterRoleBindingName (ws_Name workspace) (ws_Namespace workspace)) ""
       (odhLabels workspace))
    (mkRoleRef "rbac.authorization.k8s.io" "ClusterRole" "system:auth-delegator")
    [mkSubject "ServiceAccount" serviceAccountName (ws_Namespace workspace)].

Definition newline : string := String (Ascii.ascii_of_nat 10) "".

Definition kubeRBACProxyConfigData (workspace : Workspace) : string :=
  "authorization:" +:+ newline +:+ "  resourceAttributes:" +:+ newline
  +:+ "    verb: get" +:+ newline +:+ "    resource: workspaces" +:+ newline
  +:+ "    apiGroup: kubeflow.org" +:+ newline +:+ "    name: " +:+ ws_Name workspace
  +:+ newline +:+ "    namespace: " +:+ ws_Namespace workspace.

Definition generateKubeRBACProxyConfigMap (workspace : Workspace) : go ConfigMap :=
  let! name := generateWorkspaceSuffixedName (ws_Name workspace) "-kube-rbac-proxy-config" in
  Ok (mkConfigMap (namedMeta name (ws_Namespace workspace) (odhLabels workspace))
        {["config-file.yaml" := kubeRBACProxyConfigData workspace]} ∅).

Definition generateKubeRBACProxyService (workspace : Workspace) : go Service :=
  let! name := generateWorkspaceSuffixedName (ws_Name workspace) "-kube-rbac-proxy" in
  let! secretName := generateWorkspaceSuffixedName (ws_Name workspace) "-kube-rbac-proxy-tls" in
  Ok (mkService
        (setAnnotations
           (namedMeta name (ws_Namespace workspace)
              (<["app.kubernetes.io/component" := "kube-rbac-proxy"]> (odhLabels workspace)))
           (Some {["service.beta.openshift.io/serving-cert-secret-name" := secretName]}))
        (mkServiceSpec
           [mkServicePort workspaceKubeRbacProxyServicePortName workspaceKubeRbacProxyPort
              (FromString workspaceKubeRbacProxyServicePortName) "TCP"]
           {[workspaceNameLabel := ws_Name workspace]} "" "")).

(** ** Volumes are well formed *)

(** Names and paths are unique, recorded as seen, and every mount has its volume. *)
Record volumes_ok (st : volume_state) : Prop := {
  vok_names : vst_seenNames st = list_to_set (vol_Name <$> vst_volumes st);
  vok_paths : vst_seenPaths st = list_to_set (vm_MountPath <$> vst_mounts st);
  vok_names_nodup : NoDup (vol_Name <$> vst_volumes st);
  vok_paths_nodup : NoDup (vm_MountPath <$> vst_mounts st);
  vok_mounts m : m ∈ vst_mounts st → vm_Name m ∈ vol_Name <$> vst_volumes st;
}.

Lemma NoDup_snoc {A} (l : list A) x : NoDup l → x ∉ l → NoDup (l ++ [x]).
Proof.
  intros Hl Hx. apply NoDup_app. split; [done|]. split; [set_solver|apply NoDup_singleton].
Qed.

Lemma volumes_ok_empty : volumes_ok (mkVolumeState [] [] ∅ ∅).
Proof. split; simpl; try done; constructor || set_solver. Qed.

Lemma addVolumeAndMount_ok st v m :
  volumes_ok st → vol_Name v = vm_Name m →
  vol_Name v ∉ vst_seenNames st → vm_MountPath m ∉ vst_seenPaths st →
  volumes_ok (addVolumeAndMount st v m).
Proof.
  intros [Hn Hp Hnd Hpd Hm] Heq Hv Hpath. rewrite Hn, elem_of_list_to_set in Hv.
  rewrite Hp, elem_of_list_to_set in Hpath. split; simpl; rewrite ?fmap_app; simpl.
  - rewrite list_to_set_app_L, Hn. set_solver.
  - rewrite list_to_set_app_L, Hp. set_solver.
  - by apply NoDup_snoc.
  - by apply NoDup_snoc.
  - intros m' [Hin| ->%list_elem_of_singleton]%elem_of_app; apply elem_of_app; [left; auto|right].
    rewrite <-Heq. by left.
Qed.

Lemma addUnlessSeen_ok st v m :
  volumes_ok st → vol_Name v = vm_Name m → volumes_ok (addUnlessSeen st v m).
Proof.
  intros Hok Heq. unfold addUnlessSeen. do 2 (case_bool_decide; [done|]).
  by apply addVolumeAndMount_ok.
Qed.

Lemma addHomeVolume_ok w wk : volumes_ok (addHomeVolume w wk).
Proof.
  unfold addHomeVolume. destruct (wpv_Home _); [|apply volumes_ok_empty].
  apply addVolumeAndMount_ok; [apply volumes_ok_empty|done|set_solver..].
Qed.

Lemma addDataVolumes_ok i data st :
  volumes_ok st → Forall (λ d, is_Some (pvm_ReadOnly d)) data →
  ∃ st', addDataVolumes i data st = Ok st' ∧ volumes_ok st'.
Proof.
  revert i st. induction data as [|d data IH]; intros i st Hok HF; simpl; [eauto|].
  apply Forall_cons in HF as [[ro Hro] HF]. rewrite Hro. apply IH; [|done].
  by apply addUnlessSeen_ok.
Qed.

Lemma addSecretMounts_ok i secrets st : volumes_ok st → volumes_ok (addSecretMounts i secrets st).
Proof.
  revert i st. induction secrets as [|s secrets IH]; intros i st Hok; simpl; [done|].
  apply IH. by apply addUnlessSeen_ok.
Qed.

Lemma addExtraVolume_ok st v : volumes_ok st → volumes_ok (addExtraVolume st v).
Proof.
  intros Hok. unfold addExtraVolume. case_bool_decide as Hv; [done|].
  destruct Hok as [Hn Hp Hnd Hpd Hm]. rewrite Hn, elem_of_list_to_set in Hv.
  split; simpl; rewrite ?fmap_app; simpl; try done.
  - rewrite list_to_set_app_L, Hn. set_solver.
  - by apply NoDup_snoc.
  - intros m Hin. apply elem_of_app. left. auto.
Qed.

Lemma addExtraVolumeMount_ok st m : volumes_ok st → volumes_ok (addExtraVolumeMount st m).
Proof.
  intros Hok. unfold addExtraVolumeMount. case_bool_decide as Hpath; [done|].
  case_bool_decide as Hname; [simpl|done]. destruct Hok as [Hn Hp Hnd Hpd Hm].
  rewrite Hn, elem_of_list_to_set in Hname. rewrite Hp, elem_of_list_to_set in Hpath.
  split; simpl; rewrite ?fmap_app; simpl; try done.
  - rewrite list_to_set_app_L, Hp. set_solver.
  - by apply NoDup_snoc.
  - intros m' [Hin| ->%list_elem_of_singleton]%elem_of_app; auto.
Qed.

Lemma foldl_ok {A B} (P : A → Prop) (f : A → B → A) l a :
  P a → (∀ a b, P a → P (f a b)) → P (foldl f a l).
Proof. intros Ha Hf. revert a Ha. induction l as [|b l IH]; simpl; auto. Qed.

Lemma generateVolumes_ok w wk :
  Forall (λ d, is_Some (pvm_ReadOnly d))
    (wpv_Data (wpt_Volumes (wsSpec_PodTemplate (ws_Spec w)))) →
  ∃ st, generateVolumes w wk = Ok st ∧ volumes_ok st.
Proof.
  intros HF. unfold generateVolumes.
  destruct (addDataVolumes_ok 0 _ _ (addHomeVolume_ok w wk) HF) as (st & -> & Hst). simpl.
  eexists. split; [done|]. apply foldl_ok; [|intros; by apply addExtraVolumeMount_ok].
  apply foldl_ok; [|intros; by apply addExtraVolume_ok]. by apply addSecretMounts_ok.
Qed.

(** ** Ports *)

Lemma generateContainerPorts_Ok seen ports cs :
  generateContainerPorts seen ports = Ok cs ↔
  NoDup (iport_Port <$> ports) ∧ (∀ p, p ∈ ports → iport_Port p ∉ seen) ∧
  cs = (λ p, mkContainerPort ("http-" +:+ itoa (iport_Port p)) (iport_Port p) "TCP") <$> ports.
Proof.
  revert seen cs. induction ports as [|p ports IH]; intros seen cs; simpl.
  { split; [intros [= <-]; split; [constructor|]; set_solver|by intros (_ & _ & ->)]. }
  case_bool_decide as Hin.
  { split; [done|]. intros (_ & Hn & _). exfalso. apply (Hn p); set_solver. }
  rewrite NoDup_cons. split.
  - destruct (generateContainerPorts _ ports) as [cs'| |] eqn:E; simpl; [|done..].
    apply IH in E as (Hnd & Hs & ->). intros [= <-]. split; [split; [|done]|split; [|done]].
    + intros (q & Hq & Hqin)%list_elem_of_fmap. apply (Hs q Hqin). set_solver.
    + intros q [->|Hq]%elem_of_cons; [done|]. specialize (Hs q Hq). set_solver.
  - intros ((Hp & Hnd) & Hs & ->).
    assert (generateContainerPorts ({[iport_Port p]} ∪ seen) ports
      = Ok ((λ p, mkContainerPort ("http-" +:+ itoa (iport_Port p)) (iport_Port p) "TCP") <$> ports))
      as ->; [|done].
    apply IH. split; [done|]. split; [|done]. intros q Hq.
    rewrite elem_of_union, elem_of_singleton. intros [Heq|Hq'].
    + apply Hp. rewrite <-Heq. by apply list_elem_of_fmap_2.
    + by apply (Hs q); [set_solver|].
Qed.

Lemma generateServicePorts_Ok seen ports cs :
  generateServicePorts seen ports = Ok cs ↔
  (∃ cps, generateContainerPorts seen ports = Ok cps) ∧
  cs = (λ p, mkServicePort ("http-" +:+ itoa (iport_Port p)) (iport_Port p)
               (FromInt32 (iport_Port p)) "TCP") <$> ports.
Proof.
  revert seen cs. induction ports as [|p ports IH]; intros seen cs; simpl.
  { split; [intros [= <-]; eauto|by intros (_ & ->)]. }
  case_bool_decide as Hin; [split; [done|by intros [[? ?] _]]|]. split.
  - destruct (generateServicePorts _ ports) as [cs'| |] eqn:E; simpl; [|done..].
    apply IH in E as [[cps ->] ->]. intros [= <-]. simpl. eauto.
  - intros [[cps Hc] ->].
    destruct (generateContainerPorts ({[iport_Port p]} ∪ seen) ports) as [cps'| |] eqn:E;
      simpl in Hc; [|done..].
    assert (generateServicePorts ({[iport_Port p]} ∪ seen) ports
      = Ok ((λ p, mkServicePort ("http-" +:+ itoa (iport_Port p)) (iport_Port p)
               (FromInt32 (iport_Port p)) "TCP") <$> ports)) as ->; [apply IH; eauto|done].
Qed.

(** ** HTTP ports *)

Lemma firstHTTPPort_Some wk ports p :
  firstHTTPPort wk ports = Some p →
  ∃ pre post kp, ports = pre ++ p :: post ∧ httpPort wk p = Some kp ∧
    Forall (λ q, httpPort wk q = None) pre.
Proof.
  induction ports as [|q ports IH]; simpl; [done|]. destruct (httpPort wk q) as [kp|] eqn:Hq.
  - intros [= <-]. exists [], ports, kp. done.
  - intros (pre & post & kp & -> & ? & ?)%IH. exists (q :: pre), post, kp. auto.
Qed.

Lemma firstHTTPPort_None wk ports :
  firstHTTPPort wk ports = None ↔ Forall (λ q, httpPort wk q = None) ports.
Proof.
  induction ports as [|q ports IH]; simpl; [done|]. rewrite Forall_cons.
  destruct (httpPort wk q); naive_solver.
Qed.

(** The protocol map of [kubeRBACProxySidecarNeeded] agrees with the port map of the
    generators. *)
Lemma protocols_lookup (ports : list WorkspaceKindPort) i :
  foldl (λ m p, <[kport_Id p := kport_Protocol p]> m) (∅ : gmap string string) ports !! i
  = kport_Protocol <$> index_by kport_Id ports !! i.
Proof.
  induction ports as [|p ports IH] using rev_ind; [done|].
  rewrite foldl_app, index_by_app. simpl. destruct (decide (kport_Id p = i)) as [->|Hne].
  - by rewrite !lookup_insert_eq.
  - by rewrite !lookup_insert_ne.
Qed.

Lemma sidecarNeeded_firstHTTPPort wk spec :
  kubeRBACProxySidecarNeeded wk spec = true ↔ is_Some (firstHTTPPort wk (ics_Ports spec)).
Proof.
  unfold kubeRBACProxySidecarNeeded. rewrite existsb_exists.
  assert (Heq : ∀ p, bool_decide (default "" (foldl (λ m p, <[kport_Id p := kport_Protocol p]> m)
      (∅ : gmap string string) (kpt_Ports (wsk_PodTemplate wk)) !! iport_Id p)
      = ImagePortProtocolHTTP) = true ↔ is_Some (httpPort wk p)).
  { intros p. rewrite bool_decide_eq_true, protocols_lookup. unfold httpPort, podTemplatePortsMap.
    destruct (index_by _ _ !! iport_Id p) as [kp|]; simpl; [|split; [done|by intros []]].
    case_bool_decide; (split; [intros; try done; by eexists|]); [done|].
    intros [? ?]. done. }
  split.
  - intros (p & Hin & Hp). apply Heq in Hp. rewrite <-not_eq_None_Some, firstHTTPPort_None.
    rewrite Forall_forall. intros HF. rewrite <-list_elem_of_In in Hin.
    rewrite (HF p Hin) in Hp. by destruct Hp.
  - intros [p (pre & post & kp & Hports & Hp & _)%firstHTTPPort_Some]. exists p. split.
    + rewrite Hports. apply list_elem_of_In. set_solver.
    + apply Heq. eauto.
Qed.

(** ** The generated StatefulSet and Service *)

Lemma generateNamePrefix_total name max :
  (8 ≤ max)%Z → ∃ p, generateNamePrefix name max = Ok p.
Proof. intros Hm. rewrite (generateNamePrefix_eq name max Hm). eauto. Qed.

(** The environment renders. *)
Definition env_renders `{TemplateLib} (w : Workspace) (wk : WorkspaceKind)
    (spec : ImageConfigSpec) : Prop :=
  ∃ envs, generateContainerEnv (httpPathPrefixFunc w (ics_Ports spec))
            (kpt_ExtraEnv (wsk_PodTemplate wk)) = Ok envs.

(** What makes a generated StatefulSet acceptable to the API server and to the
    rest of the controller. *)
Record statefulset_ok (w : Workspace) (spec : ImageConfigSpec) (sa : string)
    (sts : StatefulSet) : Prop := {
  sok_replicas : stsSpec_Replicas (sts_Spec sts)
    = Some (if wsSpec_Paused (ws_Spec w) then 0 else 1)%Z;
  sok_namespace : meta_Namespace (sts_Meta sts) = ws_Namespace w;
  sok_label : gm (meta_Labels (sts_Meta sts)) !! workspaceNameLabel = Some (ws_Name w);
  sok_selector : stsSpec_Selector (sts_Spec sts) = selectorLabels w ∧
    stsSpec_Selector (sts_Spec sts) ⊆ ptpl_Labels (stsSpec_Template (sts_Spec sts));
  sok_sa : pspec_ServiceAccountName (ptpl_Spec (stsSpec_Template (sts_Spec sts))) = sa;
  sok_container : ∃ c, pspec_Containers (ptpl_Spec (stsSpec_Template (sts_Spec sts))) = [c] ∧
    ctr_Name c = workspacePodTemplateContainerName ∧
    cport_ContainerPort <$> ctr_Ports c = iport_Port <$> ics_Ports spec ∧
    NoDup (cport_ContainerPort <$> ctr_Ports c) ∧
    NoDup (vm_MountPath <$> ctr_VolumeMounts c) ∧
    (∀ m, m ∈ ctr_VolumeMounts c → vm_Name m ∈
       vol_Name <$> pspec_Volumes (ptpl_Spec (stsSpec_Template (sts_Spec sts))));
  sok_volumes : NoDup (vol_Name <$> pspec_Volumes (ptpl_Spec (stsSpec_Template (sts_Spec sts))));
}.

Lemma generateContainerEnv_no_panic `{TemplateLib} f envs w :
  generateContainerEnv f envs ≠ Panic w.
Proof.
  induction envs as [|e envs IH]; simpl; [done|]. unfold RenderGoTemplate.
  repeat case_match; simpl; try done;
    destruct (generateContainerEnv f envs) eqn:E; simpl in *; congruence.
Qed.

Lemma generateContainerPorts_no_panic seen ports w : generateContainerPorts seen ports ≠ Panic w.
Proof.
  revert seen. induction ports as [|p ports IH]; intros seen; simpl; [done|].
  case_bool_decide; [done|]. specialize (IH ({[iport_Port p]} ∪ seen)).
  by destruct (generateContainerPorts _ ports).
Qed.

(** When every data volume has its (defaulted) [readOnly], generating the
    StatefulSet never panics, and succeeds exactly when the image's ports are distinct
    and the environment templates render. The result runs one replica unless the
    Workspace is paused, its selector selects its own Pods whatever labels the kind or
    the user set, container ports, volume names and mount paths are unique, and every
    mount refers to a volume that exists. *)
Theorem generateStatefulSet_correct `{TemplateLib} w wk ispec pspec sa :
  Forall (λ d, is_Some (pvm_ReadOnly d))
    (wpv_Data (wpt_Volumes (wsSpec_PodTemplate (ws_Spec w)))) →
  (∀ why, generateStatefulSet w wk ispec pspec sa ≠ Panic why) ∧
  ((∃ sts, generateStatefulSet w wk ispec pspec sa = Ok sts) ↔
     NoDup (iport_Port <$> ics_Ports ispec) ∧ env_renders w wk ispec) ∧
  (∀ sts, generateStatefulSet w wk ispec pspec sa = Ok sts → statefulset_ok w ispec sa sts).
Proof.
  intros HF. destruct (generateVolumes_ok w wk HF) as (st & Hst & [Hn Hp Hnd Hpd Hm]).
  destruct (generateNamePrefix_total (ws_Name w) maxStatefulSetNameLength) as [prefix Hpre];
    [done|].
  unfold generateStatefulSet, env_renders. rewrite Hpre, Hst. cbn [go_bind].
  pose proof (generateContainerPorts_Ok ∅ (ics_Ports ispec)) as Hports.
  pose proof (generateContainerPorts_no_panic ∅ (ics_Ports ispec)) as Hpp.
  pose proof (generateContainerEnv_no_panic (httpPathPrefixFunc w (ics_Ports ispec))
    (kpt_ExtraEnv (wsk_PodTemplate wk))) as Hep.
  destruct (generateContainerPorts ∅ (ics_Ports ispec)) as [cs|e|why] eqn:Hc; cbn [go_bind].
  3: by destruct (Hpp why).
  2: { split; [done|]. split; [|done]. split; [by intros [? ?]|].
       intros [Hnd' _]. exfalso.
       assert (Err e = Ok ((λ p, mkContainerPort ("http-" +:+ itoa (iport_Port p))
         (iport_Port p) "TCP") <$> ics_Ports ispec)) by (apply Hports; set_solver). done. }
  destruct (proj1 (Hports cs) eq_refl) as (Hpnd & _ & ->).
  destruct (generateContainerEnv _ _) as [envs|e|why] eqn:He; cbn [go_bind].
  - split; [done|]. split; [split; eauto|]. intros sts [= <-]. split; simpl; try done.
    + unfold gm. simpl. apply lookup_union_Some_l, lookup_singleton_eq.
    + split; [done|]. apply map_union_subseteq_l.
    + eexists. split; [done|]. simpl. rewrite <-list_fmap_compose. done.
  - split; [done|]. split; [|done]. split; [by intros [? ?]|]. by intros [_ [? ?]].
  - by destruct (Hep why).
Qed.

(** Templates that stand for themselves. *)
Definition exampleTemplates : TemplateLib :=
  {| Template := string; parseTemplate s := inl s; executeTemplate s _ := inl s |}.

Definition exWorkspaceRunning : Workspace :=
  exWorkspace "test" false "img" "pod" (exStatus WorkspaceStateRunning emptyActivity 0).
Definition exKindBasic : WorkspaceKind :=
  exKind [exImage "img" None exPorts] [exPodConfig "pod" None] None [].

Lemma generateStatefulSet_correct_witness :
  ∃ sts, generateStatefulSet (H := exampleTemplates) exWorkspaceRunning exKindBasic
    (icv_Spec (exImage "img" None exPorts)) (pcv_Spec (exPodConfig "pod" None)) "ws-test" = Ok sts ∧
  statefulset_ok exWorkspaceRunning (icv_Spec (exImage "img" None exPorts)) "ws-test" sts.
Proof.
  destruct (generateStatefulSet_correct (H := exampleTemplates) exWorkspaceRunning exKindBasic
    (icv_Spec (exImage "img" None exPorts)) (pcv_Spec (exPodConfig "pod" None)) "ws-test")
    as (_ & _ & Hok); [constructor; [by eexists|constructor]|].
  eexists. split; [vm_compute; reflexivity|]. apply Hok. vm_compute. reflexivity.
Defined.

(** The Service generated for a Workspace reaches the Pods of the StatefulSet
    generated for it: it selects exactly the StatefulSet's selector labels, which its
    Pods carry, and every Service port targets, by number, a distinct port of the main
    container. *)
Theorem service_reaches_pods `{TemplateLib} w wk ispec pspec sa sts svc :
  generateStatefulSet w wk ispec pspec sa = Ok sts →
  generateService w ispec = Ok svc →
  svcSpec_Selector (svc_Spec svc) = stsSpec_Selector (sts_Spec sts) ∧
  svcSpec_Selector (svc_Spec svc) ⊆ ptpl_Labels (stsSpec_Template (sts_Spec sts)) ∧
  NoDup (sport_Port <$> svcSpec_Ports (svc_Spec svc)) ∧
  ∀ p, p ∈ svcSpec_Ports (svc_Spec svc) → ∃ c n,
    c ∈ pspec_Containers (ptpl_Spec (stsSpec_Template (sts_Spec sts))) ∧
    sport_TargetPort p = FromInt32 n ∧ sport_Port p = n ∧
    n ∈ cport_ContainerPort <$> ctr_Ports c.
Proof.
  unfold generateStatefulSet, generateService.
  destruct (generateNamePrefix _ maxStatefulSetNameLength) as [pre| |]; cbn [go_bind]; [|done..].
  destruct (generateContainerPorts ∅ _) as [cs| |] eqn:Hc; cbn [go_bind]; [|done..].
  destruct (generateContainerEnv _ _) as [envs| |]; cbn [go_bind]; [|done..].
  destruct (generateVolumes w wk) as [st| |]; cbn [go_bind]; [|done..]. intros [= <-].
  destruct (generateNamePrefix _ maxServiceNameLength) as [pre'| |]; cbn [go_bind]; [|done..].
  destruct (generateServicePorts ∅ _) as [sps| |] eqn:Hs; cbn [go_bind]; [|done..]. intros [= <-].
  cbn [svc_Spec sts_Spec svcSpec_Selector svcSpec_Ports stsSpec_Selector stsSpec_Template
    ptpl_Labels ptpl_Spec pspec_Containers].
  apply generateContainerPorts_Ok in Hc as (Hnd & _ & ->).
  apply generateServicePorts_Ok in Hs as [_ ->]. split; [done|].
  split; [apply map_union_subseteq_l|]. split.
  { assert (∀ l, sport_Port <$> ((λ p, mkServicePort ("http-" +:+ itoa (iport_Port p))
      (iport_Port p) (FromInt32 (iport_Port p)) "TCP") <$> l) = iport_Port <$> l) as ->; [|done].
    intros l. by rewrite <-list_fmap_compose. }
  intros p (ip & -> & Hip)%list_elem_of_fmap. eexists _, (iport_Port ip).
  split; [by apply list_elem_of_singleton|]. split; [done|]. split; [done|].
  cbn [ctr_Ports]. rewrite <-list_fmap_compose.
  by apply (list_elem_of_fmap_2 (λ p, iport_Port p)).
Qed.

Lemma service_reaches_pods_witness :
  ∃ sts svc,
    generateStatefulSet (H := exampleTemplates) exWorkspaceRunning exKindBasic
      (icv_Spec (exImage "img" None exPorts)) (pcv_Spec (exPodConfig "pod" None)) "sa" = Ok sts ∧
    generateService exWorkspaceRunning (icv_Spec (exImage "img" None exPorts)) = Ok svc ∧
    svcSpec_Selector (svc_Spec svc) = stsSpec_Selector (sts_Spec sts).
Proof.
  eexists _, _. split; [vm_compute; reflexivity|]. split; [vm_compute; reflexivity|].
  eapply (service_reaches_pods (H := exampleTemplates) exWorkspaceRunning exKindBasic
    (icv_Spec (exImage "img" None exPorts)) (pcv_Spec (exPodConfig "pod" None)) "sa");
    vm_compute; reflexivity.
Defined.

(** ** The kube-rbac-proxy resources fit together *)

Lemma suffixedName_total n suffix :
  slen suffix ≤ 59 → ∃ s, generateWorkspaceSuffixedName n suffix = Ok s.
Proof. intros Hs. rewrite (generateWorkspaceSuffixedName_eq n suffix Hs). eauto. Qed.

(** [kubeRBACProxySidecarNeeded], which decides whether the TLS profile is
    resolved, agrees with the generators: it is true exactly when a sidecar container
    and exactly when an HTTPRoute are generated, and generating never panics. The
    sidecar, the ConfigMap, the proxy Service and the HTTPRoute refer to each other
    consistently: every sidecar mount has its volume, the volumes name the generated
    ConfigMap and the secret that the Service's annotation requests, the Service targets
    the sidecar's port by name, the sidecar forwards to the first HTTP port of the image,
    and the HTTPRoute routes that port's connect path to the Service. *)
Theorem kubeRBACProxy_consistent cfg w wk ispec tls :
  ∃ sidecar cm svc,
    generateKubeRBACProxySidecar cfg w wk ispec tls = Ok sidecar ∧
    generateKubeRBACProxyConfigMap w = Ok cm ∧
    generateKubeRBACProxyService w = Ok svc ∧
    (kubeRBACProxySidecarNeeded wk ispec = true ↔ is_Some sidecar) ∧
    (is_Some sidecar ↔ is_Some (generateGatewayV1HTTPRoute cfg w wk svc ispec)) ∧
    ∀ c vols route, sidecar = Some (c, vols) →
      generateGatewayV1HTTPRoute cfg w wk svc ispec = Some route →
      (vm_Name <$> ctr_VolumeMounts c) = (vol_Name <$> vols) ∧
      (∃ secret, vols = [mkVolume workspaceKubeRbacProxyConfigVolumeName
                           (VolumeConfigMap (meta_Name (cm_Meta cm)));
                         mkVolume workspaceKubeRbacProxyTLSCertsVolumeName
                           (VolumeSecret secret None)] ∧
         gm (meta_Annotations (svc_Meta svc))
           !! "service.beta.openshift.io/serving-cert-secret-name" = Some secret) ∧
      (∃ sp cp, svcSpec_Ports (svc_Spec svc) = [sp] ∧ ctr_Ports c = [cp] ∧
         sport_TargetPort sp = FromString (cport_Name cp) ∧
         hrSpec_BackendPort (hr_Spec route) = sport_Port sp) ∧
      hrSpec_BackendName (hr_Spec route) = meta_Name (svc_Meta svc) ∧
      (∃ p, p ∈ ics_Ports ispec ∧
         ("--upstream=http://127.0.0.1:" +:+ itoa (iport_Port p) +:+ "/") ∈ ctr_Args c ∧
         hrSpec_PathPrefix (hr_Spec route)
           = getWorkspaceConnectPath (ws_Namespace w) (ws_Name w) (iport_Id p)).
Proof.
  destruct (suffixedName_total (ws_Name w) "-kube-rbac-proxy-config") as [cname Hc];
    [simpl; lia|].
  destruct (suffixedName_total (ws_Name w) "-kube-rbac-proxy-tls") as [tname Ht]; [simpl; lia|].
  destruct (suffixedName_total (ws_Name w) "-kube-rbac-proxy") as [sname Hs]; [simpl; lia|].
  unfold generateKubeRBACProxySidecar, generateKubeRBACProxyConfigMap,
    generateKubeRBACProxyService, generateGatewayV1HTTPRoute.
  rewrite Hc, Ht, Hs. cbn [go_bind].
  pose proof (sidecarNeeded_firstHTTPPort wk ispec) as Hneed.
  destruct (firstHTTPPort wk (ics_Ports ispec)) as [p|] eqn:Hp.
  - eexists _, _, _. do 3 (split; [done|]). split; [rewrite Hneed; split; by eexists|].
    split; [split; by eexists|]. intros c vols route [= <- <-] [= <-].
    split; [done|]. split; [eexists; split; [done|apply lookup_singleton_eq]|].
    split; [eexists _, _; done|]. split; [done|]. exists p.
    apply firstHTTPPort_Some in Hp as (pre & post & kp & -> & _). split; [set_solver|].
    split; [|done]. simpl. apply elem_of_cons. right. by left.
  - eexists None, _, _. do 3 (split; [done|]). split; [rewrite Hneed; split; by intros []|].
    split; [split; by intros []|]. done.
Qed.
