(* ===== verification/Field.v ===== *)
(** * Field errors ([k8s.io/apimachinery/pkg/util/validation/field])

    The errors that the webhooks and the backend report about fields, the paths they
    are reported at, and apimachinery's validation functions ([ValidationLib]). *)

From Stdlib Require Import ZArith.
From stdpp Require Import base gmap strings list.
From S2P Require Import Prelude K8sTypes ApiTypes.

(** ** Field errors *)

Inductive bad_value :=
| BVString (s : string)
| BVInt (z : Z)
| BVNil
| BVMatch (m : option ActivityRuleMatch).

Inductive field_error :=
| FieldInvalid (path : string) (value : bad_value) (detail : string)
| FieldRequired (path detail : string)
| FieldForbidden (path detail : string)
| FieldInternal (path : string) (err : error).

(** [field.Path]: [NewPath], [Child], [Key] and [Index], rendered. *)
Definition NewPath (l : list string) : string := str_join "." l.
Definition Child (p : string) (l : list string) : string := p +:+ "." +:+ str_join "." l.
Definition Key (p k : string) : string := p +:+ "[" +:+ k +:+ "]".
Definition Index (p : string) (i : nat) : string := p +:+ "[" +:+ itoa (Z.of_nat i) +:+ "]".

(** [err.Type] and [err.Field]. *)
Definition field_Type (e : field_error) : string :=
  match e with
  | FieldInvalid _ _ _ => "FieldValueInvalid"
  | FieldRequired _ _ => "FieldValueRequired"
  | FieldForbidden _ _ => "FieldValueForbidden"
  | FieldInternal _ _ => "InternalError"
  end.

Definition field_Field (e : field_error) : string :=
  match e with
  | FieldInvalid p _ _ | FieldRequired p _ | FieldForbidden p _ | FieldInternal p _ => p
  end.

(** A nil path, rendered. *)
Definition nilPath : string := "<nil>".

(** [v1validation.ValidateLabels], [apivalidation.ValidateAnnotations] and
    [v1validation.ValidateLabelSelector]. *)
Class ValidationLib := {
  ValidateLabels : gmap string string → string → list field_error;
  ValidateAnnotations : gmap string string → string → list field_error;
  ValidateLabelSelector : LabelSelector → string → list field_error;
}.

(** Label keys and annotation keys must not be empty; selectors must not use an
    empty key. *)
Definition exampleValidation : ValidationLib := {|
  ValidateLabels m p := match m !! "" with
                        | Some _ => [FieldInvalid p (BVString "") "empty key"]
                        | None => []
                        end;
  ValidateAnnotations m p := match m !! "" with
                             | Some _ => [FieldInvalid p (BVString "") "empty key"]
                             | None => []
                             end;
  ValidateLabelSelector s p := match sel_MatchLabels s !! "" with
                               | Some _ => [FieldInvalid p (BVString "") "empty key"]
                               | None => []
                               end |}.
