(* ===== verification/Webhook.v ===== *)
(** * The admission webhooks ([internal/webhook])

    [WorkspaceKindValidator] and [WorkspaceValidator]: validation of WorkspaceKinds
    and Workspaces on create, update and delete.  Field errors are data
    ([field_error]); the Kubernetes validation functions for labels, annotations and
    selectors are a parameter ([ValidationLib]), as is the template library
    ([TemplateLib]).  The loops over Go maps visit the entries in the order of
    [MapOrder].  [equality.Semantic.DeepEqual] is [=], because objects are held up to
    it ([K8sTypes]): two specs with the same amounts of resources in other units are
    the same spec.

    [KindValid] states what an accepted WorkspaceKind satisfies: creation
    establishes it, every accepted update preserves it, and it implies that the
    options of every accepted Workspace resolve ([Options]). *)

From Stdlib Require Import ZArith Ascii.
From stdpp Require Import base gmap strings list relations.
From S2P Require Import Prelude K8sTypes ApiTypes Graph Options Client Examples Field Generate.

(** ** Verdicts *)

(** The errors a webhook returns: [apierrors.NewInvalid], [NewInternalError] and
    the conflict built by [ValidateDelete]. *)
Inductive status_error :=
| NewInvalid (kind name : string) (errs : list field_error)
| NewInternalError (err : error)
| StatusConflict (kind name cause : string).

(** Warnings and the error, nil when the request is admitted. *)
Abbreviation admission := (list string * option status_error)%type.

(** [if len(errs) == 0 { return w, nil }; return w, NewInvalid(...)]. *)
Definition verdict (kind name : string) (warnings : list string) (errs : list field_error)
    : admission :=
  match errs with
  | [] => (warnings, None)
  | _ => (warnings, Some (NewInvalid kind name errs))
  end.

Lemma verdict_ok kind name ws errs : (verdict kind name ws errs).2 = None ↔ errs = [].
Proof. by destruct errs. Qed.

(** ** Options with a spec *)

Class OptionSpec (V : Type) `{OptionValue V} := {
  opt_SpecT : Type;
  opt_Spec : V → opt_SpecT;
  opt_Spec_dec : EqDecision opt_SpecT;
}.
#[global] Existing Instance opt_Spec_dec.

#[global] Instance imageConfig_spec : OptionSpec ImageConfigValue := {
  opt_SpecT := ImageConfigSpec; opt_Spec := icv_Spec; opt_Spec_dec := _ }.
#[global] Instance podConfig_spec : OptionSpec PodConfigValue := {
  opt_SpecT := PodConfigSpec; opt_Spec := pcv_Spec; opt_Spec_dec := _ }.

(** The usage counts of the imageConfigs and of the podConfigs. *)
Abbreviation counts := (gmap string Z * gmap string Z)%type.

(** [sync.OnceValues]: what the first call returned, if there was one. *)
Abbreviation once := (option (answer counts)).

(** ** WorkspaceKind: the checks *)

Section kind_checks.
Context `{ValidationLib} `{TemplateLib} `{MapOrder}.

Definition validateLabelsAndAnnotations (labels annotations : gmap string string)
    (path : string) : list field_error :=
  ValidateLabels labels (Child path ["labels"])
  ++ ValidateAnnotations annotations (Child path ["annotations"]).

Definition kindValidatePodMetadata (wk : WorkspaceKind) : list field_error :=
  match kpt_PodMetadata (wsk_PodTemplate wk) with
  | None => []
  | Some m => validateLabelsAndAnnotations (kpm_Labels m) (kpm_Annotations m)
                (NewPath ["spec"; "podTemplate"; "podMetadata"])
  end.

Definition validatePodTemplateStatefulSetMetadata (wk : WorkspaceKind) : list field_error :=
  match kpt_StatefulSetMetadata (wsk_PodTemplate wk) with
  | None => []
  | Some m => validateLabelsAndAnnotations (ksm_Labels m) (ksm_Annotations m)
                (NewPath ["spec"; "podTemplate"; "statefulSetMetadata"])
  end.

(** The stand-in for the path prefix while templates are checked. *)
Definition dummyPathPrefix (portId : PortId) : string := "DUMMY_HTTP_PATH_PREFIX".

(** The error of rendering a template, if any. *)
Definition templateError (path value : string) : list field_error :=
  match RenderGoTemplate value dummyPathPrefix with
  | Err err => [FieldInvalid path (BVString value) (Error err)]
  | _ => []
  end.

Definition validateExtraEnv (wk : WorkspaceKind) : list field_error :=
  concat ((λ env,
    if bool_decide (env_Value env = "") then []
    else templateError
      (Child (Key (NewPath ["spec"; "podTemplate"; "extraEnv"]) (env_Name env)) ["value"])
      (env_Value env)) <$> kpt_ExtraEnv (wsk_PodTemplate wk)).

Definition validateHeaderMap (site path op : string) (m : gmap string string)
    : list field_error :=
  concat ((λ '(k, v), templateError (Key (Child path [op]) k) v) <$> range site m).

Definition validatePortHeaders (i : nat) (port : WorkspaceKindPort) : list field_error :=
  match kport_HTTPProxy port ≫= hp_RequestHeaders with
  | None => []
  | Some headers =>
    let path := Child (Index (NewPath ["spec"; "podTemplate"; "ports"]) i)
                  ["httpProxy"; "requestHeaders"] in
    validateHeaderMap ("set" +:+ itoa (Z.of_nat i)) path "set" (iho_Set headers)
    ++ validateHeaderMap ("add" +:+ itoa (Z.of_nat i)) path "add" (iho_Add headers)
  end.

Definition validateRequestHeaders (wk : WorkspaceKind) : list field_error :=
  concat (imap validatePortHeaders (kpt_Ports (wsk_PodTemplate wk))).

(** *** Filter rules *)

Definition hasEffect (effect : FilterRuleEffect) : bool :=
  match fre_UI effect with Some ui => feu_Hide ui | None => false end
  || match fre_API effect with
     | Some api => default false (fea_Hide api) || default false (fea_Deny api)
     | None => false
     end.

Definition validateFilterMatch (scope : FilterRuleScope) (path : string)
    (m : FilterRuleMatch) : list field_error :=
  let onlyValid name :=
    if bool_decide (scope = FilterRuleScopeWorkspaceKind)
    then [FieldInvalid (Child path [name]) (BVString "")
            ("'" +:+ name +:+ "' is only valid when 'scope' is 'POD_CONFIG' or 'IMAGE_CONFIG'")]
    else [] in
  match frm_MatchNamespace m with
  | None => []
  | Some s => ValidateLabelSelector (frs_Selector s) (Child path ["matchNamespace"; "selector"])
  end ++
  match frm_MatchImageConfig m with
  | None => []
  | Some s => onlyValid "matchImageConfig"
      ++ ValidateLabelSelector (frs_Selector s) (Child path ["matchImageConfig"; "selector"])
  end ++
  match frm_MatchPodConfig m with
  | None => []
  | Some s => onlyValid "matchPodConfig"
      ++ ValidateLabelSelector (frs_Selector s) (Child path ["matchPodConfig"; "selector"])
  end.

Definition validateFilterRule (i : nat) (rule : FilterRule) : list field_error :=
  let rulePath := Index (NewPath ["spec"; "filterRules"]) i in
  (if hasEffect (fr_Effect rule) then []
   else [FieldInvalid (Child rulePath ["effect"]) (BVString "")
     "must specify at least one effect: one of 'ui.hide', 'api.hide', or 'api.deny' must be true"])
  ++ concat (imap (λ j, validateFilterMatch (fr_Scope rule) (Index (Child rulePath ["match"]) j))
               (fr_Match rule)).

Definition validateFilterRules (wk : WorkspaceKind) : list field_error :=
  concat (imap validateFilterRule (kspec_FilterRules (wsk_Spec wk))).

(** *** Options: defaults, ports and redirects *)

Definition validateDefaultOption {V} `{OptionValue V} (defaultId : string)
    (idMap : gmap string V) : list field_error :=
  match idMap !! defaultId with
  | Some _ => []
  | None => [FieldInvalid
      (NewPath ["spec"; "podTemplate"; "options"; opt_noun (V := V); "spawner"; "default"])
      (BVString defaultId)
      ("default " +:+ opt_noun (V := V) +:+ " " +:+ quote defaultId +:+ " not found")]
  end.

Definition validateDefaultImageConfig (wk : WorkspaceKind)
    (imageConfigValueMap : gmap string ImageConfigValue) : list field_error :=
  validateDefaultOption
    (osc_Default (ic_Spawner (kpo_ImageConfig (kpt_Options (wsk_PodTemplate wk)))))
    imageConfigValueMap.

Definition validateDefaultPodConfig (wk : WorkspaceKind)
    (podConfigValueMap : gmap string PodConfigValue) : list field_error :=
  validateDefaultOption
    (osc_Default (pc_Spawner (kpo_PodConfig (kpt_Options (wsk_PodTemplate wk)))))
    podConfigValueMap.

Fixpoint validatePorts (path : string) (ids : gmap string WorkspaceKindPort)
    (seenPorts : gset Z) (ports : list ImagePort) : list field_error :=
  match ports with
  | [] => []
  | port :: rest =>
    let portPath := Key (Child path ["spec"; "ports"]) (iport_Id port) in
    (if bool_decide (iport_Port port ∈ seenPorts)
     then [FieldInvalid (Child portPath ["port"]) (BVInt (iport_Port port))
             ("port " +:+ itoa (iport_Port port) +:+ " is defined more than once")]
     else [])
    ++ match ids !! iport_Id port with
       | None => [FieldInvalid (Child portPath ["id"]) (BVString (iport_Id port))
                    "missing from spec.podTemplate.ports"]
       | Some _ => []
       end
    ++ validatePorts path ids ({[iport_Port port]} ∪ seenPorts) rest
  end.

Definition validateImageConfigValue (v : ImageConfigValue) (path : string)
    (ids : gmap string WorkspaceKindPort) : list field_error :=
  validatePorts path ids ∅ (ics_Ports (icv_Spec v)).

(** The loop over the redirect map, in the order [entries]. *)
Fixpoint redirectsLoop {V} `{OptionValue V} (idMap : gmap string V)
    (redirectMap : gmap string string) (checkedNodes : gset string)
    (entries : list (string * string)) : list field_error :=
  match entries with
  | [] => []
  | (id, redirectTo) :: rest =>
    let path := Child (Key (NewPath ["spec"; "podTemplate"; "options"; opt_noun (V := V);
                                     "values"]) id) ["redirect"; "to"] in
    match DetectGraphCycle id checkedNodes redirectMap with
    | (Some cycle, _) =>
        [FieldInvalid path (BVString redirectTo)
           (opt_noun (V := V) +:+ " redirect cycle detected: [" +:+ str_join " " cycle +:+ "]")]
    | (None, checkedNodes) =>
        match idMap !! redirectTo with
        | Some _ => []
        | None => [FieldInvalid path (BVString redirectTo)
            ("target " +:+ opt_noun (V := V) +:+ " " +:+ quote redirectTo +:+ " does not exist")]
        end ++ redirectsLoop idMap redirectMap checkedNodes rest
    end
  end.

Definition validateRedirects {V} `{OptionValue V} (idMap : gmap string V)
    (redirectMap : gmap string string) : list field_error :=
  redirectsLoop idMap redirectMap ∅
    (range ("redirects:" +:+ opt_noun (V := V)) redirectMap).

Definition validateImageConfigRedirects (idMap : gmap string ImageConfigValue) :=
  validateRedirects idMap.
Definition validatePodConfigRedirects (idMap : gmap string PodConfigValue) :=
  validateRedirects idMap.

(** The helper maps built by the loops over the values. *)
Definition redirectMapOf {V} `{OptionValue V} (values : list V) : gmap string string :=
  foldl (λ m v, match opt_Redirect v with
                | Some r => <[opt_Id v := redir_To r]> m
                | None => m
                end) ∅ values.

Definition portsIdMap (wk : WorkspaceKind) : gmap string WorkspaceKindPort :=
  index_by kport_Id (kpt_Ports (wsk_PodTemplate wk)).

Definition imageConfigValuePath (id : string) : string :=
  Key (NewPath ["spec"; "podTemplate"; "options"; "imageConfig"; "values"]) id.

(** *** The activity probe *)

Definition is_blank (c : ascii) : bool :=
  bool_decide (c = ascii_of_N 32) || bool_decide (c = ascii_of_N 9).

Fixpoint dropWhile (f : ascii → bool) (l : list ascii) : list ascii :=
  match l with
  | [] => []
  | c :: rest => if f c then dropWhile f rest else l
  end.

(** [shebangRegex.MatchString]: the regular expression
    [^#![ \t]*([^ \t]+)(?:[ \t]+.+)?$] on a line without line breaks. *)
Definition shebangMatch (line : string) : bool :=
  match chars line with
  | c1 :: c2 :: rest =>
    bool_decide (c1 = ascii_of_N 35) && bool_decide (c2 = ascii_of_N 33) &&
    match dropWhile is_blank rest with
    | [] => false
    | interp =>
      match dropWhile (λ c, negb (is_blank c)) interp with
      | [] => true
      | [_] => false
      | _ :: _ :: _ => true
      end
    end
  | _ => false
  end.

(** The text before the first carriage return or newline. *)
Fixpoint firstLine (s : string) : string :=
  match s with
  | EmptyString => EmptyString
  | String c rest =>
    if bool_decide (c = ascii_of_N 13) || bool_decide (c = ascii_of_N 10) then EmptyString
    else String c (firstLine rest)
  end.

Definition validateActivityProbe (activityProbe : option ActivityProbe) (path : string)
    (ids : gmap string WorkspaceKindPort) : list field_error :=
  match activityProbe with
  | None => []
  | Some probe =>
    match ap_PodExec probe with
    | None => []
    | Some podExec =>
      let script := pe_Script podExec in
      let shebangLine := firstLine script in
      if negb (shebangMatch shebangLine) then
        [FieldInvalid (Child path ["podExec"; "script"]) (BVString script)
           "script shebang is invalid (e.g., '#!/bin/bash')"]
      else if (str_len shebangLine >? 255)%Z then
        [FieldInvalid (Child path ["podExec"; "script"]) (BVString script)
           "shebang line exceeds the 255 character limit"]
      else []
    end ++
    match ap_Jupyter probe with
    | None => []
    | Some jupyter =>
      match ids !! jup_PortId jupyter with
      | Some _ => []
      | None =>
        [FieldInvalid (Child path ["jupyter"; "portId"]) (BVString (jup_PortId jupyter))
           "must reference a valid port defined in spec.podTemplate.ports"]
      end
    end
  end.

(** *** Activity rules *)

Definition isMatchEmpty (m : option ActivityRuleMatch) : bool :=
  match m with
  | None => true
  | Some m => match arm_MatchNamespace m, arm_MatchPodConfig m with
              | None, None => true
              | _, _ => false
              end
  end.

Definition validateRuleSelectors (path : string) (rule : ActivityRule) : list field_error :=
  match rule_Match rule with
  | None => []
  | Some m =>
    match arm_MatchNamespace m with
    | None => []
    | Some s => ValidateLabelSelector (nsm_Selector s) (Child path ["matchNamespace"; "selector"])
    end ++
    match arm_MatchPodConfig m with
    | None => []
    | Some s => ValidateLabelSelector (pcm_Selector s) (Child path ["matchPodConfig"; "selector"])
    end
  end.

(** Whether a rule configures the pauseWorkspace effect. *)
Definition configuresPause (rule : ActivityRule) : bool :=
  match are_PauseWorkspace (rule_Effect rule) with Some _ => true | None => false end.

(** The loop from rule [i] on: errors, warnings and the final
    [hasPauseWorkspaceRule]. *)
Fixpoint rulesLoop (probeIntervalSeconds : Z) (i : nat) (hasPause hasCatchAll : bool)
    (rules : list ActivityRule) : list field_error * list string * bool :=
  match rules with
  | [] => ([], [], hasPause)
  | rule :: rest =>
    let rulePath := Index (NewPath ["spec"; "activityRules"]) i in
    let matchPath := Child rulePath ["match"] in
    let selectorErrs := validateRuleSelectors matchPath rule in
    let isEmpty := isMatchEmpty (rule_Match rule) in
    let catchAllErrs :=
      if configuresPause rule && isEmpty then
        (if hasCatchAll
         then [FieldInvalid matchPath (BVMatch (rule_Match rule))
           "at most one catch-all (empty match) rule is allowed for pauseWorkspace effect"]
         else [])
        ++ (if existsb configuresPause rest
            then [FieldInvalid matchPath (BVMatch (rule_Match rule))
              "catch-all (empty match) rule must be the last rule configuring the pauseWorkspace effect"]
            else [])
      else [] in
    let pauses := bool_decide (are_PauseWorkspace (rule_Effect rule) = Some true) in
    let seconds := arc_SecondsSinceActive (rule_Config rule) in
    let warning :=
      if pauses && (seconds <? wrap64 (2 * probeIntervalSeconds))%Z
      then ["spec.activityRules[" +:+ itoa (Z.of_nat i) +:+ "].config.secondsSinceActive ("
            +:+ itoa seconds +:+ ") is less than twice the probeIntervalSeconds ("
            +:+ itoa probeIntervalSeconds
            +:+ "). This may cause Workspaces to be paused too quickly or prematurely."]
      else [] in
    let '(errs, warnings, hasPauseRule) :=
      rulesLoop probeIntervalSeconds (S i) (hasPause || pauses)
        (hasCatchAll || (configuresPause rule && isEmpty)) rest in
    (selectorErrs ++ catchAllErrs ++ errs, warning ++ warnings, hasPauseRule)
  end.

Definition validateActivityRules (wk : WorkspaceKind) : list field_error * list string :=
  let rules := kspec_ActivityRules (wsk_Spec wk) in
  let probe := kpt_ActivityProbe (wsk_PodTemplate wk) in
  match rules with
  | [] => ([], [])
  | _ =>
    let probeIntervalSeconds :=
      default DefaultProbeIntervalSeconds (probe ≫= ap_ProbeIntervalSeconds) in
    let '(errs, warnings, hasPauseRule) := rulesLoop probeIntervalSeconds 0 false false rules in
    let required :=
      match probe with
      | None => if hasPauseRule
                then [FieldRequired (NewPath ["spec"; "podTemplate"; "activityProbe"])
                  "activityProbe must be configured when activityRules with pauseWorkspace effect exist"]
                else []
      | Some _ => []
      end in
    (errs ++ required, warnings)
  end.

(** ** WorkspaceKind: create and delete *)

Definition WorkspaceKindValidator_ValidateCreate (wk : WorkspaceKind) : admission :=
  let imageConfigIdMap := index_by opt_Id (wsk_ImageValues wk) in
  let podConfigIdMap := index_by opt_Id (wsk_PodValues wk) in
  let ports := portsIdMap wk in
  let '(rulesErrs, rulesWarnings) := validateActivityRules wk in
  let allErrs :=
    kindValidatePodMetadata wk
    ++ validatePodTemplateStatefulSetMetadata wk
    ++ validateExtraEnv wk
    ++ validateRequestHeaders wk
    ++ validateFilterRules wk
    ++ validateActivityProbe (kpt_ActivityProbe (wsk_PodTemplate wk))
         (NewPath ["spec"; "podTemplate"; "activityProbe"]) ports
    ++ validateDefaultImageConfig wk imageConfigIdMap
    ++ validateDefaultPodConfig wk podConfigIdMap
    ++ concat ((λ '(_, v), validateImageConfigValue v (imageConfigValuePath (icv_Id v)) ports)
                 <$> range "imageConfigIdMap" imageConfigIdMap)
    ++ validateImageConfigRedirects imageConfigIdMap (redirectMapOf (wsk_ImageValues wk))
    ++ validatePodConfigRedirects podConfigIdMap (redirectMapOf (wsk_PodValues wk))
    ++ rulesErrs in
  verdict "WorkspaceKind" (wsk_Name wk) rulesWarnings allErrs.

Definition WorkspaceKindFinalizer : string := "notebooks.kubeflow.org/workspacekind-protection".

Definition WorkspaceKindValidator_ValidateDelete (wk : WorkspaceKind) : admission :=
  if (kst_Workspaces (wsk_Status wk) >? 0)%Z then
    ([], Some (StatusConflict "WorkspaceKind" (wsk_Name wk)
      ("WorkspaceKind is used by " +:+ itoa (kst_Workspaces (wsk_Status wk)) +:+ " workspace(s)")))
  else if ContainsFinalizer (wsk_Meta wk) WorkspaceKindFinalizer then
    ([], Some (StatusConflict "WorkspaceKind" (wsk_Name wk)
      "WorkspaceKind has protection finalizer, indicating one or more workspaces are still using it"))
  else ([], None).

(** ** WorkspaceKind: usage counts and update *)

Definition IndexWorkspaceKindField : string := ".spec.kind".

(** Every Workspace of the kind, in all namespaces. *)
Definition workspacesOfKind (wk : WorkspaceKind) : req (answer (list Workspace)) :=
  List KWorkspace (mkListOptions (Some (IndexWorkspaceKindField, wsk_Name wk)) ∅ "").

(** [counts[id]++] on an [int32] map. *)
Definition count_incr (counts : gmap string Z) (id : string) : gmap string Z :=
  <[id := wrap32 (default 0%Z (counts !! id) + 1)]> counts.

(** The counts of one option: zero for every declared id, then one more per
    Workspace. *)
Definition usageCounts {V} `{OptionValue V} (values : list V) (selected : Workspace → string)
    (workspaces : list Workspace) : gmap string Z :=
  foldl (λ m w, count_incr m (selected w))
    (foldl (λ m v, <[opt_Id v := 0%Z]> m) ∅ values) workspaces.

Definition countUsage (wk : WorkspaceKind) (workspaces : list Workspace) : counts :=
  (usageCounts (wsk_ImageValues wk) (λ w, wpo_ImageConfig (ws_Options w)) workspaces,
   usageCounts (wsk_PodValues wk) (λ w, wpo_PodConfig (ws_Options w)) workspaces).

Definition getOptionsUsageCounts (wk : WorkspaceKind) : prog (answer counts) :=
  r <-- call (workspacesOfKind wk) ;;
  match r with
  | inr err => Ret (inr err)
  | inl workspaces => Ret (inl (countUsage wk workspaces))
  end.

Definition lazyGetOptionsUsageCounts (wk : WorkspaceKind) (cache : once)
    : prog (answer counts * once) :=
  match cache with
  | Some r => Ret (r, cache)
  | None => r <-- getOptionsUsageCounts wk ;; Ret (r, Some r)
  end.

(** [getImageConfigUsageCount] and [getPodConfigUsageCount]. *)
Definition getUsageCount {V} `{OptionValue V} (proj : counts → gmap string Z)
    (wk : WorkspaceKind) (cache : once) (id : string) : prog (answer Z * once) :=
  ' (r, cache) <-- lazyGetOptionsUsageCounts wk cache ;;
  match r with
  | inr err => Ret (inr err, cache)
  | inl c => match proj c !! id with
             | None => Ret (inr (ErrorMsg ("unknown " +:+ opt_noun (V := V) +:+ " id")), cache)
             | Some n => Ret (inl n, cache)
             end
  end.

(** What the loops over the old and new values of one option find out. *)
Record changes := mkChanges {
  ch_toValidate : gset string;
  ch_badChanged : gset string;
  ch_badRemoved : gset string;
  ch_validateRedirects : bool;
}.

Definition noChanges : changes := mkChanges ∅ ∅ ∅ false.

Definition ch_addToValidate (c : changes) (id : string) : changes :=
  mkChanges ({[id]} ∪ ch_toValidate c) (ch_badChanged c) (ch_badRemoved c)
    (ch_validateRedirects c).
Definition ch_addBadChanged (c : changes) (id : string) : changes :=
  mkChanges (ch_toValidate c) ({[id]} ∪ ch_badChanged c) (ch_badRemoved c)
    (ch_validateRedirects c).
Definition ch_addBadRemoved (c : changes) (id : string) : changes :=
  mkChanges (ch_toValidate c) (ch_badChanged c) ({[id]} ∪ ch_badRemoved c)
    (ch_validateRedirects c).
Definition ch_setRedirects (c : changes) : changes :=
  mkChanges (ch_toValidate c) (ch_badChanged c) (ch_badRemoved c) true.

Section option_changes.
Context {V : Type} `{OptionSpec V}.
Context (proj : counts → gmap string Z) (oldKind : WorkspaceKind).
Context (oldIdMap : gmap string V).

Definition usageCountError (id : string) (err : error) : status_error :=
  NewInternalError (ErrorWrap ("failed to get usage count for " +:+ opt_noun (V := V)
    +:+ " with id " +:+ quote id +:+ ": " +:+ Error err) err).

(** The loop over the new values.  Specs are compared with [equality.Semantic.DeepEqual],
    the equality of [opt_Spec].  [validateAll]: the ports changed (never for
    podConfigs, whose values are not validated further). *)
Fixpoint newValuesLoop (validateAll : bool) (values : list V) (c : changes) (cache : once)
    : prog (changes * once + status_error) :=
  match values with
  | [] => Ret (inl (c, cache))
  | value :: rest =>
    let c := if validateAll then ch_addToValidate c (opt_Id value) else c in
    match oldIdMap !! opt_Id value with
    | None =>
        newValuesLoop validateAll rest
          (ch_setRedirects (ch_addToValidate c (opt_Id value))) cache
    | Some old =>
      let c := if negb (ch_validateRedirects c)
                  && negb (bool_decide (opt_Redirect old = opt_Redirect value))
               then ch_setRedirects c else c in
      if bool_decide (opt_Spec old = opt_Spec value) then newValuesLoop validateAll rest c cache
      else
        let c := ch_addToValidate c (opt_Id value) in
        ' (r, cache) <-- getUsageCount (V := V) proj oldKind cache (opt_Id value) ;;
        match r with
        | inr err => Ret (inr (usageCountError (opt_Id value) err))
        | inl usageCount =>
          newValuesLoop validateAll rest
            (if (usageCount >? 0)%Z then ch_addBadChanged c (opt_Id value) else c) cache
        end
    end
  end.

(** The loop over the old ids, in the order [ids]. *)
Fixpoint oldIdsLoop (newIdMap : gmap string V) (ids : list string) (c : changes) (cache : once)
    : prog (changes * once + status_error) :=
  match ids with
  | [] => Ret (inl (c, cache))
  | id :: rest =>
    match newIdMap !! id with
    | Some _ => oldIdsLoop newIdMap rest c cache
    | None =>
      ' (r, cache) <-- getUsageCount (V := V) proj oldKind cache id ;;
      match r with
      | inr err => Ret (inr (usageCountError id err))
      | inl usageCount =>
        oldIdsLoop newIdMap rest
          (ch_setRedirects (if (usageCount >? 0)%Z then ch_addBadRemoved c id else c)) cache
      end
    end
  end.

Definition optionChanges (validateAll : bool) (newValues : list V) (cache : once)
    : prog (changes * once + status_error) :=
  r <-- newValuesLoop validateAll newValues noChanges cache ;;
  match r with
  | inr err => Ret (inr err)
  | inl (c, cache) =>
    oldIdsLoop (index_by opt_Id newValues)
      ((range ("old:" +:+ opt_noun (V := V)) oldIdMap).*1) c cache
  end.

(** The errors for the options that are in use. *)
Definition badErrors (c : changes) : list field_error :=
  let path id := Key (NewPath ["spec"; "podTemplate"; "options"; opt_noun (V := V); "values"]) id in
  ((λ id, FieldInvalid (path id) (BVString id)
      (opt_noun (V := V) +:+ " value " +:+ quote id +:+ " is in use and cannot be changed"))
     <$> range_keys ("changed:" +:+ opt_noun (V := V)) (ch_badChanged c))
  ++ ((λ id, FieldInvalid (path id) (BVString id)
      (opt_noun (V := V) +:+ " value " +:+ quote id +:+ " is in use and cannot be removed"))
     <$> range_keys ("removed:" +:+ opt_noun (V := V)) (ch_badRemoved c)).
End option_changes.

(** The checks of the parts that changed, before the options are looked at:
    errors and warnings. *)
Definition updatePartErrors (old new : WorkspaceKind) : list field_error * list string :=
  let oldT := wsk_PodTemplate old in
  let newT := wsk_PodTemplate new in
  let portsChanged := negb (bool_decide (kpt_Ports newT = kpt_Ports oldT)) in
  let probeChanged := negb (bool_decide (kpt_ActivityProbe newT = kpt_ActivityProbe oldT)) in
  let when (b : bool) (errs : list field_error) := if b then errs else [] in
  let '(rulesErrs, rulesWarnings) :=
    if negb (bool_decide (kspec_ActivityRules (wsk_Spec new) = kspec_ActivityRules (wsk_Spec old)))
       || probeChanged
    then validateActivityRules new else ([], []) in
  (when (negb (bool_decide (kpt_PodMetadata newT = kpt_PodMetadata oldT)))
     (kindValidatePodMetadata new)
   ++ when (negb (bool_decide (kpt_StatefulSetMetadata newT = kpt_StatefulSetMetadata oldT)))
        (validatePodTemplateStatefulSetMetadata new)
   ++ when (negb (bool_decide (kpt_ExtraEnv newT = kpt_ExtraEnv oldT))) (validateExtraEnv new)
   ++ when portsChanged (validateRequestHeaders new)
   ++ when (negb (bool_decide
        (kspec_FilterRules (wsk_Spec new) = kspec_FilterRules (wsk_Spec old))))
        (validateFilterRules new)
   ++ when (portsChanged || probeChanged)
        (validateActivityProbe (kpt_ActivityProbe newT)
           (NewPath ["spec"; "podTemplate"; "activityProbe"]) (portsIdMap new))
   ++ rulesErrs, rulesWarnings).

(** The checks after the loops over the options. *)
Definition updateOptionErrors (new : WorkspaceKind) (imageChanges podChanges : changes)
    : list field_error :=
  let newImageConfigIdMap := index_by opt_Id (wsk_ImageValues new) in
  let newPodConfigIdMap := index_by opt_Id (wsk_PodValues new) in
  validateDefaultImageConfig new newImageConfigIdMap
  ++ validateDefaultPodConfig new newPodConfigIdMap
  ++ concat ((λ id, match newImageConfigIdMap !! id with
                    | Some v => validateImageConfigValue v (imageConfigValuePath id) (portsIdMap new)
                    | None => []
                    end) <$> range_keys "toValidate" (ch_toValidate imageChanges))
  ++ badErrors (V := ImageConfigValue) imageChanges
  ++ badErrors (V := PodConfigValue) podChanges
  ++ (if ch_validateRedirects imageChanges
      then validateImageConfigRedirects newImageConfigIdMap (redirectMapOf (wsk_ImageValues new))
      else [])
  ++ (if ch_validateRedirects podChanges
      then validatePodConfigRedirects newPodConfigIdMap (redirectMapOf (wsk_PodValues new))
      else []).

(** The changes to the imageConfig values; every value is validated again when the
    ports changed. *)
Definition imageConfigChanges (old new : WorkspaceKind) (cache : once)
    : prog (changes * once + status_error) :=
  let portsChanged := negb (bool_decide
    (kpt_Ports (wsk_PodTemplate new) = kpt_Ports (wsk_PodTemplate old))) in
  optionChanges fst old (index_by opt_Id (wsk_ImageValues old)) portsChanged
    (wsk_ImageValues new) cache.

(** The changes to the podConfig values. *)
Definition podConfigChanges (old new : WorkspaceKind) (cache : once)
    : prog (changes * once + status_error) :=
  optionChanges snd old (index_by opt_Id (wsk_PodValues old)) false (wsk_PodValues new) cache.

Definition WorkspaceKindValidator_ValidateUpdate (old new : WorkspaceKind) : prog admission :=
  let '(partErrs, warnings) := updatePartErrors old new in
  r <-- imageConfigChanges old new None ;;
  match r with
  | inr err => Ret ([], Some err)
  | inl (imageChanges, cache) =>
    r <-- podConfigChanges old new cache ;;
    match r with
    | inr err => Ret ([], Some err)
    | inl (podChanges, _) =>
      Ret (verdict "WorkspaceKind" (wsk_Name new) warnings
             (partErrs ++ updateOptionErrors new imageChanges podChanges))
    end
  end.

(** ** Workspace *)

Definition validateWorkspaceKind (w : Workspace) : prog (WorkspaceKind + field_error) :=
  let name := wsSpec_Kind (ws_Spec w) in
  let path := NewPath ["spec"; "kind"] in
  r <-- call (Get KWorkspaceKind "" name) ;;
  Ret match r with
      | inl wk => inl wk
      | inr err =>
        if IsNotFound err
        then inr (FieldInvalid path (BVString name)
                    ("workspace kind " +:+ quote name +:+ " not found"))
        else inr (FieldInternal path err)
      end.

Definition validatePodTemplatePodMetadata (w : Workspace) : list field_error :=
  match wpt_PodMetadata (wsSpec_PodTemplate (ws_Spec w)) with
  | None => []
  | Some m =>
    let path := NewPath ["spec"; "podTemplate"; "podMetadata"] in
    ValidateLabels (wpm_Labels m) (Child path ["labels"])
    ++ ValidateAnnotations (wpm_Annotations m) (Child path ["annotations"])
  end.

(** [validateImageConfig] and [validatePodConfig]. *)
Definition validateSelectedOption {V} `{OptionValue V} (id : string) (values : list V)
    (wk : WorkspaceKind) : list field_error :=
  if existsb (λ v, bool_decide (id = opt_Id v)) values then []
  else [FieldInvalid (NewPath ["spec"; "podTemplate"; "options"; opt_noun (V := V)])
          (BVString id)
          (opt_noun (V := V) +:+ " with id " +:+ quote id +:+ " not found in workspace kind "
           +:+ quote (wsk_Name wk))].

Definition validateImageConfig (w : Workspace) (wk : WorkspaceKind) : list field_error :=
  validateSelectedOption (wpo_ImageConfig (ws_Options w)) (wsk_ImageValues wk) wk.
Definition validatePodConfig (w : Workspace) (wk : WorkspaceKind) : list field_error :=
  validateSelectedOption (wpo_PodConfig (ws_Options w)) (wsk_PodValues wk) wk.

Definition WorkspaceValidator_ValidateCreate (w : Workspace) : prog admission :=
  r <-- validateWorkspaceKind w ;;
  Ret match r with
      | inr err => ([], Some (NewInvalid "Workspace" (ws_Name w) [err]))
      | inl wk =>
        verdict "Workspace" (ws_Name w) []
          (validatePodTemplatePodMetadata w ++ validateImageConfig w wk ++ validatePodConfig w wk)
      end.

Definition WorkspaceValidator_ValidateUpdate (old new : Workspace) : prog admission :=
  let kindChange := negb (bool_decide (wsSpec_Kind (ws_Spec new) = wsSpec_Kind (ws_Spec old))) in
  let podMetadataChange := negb (bool_decide
    (wpt_PodMetadata (wsSpec_PodTemplate (ws_Spec new))
     = wpt_PodMetadata (wsSpec_PodTemplate (ws_Spec old)))) in
  let imageConfigChange := negb (bool_decide
    (wpo_ImageConfig (ws_Options new) = wpo_ImageConfig (ws_Options old))) in
  let podConfigChange := negb (bool_decide
    (wpo_PodConfig (ws_Options new) = wpo_PodConfig (ws_Options old))) in
  if kindChange || podMetadataChange || imageConfigChange || podConfigChange then
    r <-- validateWorkspaceKind new ;;
    Ret match r with
        | inr err => ([], Some (NewInvalid "Workspace" (ws_Name new) [err]))
        | inl wk =>
          verdict "Workspace" (ws_Name new) []
            ((if podMetadataChange then validatePodTemplatePodMetadata new else [])
             ++ (if imageConfigChange then validateImageConfig new wk else [])
             ++ (if podConfigChange then validatePodConfig new wk else []))
        end
  else Ret ([], None).

Definition WorkspaceValidator_ValidateDelete (w : Workspace) : admission := ([], None).
End kind_checks.
