(* ===== verification/WebhookSpec.v ===== *)
(** * What the admission webhooks guarantee

    [KindValid]: the invariant of accepted WorkspaceKinds.  Each check of [Webhook]
    is shown to decide its part of the invariant; creation decides all of it, and an
    accepted update preserves it.  The options that Workspaces use are neither
    changed nor removed by an accepted update. *)

From Stdlib Require Import ZArith Ascii.
From stdpp Require Import base gmap strings list relations.
From S2P Require Import Prelude K8sTypes ApiTypes Graph Options Client Examples Generate Field Webhook.

(** ** The invariant *)

(** Every option leads, through its redirects, to an option without one. *)
Definition all_resolve {V} `{OptionValue V} (values : list V) : Prop :=
  ∀ id v, index_by opt_Id values !! id = Some v →
    ∃ steps d, resolves (index_by opt_Id values) v steps d.

(** The ports of an image are distinct numbers with declared ids. *)
Definition ports_ok (wk : WorkspaceKind) (v : ImageConfigValue) : Prop :=
  NoDup (iport_Port <$> ics_Ports (icv_Spec v)) ∧
  ∀ p, p ∈ ics_Ports (icv_Spec v) → ∃ kp, kp ∈ kpt_Ports (wsk_PodTemplate wk) ∧
    kport_Id kp = iport_Id p.

(** The shebang line: [#!], blanks, an interpreter, and possibly arguments after
    blanks; at most 255 bytes. *)
Definition shebang_ok (line : string) : Prop :=
  (∃ blanks interp rest : list ascii,
    chars line = ascii_of_N 35 :: ascii_of_N 33 :: blanks ++ interp ++ rest ∧
    Forall (λ c, is_blank c = true) blanks ∧
    interp ≠ [] ∧ Forall (λ c, is_blank c = false) interp ∧
    (rest = [] ∨ ∃ c d args, rest = c :: d :: args ∧ is_blank c = true)) ∧
  (str_len line ≤ 255)%Z.

Definition probe_ok (wk : WorkspaceKind) : Prop :=
  ∀ probe, kpt_ActivityProbe (wsk_PodTemplate wk) = Some probe →
    (∀ podExec, ap_PodExec probe = Some podExec → shebang_ok (firstLine (pe_Script podExec))) ∧
    (∀ jupyter, ap_Jupyter probe = Some jupyter →
       ∃ kp, kp ∈ kpt_Ports (wsk_PodTemplate wk) ∧ kport_Id kp = jup_PortId jupyter).

(** A value that renders. *)
Definition renders `{TemplateLib} (value : string) : Prop :=
  ∃ out, RenderGoTemplate value dummyPathPrefix = Ok out.

Definition selectors_ok `{ValidationLib} (path : string) (rule : ActivityRule) : Prop :=
  validateRuleSelectors path rule = [].

(** No rule that configures pauseWorkspace follows a catch-all one, and a rule that
    pauses comes with an activity probe. *)
Definition rules_ok (wk : WorkspaceKind) : Prop :=
  let rules := kspec_ActivityRules (wsk_Spec wk) in
  (∀ i j r r', rules !! i = Some r → rules !! j = Some r' →
     configuresPause r = true → isMatchEmpty (rule_Match r) = true → i < j →
     configuresPause r' = false) ∧
  ((∃ r, r ∈ rules ∧ are_PauseWorkspace (rule_Effect r) = Some true) →
     is_Some (kpt_ActivityProbe (wsk_PodTemplate wk))).

(** A filter rule has an effect, and matches options only in an option scope. *)
Definition filter_rule_ok (r : FilterRule) : Prop :=
  hasEffect (fr_Effect r) = true ∧
  (fr_Scope r = FilterRuleScopeWorkspaceKind → ∀ m, m ∈ fr_Match r →
     frm_MatchImageConfig m = None ∧ frm_MatchPodConfig m = None).

Definition filter_selectors_ok `{ValidationLib} (wk : WorkspaceKind) : Prop :=
  ∀ i r j m s, kspec_FilterRules (wsk_Spec wk) !! i = Some r → fr_Match r !! j = Some m →
    let path := Index (Child (Index (NewPath ["spec"; "filterRules"]) i) ["match"]) j in
    (frm_MatchNamespace m = Some s →
       ValidateLabelSelector (frs_Selector s) (Child path ["matchNamespace"; "selector"]) = []) ∧
    (frm_MatchImageConfig m = Some s →
       ValidateLabelSelector (frs_Selector s) (Child path ["matchImageConfig"; "selector"]) = []) ∧
    (frm_MatchPodConfig m = Some s →
       ValidateLabelSelector (frs_Selector s) (Child path ["matchPodConfig"; "selector"]) = []).

Record KindValid `{ValidationLib} `{TemplateLib} (wk : WorkspaceKind) : Prop := {
  kv_podMetadata : kindValidatePodMetadata wk = [];
  kv_statefulSetMetadata : validatePodTemplateStatefulSetMetadata wk = [];
  kv_extraEnv : ∀ env, env ∈ kpt_ExtraEnv (wsk_PodTemplate wk) →
    env_Value env ≠ "" → renders (env_Value env);
  kv_requestHeaders : ∀ port proxy headers k v,
    port ∈ kpt_Ports (wsk_PodTemplate wk) → kport_HTTPProxy port = Some proxy →
    hp_RequestHeaders proxy = Some headers →
    iho_Set headers !! k = Some v ∨ iho_Add headers !! k = Some v → renders v;
  kv_filterRules : Forall filter_rule_ok (kspec_FilterRules (wsk_Spec wk));
  kv_filterSelectors : filter_selectors_ok wk;
  kv_probe : probe_ok wk;
  kv_defaultImage : ∃ v, v ∈ wsk_ImageValues wk ∧
    icv_Id v = osc_Default (ic_Spawner (kpo_ImageConfig (kpt_Options (wsk_PodTemplate wk))));
  kv_defaultPod : ∃ v, v ∈ wsk_PodValues wk ∧
    pcv_Id v = osc_Default (pc_Spawner (kpo_PodConfig (kpt_Options (wsk_PodTemplate wk))));
  kv_ports : ∀ id v, index_by icv_Id (wsk_ImageValues wk) !! id = Some v → ports_ok wk v;
  kv_imageRedirects : all_resolve (wsk_ImageValues wk);
  kv_podRedirects : all_resolve (wsk_PodValues wk);
  kv_ruleSelectors : ∀ i r, kspec_ActivityRules (wsk_Spec wk) !! i = Some r →
    selectors_ok (Child (Index (NewPath ["spec"; "activityRules"]) i) ["match"]) r;
  kv_rules : rules_ok wk;
}.

(** ** Each check decides its part *)

Lemma concat_imap_nil {A B} (f : nat → A → list B) (l : list A) :
  concat (imap f l) = [] ↔ ∀ i x, l !! i = Some x → f i x = [].
Proof.
  rewrite concat_nil. setoid_rewrite elem_of_lookup_imap. naive_solver.
Qed.

Lemma and_iff (P P' Q Q' : Prop) : (P ↔ P') → (Q ↔ Q') → (P ∧ Q ↔ P' ∧ Q').
Proof. tauto. Qed.

Lemma forall_Some {A} (x : A) (P : A → Prop) : (∀ y, Some x = Some y → P y) ↔ P x.
Proof. naive_solver. Qed.

Section checks.
Context `{ValidationLib} `{TemplateLib} `{MapOrderLaws}.

Lemma templateError_nil path value : templateError path value = [] ↔ renders value.
Proof.
  unfold templateError, renders, RenderGoTemplate.
  destruct (parseTemplate value); [destruct (executeTemplate _ _)|]; naive_solver.
Qed.

Lemma validateExtraEnv_iff wk :
  validateExtraEnv wk = [] ↔
  ∀ env, env ∈ kpt_ExtraEnv (wsk_PodTemplate wk) → env_Value env ≠ "" → renders (env_Value env).
Proof.
  unfold validateExtraEnv. rewrite concat_map_nil.
  apply forall_proper. intros env. case_bool_decide; [naive_solver|].
  rewrite templateError_nil. naive_solver.
Qed.

Lemma validateHeaderMap_iff site path op m :
  validateHeaderMap site path op m = [] ↔ ∀ k v, m !! k = Some v → renders v.
Proof.
  unfold validateHeaderMap. rewrite concat_map_nil. split.
  - intros Hall k v Hk. eapply templateError_nil, (Hall (k, v)). by apply elem_of_range.
  - intros Hall [k v] Hk%elem_of_range. apply templateError_nil. eauto.
Qed.

Lemma validateRequestHeaders_iff wk :
  validateRequestHeaders wk = [] ↔
  ∀ port proxy headers k v,
    port ∈ kpt_Ports (wsk_PodTemplate wk) → kport_HTTPProxy port = Some proxy →
    hp_RequestHeaders proxy = Some headers →
    iho_Set headers !! k = Some v ∨ iho_Add headers !! k = Some v → renders v.
Proof.
  unfold validateRequestHeaders. rewrite concat_imap_nil. split.
  - intros Hall port proxy headers k v [i Hi]%list_elem_of_lookup Hp Hh Hk.
    specialize (Hall _ _ Hi). unfold validatePortHeaders in Hall. rewrite Hp in Hall.
    simpl in Hall. rewrite Hh, app_nil, !validateHeaderMap_iff in Hall. naive_solver.
  - intros Hall i port Hi%list_elem_of_lookup_2. unfold validatePortHeaders.
    destruct (kport_HTTPProxy port) as [proxy|] eqn:Hp; simpl; [|done].
    destruct (hp_RequestHeaders proxy) as [headers|] eqn:Hh; [|done].
    rewrite app_nil, !validateHeaderMap_iff. naive_solver.
Qed.

Lemma validateFilterMatch_iff scope path m :
  validateFilterMatch scope path m = [] ↔
  (scope = FilterRuleScopeWorkspaceKind →
     frm_MatchImageConfig m = None ∧ frm_MatchPodConfig m = None) ∧
  ∀ s,
    (frm_MatchNamespace m = Some s →
       ValidateLabelSelector (frs_Selector s) (Child path ["matchNamespace"; "selector"]) = []) ∧
    (frm_MatchImageConfig m = Some s →
       ValidateLabelSelector (frs_Selector s) (Child path ["matchImageConfig"; "selector"]) = []) ∧
    (frm_MatchPodConfig m = Some s →
       ValidateLabelSelector (frs_Selector s) (Child path ["matchPodConfig"; "selector"]) = []).
Proof.
  unfold validateFilterMatch. rewrite !app_nil.
  destruct m as [[s1|] [s2|] [s3|]]; simpl; rewrite ?app_nil;
    repeat case_bool_decide; naive_solver.
Qed.

Lemma validateFilterRules_iff wk :
  validateFilterRules wk = [] ↔
  Forall filter_rule_ok (kspec_FilterRules (wsk_Spec wk)) ∧ filter_selectors_ok wk.
Proof.
  unfold validateFilterRules, filter_selectors_ok. rewrite concat_imap_nil, Forall_lookup.
  unfold validateFilterRule, filter_rule_ok. setoid_rewrite app_nil.
  setoid_rewrite concat_imap_nil. setoid_rewrite validateFilterMatch_iff.
  setoid_rewrite list_elem_of_lookup.
  split.
  - intros Hall. split; intros i r.
    + intros Hi. destruct (Hall _ _ Hi) as [He Hm]. destruct (hasEffect _); naive_solver.
    + intros j m s Hi. destruct (Hall _ _ Hi) as [_ Hm]. naive_solver.
  - intros [Hr Hsel] i r Hi. destruct (Hr _ _ Hi) as [-> Hs]. split; [done|].
    intros j m Hj. split; [eauto|]. intros s. by apply (Hsel i r j m s).
Qed.

Lemma validateDefaultOption_iff {V} `{OptionValue V} id (values : list V) :
  validateDefaultOption id (index_by opt_Id values) = [] ↔ ∃ v, v ∈ values ∧ opt_Id v = id.
Proof.
  unfold validateDefaultOption. rewrite <-index_by_is_Some.
  destruct (_ !! id); split; try done.
Qed.

Lemma validatePorts_iff path ids seen ports :
  validatePorts path ids seen ports = [] ↔
  NoDup (iport_Port <$> ports) ∧ (∀ p, p ∈ ports → iport_Port p ∉ seen) ∧
  ∀ p, p ∈ ports → is_Some (ids !! iport_Id p).
Proof.
  revert seen. induction ports as [|p ports IH]; intros seen; simpl.
  { split; [|done]. split; [constructor|set_solver]. }
  rewrite !app_nil, IH, NoDup_cons, list_elem_of_fmap.
  case_bool_decide as Hseen; destruct (ids !! iport_Id p) eqn:Hid.
  - split; [by intros [? _]|]. intros (_ & Hno & _). exfalso. apply (Hno p); set_solver.
  - split; [by intros [? _]|]. intros (_ & Hno & _). exfalso. apply (Hno p); set_solver.
  - split.
    + intros (_ & _ & Hnd & Hn & Hs). split_and!; [|done| |].
      * intros (q & Hq & Hin). apply (Hn _ Hin). set_solver.
      * intros q [->|Hq]%elem_of_cons; [done|]. specialize (Hn _ Hq). set_solver.
      * intros q [->|Hq]%elem_of_cons; [eauto|auto].
    + intros ((Hp & Hnd) & Hn & Hs). split_and!; try done.
      * intros q Hq [Heq%elem_of_singleton|Hin]%elem_of_union.
        -- apply Hp. exists q. done.
        -- eapply Hn; [|done]. set_solver.
      * set_solver.
  - split; [by intros (_ & ? & _)|]. intros (_ & _ & Hs).
    destruct (Hs p) as [x Hx]; [set_solver|]. congruence.
Qed.

Lemma portsIdMap_iff wk id :
  is_Some (portsIdMap wk !! id) ↔
  ∃ kp, kp ∈ kpt_Ports (wsk_PodTemplate wk) ∧ kport_Id kp = id.
Proof. apply index_by_is_Some. Qed.

Lemma validateImageConfigValue_iff wk v path :
  validateImageConfigValue v path (portsIdMap wk) = [] ↔ ports_ok wk v.
Proof.
  unfold validateImageConfigValue, ports_ok. rewrite validatePorts_iff.
  setoid_rewrite portsIdMap_iff. set_solver.
Qed.

(** *** Redirects *)

Lemma redirectsLoop_iff {V} `{OptionValue V} (idMap : gmap string V) edges checked entries :
  (∀ x, x ∈ checked → ends edges x) →
  redirectsLoop idMap edges checked entries = [] ↔
  ∀ id to, (id, to) ∈ entries → ends edges id ∧ is_Some (idMap !! to).
Proof.
  revert checked. induction entries as [|[id to] entries IH]; intros checked Hck; simpl.
  { set_solver. }
  pose proof (DetectGraphCycle_spec edges id checked Hck) as Hdet.
  destruct (DetectGraphCycle id checked edges) as [[cycle|] checked'].
  - destruct Hdet as (_ & Hcyc & Hreach). split; [done|]. intros Hall.
    destruct (Hall id to) as [Hends _]; [set_solver|].
    destruct Hcyc as (x & l & -> & _ & Hchain). exfalso.
    apply (ends_no_cycle _ _ x Hends); [apply Hreach; set_solver|].
    apply (chain_rtc edges (x :: l)); [done|set_solver].
  - destruct Hdet as (Hid & _ & Hends). rewrite app_nil, (IH checked') by done.
    setoid_rewrite elem_of_cons. destruct (idMap !! to) eqn:Hto; split.
    + intros [_ Hall] id' to' [[= -> ->]|Hin]; [|auto]. rewrite Hto. auto.
    + intros Hall. split; [done|]. auto.
    + by intros [? _].
    + intros Hall. destruct (Hall id to) as [_ [? ?]]; [auto|congruence].
Qed.

(** Whatever the order of the loop, no error is reported exactly when the redirect
    graph has no cycle and no dangling redirect. *)
Lemma validateRedirects_iff {V} `{OptionValue V} (idMap : gmap string V) edges :
  validateRedirects idMap edges = [] ↔
  (∀ id, ends edges id) ∧ ∀ id to, edges !! id = Some to → is_Some (idMap !! to).
Proof.
  unfold validateRedirects. rewrite redirectsLoop_iff by set_solver.
  setoid_rewrite elem_of_range. split.
  - intros Hall. split; [|naive_solver]. intros id.
    destruct (edges !! id) as [to|] eqn:Hid; [by apply (Hall id to)|by apply ends_stop].
  - naive_solver.
Qed.

Lemma redirectMapOf_app {V} `{OptionValue V} (values : list V) v :
  redirectMapOf (values ++ [v]) =
  match opt_Redirect v with
  | Some r => <[opt_Id v := redir_To r]> (redirectMapOf values)
  | None => redirectMapOf values
  end.
Proof. unfold redirectMapOf. by rewrite foldl_app. Qed.

(** The edges of the option map are in the redirect map; with distinct ids they are
    the redirect map. *)
Lemma redirectMapOf_edges {V} `{OptionValue V} (values : list V) id to :
  redirectEdges (index_by opt_Id values) !! id = Some to →
  redirectMapOf values !! id = Some to.
Proof.
  rewrite redirectEdges_Some. intros (v & r & Hv & Hr & <-). revert Hv.
  induction values as [|w values IH] using rev_ind; [done|].
  rewrite index_by_app, redirectMapOf_app, lookup_insert_Some.
  intros [[<- ->]|[Hne Hv]].
  - rewrite Hr. by simplify_map_eq.
  - destruct (opt_Redirect w); [rewrite lookup_insert_ne by done|]; auto.
Qed.

Lemma redirectMapOf_elem {V} `{OptionValue V} (values : list V) id to :
  redirectMapOf values !! id = Some to →
  ∃ v r, v ∈ values ∧ opt_Id v = id ∧ opt_Redirect v = Some r ∧ redir_To r = to.
Proof.
  induction values as [|w values IH] using rev_ind; [done|]. rewrite redirectMapOf_app.
  setoid_rewrite elem_of_app. intros Hid.
  destruct (opt_Redirect w) as [r|] eqn:Hr; [apply lookup_insert_Some in Hid as [[<- <-]|[_ Hid]]|].
  - exists w, r. set_solver.
  - destruct (IH Hid) as (v & r' & ?). exists v, r'. naive_solver.
  - destruct (IH Hid) as (v & r' & ?). exists v, r'. naive_solver.
Qed.

Lemma redirectMapOf_NoDup {V} `{OptionValue V} (values : list V) :
  NoDup (opt_Id <$> values) →
  redirectMapOf values = redirectEdges (index_by opt_Id values).
Proof.
  intros Hnd. apply map_eq. intros id. apply option_eq. intros to.
  split; [|apply redirectMapOf_edges].
  intros (v & r & Hv & Hid & Hr & Hto)%redirectMapOf_elem.
  apply redirectEdges_Some. exists v, r. split; [|done]. by apply index_by_NoDup.
Qed.

(** Edges of a subgraph: a walk that ends in the larger graph ends. *)
Lemma ends_subgraph (g1 g2 : gmap string string) x : g1 ⊆ g2 → ends g2 x → ends g1 x.
Proof.
  intros Hsub. induction 1 as [x Hx|x y Hxy _ IH].
  - apply ends_stop. by eapply lookup_weaken_None.
  - destruct (g1 !! x) as [z|] eqn:Hz; [|by apply ends_stop].
    eapply ends_step; [exact Hz|]. eapply lookup_weaken in Hz; [|done].
    unfold edge in Hxy. congruence.
Qed.

Lemma validateRedirects_resolve {V} `{OptionValue V} (values : list V) :
  validateRedirects (index_by opt_Id values) (redirectMapOf values) = [] → all_resolve values.
Proof.
  rewrite validateRedirects_iff. intros [Hends Htgt] id v Hv.
  assert (Hsub : redirectEdges (index_by opt_Id values) ⊆ redirectMapOf values).
  { apply map_subseteq_spec. apply redirectMapOf_edges. }
  eapply ends_resolves; [|by eapply ends_subgraph|exact Hv].
  intros k t Hk. eapply Htgt, lookup_weaken; eassumption.
Qed.

(** Conversely: options that all resolve have no cycle and no dangling redirect. *)
Lemma resolves_ends {V} `{OptionValue V} (idMap : gmap string V) v steps d :
  keyed idMap → idMap !! opt_Id v = Some v → resolves idMap v steps d →
  ends (redirectEdges idMap) (opt_Id v).
Proof.
  intros Hkey Hv Hres. revert Hv. induction Hres as [v Hv|v r w s d Hr Hw _ IH]; intros Hid.
  - apply ends_stop. destruct (redirectEdges idMap !! opt_Id v) as [t|] eqn:Ht; [|done].
    apply redirectEdges_Some in Ht as (v' & r & ? & ? & _). congruence.
  - pose proof (Hkey _ _ Hw) as Hwid. eapply ends_step; [|apply IH; congruence].
    apply redirectEdges_Some. exists v, r. by rewrite Hwid.
Qed.

Lemma all_resolve_validates {V} `{OptionValue V} (values : list V) :
  NoDup (opt_Id <$> values) → all_resolve values →
  validateRedirects (index_by opt_Id values) (redirectMapOf values) = [].
Proof.
  intros Hnd Hall. rewrite redirectMapOf_NoDup by done. apply validateRedirects_iff. split.
  - intros id. destruct (redirectEdges (index_by opt_Id values) !! id) as [t|] eqn:Ht; [|by apply ends_stop].
    apply redirectEdges_Some in Ht as (v & r & Hv & _).
    destruct (Hall _ _ Hv) as (steps & d & Hres). pose proof (index_by_keyed _ _ _ Hv) as <-.
    eapply resolves_ends; [apply index_by_keyed|done|done].
  - intros id t (v & r & Hv & Hr & <-)%redirectEdges_Some.
    destruct (Hall _ _ Hv) as (steps & d & Hres). inversion Hres; naive_solver.
Qed.

(** Resolution depends on the ids and redirects only. *)
Lemma resolves_transfer {V} `{OptionValue V} (m1 m2 : gmap string V) v1 v2 steps d1 :
  (∀ k, opt_Redirect <$> m1 !! k = opt_Redirect <$> m2 !! k) → keyed m1 → keyed m2 →
  resolves m1 v1 steps d1 → opt_Redirect v1 = opt_Redirect v2 →
  ∃ steps' d2, resolves m2 v2 steps' d2.
Proof.
  intros Hm Hk1 Hk2 Hres. revert v2.
  induction Hres as [v Hv|v r w s d Hr Hw _ IH]; intros v2 Hv2.
  - exists [], v2. constructor. congruence.
  - pose proof (Hm (redir_To r)) as Hlk. rewrite Hw in Hlk. simpl in Hlk.
    destruct (m2 !! redir_To r) as [w2|] eqn:Hw2; simplify_eq/=.
    destruct (IH w2) as (s' & d2 & Hres2); [congruence|].
    eexists _, d2. econstructor; [|done|done]. congruence.
Qed.

Lemma all_resolve_transfer {V} `{OptionValue V} (old new : list V) :
  (∀ k, opt_Redirect <$> index_by opt_Id old !! k = opt_Redirect <$> index_by opt_Id new !! k) →
  all_resolve old → all_resolve new.
Proof.
  intros Hm Hold id v Hv. pose proof (Hm id) as Hid. rewrite Hv in Hid.
  destruct (index_by opt_Id old !! id) as [v0|] eqn:Hv0; simplify_eq/=.
  destruct (Hold _ _ Hv0) as (s & d & Hres).
  eapply resolves_transfer; [exact Hm|apply index_by_keyed..|exact Hres|congruence].
Qed.

(** *** The activity probe *)

Lemma dropWhile_split f l : ∃ pre,
  l = pre ++ dropWhile f l ∧ Forall (λ c, f c = true) pre ∧
  match dropWhile f l with [] => True | c :: _ => f c = false end.
Proof.
  induction l as [|c l (pre & Hl & Hpre & Hhd)]; simpl; [by exists []|].
  destruct (f c) eqn:Hc; [|by exists []].
  exists (c :: pre). split_and!; [by rewrite Hl at 1|by constructor|done].
Qed.

Lemma dropWhile_app f pre l :
  Forall (λ c, f c = true) pre → match l with [] => True | c :: _ => f c = false end →
  dropWhile f (pre ++ l) = l.
Proof.
  intros Hpre Hl. induction Hpre as [|c pre Hc _ IH]; simpl; [|by rewrite Hc].
  destruct l as [|c l]; simpl; [done|]. by rewrite Hl.
Qed.

Lemma shebang_iff line :
  shebangMatch line = true ∧ (str_len line >? 255)%Z = false ↔ shebang_ok line.
Proof.
  unfold shebang_ok. rewrite Z.gtb_ltb, Z.ltb_ge. apply and_iff; [|done].
  unfold shebangMatch. split.
  - destruct (chars line) as [|c1 [|c2 l]]; [done..|].
    rewrite !andb_true_iff, !bool_decide_eq_true. intros [[-> ->] Hm].
    destruct (dropWhile_split is_blank l) as (blanks & Hl & Hb & Hhd).
    destruct (dropWhile is_blank l) as [|c l']; [done|].
    destruct (dropWhile_split (λ c, negb (is_blank c)) (c :: l')) as (interp & Hi & Hn & Hr).
    exists blanks, interp, (dropWhile (λ c, negb (is_blank c)) (c :: l')).
    split_and!; [by rewrite <-Hi, <-Hl|done| | |].
    + intros ->. rewrite app_nil_l in Hi. rewrite <-Hi in Hr. by rewrite Hhd in Hr.
    + eapply Forall_impl; [exact Hn|]. by intros ? ?%negb_true_iff.
    + destruct (dropWhile (λ c, negb (is_blank c)) (c :: l')) as [|a [|b args]]; [by left|done|].
      right. exists a, b, args. split; [done|]. by apply negb_false_iff.
  - intros (blanks & interp & rest & -> & Hb & Hne & Hn & Hrest).
    rewrite !bool_decide_eq_true_2 by done. cbn [andb].
    rewrite dropWhile_app; [|done|].
    2: { destruct interp; [done|]. by apply Forall_cons in Hn as [? _]. }
    destruct (interp ++ rest) eqn:E; [by destruct interp|]. rewrite <-E, dropWhile_app.
    + by destruct Hrest as [->|(? & ? & ? & -> & _)].
    + eapply Forall_impl; [exact Hn|]. by intros ? ->.
    + destruct Hrest as [->|(? & ? & ? & -> & ->)]; done.
Qed.

Lemma validateActivityProbe_iff wk path :
  validateActivityProbe (kpt_ActivityProbe (wsk_PodTemplate wk)) path (portsIdMap wk) = [] ↔
  probe_ok wk.
Proof.
  unfold validateActivityProbe, probe_ok.
  destruct (kpt_ActivityProbe (wsk_PodTemplate wk)) as [probe|]; [|naive_solver].
  setoid_rewrite <-portsIdMap_iff. setoid_rewrite <-shebang_iff. rewrite app_nil.
  rewrite (forall_Some probe (λ probe, _ ∧ _)). apply and_iff.
  - destruct (ap_PodExec probe) as [pe|]; [|by split].
    rewrite forall_Some. destruct (shebangMatch _); simpl; [|naive_solver].
    by destruct (_ >? _)%Z; split; [|intros [_ ?]| |].
  - destruct (ap_Jupyter probe) as [j|]; [|by split]. rewrite forall_Some.
    destruct (_ !! _); split; try done.
Qed.

(** *** Activity rules *)

Definition catchAll (r : ActivityRule) : bool :=
  configuresPause r && isMatchEmpty (rule_Match r).

(** No catch-all is followed by a rule that configures pauseWorkspace. *)
Fixpoint catchAllLast (rules : list ActivityRule) : Prop :=
  match rules with
  | [] => True
  | r :: rest => (catchAll r = true → Forall (λ r', configuresPause r' = false) rest)
                 ∧ catchAllLast rest
  end.

Lemma existsb_false {A} (f : A → bool) l : existsb f l = false ↔ Forall (λ x, f x = false) l.
Proof.
  induction l as [|x l IH]; simpl; [by split|].
  by rewrite orb_false_iff, IH, Forall_cons.
Qed.

Lemma rulesLoop_spec interval i hasPause hasCatchAll rules errs ws hp :
  rulesLoop interval i hasPause hasCatchAll rules = (errs, ws, hp) →
  (errs = [] ↔
     (∀ k r, rules !! k = Some r →
        selectors_ok (Child (Index (NewPath ["spec"; "activityRules"]) (i + k)) ["match"]) r) ∧
     catchAllLast rules ∧
     (hasCatchAll = true → Forall (λ r, catchAll r = false) rules)) ∧
  (hp = true ↔ hasPause = true ∨ ∃ r, r ∈ rules ∧ are_PauseWorkspace (rule_Effect r) = Some true).
Proof.
  revert i hasPause hasCatchAll errs ws hp.
  induction rules as [|r rules IH]; intros i hasPause hasCatchAll errs ws hp; cbn [rulesLoop].
  { intros [= <- <- <-]. set_solver. }
  fold (catchAll r).
  destruct (rulesLoop interval (S i) _ _ rules) as [[errs' ws'] hp'] eqn:E.
  intros [= <- <- <-]. apply IH in E as [IHe IHp]. clear IH. split.
  - rewrite !app_nil, IHe. clear IHe IHp. cbn [catchAllLast].
    assert (Hsel : (∀ k r0, (r :: rules) !! k = Some r0 →
        selectors_ok (Child (Index (NewPath ["spec"; "activityRules"]) (i + k)) ["match"]) r0) ↔
      selectors_ok (Child (Index (NewPath ["spec"; "activityRules"]) i) ["match"]) r ∧
      (∀ k r0, rules !! k = Some r0 →
        selectors_ok (Child (Index (NewPath ["spec"; "activityRules"]) (S i + k)) ["match"]) r0)).
    { split.
      - intros Hall. split; [rewrite <-(Nat.add_0_r i); by apply (Hall 0)|].
        intros k r0 Hk. rewrite Nat.add_succ_comm. by apply (Hall (S k)).
      - intros [Hz HS] [|k] r0 Hk; simplify_eq/=; [by rewrite Nat.add_0_r|].
        rewrite <-Nat.add_succ_comm. by apply HS. }
    rewrite Hsel, Forall_cons. unfold selectors_ok at 2. clear Hsel.
    assert (Hca : Forall (λ r', configuresPause r' = false) rules →
      Forall (λ r', catchAll r' = false) rules).
    { intros Hf. eapply Forall_impl; [exact Hf|]. unfold catchAll. by intros ? ->. }
    assert (Hex : existsb configuresPause rules = false ↔
      Forall (λ r', configuresPause r' = false) rules) by apply existsb_false.
    revert Hca Hex. generalize (Forall (λ r', configuresPause r' = false) rules).
    generalize (Forall (λ r', catchAll r' = false) rules). intros F FP Hca Hex.
    destruct (catchAll r), hasCatchAll, (existsb configuresPause rules); simpl;
      intuition congruence.
  - rewrite IHp, orb_true_iff, bool_decide_eq_true. setoid_rewrite elem_of_cons. naive_solver.
Qed.

Lemma catchAllLast_lookup rules :
  catchAllLast rules ↔
  ∀ i j r r', rules !! i = Some r → rules !! j = Some r' →
    configuresPause r = true → isMatchEmpty (rule_Match r) = true → i < j →
    configuresPause r' = false.
Proof.
  induction rules as [|r rules IH]; cbn [catchAllLast]; [split; [done|constructor]|].
  rewrite IH, Forall_lookup. unfold catchAll. rewrite andb_true_iff. split.
  - intros [Hr Hrest] [|i] [|j] r1 r2 Hr1 Hr2 Hp He Hlt; simplify_eq/=; try lia.
    + eauto.
    + eapply (Hrest i j); eauto with lia.
  - intros Hall. split.
    + intros [Hp He] j r' Hj. apply (Hall 0 (S j) r r'); auto with lia.
    + intros i j r1 r2 Hr1 Hr2 Hp He Hlt. apply (Hall (S i) (S j) r1 r2); auto with lia.
Qed.

Lemma validateActivityRules_iff wk :
  (validateActivityRules wk).1 = [] ↔
  (∀ i r, kspec_ActivityRules (wsk_Spec wk) !! i = Some r →
     selectors_ok (Child (Index (NewPath ["spec"; "activityRules"]) i) ["match"]) r) ∧
  rules_ok wk.
Proof.
  unfold validateActivityRules, rules_ok. rewrite <-catchAllLast_lookup.
  destruct (kspec_ActivityRules (wsk_Spec wk)) as [|r0 rules0] eqn:Hr.
  { simpl. split; [|done]. intros _. split; [done|]. split; [done|set_solver]. }
  rewrite <-Hr. set (rules := kspec_ActivityRules (wsk_Spec wk)). clearbody rules. clear Hr.
  destruct (rulesLoop _ 0 false false rules) as [[errs ws] hp] eqn:E. simpl.
  apply rulesLoop_spec in E as [He Hp]. simpl in He. rewrite app_nil, He.
  destruct (kpt_ActivityProbe _) as [probe|]; [naive_solver|].
  destruct hp.
  - split; [naive_solver|]. intros (_ & _ & Hex). destruct Hex as [? ?]; [|done].
    destruct Hp as [Hp _]. by destruct Hp as [?|?].
  - naive_solver.
Qed.
End checks.

(** ** Creation decides the invariant *)

Section create.
Context `{ValidationLib} `{TemplateLib} `{MapOrderLaws}.

Lemma image_values_iff site (paths : string → string) wk :
  concat ((λ '(_, v), validateImageConfigValue v (paths (icv_Id v)) (portsIdMap wk))
            <$> range site (index_by icv_Id (wsk_ImageValues wk))) = [] ↔
  ∀ id v, index_by icv_Id (wsk_ImageValues wk) !! id = Some v → ports_ok wk v.
Proof.
  rewrite concat_map_nil. split.
  - intros Hall id v Hv. eapply validateImageConfigValue_iff, (Hall (id, v)).
    by apply elem_of_range.
  - intros Hall [id v] Hv%elem_of_range. apply validateImageConfigValue_iff. eauto.
Qed.

(** Sound without any assumption; complete when the ids are distinct. *)
Lemma create_sound wk :
  (WorkspaceKindValidator_ValidateCreate wk).2 = None → KindValid wk.
Proof.
  unfold WorkspaceKindValidator_ValidateCreate.
  pose proof (validateActivityRules_iff wk) as Hrules.
  destruct (validateActivityRules wk) as [rulesErrs warnings]. simpl in Hrules.
  rewrite verdict_ok, !app_nil, validateExtraEnv_iff, validateRequestHeaders_iff,
    validateFilterRules_iff, validateActivityProbe_iff, Hrules.
  unfold validateDefaultImageConfig, validateDefaultPodConfig.
  rewrite !validateDefaultOption_iff, image_values_iff.
  intros (? & ? & ? & ? & [? ?] & ? & ? & ? & ? & ?%validateRedirects_resolve
          & ?%validateRedirects_resolve & ? & ?).
  by constructor.
Qed.

Lemma create_complete wk :
  NoDup (icv_Id <$> wsk_ImageValues wk) → NoDup (pcv_Id <$> wsk_PodValues wk) →
  KindValid wk → (WorkspaceKindValidator_ValidateCreate wk).2 = None.
Proof.
  intros Hi Hp Hv. unfold WorkspaceKindValidator_ValidateCreate.
  pose proof (validateActivityRules_iff wk) as Hrules.
  destruct (validateActivityRules wk) as [rulesErrs warnings]. simpl in Hrules.
  rewrite verdict_ok, !app_nil, validateExtraEnv_iff, validateRequestHeaders_iff,
    validateFilterRules_iff, validateActivityProbe_iff, Hrules.
  unfold validateDefaultImageConfig, validateDefaultPodConfig.
  rewrite !validateDefaultOption_iff, image_values_iff.
  destruct Hv. split_and!; try done; by apply all_resolve_validates.
Qed.
End create.

(** ** Usage counts *)

Lemma count_loop (selected : Workspace → string) wss m id z :
  default 0%Z (m !! id) = z → (0 ≤ z)%Z → (z + Z.of_nat (length wss) < 2 ^ 31)%Z →
  default 0%Z (foldl (λ m w, count_incr m (selected w)) m wss !! id) =
  (z + Z.of_nat (length (filter (λ w, selected w = id) wss)))%Z.
Proof.
  revert m z. induction wss as [|w wss IH]; intros m z Hm Hz Hlen.
  { simpl. rewrite Hm. lia. }
  rewrite filter_cons. cbn [foldl]. simpl length in Hlen.
  destruct (decide (selected w = id)) as [<-|Hne].
  - rewrite (IH _ (z + 1)%Z); [cbn [length]; lia| |lia|lia].
    unfold count_incr. rewrite lookup_insert_eq, Hm. simpl.
    rewrite wrap32_small; [done|]. unfold in_int32. lia.
  - apply IH; [|lia|lia]. unfold count_incr. by rewrite lookup_insert_ne.
Qed.

Lemma count_base {V} `{OptionValue V} (values : list V) id :
  default 0%Z (foldl (λ m v, <[opt_Id v := 0%Z]> m) (∅ : gmap string Z) values !! id) = 0%Z.
Proof.
  induction values as [|v values IH] using rev_ind; [done|]. rewrite foldl_app. simpl.
  destruct (decide (opt_Id v = id)) as [<-|Hne];
    [by rewrite lookup_insert_eq|by rewrite lookup_insert_ne].
Qed.

(** A count that is not positive means that no Workspace selects the option. *)
Lemma usageCounts_unused {V} `{OptionValue V} (values : list V) selected wss id n :
  usageCounts values selected wss !! id = Some n → (n ≤ 0)%Z →
  (Z.of_nat (length wss) < 2 ^ 31)%Z → ∀ w, w ∈ wss → selected w ≠ id.
Proof.
  intros Hid Hn Hlen w Hw Heq. unfold usageCounts in Hid.
  pose proof (count_loop selected wss _ id 0 (count_base values id)) as Hc.
  rewrite Hid in Hc. simpl in Hc. specialize (Hc ltac:(lia) ltac:(lia)).
  assert (w ∈ filter (λ w, selected w = id) wss) as Hf by by apply list_elem_of_filter.
  destruct (filter _ wss); [set_solver|]. simpl in Hc. lia.
Qed.

(** ** The loops of an update *)

Section update.
Context `{ValidationLib} `{TemplateLib} `{MapOrderLaws}.
Context (oldKind : WorkspaceKind).

(** The cached counts come from an answer of the API server. *)
Definition cache_ok (h : list event) (cache : once) : Prop :=
  ∀ c, cache = Some (inl c) → ∃ wss,
    Ev (workspacesOfKind oldKind) (inl wss) ∈ h ∧ c = countUsage oldKind wss.

Section option_update.
Context {V : Type} `{OptionSpec V}.
Context (proj : counts → gmap string Z) (oldIdMap : gmap string V).

(** The API server listed the Workspaces, and none counts as using [id]. *)
Definition zeroUsage (h : list event) (id : string) : Prop :=
  ∃ wss n, Ev (workspacesOfKind oldKind) (inl wss) ∈ h ∧
    proj (countUsage oldKind wss) !! id = Some n ∧ (n ≤ 0)%Z.

Lemma zeroUsage_mono h h' id : h `prefix_of` h' → zeroUsage h id → zeroUsage h' id.
Proof. intros [k ->] (wss & n & Hin & ?). exists wss, n. set_solver. Qed.

Lemma cache_ok_mono h h' cache : h `prefix_of` h' → cache_ok h cache → cache_ok h' cache.
Proof. intros [k ->] Hc c Hs. destruct (Hc c Hs) as (wss & ? & ?). exists wss. set_solver. Qed.

Lemma getUsageCount_sat h cache id :
  cache_ok h cache →
  sat (getUsageCount (V := V) proj oldKind cache id) h (λ h' '(r, cache'),
    h `prefix_of` h' ∧ cache_ok h' cache' ∧ ∀ n, r = inl n → (0 < n)%Z ∨ zeroUsage h' id).
Proof.
  intros Hc. unfold getUsageCount, lazyGetOptionsUsageCounts.
  assert (Hpost : ∀ h' (r : answer counts), h `prefix_of` h' → cache_ok h' (Some r) →
    sat (match r with
         | inr err => Ret (inr err, Some r)
         | inl c => match proj c !! id with
             | None => Ret (inr (ErrorMsg ("unknown " +:+ opt_noun (V := V) +:+ " id")), Some r)
             | Some n => Ret (inl n, Some r)
             end
         end) h' (λ h' '(r, cache'),
    h `prefix_of` h' ∧ cache_ok h' cache' ∧ ∀ n, r = inl n → (0 < n)%Z ∨ zeroUsage h' id)).
  { intros h' [c|err] Hp Hc'; [destruct (proj c !! id) as [n|] eqn:Hn|]; simpl;
      split_and!; try done. intros ? [= <-].
    destruct (decide (0 < n)%Z); [by left|right].
    destruct (Hc' c eq_refl) as (wss & Hin & ->). exists wss, n. split_and!; [done..|lia]. }
  destruct cache as [r|]; [apply Hpost; done|].
  intros [wss|err].
  - apply (Hpost _ (inl (countUsage oldKind wss))); [by apply prefix_app_r|].
    intros c [= <-]. exists wss. set_solver.
  - apply (Hpost _ (inr err)); [by apply prefix_app_r|]. intros c [=].
Qed.

(** What the loop over the new values has found out about one of them. *)
Definition new_ok (validateAll : bool) (h : list event) (c : changes) (value : V) : Prop :=
  let id := opt_Id value in
  (validateAll = true → id ∈ ch_toValidate c) ∧
  match oldIdMap !! id with
  | None => id ∈ ch_toValidate c ∧ ch_validateRedirects c = true
  | Some old =>
      (opt_Redirect old ≠ opt_Redirect value → ch_validateRedirects c = true) ∧
      (opt_Spec old ≠ opt_Spec value →
         id ∈ ch_toValidate c ∧ (id ∈ ch_badChanged c ∨ zeroUsage h id))
  end.

Definition removed_ok (h : list event) (c : changes) (id : string) : Prop :=
  ch_validateRedirects c = true ∧ (id ∈ ch_badRemoved c ∨ zeroUsage h id).

(** The findings only grow. *)
Definition ch_le (c c' : changes) : Prop :=
  ch_toValidate c ⊆ ch_toValidate c' ∧ ch_badChanged c ⊆ ch_badChanged c' ∧
  ch_badRemoved c ⊆ ch_badRemoved c' ∧
  (ch_validateRedirects c = true → ch_validateRedirects c' = true).

#[global] Instance ch_le_preorder : PreOrder ch_le.
Proof.
  split; [by intros c; unfold ch_le; set_solver|].
  intros c1 c2 c3 (?&?&?&?) (?&?&?&?). unfold ch_le. split_and!; set_solver.
Qed.

Lemma new_ok_mono validateAll h h' c c' v :
  h `prefix_of` h' → ch_le c c' → new_ok validateAll h c v → new_ok validateAll h' c' v.
Proof.
  intros Hh (Ht & Hb & _ & Hr) [Hall Hm]. split; [set_solver|].
  destruct (oldIdMap !! opt_Id v) as [old|]; [|set_solver].
  destruct Hm as [Hred Hspec]. split; [auto|]. intros Hne.
  destruct (Hspec Hne) as [? [?|?]]; (split; [set_solver|]); [left; set_solver|right].
  by eapply zeroUsage_mono.
Qed.

Lemma removed_ok_mono h h' c c' id :
  h `prefix_of` h' → ch_le c c' → removed_ok h c id → removed_ok h' c' id.
Proof.
  intros Hh (_ & _ & Hb & Hr) [? [?|?]]; (split; [by auto|]); [left; set_solver|right].
  by eapply zeroUsage_mono.
Qed.

Lemma ch_le_steps c id :
  ch_le c (ch_addToValidate c id) ∧ ch_le c (ch_addBadChanged c id) ∧
  ch_le c (ch_addBadRemoved c id) ∧ ch_le c (ch_setRedirects c).
Proof. unfold ch_le. simpl. set_solver. Qed.

Lemma newValuesLoop_sat validateAll values c cache h :
  cache_ok h cache →
  sat (newValuesLoop proj oldKind oldIdMap validateAll values c cache) h (λ h' r,
    ∀ c' cache', r = inl (c', cache') →
      h `prefix_of` h' ∧ ch_le c c' ∧ cache_ok h' cache' ∧
      Forall (new_ok validateAll h' c') values).
Proof.
  revert c cache h. induction values as [|v values IH]; intros c cache h Hc; cbn [newValuesLoop].
  { intros c' cache' [= <- <-]. split_and!; done. }
  set (c1 := if validateAll then ch_addToValidate c (opt_Id v) else c).
  assert (Hc1 : ch_le c c1 ∧ (validateAll = true → opt_Id v ∈ ch_toValidate c1)).
  { pose proof (ch_le_steps c (opt_Id v)) as Hs. subst c1.
    destruct validateAll; [|done]. split; [apply Hs|simpl; set_solver]. }
  clearbody c1. destruct Hc1 as [Hc1 Hv1].
  (** The rest of the loop, from any state that accounts for [v]. *)
  assert (Hrest : ∀ h1 c2 cache1, h `prefix_of` h1 → ch_le c1 c2 → cache_ok h1 cache1 →
    new_ok validateAll h1 c2 v →
    sat (newValuesLoop proj oldKind oldIdMap validateAll values c2 cache1) h1 (λ h' r,
      ∀ c' cache', r = inl (c', cache') →
        h `prefix_of` h' ∧ ch_le c c' ∧ cache_ok h' cache' ∧
        Forall (new_ok validateAll h' c') (v :: values))).
  { intros h1 c2 cache1 Hh Hle Hca Hv. eapply sat_mono; [by apply IH|].
    intros h' r Hr c' cache' ->. destruct (Hr _ _ eq_refl) as (? & ? & ? & ?).
    split_and!; [by etrans|by do 2 (etrans; [eassumption|])|done|].
    constructor; [|done]. by eapply new_ok_mono. }
  destruct (oldIdMap !! opt_Id v) as [old|] eqn:Hold.
  2: { apply Hrest; [done| |done|]; clear Hrest IH.
    - unfold ch_le. simpl. set_solver.
    - unfold new_ok. rewrite Hold. simpl. set_solver. }
  set (c2 := if _ && _ then ch_setRedirects c1 else c1).
  assert (Hc2 : ch_le c1 c2 ∧ (opt_Redirect old ≠ opt_Redirect v → ch_validateRedirects c2 = true)).
  { pose proof (ch_le_steps c1 (opt_Id v)) as Hs. subst c2.
    destruct (ch_validateRedirects c1) eqn:Hr; simpl; [done|].
    case_bool_decide; simpl; [done|]. split; [apply Hs|done]. }
  clearbody c2. destruct Hc2 as [Hc2 Hr2].
  case_bool_decide as Hspec.
  { apply Hrest; try done. unfold new_ok. rewrite Hold. split; [|by split].
    intros Ha. by apply Hc2, Hv1. }
  rewrite sat_bind. eapply sat_mono; [by apply getUsageCount_sat|].
  intros h1 [[n|err] cache1] (Hh1 & Hca1 & Hn); [|by intros ? ?].
  pose proof (ch_le_steps c2 (opt_Id v)) as (Hs1 & _).
  pose proof (ch_le_steps (ch_addToValidate c2 (opt_Id v)) (opt_Id v)) as (_ & Hs2 & _).
  specialize (Hn n eq_refl). apply Hrest; [done| |done|].
  - etrans; [exact Hc2|]. etrans; [exact Hs1|]. by destruct (n >? 0)%Z.
  - clear Hrest IH Hs1 Hs2. unfold new_ok. rewrite Hold, Z.gtb_ltb.
    destruct Hn as [Hn%Z.ltb_lt|Hn]; [rewrite Hn; simpl; set_solver|].
    destruct (0 <? n)%Z; simpl; (split; [set_solver|split; [done|set_solver]]).
Qed.

Lemma oldIdsLoop_sat (newIdMap : gmap string V) ids c cache h :
  cache_ok h cache →
  sat (oldIdsLoop proj oldKind newIdMap ids c cache) h (λ h' r,
    ∀ c' cache', r = inl (c', cache') →
      h `prefix_of` h' ∧ ch_le c c' ∧ cache_ok h' cache' ∧
      ∀ id, id ∈ ids → newIdMap !! id = None → removed_ok h' c' id).
Proof.
  revert c cache h. induction ids as [|id ids IH]; intros c cache h Hc; cbn [oldIdsLoop].
  { intros c' cache' [= <- <-]. split_and!; [done..|set_solver]. }
  destruct (newIdMap !! id) as [v|] eqn:Hid.
  { eapply sat_mono; [by apply IH|]. intros h' r Hr c' cache' ->.
    destruct (Hr _ _ eq_refl) as (? & ? & ? & Hall). split_and!; [done..|].
    intros i [->|Hi]%elem_of_cons; [congruence|auto]. }
  rewrite sat_bind. eapply sat_mono; [by apply (getUsageCount_sat h cache id)|].
  intros h1 [[n|err] cache1] (Hh1 & Hca1 & Hn); [|by intros ? ?].
  specialize (Hn n eq_refl).
  set (c2 := ch_setRedirects _).
  assert (Hc2 : ch_le c c2 ∧ removed_ok h1 c2 id).
  { subst c2. clear IH. unfold removed_ok, ch_le. rewrite Z.gtb_ltb.
    destruct Hn as [Hn%Z.ltb_lt|Hn]; [rewrite Hn|destruct (0 <? n)%Z]; simpl; set_solver. }
  clearbody c2. destruct Hc2 as [Hle Hrem]. eapply sat_mono; [by apply IH|].
  intros h' r Hr c' cache' ->. destruct (Hr _ _ eq_refl) as (? & ? & ? & Hall).
  split_and!; [by etrans..|done|].
  intros i [->|Hi]%elem_of_cons Hnone; [|auto]. by eapply removed_ok_mono.
Qed.

(** What both loops establish about the new and the removed values. *)
Definition changes_ok (validateAll : bool) (newValues : list V) (h : list event) (c : changes)
    : Prop :=
  (∀ v, v ∈ newValues → new_ok validateAll h c v) ∧
  (∀ id, is_Some (oldIdMap !! id) → index_by opt_Id newValues !! id = None → removed_ok h c id).

Lemma optionChanges_sat validateAll newValues cache h :
  cache_ok h cache →
  sat (optionChanges proj oldKind oldIdMap validateAll newValues cache) h (λ h' r,
    ∀ c cache', r = inl (c, cache') →
      h `prefix_of` h' ∧ cache_ok h' cache' ∧ changes_ok validateAll newValues h' c).
Proof.
  intros Hc. unfold optionChanges. rewrite sat_bind.
  eapply sat_mono; [by apply newValuesLoop_sat|].
  intros h1 [[c1 cache1]|err] Hr1; [|by intros ? ?].
  destruct (Hr1 _ _ eq_refl) as (Hh1 & _ & Hca1 & Hnew).
  eapply sat_mono; [by apply oldIdsLoop_sat|].
  intros h2 r Hr2 c cache' ->. destruct (Hr2 _ _ eq_refl) as (Hh2 & Hle & Hca2 & Hrem).
  split_and!; [by etrans|done|]. split.
  - intros v Hv. rewrite Forall_forall in Hnew. eapply new_ok_mono; eauto.
  - intros id [v Hv] Hnone. apply Hrem; [|done].
    apply list_elem_of_fmap. exists (id, v). split; [done|]. by apply elem_of_range.
Qed.
End option_update.
End update.

Section update_spec.
Context `{ValidationLib} `{TemplateLib} `{MapOrderLaws}.

Lemma badErrors_nil {V} `{OptionValue V} c :
  badErrors (V := V) c = [] → ch_badChanged c = ∅ ∧ ch_badRemoved c = ∅.
Proof.
  unfold badErrors. rewrite app_nil. intros [Hc%fmap_nil_inv Hr%fmap_nil_inv].
  split; apply set_eq; intros id.
  - rewrite <-(elem_of_range_keys ("changed:" +:+ opt_noun (V := V)) _ id), Hc. set_solver.
  - rewrite <-(elem_of_range_keys ("removed:" +:+ opt_noun (V := V)) _ id), Hr. set_solver.
Qed.

(** An accepted update found no error in the changed parts, in the options, and
    recorded every change of the options. *)
Lemma update_sat old new :
  sat (WorkspaceKindValidator_ValidateUpdate old new) [] (λ h r, r.2 = None →
    ∃ ci cp,
      (updatePartErrors old new).1 = [] ∧ updateOptionErrors new ci cp = [] ∧
      changes_ok old fst (index_by opt_Id (wsk_ImageValues old))
        (negb (bool_decide (kpt_Ports (wsk_PodTemplate new) = kpt_Ports (wsk_PodTemplate old))))
        (wsk_ImageValues new) h ci ∧
      changes_ok old snd (index_by opt_Id (wsk_PodValues old)) false (wsk_PodValues new) h cp).
Proof.
  unfold WorkspaceKindValidator_ValidateUpdate.
  destruct (updatePartErrors old new) as [partErrs warnings].
  rewrite sat_bind. eapply sat_mono; [apply optionChanges_sat; by intros c [=]|].
  intros h1 [[ci cache1]|err] Hr1; [|done].
  destruct (Hr1 _ _ eq_refl) as (Hh1 & Hca1 & Hci).
  rewrite sat_bind. eapply sat_mono; [by apply optionChanges_sat|].
  intros h2 [[cp cache2]|err] Hr2; [|done].
  destruct (Hr2 _ _ eq_refl) as (Hh2 & Hca2 & Hcp). simpl.
  rewrite verdict_ok, app_nil. intros [-> Hopt]. exists ci, cp. split_and!; try done.
  destruct Hci as [Hn Hr]. split.
  - intros v Hv. eapply new_ok_mono; [exact Hh2|reflexivity|auto].
  - intros id Hid Hno. eapply removed_ok_mono; [exact Hh2|reflexivity|auto].
Qed.

(** The redirects resolve after an update that validated them, or changed none. *)
Lemma update_redirects {V} `{OptionSpec V} old proj (oldValues newValues : list V) all h c :
  changes_ok old proj (index_by opt_Id oldValues) all newValues h c →
  (if ch_validateRedirects c
   then validateRedirects (index_by opt_Id newValues) (redirectMapOf newValues) else []) = [] →
  all_resolve oldValues → all_resolve newValues.
Proof.
  intros [Hnew Hrem] Hval Hold.
  destruct (ch_validateRedirects c) eqn:Hc; [by apply validateRedirects_resolve|].
  eapply all_resolve_transfer; [|exact Hold]. intros k.
  destruct (index_by opt_Id newValues !! k) as [v|] eqn:Hv.
  - pose proof (index_by_lookup_Some _ _ _ _ Hv) as [Hin Hid].
    destruct (Hnew v Hin) as [_ Hm]. rewrite Hid in Hm.
    destruct (index_by opt_Id oldValues !! k) as [w|]; [|destruct Hm as [_ ?]; congruence].
    simpl. f_equal. destruct Hm as [Hm _].
    destruct (decide (opt_Redirect w = opt_Redirect v)); [done|].
    specialize (Hm ltac:(done)). congruence.
  - destruct (index_by opt_Id oldValues !! k) as [w|] eqn:Hw; [|done].
    destruct (Hrem k) as [Ht _]; [by rewrite Hw|done|congruence].
Qed.

Lemma update_ports old new h c :
  changes_ok old fst (index_by opt_Id (wsk_ImageValues old))
    (negb (bool_decide (kpt_Ports (wsk_PodTemplate new) = kpt_Ports (wsk_PodTemplate old))))
    (wsk_ImageValues new) h c →
  concat ((λ id, match index_by opt_Id (wsk_ImageValues new) !! id with
                 | Some v => validateImageConfigValue v (imageConfigValuePath id) (portsIdMap new)
                 | None => []
                 end) <$> range_keys "toValidate" (ch_toValidate c)) = [] →
  (∀ id v, index_by icv_Id (wsk_ImageValues old) !! id = Some v → ports_ok old v) →
  ∀ id v, index_by icv_Id (wsk_ImageValues new) !! id = Some v → ports_ok new v.
Proof.
  intros [Hnew _] Hval Hold id v Hv. rewrite concat_map_nil in Hval.
  assert (Hdone : id ∈ ch_toValidate c → ports_ok new v).
  { intros Hid. apply (validateImageConfigValue_iff new v (imageConfigValuePath id)).
    specialize (Hval id). change (index_by icv_Id (wsk_ImageValues new) !! id)
      with (index_by opt_Id (wsk_ImageValues new) !! id) in Hv.
    rewrite Hv in Hval. by apply Hval, elem_of_range_keys. }
  pose proof (index_by_lookup_Some _ _ _ _ Hv) as [Hin Hid].
  destruct (Hnew v Hin) as [Hall Hm]. simpl opt_Id in *. rewrite Hid in *.
  destruct (bool_decide _) eqn:Hports in Hall; [apply bool_decide_eq_true in Hports|auto].
  destruct (index_by icv_Id (wsk_ImageValues old) !! id) as [w|] eqn:Hw; [|by apply Hdone, Hm].
  destruct Hm as [_ Hspec]. simpl in Hspec.
  destruct (decide (icv_Spec w = icv_Spec v)) as [Heq|]; [|by apply Hdone, Hspec].
  specialize (Hold _ _ Hw). unfold ports_ok in *. by rewrite <-Heq, Hports.
Qed.

Lemma unchanged_or_checked {A} `{EqDecision A} (x y : A) (errs : list field_error) :
  (if negb (bool_decide (x = y)) then errs else []) = [] → x = y ∨ errs = [].
Proof. case_bool_decide; auto. Qed.

(** Each part is unchanged or was checked. *)
Lemma update_parts old new :
  (updatePartErrors old new).1 = [] →
  let oldT := wsk_PodTemplate old in
  let newT := wsk_PodTemplate new in
  (kpt_PodMetadata newT = kpt_PodMetadata oldT ∨ kindValidatePodMetadata new = []) ∧
  (kpt_StatefulSetMetadata newT = kpt_StatefulSetMetadata oldT ∨
     validatePodTemplateStatefulSetMetadata new = []) ∧
  (kpt_ExtraEnv newT = kpt_ExtraEnv oldT ∨ validateExtraEnv new = []) ∧
  (kpt_Ports newT = kpt_Ports oldT ∨ validateRequestHeaders new = []) ∧
  (kspec_FilterRules (wsk_Spec new) = kspec_FilterRules (wsk_Spec old) ∨
     validateFilterRules new = []) ∧
  ((kpt_Ports newT = kpt_Ports oldT ∧ kpt_ActivityProbe newT = kpt_ActivityProbe oldT) ∨
     validateActivityProbe (kpt_ActivityProbe newT)
       (NewPath ["spec"; "podTemplate"; "activityProbe"]) (portsIdMap new) = []) ∧
  ((kspec_ActivityRules (wsk_Spec new) = kspec_ActivityRules (wsk_Spec old) ∧
      kpt_ActivityProbe newT = kpt_ActivityProbe oldT) ∨
     (validateActivityRules new).1 = []).
Proof.
  intros Herr. cbv zeta. unfold updatePartErrors in Herr.
  destruct (if _ || _ then validateActivityRules new else ([], [])) as [re rw] eqn:Hrules.
  simpl in Herr. rewrite !app_nil in Herr. destruct Herr as (H1' & H2' & H3' & H4' & H5' & H6' & ->).
  split_and!; try by apply unchanged_or_checked.
  - revert H6'. clear. repeat case_bool_decide; simpl; intros; [by left|by right..].
  - revert Hrules. clear. repeat case_bool_decide; simpl; intros E;
      [by left|right; by rewrite E..].
Qed.

Lemma update_preserves old new h ws :
  KindValid old → runs (WorkspaceKindValidator_ValidateUpdate old new) h (ws, None) →
  KindValid new.
Proof.
  intros Hv Hr. pose proof (update_sat old new) as Hs. rewrite sat_runs in Hs.
  destruct (Hs _ _ Hr eq_refl) as (ci & cp & Hpart & Hopt & Hci & Hcp). clear Hs Hr.
  unfold updateOptionErrors in Hopt. rewrite !app_nil in Hopt.
  destruct Hopt as (Hdi & Hdp & Hports & _ & _ & Hri & Hrp).
  apply update_parts in Hpart as (Hpm & Hsm & Hee & Hrh & Hfr & Hap & Har).
  rewrite validateExtraEnv_iff in Hee. rewrite validateRequestHeaders_iff in Hrh.
  rewrite validateFilterRules_iff in Hfr. rewrite validateActivityProbe_iff in Hap.
  rewrite validateActivityRules_iff in Har.
  assert (Hfilter : Forall filter_rule_ok (kspec_FilterRules (wsk_Spec new)) ∧
    filter_selectors_ok new).
  { destruct Hfr as [Heq|?]; [|done]. unfold filter_selectors_ok. rewrite Heq.
    split; apply Hv. }
  assert (Hrules : (∀ i r, kspec_ActivityRules (wsk_Spec new) !! i = Some r →
     selectors_ok (Child (Index (NewPath ["spec"; "activityRules"]) i) ["match"]) r) ∧
     rules_ok new).
  { destruct Har as [[Heq Hpr]|?]; [|done]. unfold rules_ok. rewrite Heq, Hpr.
    split; apply Hv. }
  constructor.
  - destruct Hpm as [Heq|?]; [|done]. unfold kindValidatePodMetadata. rewrite Heq. apply Hv.
  - destruct Hsm as [Heq|?]; [|done]. unfold validatePodTemplateStatefulSetMetadata.
    rewrite Heq. apply Hv.
  - destruct Hee as [Heq|?]; [|done]. rewrite Heq. apply Hv.
  - destruct Hrh as [Heq|?]; [|done]. rewrite Heq. apply Hv.
  - apply Hfilter.
  - apply Hfilter.
  - destruct Hap as [[Heq Hpr]|?]; [|done]. unfold probe_ok. rewrite Heq, Hpr. apply Hv.
  - by apply (proj1 (validateDefaultOption_iff _ (wsk_ImageValues new)) Hdi).
  - by apply (proj1 (validateDefaultOption_iff _ (wsk_PodValues new)) Hdp).
  - eapply update_ports; [exact Hci|exact Hports|apply Hv].
  - eapply update_redirects; [exact Hci|exact Hri|apply Hv].
  - eapply update_redirects; [exact Hcp|exact Hrp|apply Hv].
  - apply Hrules.
  - apply Hrules.
Qed.

(** Every old option that is gone or has another spec counted no user. *)
Lemma update_unused {V} `{OptionSpec V} old proj (oldValues newValues : list V) all h c id v :
  changes_ok old proj (index_by opt_Id oldValues) all newValues h c →
  badErrors (V := V) c = [] →
  index_by opt_Id oldValues !! id = Some v →
  (∀ v', index_by opt_Id newValues !! id = Some v' → opt_Spec v' ≠ opt_Spec v) →
  zeroUsage old proj h id.
Proof.
  intros [Hnew Hrem] [Hbc Hbr]%badErrors_nil Hv Hno.
  destruct (index_by opt_Id newValues !! id) as [v'|] eqn:Hv'.
  - pose proof (index_by_lookup_Some _ _ _ _ Hv') as [Hin Hid].
    destruct (Hnew _ Hin) as [_ Hm]. rewrite Hid, Hv in Hm. destruct Hm as [_ Hm].
    destruct (Hm (not_eq_sym (Hno _ eq_refl))) as [_ [Hb|?]]; [set_solver|done].
  - destruct (Hrem id) as [_ [Hb|?]]; [by rewrite Hv|done|set_solver|done].
Qed.

(** The Workspaces the API server listed, none of which selects [id]. *)
Definition unused_in (old : WorkspaceKind) (h : list event) (selected : Workspace → string)
    (id : string) : Prop :=
  ∃ wss, Ev (workspacesOfKind old) (inl wss) ∈ h ∧ ∀ w, w ∈ wss → selected w ≠ id.

Lemma zeroUsage_unused old h id :
  (∀ wss, Ev (workspacesOfKind old) (inl wss) ∈ h → (Z.of_nat (length wss) < 2 ^ 31)%Z) →
  (zeroUsage old fst h id → unused_in old h (λ w, wpo_ImageConfig (ws_Options w)) id) ∧
  (zeroUsage old snd h id → unused_in old h (λ w, wpo_PodConfig (ws_Options w)) id).
Proof.
  intros Hlen. split; intros (wss & n & Hin & Hn & Hz); exists wss; (split; [done|]);
    (eapply usageCounts_unused; [exact Hn|exact Hz|by apply Hlen]).
Qed.

Lemma update_protects old new h warnings :
  (∀ wss, Ev (workspacesOfKind old) (inl wss) ∈ h → (Z.of_nat (length wss) < 2 ^ 31)%Z) →
  runs (WorkspaceKindValidator_ValidateUpdate old new) h (warnings, None) →
  (∀ id v, index_by icv_Id (wsk_ImageValues old) !! id = Some v →
     (∀ v', index_by icv_Id (wsk_ImageValues new) !! id = Some v' → icv_Spec v' ≠ icv_Spec v) →
     unused_in old h (λ w, wpo_ImageConfig (ws_Options w)) id) ∧
  (∀ id v, index_by pcv_Id (wsk_PodValues old) !! id = Some v →
     (∀ v', index_by pcv_Id (wsk_PodValues new) !! id = Some v' → pcv_Spec v' ≠ pcv_Spec v) →
     unused_in old h (λ w, wpo_PodConfig (ws_Options w)) id).
Proof.
  intros Hlen Hr. pose proof (update_sat old new) as Hs. rewrite sat_runs in Hs.
  destruct (Hs _ _ Hr eq_refl) as (ci & cp & _ & Hopt & Hci & Hcp).
  unfold updateOptionErrors in Hopt. rewrite !app_nil in Hopt.
  destruct Hopt as (_ & _ & _ & Hbi & Hbp & _).
  split; intros id v Hv Hno; apply zeroUsage_unused; try done.
  - by eapply (update_unused (V := ImageConfigValue)).
  - by eapply (update_unused (V := PodConfigValue)).
Qed.

(** An option selected by a listed Workspace is kept with its spec. *)
Lemma kept_option {V} `{OptionSpec V} old (oldValues newValues : list V) h selected w id v :
  index_by opt_Id oldValues !! id = Some v → selected w = id →
  (∀ wss, Ev (workspacesOfKind old) (inl wss) ∈ h → w ∈ wss) →
  ((∀ v', index_by opt_Id newValues !! id = Some v' → opt_Spec v' ≠ opt_Spec v) →
     unused_in old h selected id) →
  ∃ v', index_by opt_Id newValues !! id = Some v' ∧ opt_Spec v' = opt_Spec v.
Proof.
  intros Hv Hsel Hlist Hun.
  assert (Hno : ¬ unused_in old h selected id).
  { intros (wss & Hin & Hne). by apply (Hne w); [apply Hlist|]. }
  destruct (index_by opt_Id newValues !! id) as [v'|] eqn:Hv'.
  - destruct (decide (opt_Spec v' = opt_Spec v)) as [?|Hne]; [by exists v'|].
    destruct Hno. apply Hun. by intros ? [= <-].
  - destruct Hno. apply Hun. by intros ? [=].
Qed.
End update_spec.

(** ** Workspaces against valid kinds *)

Section admitted.
Context `{ValidationLib} `{TemplateLib}.

Lemma selected_resolves {V} `{OptionValue V} (values : list V) id :
  all_resolve values → (∃ v, v ∈ values ∧ opt_Id v = id) →
  ∃ cur out, resolveOption values id = Ok (cur, out) ∧ index_by opt_Id values !! id = Some cur.
Proof.
  intros Hall Hex. apply index_by_is_Some in Hex as [cur Hcur].
  destruct (Hall _ _ Hcur) as (steps & d & Hres). eexists cur, _. split; [|done].
  apply resolveOption_Ok. eauto.
Qed.

Lemma validateSelectedOption_iff {V} `{OptionValue V} id (values : list V) wk :
  validateSelectedOption id values wk = [] ↔ ∃ v, v ∈ values ∧ opt_Id v = id.
Proof.
  unfold validateSelectedOption. destruct (existsb _ _) eqn:Hex.
  - split; [|done]. intros _. apply existsb_exists in Hex as (v & Hv & Hid%bool_decide_eq_true).
    exists v. by rewrite list_elem_of_In.
  - split; [done|]. intros (v & Hv & Hid). apply existsb_false in Hex.
    rewrite Forall_forall in Hex. apply Hex, bool_decide_eq_false in Hv. congruence.
Qed.

(** The options of the Workspace resolve. *)
Definition options_resolve (w : Workspace) (wk : WorkspaceKind) : Prop :=
  ∃ ri rp, getImageConfig w wk = Ok ri ∧ getPodConfig w wk = Ok rp.

Lemma options_resolve_valid w wk :
  all_resolve (wsk_ImageValues wk) → all_resolve (wsk_PodValues wk) →
  (∃ v, v ∈ wsk_ImageValues wk ∧ icv_Id v = wpo_ImageConfig (ws_Options w)) →
  (∃ v, v ∈ wsk_PodValues wk ∧ pcv_Id v = wpo_PodConfig (ws_Options w)) →
  options_resolve w wk.
Proof.
  intros Hi Hp Hei Hep.
  destruct (selected_resolves _ _ Hi Hei) as (ci & oi & Hci & _).
  destruct (selected_resolves _ _ Hp Hep) as (cp & op & Hcp & _).
  by exists (ci, oi), (cp, op).
Qed.
End admitted.

(** ** Properties *)

Section properties.
Context `{ValidationLib} `{TemplateLib} `{MapOrderLaws}.

(** Validation of redirects reports no error exactly when no option can reach
    itself through redirects and every redirect leads to an existing option; this
    holds for every order in which the map of redirects is visited, although nodes
    already checked are skipped and the loop stops at the first cycle. *)
Theorem validateRedirects_decides {V} `{OptionValue V} (idMap : gmap string V) edges :
  validateRedirects idMap edges = [] ↔
  (∀ x, ¬ tc (edge edges) x x) ∧ ∀ x y, edge edges x y → is_Some (idMap !! y).
Proof.
  rewrite validateRedirects_iff. apply and_iff; [|done].
  setoid_rewrite ends_iff_acyclic. split; [|naive_solver].
  intros Hall x. by apply (Hall x x).
Qed.

(** C21: A WorkspaceKind whose option ids are distinct is admitted exactly when it is
    valid: templates render, filter rules have an effect and only match what their
    scope allows, the probe's shebang and port are well-formed, default options
    exist, image ports are distinct and declared, every option resolves through its
    redirects, no pause rule follows a catch-all one, and pausing comes with a
    probe. *)
Theorem kind_create_decides wk :
  NoDup (icv_Id <$> wsk_ImageValues wk) → NoDup (pcv_Id <$> wsk_PodValues wk) →
  (WorkspaceKindValidator_ValidateCreate wk).2 = None ↔ KindValid wk.
Proof. intros Hi Hp. split; [apply create_sound|by apply create_complete]. Qed.

(** C14: Validity of WorkspaceKinds is an invariant: although an update checks only
    what it sees changed, an update of a valid WorkspaceKind that is admitted yields
    a valid WorkspaceKind, whatever the API server answers meanwhile. *)
Theorem kind_update_preserves old new h warnings :
  KindValid old →
  runs (WorkspaceKindValidator_ValidateUpdate old new) h (warnings, None) →
  KindValid new.
Proof. apply update_preserves. Qed.

(** C16: An admitted update changes the spec of an option, or removes it, only if the
    API server was asked for the Workspaces of the kind in all namespaces and
    answered with a list in which none selects that option (lists shorter than
    2^31, the range of the counters). *)
Theorem kind_update_protects_used old new h warnings :
  (∀ wss, Ev (workspacesOfKind old) (inl wss) ∈ h → (Z.of_nat (length wss) < 2 ^ 31)%Z) →
  runs (WorkspaceKindValidator_ValidateUpdate old new) h (warnings, None) →
  (∀ id v, index_by icv_Id (wsk_ImageValues old) !! id = Some v →
     (∀ v', index_by icv_Id (wsk_ImageValues new) !! id = Some v' → icv_Spec v' ≠ icv_Spec v) →
     unused_in old h (λ w, wpo_ImageConfig (ws_Options w)) id) ∧
  (∀ id v, index_by pcv_Id (wsk_PodValues old) !! id = Some v →
     (∀ v', index_by pcv_Id (wsk_PodValues new) !! id = Some v' → pcv_Spec v' ≠ pcv_Spec v) →
     unused_in old h (λ w, wpo_PodConfig (ws_Options w)) id).
Proof. apply update_protects. Qed.

(** C40: The creation of a Workspace is admitted only after reading its WorkspaceKind
    and only if both options it selects exist there, whatever kind that is; if the
    kind is also valid, the controller resolves both options. *)
Theorem admitted_workspace_resolves w h warnings :
  runs (WorkspaceValidator_ValidateCreate w) h (warnings, None) →
  ∃ wk, h = [Ev (Get KWorkspaceKind "" (wsSpec_Kind (ws_Spec w))) (inl wk)] ∧
    (∃ v, v ∈ wsk_ImageValues wk ∧ icv_Id v = wpo_ImageConfig (ws_Options w)) ∧
    (∃ v, v ∈ wsk_PodValues wk ∧ pcv_Id v = wpo_PodConfig (ws_Options w)) ∧
    (KindValid wk → options_resolve w wk).
Proof.
  intros (r & h' & -> & Hr). destruct r as [wk|err]; simpl in Hr.
  2: { destruct (IsNotFound err); by destruct Hr as [_ [=]]. }
  destruct Hr as [-> Hr]. exists wk. split; [done|].
  assert (Herr : (verdict "Workspace" (ws_Name w) []
    (validatePodTemplatePodMetadata w ++ validateImageConfig w wk ++ validatePodConfig w wk)).2
    = None) by by rewrite Hr.
  rewrite verdict_ok, !app_nil in Herr. unfold validateImageConfig, validatePodConfig in Herr.
  rewrite !validateSelectedOption_iff in Herr. destruct Herr as (_ & Hi & Hp).
  split_and!; [exact Hi|exact Hp|]. intros Hv.
  by apply options_resolve_valid; try apply Hv.
Qed.

(** C15: A Workspace in use survives every admitted update of its valid
    WorkspaceKind: if it selects options of the old kind and the API server lists
    it, its options still resolve in the new kind, and the specs of the selected
    options are the ones it was created with. *)
Theorem kind_update_keeps_workspaces old new h warnings w ci oi cp op :
  KindValid old →
  (∀ wss, Ev (workspacesOfKind old) (inl wss) ∈ h →
     w ∈ wss ∧ (Z.of_nat (length wss) < 2 ^ 31)%Z) →
  runs (WorkspaceKindValidator_ValidateUpdate old new) h (warnings, None) →
  getImageConfig w old = Ok (ci, oi) → getPodConfig w old = Ok (cp, op) →
  ∃ ci' oi' cp' op',
    getImageConfig w new = Ok (ci', oi') ∧ getPodConfig w new = Ok (cp', op') ∧
    icv_Spec ci' = icv_Spec ci ∧ pcv_Spec cp' = pcv_Spec cp.
Proof.
  intros Hv Hlist Hr Hi Hp. pose proof (update_preserves _ _ _ _ Hv Hr) as Hnew.
  destruct (update_protects _ _ _ _ (λ wss Hin, proj2 (Hlist wss Hin)) Hr) as [Hui Hup].
  apply resolveOption_Ok in Hi as [Hci _]. apply resolveOption_Ok in Hp as [Hcp _].
  assert (Hin : ∀ wss, Ev (workspacesOfKind old) (inl wss) ∈ h → w ∈ wss) by (intros; by apply Hlist).
  destruct (kept_option old (wsk_ImageValues old) (wsk_ImageValues new) h
    (λ w, wpo_ImageConfig (ws_Options w)) w _ ci Hci eq_refl Hin)
    as (ci' & Hci' & Hsi); [exact (Hui _ _ Hci)|].
  destruct (kept_option old (wsk_PodValues old) (wsk_PodValues new) h
    (λ w, wpo_PodConfig (ws_Options w)) w _ cp Hcp eq_refl Hin)
    as (cp' & Hcp' & Hsp); [exact (Hup _ _ Hcp)|].
  destruct (selected_resolves (wsk_ImageValues new) (wpo_ImageConfig (ws_Options w)))
    as (c1 & o1 & Hr1 & E1); [apply Hnew|by apply index_by_is_Some; exists ci'|].
  destruct (selected_resolves (wsk_PodValues new) (wpo_PodConfig (ws_Options w)))
    as (c2 & o2 & Hr2 & E2); [apply Hnew|by apply index_by_is_Some; exists cp'|].
  rewrite E1 in Hci'. rewrite E2 in Hcp'. injection Hci' as <-. injection Hcp' as <-.
  by exists c1, o1, c2, o2.
Qed.
End properties.

(** ** Witnesses *)

(** A kind in which an image is replaced by another one. *)
Definition exKindRedirect : WorkspaceKind :=
  exKind [exImage "old" (Some "img") exPorts; exImage "img" None exPorts]
    [exPodConfig "pod" None] None [].

(** Its update: the old image, which no Workspace uses any more, is removed, and
    another one is added. *)
Definition exKindUpdated : WorkspaceKind :=
  exKind [exImage "img" (Some "new") exPorts; exImage "new" None exPorts]
    [exPodConfig "pod" None] None [].

Definition exHistory : list event :=
  [Ev (workspacesOfKind exKindRedirect) (inl [exWorkspaceRunning])].

Lemma exKind_valid (wk : WorkspaceKind) :
  (WorkspaceKindValidator_ValidateCreate (H := exampleValidation) (H0 := exampleTemplates)
     (H1 := canonicalOrder) wk).2 = None →
  KindValid (H := exampleValidation) (H0 := exampleTemplates) wk.
Proof.
  exact (create_sound (H := exampleValidation) (H0 := exampleTemplates)
    (H1 := canonicalOrder) wk).
Defined.

(** An API server that lists one Workspace. *)
Definition exListEnv : handler () := λ X q s,
  (match q in req X return X → X with
   | List KWorkspace _ => λ _, inl [exWorkspaceRunning]
   | _ => λ x, x
   end (exEnv 0 (mkExecOutcome [] None) X q s).1, s).

Lemma exUpdate_runs :
  runs (WorkspaceKindValidator_ValidateUpdate (H := exampleValidation) (H0 := exampleTemplates)
          (H1 := canonicalOrder) exKindRedirect exKindUpdated) exHistory ([], None).
Proof.
  pose proof (interp_runs exListEnv (WorkspaceKindValidator_ValidateUpdate
    (H := exampleValidation) (H0 := exampleTemplates) (H1 := canonicalOrder)
    exKindRedirect exKindUpdated) ()) as Hr.
  assert (trace exListEnv (WorkspaceKindValidator_ValidateUpdate
    (H := exampleValidation) (H0 := exampleTemplates) (H1 := canonicalOrder)
    exKindRedirect exKindUpdated) () = exHistory) as E1 by (vm_compute; reflexivity).
  assert ((interp exListEnv (WorkspaceKindValidator_ValidateUpdate
    (H := exampleValidation) (H0 := exampleTemplates) (H1 := canonicalOrder)
    exKindRedirect exKindUpdated) ()).1 = ([], None)) as E2 by (vm_compute; reflexivity).
  rewrite E1, E2 in Hr. exact Hr.
Qed.

(** A dangling redirect is found in the redirects of two options. *)
Lemma validateRedirects_decides_witness :
  let edges : gmap string string := {["old" := "img"; "img" := "gone"]} in
  validateRedirects (H1 := canonicalOrder)
    (index_by opt_Id [exImage "old" (Some "img") []; exImage "img" (Some "gone") []]) edges ≠ [] ∧
  ¬ ((∀ x, ¬ tc (edge edges) x x) ∧
     ∀ x y, edge edges x y → is_Some (index_by opt_Id
       [exImage "old" (Some "img") []; exImage "img" (Some "gone") []] !! y)).
Proof.
  intros edges. split; [vm_compute; discriminate|].
  intros Hok%(validateRedirects_decides (H1 := canonicalOrder)).
  vm_compute in Hok. discriminate.
Defined.

Lemma kind_create_decides_witness :
  KindValid (H := exampleValidation) (H0 := exampleTemplates) exKindRedirect.
Proof.
  apply (kind_create_decides (H := exampleValidation) (H0 := exampleTemplates)
    (H1 := canonicalOrder) exKindRedirect).
  - refine (bool_decide_eq_true_1 _ _). vm_compute. reflexivity.
  - refine (bool_decide_eq_true_1 _ _). vm_compute. reflexivity.
  - vm_compute. reflexivity.
Defined.

Lemma kind_update_preserves_witness :
  KindValid (H := exampleValidation) (H0 := exampleTemplates) exKindUpdated.
Proof.
  apply (kind_update_preserves (H := exampleValidation) (H0 := exampleTemplates)
    (H1 := canonicalOrder) exKindRedirect exKindUpdated exHistory []).
  - apply exKind_valid. vm_compute. reflexivity.
  - apply exUpdate_runs.
Defined.

Lemma exHistory_list wss :
  Ev (workspacesOfKind exKindRedirect) (inl wss) ∈ exHistory → wss = [exWorkspaceRunning].
Proof.
  intros Heq%list_elem_of_singleton.
  apply (f_equal (λ e, match e with
    | @Ev X q x => match q in req X return X → list Workspace with
                   | List KWorkspace _ => λ x, match x with inl l => l | inr _ => [] end
                   | _ => λ _, []
                   end x
    end)) in Heq. exact Heq.
Qed.

Lemma kind_update_protects_used_witness :
  unused_in exKindRedirect exHistory (λ w, wpo_ImageConfig (ws_Options w)) "old".
Proof.
  destruct (kind_update_protects_used (H := exampleValidation) (H0 := exampleTemplates)
    (H1 := canonicalOrder) exKindRedirect exKindUpdated exHistory []) as [Himg _].
  - intros wss ->%exHistory_list. vm_compute. reflexivity.
  - apply exUpdate_runs.
  - apply (Himg "old" (exImage "old" (Some "img") exPorts)); [vm_compute; reflexivity|].
    intros v' Hv'. vm_compute in Hv'. discriminate.
Defined.

Lemma admitted_workspace_resolves_witness :
  options_resolve exWorkspaceRunning exKindRedirect.
Proof.
  destruct (admitted_workspace_resolves (H := exampleValidation) (H0 := exampleTemplates)
    exWorkspaceRunning [Ev (Get KWorkspaceKind "" "jupyterlab") (inl exKindRedirect)] [])
    as (wk & Heq & Hres).
  - eexists _, []. split; [reflexivity|]. split; vm_compute; reflexivity.
  - assert (wk = exKindRedirect) as ->.
    { apply (f_equal (λ h, match h with
        | @Ev X q x :: _ => match q in req X return X → option WorkspaceKind with
                            | Get KWorkspaceKind _ _ =>
                                λ x, match x with inl k => Some k | inr _ => None end
                            | _ => λ _, None
                            end x
        | [] => None
        end)) in Heq. simpl in Heq. congruence. }
    apply (proj2 (proj2 Hres)), exKind_valid. vm_compute. reflexivity.
Defined.

Lemma kind_update_keeps_workspaces_witness :
  ∃ ci' oi' cp' op',
    getImageConfig exWorkspaceRunning exKindUpdated = Ok (ci', oi') ∧
    getPodConfig exWorkspaceRunning exKindUpdated = Ok (cp', op') ∧
    icv_Spec ci' = icv_Spec (exImage "img" None exPorts) ∧
    pcv_Spec cp' = pcv_Spec (exPodConfig "pod" None).
Proof.
  eapply (kind_update_keeps_workspaces (H := exampleValidation) (H0 := exampleTemplates)
    (H1 := canonicalOrder) exKindRedirect exKindUpdated exHistory []).
  - apply exKind_valid. vm_compute. reflexivity.
  - intros wss ->%exHistory_list. split; [set_solver|vm_compute; reflexivity].
  - apply exUpdate_runs.
  - vm_compute. reflexivity.
  - vm_compute. reflexivity.
Defined.
