(* ===== verification/Owned.v ===== *)
(** * Resources owned by a Workspace ([workspace_controller.go])

    The steps the reconciler repeats for every kind of owned resource: setting the
    controller reference, listing what the Workspace owns, and then creating the
    only one, updating it, or reporting that there are several; and the early
    update of the Workspace's state.  Setting controller references is
    controller-runtime's ([OwnerLib]). *)

From Stdlib Require Import ZArith.
From stdpp Require Import base gmap strings list.
From S2P Require Import Prelude K8sTypes ApiTypes CopyFields Client.

(** ** Metadata of an object of any kind *)

(** Events and pod metrics are read without their metadata. *)
Definition obj_Meta (k : kind) : obj k → ObjectMeta :=
  match k with
  | KWorkspace => ws_Meta | KWorkspaceKind => wsk_Meta | KStatefulSet => sts_Meta
  | KService => svc_Meta | KServiceAccount => sa_Meta | KRoleBinding => rb_Meta
  | KClusterRoleBinding => crb_Meta | KConfigMap => cm_Meta | KVirtualService => vs_Meta
  | KHTTPRoute => hr_Meta | KReferenceGrant => rg_Meta | KPod => pod_Meta
  | KEvent => λ _, emptyMeta | KNamespace => nsObj_Meta
  | KSecret => secret_Meta | KSecretMetadata => pom_Meta
  | KPersistentVolumeClaim => pvc_Meta | KPersistentVolume => pv_Meta
  | KStorageClass => sc_Meta | KPodMetrics => λ _, emptyMeta
  end.

Definition obj_Name (k : kind) (o : obj k) : string := meta_Name (obj_Meta k o).

(** The kinds a controller reference is set on. *)
Definition obj_setMeta (k : kind) : obj k → ObjectMeta → obj k :=
  match k with
  | KStatefulSet => λ o m, mkStatefulSet m (sts_Spec o)
  | KService => λ o m, mkService m (svc_Spec o)
  | KServiceAccount => λ _ m, mkServiceAccount m
  | KRoleBinding => λ o m, mkRoleBinding m (rb_RoleRef o) (rb_Subjects o)
  | KConfigMap => λ o m, mkConfigMap m (cm_Data o) (cm_BinaryData o)
  | KVirtualService => λ o m, mkVirtualService m (vs_Spec o)
  | KReferenceGrant => λ o m, mkReferenceGrant m (rg_Spec o)
  | _ => λ o _, o
  end.

(** ** Controller references *)

(** [controllerutil.SetControllerReference] and [metav1.IsControlledBy]. *)
Class OwnerLib := {
  SetControllerReference : Workspace → ObjectMeta → ObjectMeta + error;
  IsControlledBy : ObjectMeta → Workspace → bool;
}.

(** Setting a controller reference changes the owner references only. *)
Class OwnerLibLaws `{OwnerLib} : Prop :=
  set_owners_only w m m' :
    SetControllerReference w m = inl m' → ∃ owners, m' = setOwners m owners.

Section owned.
Context `{OwnerLib}.

(** [if err := ctrl.SetControllerReference(...); err != nil { return ctrl.Result{}, err }]. *)
Definition setController (workspace : Workspace) (k : kind) (o : obj k) : prog (flow (obj k)) :=
  match SetControllerReference workspace (obj_Meta k o) with
  | inl m => Ret (Next (obj_setMeta k o m))
  | inr err => Ret (Return (Done emptyResult (Some err)))
  end.
End owned.

(** ** Early status updates *)

Definition updateWorkspaceState (workspace : Workspace) (state : WorkspaceState)
    (message : string) : prog outcome :=
  if bool_decide (st_State (ws_Status workspace) = state)
     && bool_decide (st_StateMessage (ws_Status workspace) = message)
  then Ret (Done emptyResult None)
  else
    r <-- call (UpdateStatus KWorkspace
           (ws_setStatus workspace (st_setState (ws_Status workspace) state message))) ;;
    Ret (Done emptyResult (match r with inl _ => None | inr err => Some err end)).

(** [return r.updateWorkspaceState(ctx, log, workspace, WorkspaceStateError, message)]. *)
Definition fail {A} (workspace : Workspace) (message : string) : prog (flow A) :=
  o <-- updateWorkspaceState workspace WorkspaceStateError message ;;
  Ret (Return o).

(** A fallible pure step whose error is reported in the state. *)
Definition or_fail {A} (g : go A) (workspace : Workspace) (message : error → string)
    : prog (flow A) :=
  match g with
  | Ok a => Ret (Next a)
  | Err e => fail workspace (message e)
  | Panic w => Ret (Return (Crashed w))
  end.

(** A pure step that returns no error. *)
Definition or_panic {A} (g : go A) : prog (flow A) :=
  match g with
  | Ok a => Ret (Next a)
  | Err e => Ret (Return (Done emptyResult (Some e)))
  | Panic w => Ret (Return (Crashed w))
  end.

(** ** Listing and reconciling *)

Definition IndexWorkspaceOwnerField : string := ".metadata.controller".

Definition ownedListOptions (workspaceName namespace : string) : ListOptions :=
  mkListOptions (Some (IndexWorkspaceOwnerField, workspaceName)) ∅ namespace.

(** [r.List] of the objects of one kind that the Workspace owns. *)
Definition listOwned (k : kind) (workspaceName namespace : string) : prog (flow (list (obj k))) :=
  r <-- call (List k (ownedListOptions workspaceName namespace)) ;;
  or_return r.

(** What a conflicting update makes the reconciler return: an error, or
    [Requeue: true]. *)
Inductive on_conflict := ConflictIsError | ConflictRequeues.

(** [r.Update] of a found object. *)
Definition updateFound (k : kind) (policy : on_conflict) (o : obj k) : prog (flow (obj k)) :=
  r <-- call (Update k o) ;;
  Ret match r with
      | inl o => Next o
      | inr err =>
        match policy with
        | ConflictIsError => Return (Done emptyResult (Some err))
        | ConflictRequeues =>
          if IsConflict err then Return (Done requeue None)
          else Return (Done emptyResult (Some err))
        end
      end.

(** The [switch] on the number of owned objects: with none, [create]; with one, copy
    the desired fields and update if that changes it; with several, report it.  The
    result is the object's name, read before an update, and the object as the API
    server returned it. *)
Definition reconcileOwned (k : kind) (policy : on_conflict)
    (copy : obj k → obj k → go (obj k * bool)) (multiple : string → string)
    (create : obj k → prog (flow (obj k)))
    (workspace : Workspace) (items : list (obj k)) (desired : obj k)
    : prog (flow (string * obj k)) :=
  match items with
  | [] => created <~ create desired ;; Ret (Next (obj_Name k created, created))
  | [item] =>
    ' (found, changed) <~ or_panic (copy desired item) ;;
    if changed : bool
    then found <~ updateFound k policy found ;; Ret (Next (obj_Name k item, found))
    else Ret (Next (obj_Name k item, found))
  | _ => fail workspace (multiple (str_join ", " (obj_Name k <$> items)))
  end.

(** [r.Create], any error returned. *)
Definition createOwned (k : kind) (o : obj k) : prog (flow (obj k)) :=
  r <-- call (Create k o) ;; or_return r.

(** Fetch by name; create when missing (an [AlreadyExists] may be ignored, and then
    the object sent stands in for the result), else [found]. *)
Definition ensureNamed (k : kind) (ignoreExists : bool) (namespace name : string)
    (desired : obj k) (found : obj k → prog (flow ())) : prog (flow ()) :=
  r <-- call (Get k namespace name) ;;
  match r with
  | inl o => found o
  | inr err =>
    if IsNotFound err then
      c <-- call (Create k desired) ;;
      Ret match c with
          | inl _ => Next ()
          | inr err => if ignoreExists && IsAlreadyExists err then Next ()
                       else Return (Done emptyResult (Some err))
          end
    else Ret (Return (Done emptyResult (Some err)))
  end.

(** Copy the desired fields into a found object and update it if that changes it. *)
Definition updateIfChanged (k : kind) (policy : on_conflict)
    (copy : obj k → obj k → go (obj k * bool)) (desired found : obj k) : prog (flow ()) :=
  ' (found, changed) <~ or_panic (copy desired found) ;;
  if changed : bool then _ <~ updateFound k policy found ;; Ret (Next ())
  else Ret (Next ()).
