(* ===== verification/RoleBindings.v ===== *)
(** * RoleBindings of a Workspace ([reconcileRoleBindings])

    The Workspace owns one RoleBinding per ClusterRole of its WorkspaceKind.  The
    function lists the owned ones, updates or deletes each, and creates the missing
    ones, in an unspecified order. *)

From Stdlib Require Import ZArith.
From stdpp Require Import base gmap strings list fin_maps.
From S2P Require Import Prelude K8sTypes ApiTypes Names CopyFields Client Examples Generate Owned.

Definition rb_Name (rb : RoleBinding) : string := meta_Name (rb_Meta rb).

Section role_bindings.
Context `{OwnerLib} `{MapOrder}.

(** The loop that builds [desiredRoleBindings]. *)
Fixpoint desiredRoleBindings (workspace : Workspace) (serviceAccountName : string)
    (clusterRoles : list WorkspaceKindClusterRole) (acc : gmap string RoleBinding)
    : go (gmap string RoleBinding) :=
  match clusterRoles with
  | [] => Ok acc
  | clusterRole :: rest =>
    let! roleBinding := generateRoleBinding workspace serviceAccountName (kcr_Name clusterRole) in
    match SetControllerReference workspace (rb_Meta roleBinding) with
    | inr err => Err err
    | inl m =>
      let roleBinding := obj_setMeta KRoleBinding roleBinding m in
      desiredRoleBindings workspace serviceAccountName rest
        (<[rb_Name roleBinding := roleBinding]> acc)
    end
  end.

(** The loop over the owned RoleBindings: the ones still to create, or an error. *)
Fixpoint pruneRoleBindings (desired : gmap string RoleBinding) (items : list RoleBinding)
    : prog (go (gmap string RoleBinding)) :=
  match items with
  | [] => Ret (Ok desired)
  | found :: rest =>
    let name := rb_Name found in
    let delete_it :=
      r <-- call (Delete KRoleBinding (meta_Namespace (rb_Meta found)) name) ;;
      match r with
      | inr err => if IsNotFound err then pruneRoleBindings desired rest else Ret (Err err)
      | inl _ => pruneRoleBindings desired rest
      end in
    match desired !! name with
    | Some d =>
      if bool_decide (rb_RoleRef found = rb_RoleRef d) then
        match CopyRoleBindingFields d found with
        | Ok (updated, true) =>
          r <-- call (Update KRoleBinding updated) ;;
          match r with
          | inr err => Ret (Err err)
          | inl _ => pruneRoleBindings (delete name desired) rest
          end
        | Ok (_, false) => pruneRoleBindings (delete name desired) rest
        | Err err => Ret (Err err)
        | Panic w => Ret (Panic w)
        end
      else delete_it
    | None => delete_it
    end
  end.

(** The loop that creates the missing ones. *)
Fixpoint createRoleBindings (todo : list (string * RoleBinding)) : prog (go ()) :=
  match todo with
  | [] => Ret (Ok ())
  | (_, rb) :: rest =>
    r <-- call (Create KRoleBinding rb) ;;
    match r with
    | inr err => Ret (Err err)
    | inl _ => createRoleBindings rest
    end
  end.

Definition clusterRolesOf (workspaceKind : WorkspaceKind) : list WorkspaceKindClusterRole :=
  match kpt_ServiceAccount (wsk_PodTemplate workspaceKind) with
  | None => []
  | Some sa => ksa_ClusterRoles sa
  end.

Definition reconcileRoleBindings (workspace : Workspace) (workspaceKind : WorkspaceKind)
    (serviceAccountName : string) : prog (go ()) :=
  match desiredRoleBindings workspace serviceAccountName (clusterRolesOf workspaceKind) ∅ with
  | Err err => Ret (Err err)
  | Panic w => Ret (Panic w)
  | Ok desired =>
    owned <-- call (List KRoleBinding
                     (ownedListOptions (ws_Name workspace) (ws_Namespace workspace))) ;;
    match owned with
    | inr err => Ret (Err err)
    | inl items =>
      rest <-- pruneRoleBindings desired items ;;
      match rest with
      | Err err => Ret (Err err)
      | Panic w => Ret (Panic w)
      | Ok desired => createRoleBindings (range "desiredRoleBindings" desired)
      end
    end
  end.
End role_bindings.

(** ** What a history of answers did to the RoleBindings *)

(** A successful write takes effect as it was sent; a deletion answered with
    NotFound has taken effect too.  The API server creates only what is not there, and never
    changes the role of what is. *)
Definition applyWrite (m : gmap string RoleBinding) (e : event) : gmap string RoleBinding :=
  match e with
  | Ev q x =>
    match q in req X return X → gmap string RoleBinding with
    | Create KRoleBinding o =>
        λ r, match r, m !! rb_Name o with inl _, None => <[rb_Name o := o]> m | _, _ => m end
    | Update KRoleBinding o =>
        λ r, match r, m !! rb_Name o with
             | inl _, Some stored =>
                 if bool_decide (rb_RoleRef stored = rb_RoleRef o) then <[rb_Name o := o]> m else m
             | _, _ => m
             end
    | Delete KRoleBinding _ name =>
        λ r, match r with
             | inl _ => delete name m
             | inr err => if IsNotFound err then delete name m else m
             end
    | _ => λ _, m
    end x
  end.

Definition applyWrites (h : list event) (m : gmap string RoleBinding) : gmap string RoleBinding :=
  foldl applyWrite m h.

Lemma applyWrites_snoc h e m : applyWrites (h ++ [e]) m = applyWrite (applyWrites h m) e.
Proof. unfold applyWrites. by rewrite foldl_app. Qed.

(** A RoleBinding grants what is desired. *)
Definition grants (d f : RoleBinding) : Prop :=
  rb_RoleRef f = rb_RoleRef d ∧ rb_Subjects f = rb_Subjects d ∧
  meta_Labels (rb_Meta d) ≡ₘ meta_Labels (rb_Meta f) ∧
  meta_Annotations (rb_Meta d) ≡ₘ meta_Annotations (rb_Meta f).

Lemma grants_refl d : grants d d.
Proof. by repeat split. Qed.

(** Copying the fields of a RoleBinding with the same role makes it grant what is
    desired; it does so already when nothing changes. *)
Lemma copy_grants d f f' u :
  rb_RoleRef f = rb_RoleRef d → CopyRoleBindingFields d f = Ok (f', u) →
  grants d f' ∧ (u = false → grants d f) ∧ rb_Name f' = rb_Name f.
Proof.
  intros Href Hc.
  pose proof (copy_converged (T := RoleBinding) d f f' u Hc) as (Hl & Ha & Hs).
  pose proof (copy_exact (T := RoleBinding) d f f' u Hc) as Hex.
  unfold CopyRoleBindingFields in Hc.
  destruct (replaceStringMapFields _ _) as [labels u1], (replaceStringMapFields _ _) as [ann u2].
  injection Hc as <- Hu. split_and!; [by repeat split| |done].
  intros ->. destruct (proj1 Hex eq_refl) as (? & ? & ?). by repeat split.
Qed.

(** ** The loops *)

(** While the items are visited: the ones to come are untouched and still desired as
    before; every other desired RoleBinding exists and grants what it should, or is
    still to be created; nothing else is left. *)
Definition prune_inv (m desired todo : gmap string RoleBinding) (items : list RoleBinding) : Prop :=
  (∀ f, f ∈ items → m !! rb_Name f = Some f ∧
     todo !! rb_Name f = desired !! rb_Name f) ∧
  ∀ n, n ∉ rb_Name <$> items →
    match desired !! n with
    | None => m !! n = None ∧ todo !! n = None
    | Some d => (m !! n = None ∧ todo !! n = Some d) ∨
                (todo !! n = None ∧ ∃ f, m !! n = Some f ∧ grants d f)
    end.

Lemma prune_inv_delete m desired todo f items :
  NoDup (rb_Name <$> f :: items) →
  prune_inv m desired todo (f :: items) →
  prune_inv (delete (rb_Name f) m) desired todo items.
Proof.
  intros [Hf Hnd]%NoDup_cons [Hin Hout]. split.
  - intros g Hg. rewrite lookup_delete_ne; [apply Hin; set_solver|].
    intros Heq. apply Hf. rewrite Heq. by apply list_elem_of_fmap_2.
  - intros n Hn. destruct (decide (n = rb_Name f)) as [->|Hne].
    + destruct (Hin f) as [_ Ht]; [set_solver|]. rewrite lookup_delete_eq, Ht.
      destruct (desired !! _); [by left|done].
    + rewrite lookup_delete_ne by done. apply Hout. rewrite fmap_cons, not_elem_of_cons. done.
Qed.

Lemma prune_inv_keep m desired todo f items d f' :
  NoDup (rb_Name <$> f :: items) →
  prune_inv m desired todo (f :: items) →
  todo !! rb_Name f = Some d → grants d f' →
  prune_inv (<[rb_Name f := f']> m) desired
    (delete (rb_Name f) todo) items.
Proof.
  intros [Hf Hnd]%NoDup_cons [Hin Hout] Hd Hg. split.
  - intros g Hgin.
    assert (rb_Name f ≠ rb_Name g) as Hne.
    { intros Heq. apply Hf. rewrite Heq. by apply list_elem_of_fmap_2. }
    rewrite lookup_insert_ne, lookup_delete_ne by done. apply Hin. set_solver.
  - intros n Hn. destruct (decide (rb_Name f = n)) as [<-|Hne].
    + destruct (Hin f) as [_ Ht]; [set_solver|]. rewrite <-Ht, Hd, lookup_insert_eq, lookup_delete_eq.
      right. eauto.
    + rewrite lookup_insert_ne, lookup_delete_ne by done. apply Hout.
      rewrite fmap_cons, not_elem_of_cons. done.
Qed.

Lemma prune_sat desired todo items m h :
  NoDup (rb_Name <$> items) →
  prune_inv (applyWrites h m) desired todo items →
  sat (pruneRoleBindings todo items) h (λ h' r,
    ∀ rest, r = Ok rest → prune_inv (applyWrites h' m) desired rest []).
Proof.
  revert todo h. induction items as [|f items IH]; intros todo h Hnd Hinv; cbn [pruneRoleBindings].
  { intros rest [= <-]. done. }
  pose proof (proj2 (proj1 (NoDup_cons _ _) Hnd)) as Hnd'.
  assert (Hdel : sat (r <-- call (Delete KRoleBinding (meta_Namespace (rb_Meta f))
                                   (rb_Name f)) ;;
    match r with
    | inr err => if IsNotFound err then pruneRoleBindings todo items else Ret (Err err)
    | inl _ => pruneRoleBindings todo items
    end) h (λ h' r, ∀ rest, r = Ok rest → prune_inv (applyWrites h' m) desired rest [])).
  { intros [[]|err]; simpl.
    - apply IH; [done|]. rewrite applyWrites_snoc. by apply prune_inv_delete.
    - destruct (IsNotFound err) eqn:Hnf; [|done].
      apply IH; [done|]. rewrite applyWrites_snoc. simpl. rewrite Hnf. by apply prune_inv_delete. }
  destruct (todo !! rb_Name f) as [d|] eqn:Hd; [|exact Hdel].
  case_bool_decide as Href; [|exact Hdel]. clear Hdel.
  destruct (CopyRoleBindingFields d f) as [[f' u]|err|w] eqn:Hc; [|done..].
  destruct (copy_grants _ _ _ _ Href Hc) as (Hg & Hsame & Hname). destruct u.
  - intros [o|err]; simpl; [|done]. apply IH; [done|]. rewrite applyWrites_snoc. simpl.
    rewrite Hname, (proj1 (proj1 Hinv f ltac:(set_solver))), bool_decide_eq_true_2
      by (destruct Hg; congruence).
    by eapply prune_inv_keep.
  - apply IH; [done|]. destruct Hinv as [Hin Hout].
    rewrite <-(insert_id (applyWrites h m) (rb_Name f) f)
      by (apply Hin; set_solver).
    eapply prune_inv_keep; [done|by split|done|by apply Hsame].
Qed.

(** After the creations: exactly the desired RoleBindings. *)
Definition bindings_converged (desired final : gmap string RoleBinding) : Prop :=
  ∀ n, match desired !! n with
       | None => final !! n = None
       | Some d => ∃ f, final !! n = Some f ∧ grants d f
       end.

Lemma create_sat m todo h :
  (∀ n rb, (n, rb) ∈ todo → rb_Name rb = n ∧ applyWrites h m !! n = None) → NoDup todo.*1 →
  sat (createRoleBindings todo) h (λ h' r, r = Ok () →
    applyWrites h' m = list_to_map todo ∪ applyWrites h m).
Proof.
  revert h. induction todo as [|[n rb] todo IH]; intros h Hkey Hnd; cbn [createRoleBindings].
  { intros _. simpl. by rewrite (left_id_L ∅ (∪)). }
  apply NoDup_cons in Hnd as [Hn Hnd]. destruct (Hkey n rb) as [Hname Habs]; [set_solver|].
  intros [o|err]; simpl; [|done].
  eapply sat_mono; [apply IH; [|done]|].
  - intros n' rb' Hin. destruct (Hkey n' rb') as [? ?]; [set_solver|]. split; [done|].
    rewrite applyWrites_snoc. simpl. rewrite Hname, Habs, lookup_insert_ne; [done|].
    intros <-. apply Hn. exact (list_elem_of_fmap_2 fst _ _ Hin).
  - intros h' r Hr ->. rewrite Hr, applyWrites_snoc by done. simpl. rewrite Hname, Habs.
    rewrite <-insert_union_l, insert_union_r; [done|]. by apply not_elem_of_list_to_map_1.
Qed.

(** ** What the loops ask for *)

(** The loop over the owned ones creates nothing and updates one of them to the same role. *)
Definition prunes (items : list RoleBinding) (X : Type) (q : req X) : Prop :=
  match q with
  | Create KRoleBinding _ => False
  | Update KRoleBinding o =>
      ∃ f, f ∈ items ∧ rb_Name f = rb_Name o ∧ rb_RoleRef f = rb_RoleRef o
  | _ => True
  end.

Lemma prune_prunes todo items all :
  items ⊆ all → calls_ok (prunes all) (pruneRoleBindings todo items).
Proof.
  revert todo. induction items as [|f items IH]; intros todo Hall; cbn [pruneRoleBindings]; [done|].
  assert (Hitems : items ⊆ all) by set_solver.
  assert (Hdel : calls_ok (prunes all) (r <-- call (Delete KRoleBinding (meta_Namespace (rb_Meta f)) (rb_Name f)) ;;
    match r with
    | inr err => if IsNotFound err then pruneRoleBindings todo items else Ret (Err err)
    | inl _ => pruneRoleBindings todo items
    end)%go).
  { split; [done|]. intros [[]|err]; simpl; [by apply IH|]. destruct (IsNotFound err); [by apply IH|done]. }
  destruct (todo !! rb_Name f) as [d|]; [|exact Hdel]. case_bool_decide as Href; [|exact Hdel].
  destruct (CopyRoleBindingFields d f) as [[f' []]|err|w] eqn:Hc; [|by apply IH|done..].
  destruct (copy_grants _ _ _ _ Href Hc) as ([Hrole _] & _ & Hname).
  split; [exists f; split; [set_solver|split; [done|congruence]]|].
  intros [o|err]; simpl; [by apply IH|done].
Qed.

(** The RoleBinding was deleted, or found missing when it was to be. *)
Definition removed (f : RoleBinding) (h : list event) : Prop :=
  ∃ d, Ev (Delete KRoleBinding (meta_Namespace (rb_Meta f)) (rb_Name f)) d ∈ h ∧
    match d with inl _ => True | inr err => IsNotFound err = true end.

(** Of the owned ones, those under a name still to be created were removed. *)
Lemma prune_removes todo items h :
  sat (pruneRoleBindings todo items) h (λ h' r, ∀ rest, r = Ok rest →
    rest ⊆ todo ∧ ∀ f, f ∈ items → is_Some (rest !! rb_Name f) → removed f h').
Proof.
  revert todo h. induction items as [|f items IH]; intros todo h; cbn [pruneRoleBindings].
  { intros rest [= <-]. split; [done|]. set_solver. }
  assert (Hgo : ∀ d, match d with inl _ => True | inr err => IsNotFound err = true end →
    sat (pruneRoleBindings todo items)
      (h ++ [Ev (Delete KRoleBinding (meta_Namespace (rb_Meta f)) (rb_Name f)) d])
      (λ h' r, ∀ rest, r = Ok rest →
         rest ⊆ todo ∧ ∀ g, g ∈ f :: items → is_Some (rest !! rb_Name g) → removed g h')).
  { intros d Hd. eapply sat_mono; [apply sat_and; [apply sat_prefix|apply IH]|].
    intros h' r [[l ->] Hr] rest Hrest. destruct (Hr rest Hrest) as [Hsub Hall]. split; [done|].
    intros g [->|Hg]%elem_of_cons; [|by apply Hall]. intros _. exists d. set_solver. }
  assert (Hkeep : ∀ h', sat (pruneRoleBindings (delete (rb_Name f) todo) items) h'
    (λ h' r, ∀ rest, r = Ok rest →
       rest ⊆ todo ∧ ∀ g, g ∈ f :: items → is_Some (rest !! rb_Name g) → removed g h')).
  { intros h'. eapply sat_mono; [apply IH|]. intros h2 r Hr rest Hrest.
    destruct (Hr rest Hrest) as [Hsub Hall]. split; [by etrans; [|apply delete_subseteq]|].
    intros g [->|Hg]%elem_of_cons; [|by apply Hall]. intros [rb Hrb].
    eapply lookup_weaken in Hrb; [|exact Hsub]. by rewrite lookup_delete_eq in Hrb. }
  assert (Hdel : sat (r <-- call (Delete KRoleBinding (meta_Namespace (rb_Meta f)) (rb_Name f)) ;;
    match r with
    | inr err => if IsNotFound err then pruneRoleBindings todo items else Ret (Err err)
    | inl _ => pruneRoleBindings todo items
    end)%go h (λ h' r, ∀ rest, r = Ok rest →
       rest ⊆ todo ∧ ∀ g, g ∈ f :: items → is_Some (rest !! rb_Name g) → removed g h')).
  { intros [[]|err]; simpl; [by apply Hgo|]. destruct (IsNotFound err) eqn:Hnf; [by apply Hgo|done]. }
  destruct (todo !! rb_Name f) as [d|]; [|exact Hdel]. case_bool_decide; [|exact Hdel].
  destruct (CopyRoleBindingFields d f) as [[f' []]|err|w]; [|apply Hkeep|done..].
  intros [o|err]; simpl; [apply Hkeep|done].
Qed.

(** The creations are those that are still to be made. *)
Definition creates (todo : list (string * RoleBinding)) (X : Type) (q : req X) : Prop :=
  match q with Create KRoleBinding o => ∃ n, (n, o) ∈ todo | _ => False end.

Lemma create_creates todo all :
  todo ⊆ all → calls_ok (creates all) (createRoleBindings todo).
Proof.
  induction todo as [|[n rb] todo IH]; intros Hall; cbn [createRoleBindings]; [done|].
  split; [exists n; set_solver|]. intros [o|err]; simpl; [|done]. apply IH. set_solver.
Qed.

(** What comes before an event that is not in the first part of a history. *)
Lemma prefix_before {A} (l k h1 : list A) a h2 :
  l ++ k = h1 ++ a :: h2 → a ∉ l → l `prefix_of` h1.
Proof.
  intros Heq Ha. apply app_eq_inv in Heq as [(m & -> & Hm)|(m & -> & Hm)].
  - destruct m as [|b m]; [by rewrite app_nil_r|]. injection Hm as <- _. set_solver.
  - by apply prefix_app_r.
Qed.

Section correct.
Context `{OwnerLibLaws} `{MapOrderLaws}.

(** The desired RoleBindings are keyed by their names. *)
Lemma desired_keyed workspace sa roles acc desired :
  (∀ n rb, acc !! n = Some rb → rb_Name rb = n) →
  desiredRoleBindings workspace sa roles acc = Ok desired →
  ∀ n rb, desired !! n = Some rb → rb_Name rb = n.
Proof.
  revert acc. induction roles as [|r roles IH]; intros acc Hacc; simpl; [by intros [= <-]|].
  destruct (generateRoleBinding _ _ _) as [rb| |]; simpl; [|done..].
  destruct (SetControllerReference _ _) as [mt|]; [|done].
  apply IH. intros n rb' [[<- <-]|[_ Hn]]%lookup_insert_Some; [done|auto].
Qed.

(** For every ClusterRole of the kind there is a desired RoleBinding to it for the
    Workspace's ServiceAccount, and there is no other. *)
Lemma desired_roles workspace sa roles acc desired :
  desiredRoleBindings workspace sa roles acc = Ok desired →
  (∀ n rb, desired !! n = Some rb → acc !! n = Some rb ∨
     ∃ r, r ∈ roles ∧ generateRoleBindingName (ws_Name workspace) (kcr_Name r) = Ok n ∧
       rb_RoleRef rb = mkRoleRef "rbac.authorization.k8s.io" "ClusterRole" (kcr_Name r) ∧
       rb_Subjects rb = [mkSubject "ServiceAccount" sa (ws_Namespace workspace)]) ∧
  (∀ r, r ∈ roles → ∃ n, generateRoleBindingName (ws_Name workspace) (kcr_Name r) = Ok n ∧
     is_Some (desired !! n)) ∧
  (∀ n, is_Some (acc !! n) → is_Some (desired !! n)).
Proof.
  revert acc. induction roles as [|r roles IH]; intros acc; simpl.
  { intros [= <-]. split_and!; [auto|set_solver|done]. }
  unfold generateRoleBinding.
  destruct (generateRoleBindingName (ws_Name workspace) (kcr_Name r)) as [name| |] eqn:Hname;
    simpl; [|done..].
  destruct (SetControllerReference _ _) as [mt|] eqn:Hset; [|done].
  apply set_owners_only in Hset as [owners ->]. simpl.
  intros (Hd & Hr & Hacc)%IH. split_and!.
  - intros n rb Hn. destruct (Hd n rb Hn) as [[[<- <-]|[_ ?]]%lookup_insert_Some|(r' & ? & ?)].
    + right. exists r. split_and!; [set_solver|done..].
    + by left.
    + right. exists r'. split; [set_solver|done].
  - intros r' [->|Hin]%elem_of_cons; [|auto]. exists name. split; [done|].
    apply Hacc. by rewrite lookup_insert_eq.
  - intros n Hn. apply Hacc. apply lookup_insert_is_Some'. by right.
Qed.

(** The parts of a run that succeeded. *)
Lemma reconcileRoleBindings_runs workspace workspaceKind sa h :
  runs (reconcileRoleBindings workspace workspaceKind sa) h (Ok ()) →
  ∃ desired (items : list RoleBinding) rest h1 h2,
    desiredRoleBindings workspace sa (clusterRolesOf workspaceKind) ∅ = Ok desired ∧
    h = Ev (List KRoleBinding (ownedListOptions (ws_Name workspace) (ws_Namespace workspace)))
          (inl items) :: h1 ++ h2 ∧
    runs (pruneRoleBindings desired items) h1 (Ok rest) ∧
    runs (createRoleBindings (range "desiredRoleBindings" rest)) h2 (Ok ()).
Proof.
  unfold reconcileRoleBindings.
  destruct (desiredRoleBindings _ _ _ _) as [desired| |] eqn:Hdes; [|by intros [_ ?]..].
  intros (x & h' & -> & Hr). cbn [pbind] in Hr. destruct x as [items|err]; [|by destruct Hr].
  apply runs_bind in Hr as (h1 & h2 & [rest|err|w] & -> & Hprune & Hr); [|by destruct Hr..].
  by exists desired, items, rest, h1, h2.
Qed.

(** The writes of the two loops turn what was listed into what is desired. *)
Lemma loops_converge desired (items : list RoleBinding) rest e h1 h2 :
  (∀ n rb, desired !! n = Some rb → rb_Name rb = n) →
  runs (pruneRoleBindings desired items) h1 (Ok rest) →
  runs (createRoleBindings (range "desiredRoleBindings" rest)) h2 (Ok ()) →
  (∀ m, applyWrite m e = m) → NoDup (rb_Name <$> items) →
  bindings_converged desired (applyWrites (e :: h1 ++ h2) (index_by rb_Name items)).
Proof.
  intros Hk Hprune Hcreate He Hnd. set (m := index_by rb_Name items).
  assert (Hstart : ∀ h, applyWrites (e :: h) m = applyWrites h m) by (intros h; simpl; by rewrite He).
  rewrite Hstart.
  assert (Hinv : prune_inv (applyWrites h1 m) desired rest []).
  { refine (proj1 (sat_runs _ [] _) (prune_sat desired desired items m [] Hnd _) h1 _ Hprune rest eq_refl).
    split.
    - intros f Hf. split; [|done]. by apply index_by_NoDup.
    - intros n Hn. assert (Hm : m !! n = None).
      { apply index_by_lookup_None. intros f Hf <-. apply Hn. by apply list_elem_of_fmap_2. }
      simpl. destruct (desired !! n) as [d|]; [left; by split|by split]. }
  destruct Hinv as [_ Hout].
  assert (Hall : applyWrites (h1 ++ h2) m = rest ∪ applyWrites h1 m).
  { rewrite <-(range_list_to_map "desiredRoleBindings" rest) at 1.
    refine (proj1 (sat_runs _ h1 _) (create_sat m _ h1 _ (range_NoDup _ _)) h2 _ Hcreate eq_refl).
    intros n rb Hin%elem_of_range. specialize (Hout n ltac:(set_solver)).
    destruct (desired !! n) as [d|] eqn:Hd; [|by destruct Hout as [_ ?]; congruence].
    destruct Hout as [[Hm Hr]|[Hr _]]; [|congruence].
    split; [|done]. apply Hk. congruence. }
  intros n. specialize (Hout n ltac:(set_solver)). rewrite Hall.
  destruct (desired !! n) as [d|].
  - destruct Hout as [[Hm Hr]|[Hr (f & Hm & Hg)]].
    + exists d. split; [|apply grants_refl]. by apply lookup_union_Some_l.
    + exists f. split; [|done]. by rewrite lookup_union_r.
  - destruct Hout as [Hm Hr]. by rewrite lookup_union_r.
Qed.
End correct.

(** ** Properties *)

Section properties.
Context `{OwnerLibLaws} `{MapOrderLaws}.

(** The RoleBinding binds this ClusterRole to the Workspace's ServiceAccount. *)
Definition binds (workspace : Workspace) (sa : string) (r : WorkspaceKindClusterRole)
    (rb : RoleBinding) : Prop :=
  rb_RoleRef rb = mkRoleRef "rbac.authorization.k8s.io" "ClusterRole" (kcr_Name r) ∧
  rb_Subjects rb = [mkSubject "ServiceAccount" sa (ws_Namespace workspace)].

(** C18: When [reconcileRoleBindings] returns without error, its successful writes
    have turned the RoleBindings the API server listed (with distinct names) into
    exactly the desired ones, whatever was listed, in every order of the creations: every
    RoleBinding left binds a ClusterRole of the WorkspaceKind to the Workspace's
    ServiceAccount under the name generated for it; under the name generated for each
    ClusterRole there is one, and it binds that role unless another role of the kind has the
    same generated name.  One that binds another role is never updated, but deleted before the
    one under its name is created: an update keeps the role of the listed RoleBinding, and when
    a name is created every listed RoleBinding of that name was deleted before, or found
    missing. *)
Theorem reconcileRoleBindings_converges workspace workspaceKind sa h :
  runs (reconcileRoleBindings workspace workspaceKind sa) h (Ok ()) →
  ∃ items : list RoleBinding,
    Ev (List KRoleBinding (ownedListOptions (ws_Name workspace) (ws_Namespace workspace)))
      (inl items) ∈ h ∧
    (∀ o x, Ev (Update KRoleBinding o) x ∈ h →
       ∃ f, f ∈ items ∧ rb_Name f = rb_Name o ∧ rb_RoleRef f = rb_RoleRef o) ∧
    (∀ h1 o x h2, h = h1 ++ Ev (Create KRoleBinding o) x :: h2 →
       ∀ f, f ∈ items → rb_Name f = rb_Name o → removed f h1) ∧
    (NoDup (rb_Name <$> items) →
     let final := applyWrites h (index_by rb_Name items) in
     let named r := generateRoleBindingName (ws_Name workspace) (kcr_Name r) in
     (∀ n rb, final !! n = Some rb →
        ∃ r, r ∈ clusterRolesOf workspaceKind ∧ named r = Ok n ∧ binds workspace sa r rb) ∧
     (∀ r, r ∈ clusterRolesOf workspaceKind → ∃ n rb, named r = Ok n ∧ final !! n = Some rb ∧
        ((∀ r', r' ∈ clusterRolesOf workspaceKind → named r' = Ok n → kcr_Name r' = kcr_Name r) →
         binds workspace sa r rb))).
Proof.
  intros (desired & items & rest & h1 & h2 & Hd & -> & Hprune & Hcreate)%reconcileRoleBindings_runs.
  match goal with |- context [?a :: h1 ++ h2] => set (e := a) end. exists items. split; [left|].
  pose proof (calls_ok_runs _ _ _ _ (prune_prunes desired items items ltac:(done)) Hprune) as Hp.
  pose proof (calls_ok_runs _ _ _ _ (create_creates _ _ ltac:(done)) Hcreate) as Hc.
  rewrite Forall_forall in Hp, Hc.
  assert (Hk : ∀ n rb, desired !! n = Some rb → rb_Name rb = n).
  { eapply desired_keyed; [|exact Hd]. intros n rb Hn. by rewrite lookup_empty in Hn. }
  destruct (desired_roles _ _ _ _ _ Hd) as (Hroles & Hall & _).
  assert (Hrole : ∀ n d, desired !! n = Some d → ∃ r, r ∈ clusterRolesOf workspaceKind ∧
    generateRoleBindingName (ws_Name workspace) (kcr_Name r) = Ok n ∧ binds workspace sa r d).
  { intros n d Hn. by destruct (Hroles n d Hn) as [?|?]; [simplify_map_eq|]. }
  split_and!.
  - intros o x [Heq|[Hin|Hin]%elem_of_app]%elem_of_cons; [done|exact (Hp _ Hin)|destruct (Hc _ Hin)].
  - intros h1' o x h2' Heq f Hf Hname.
    assert (Hlast : e :: h1 `prefix_of` h1').
    { eapply (prefix_before (e :: h1) h2); [exact Heq|]. intros [Heq'|Hin]%elem_of_cons; [done|].
      destruct (Hp _ Hin). }
    assert (Hin : Ev (Create KRoleBinding o) x ∈ h2).
    { destruct Hlast as [l ->]. rewrite <-(assoc_L (++)) in Heq.
      apply (app_inv_head (e :: h1)) in Heq as ->. set_solver. }
    destruct (Hc _ Hin) as [n Hn%elem_of_range].
    destruct (proj1 (sat_runs _ [] _) (prune_removes desired items []) h1 _ Hprune rest eq_refl)
      as [Hsub Hrem].
    destruct (Hrem f Hf) as (d & Hdel & Hd').
    { rewrite Hname, (Hk n o (lookup_weaken _ _ _ _ Hn Hsub)). by eexists. }
    exists d. split; [|done]. destruct Hlast as [l ->]. apply elem_of_app. left. by right.
  - intros Hnd. pose proof (loops_converge desired items rest e h1 h2 Hk Hprune Hcreate
      (λ _, eq_refl) Hnd) as Hconv. split.
    + intros n rb Hn. specialize (Hconv n).
      destruct (desired !! n) as [d|] eqn:Hdn; [|by pose proof (eq_trans (eq_sym Hn) Hconv)].
      destruct Hconv as (f & Hf & Href & Hsub & _). pose proof (eq_trans (eq_sym Hn) Hf) as [= <-].
      destruct (Hrole _ _ Hdn) as (r & ? & ? & Hr1 & Hr2). exists r.
      split_and!; [done..|split; congruence].
    + intros r Hr. destruct (Hall r Hr) as (n & Hname & [d Hdn]).
      specialize (Hconv n). rewrite Hdn in Hconv. destruct Hconv as (f & Hf & Href & Hsub & _).
      destruct (Hrole _ _ Hdn) as (r' & Hr' & Hname' & Hr1 & Hr2).
      exists n, f. split_and!; [done|exact Hf|]. intros Huniq.
      pose proof (Huniq r' Hr' Hname') as Heq. split; congruence.
Qed.
End properties.

(** A kind with two ClusterRoles, one of which is bound already. *)
Definition exRoleKind : WorkspaceKind :=
  let k := exKind [exImage "img" None exPorts] [exPodConfig "pod" None] None [] in
  let t := wsk_PodTemplate k in
  mkWorkspaceKind (wsk_Meta k)
    (mkKindSpec (kspec_Spawner (wsk_Spec k))
       (mkKindPodTemplate (kpt_PodMetadata t) (kpt_StatefulSetMetadata t)
          (Some (mkKindServiceAccount [mkClusterRole "view"; mkClusterRole "edit"]))
          (kpt_ActivityProbe t) (kpt_Probes t) (kpt_VolumeMounts t) (kpt_Ports t) (kpt_ExtraEnv t)
          (kpt_ExtraVolumeMounts t) (kpt_ExtraVolumes t) (kpt_SecurityContext t)
          (kpt_ContainerSecurityContext t) (kpt_SchedulerName t) (kpt_Options t))
       [] []) (wsk_Status k).

(** Owner references set as a controller would. *)
Definition exampleOwnerLib : OwnerLib := {|
  SetControllerReference w m := inl (setOwners m
    [mkOwnerReference "kubeflow.org/v1beta1" "Workspace" (ws_Name w) (meta_UID (ws_Meta w))
       (Some true)]);
  IsControlledBy m w := bool_decide (meta_UID (ws_Meta w) ∈ owner_UID <$> meta_OwnerReferences m) |}.

#[global] Instance exampleOwnerLib_laws : @OwnerLibLaws exampleOwnerLib.
Proof. intros w m m' [= <-]. eauto. Qed.

(** A stale RoleBinding to be deleted. *)
Definition exStaleBinding : RoleBinding :=
  mkRoleBinding (namedMeta "stale" "ns" ∅) (mkRoleRef "rbac.authorization.k8s.io" "ClusterRole" "admin")
    [].

(** The desired name for [view], bound to [admin]. *)
Definition exOtherRole : RoleBinding :=
  mkRoleBinding (namedMeta (match generateRoleBindingName "test" "view" with Ok n => n | _ => "" end)
                   "ns" ∅)
    (mkRoleRef "rbac.authorization.k8s.io" "ClusterRole" "admin") [].

Definition exListed : list RoleBinding := [exStaleBinding; exOtherRole].

Definition exRoleEnv : handler () := λ X q s,
  (match q in req X return X → X with
   | List KRoleBinding _ => λ _, inl exListed
   | _ => λ x, x
   end (exEnv 0 (mkExecOutcome [] None) X q s).1, s).

Definition exRoleRun : prog (go ()) :=
  reconcileRoleBindings (H := exampleOwnerLib) (H0 := canonicalOrder)
    exWorkspaceRunning exRoleKind "ws-test".

(** What the API server listed. *)
Definition as_binding_list (e : event) : option (list RoleBinding) :=
  match e with
  | Ev q x => match q in req X return X → option (list RoleBinding) with
              | List KRoleBinding _ => λ x, match x with inl l => Some l | inr _ => None end
              | _ => λ _, None
              end x
  end.

(** One was stale and one of the two desired ones bound another role: the writes leave the two
    roles bound. *)
Lemma reconcileRoleBindings_converges_witness :
  runs exRoleRun (trace exRoleEnv exRoleRun ()) (Ok ()) ∧
  ∃ n rb, applyWrites (trace exRoleEnv exRoleRun ()) (index_by rb_Name exListed) !! n = Some rb ∧
    binds exWorkspaceRunning "ws-test" (mkClusterRole "view") rb.
Proof.
  assert (Hrun : runs exRoleRun (trace exRoleEnv exRoleRun ()) (Ok ())).
  { assert ((interp exRoleEnv exRoleRun ()).1 = Ok ()) as <- by (vm_compute; reflexivity).
    apply interp_runs. }
  split; [exact Hrun|].
  destruct (reconcileRoleBindings_converges (H := exampleOwnerLib) (H1 := canonicalOrder)
    exWorkspaceRunning exRoleKind "ws-test" _ Hrun) as (items & Hin & _ & _ & Hconv).
  assert (items = exListed) as ->.
  { assert (Hl : omap as_binding_list (trace exRoleEnv exRoleRun ()) = [exListed])
      by (vm_compute; reflexivity).
    assert (Hi : items ∈ omap as_binding_list (trace exRoleEnv exRoleRun ())).
    { apply list_elem_of_omap. eexists. split; [exact Hin|reflexivity]. }
    rewrite Hl in Hi. by apply list_elem_of_singleton in Hi. }
  assert (Hnd : NoDup (rb_Name <$> exListed)) by (apply (bool_decide_eq_true_1 _); vm_compute; reflexivity).
  destruct (proj2 (Hconv Hnd) (mkClusterRole "view")) as (n & rb & Hname & Hn & Hb); [left|].
  exists n, rb. split; [exact Hn|]. apply Hb.
  intros r' [->|[->|[]%elem_of_nil]%elem_of_cons]%elem_of_cons; [done|].
  intros Hn'. rewrite <-Hname in Hn'. vm_compute in Hn'. discriminate.
Defined.
