(* ===== verification/Reconcile.v ===== *)
(** * The Workspace reconciler ([WorkspaceReconciler.Reconcile])

    One definition per stage of the function, in the source's order, composed in
    [Reconcile].  A stage hands what the code below reads to the next one ([Next]) or
    returns from the function ([Return]).  The Workspace is the object the code
    mutates: after [r.Update] and [r.Status().Update] it is what the API server
    answered.

    The package-level selector cache is threaded through ([cache]). *)

From Stdlib Require Import ZArith.
From stdpp Require Import base gmap strings list.
From S2P Require Import Prelude K8sTypes ApiTypes Names CopyFields Options Client.
From S2P Require Import Probe Activity State TLS Generate Webhook Owned RoleBindings.

Definition WorkspaceFinalizer : string := "notebooks.kubeflow.org/workspace-cleanup".
Definition requeueAfterStaleCache : Z := 250 * Millisecond.

Definition stateMsgErrorUnknownWorkspaceKind (s : string) : string :=
  "Workspace references unknown WorkspaceKind: " +:+ s.
Definition stateMsgErrorInvalidImageConfig (s : string) : string :=
  "Workspace has invalid imageConfig: " +:+ s.
Definition stateMsgErrorInvalidPodConfig (s : string) : string :=
  "Workspace has invalid podConfig: " +:+ s.
Definition stateMsgErrorGenFailureStatefulSet (s : string) : string :=
  "Workspace failed to generate StatefulSet with error: " +:+ s.
Definition stateMsgErrorGenFailureService (s : string) : string :=
  "Workspace failed to generate Service with error: " +:+ s.
Definition stateMsgErrorGenFailureVirtualService (s : string) : string :=
  "Workspace failed to generate VirtualService with error: " +:+ s.
Definition stateMsgErrorMultipleStatefulSets (s : string) : string :=
  "Workspace owns multiple StatefulSets: " +:+ s.
Definition stateMsgErrorMultipleServices (s : string) : string :=
  "Workspace owns multiple Services: " +:+ s.
Definition stateMsgErrorMultipleServiceAccounts (s : string) : string :=
  "Workspace owns multiple ServiceAccounts: " +:+ s.
Definition stateMsgErrorServiceAccountNotOwned (s : string) : string :=
  "Workspace ServiceAccount " +:+ s +:+ " already exists and is not owned by the Workspace".
Definition stateMsgErrorMultipleVirtualServices (s : string) : string :=
  "Workspace owns multiple VirtualServices: " +:+ s.
Definition stateMsgErrorSetControllerReference (kind s : string) : string :=
  "Workspace failed to set controller reference on " +:+ kind +:+ " with error: " +:+ s.
Definition stateMsgErrorKubeRBACProxyTLS (s : string) : string :=
  "kube-rbac-proxy TLS profile cannot be applied: " +:+ s.

Section reconcile.
Context `{OwnerLib} `{TemplateLib} `{SelectorLib} `{ProbeLib} `{MapOrder}
  `{UnstructuredLib}.
Context (cfg : EnvConfig) (hasHTTPProber hasPodExecutor : bool).

(** ** Fetching and cleaning up *)

(** [r.Get] and [r.Delete] of an object that may be gone. *)
Definition deleteIfPresent (k : kind) (namespace name : string) : prog (flow ()) :=
  r <-- call (Get k namespace name) ;;
  match r with
  | inl found =>
    d <-- call (Delete k (meta_Namespace (obj_Meta k found)) (obj_Name k found)) ;;
    Ret match d with
        | inl _ => Next ()
        | inr err => if IsNotFound err then Next () else Return (Done emptyResult (Some err))
        end
  | inr err =>
    Ret (if IsNotFound err then Next () else Return (Done emptyResult (Some err)))
  end.

(** The Workspace is being deleted. *)
Definition cleanupWorkspace {A} (workspace : Workspace) : prog (flow A) :=
  if ContainsFinalizer (ws_Meta workspace) WorkspaceFinalizer then
    _ <~ deleteIfPresent KClusterRoleBinding ""
           (clusterRoleBindingName (ws_Name workspace) (ws_Namespace workspace)) ;;
    _ <~ deleteIfPresent KHTTPRoute (cfg_ControllerNamespace cfg)
           (httpRouteName (ws_Namespace workspace) (ws_Name workspace)) ;;
    r <-- call (Update KWorkspace (ws_setMeta workspace
           (RemoveFinalizer (ws_Meta workspace) WorkspaceFinalizer))) ;;
    Ret match r with
        | inl _ => Return (Done emptyResult None)
        | inr err => if IsConflict err then Return (Done requeue None)
                     else Return (Done emptyResult (Some err))
        end
  else Ret (Return (Done emptyResult None)).

(** The Workspace, unless it is gone or being deleted. *)
Definition fetchWorkspace (namespace name : string) : prog (flow Workspace) :=
  r <-- call (Get KWorkspace namespace name) ;;
  match r with
  | inr err =>
    Ret (Return (Done emptyResult (if IsNotFound err then None else Some err)))
  | inl workspace =>
    match meta_DeletionTimestamp (ws_Meta workspace) with
    | Some _ => cleanupWorkspace workspace
    | None => Ret (Next workspace)
    end
  end.

(** The WorkspaceKind, with the protection finalizer. *)
Definition fetchWorkspaceKind (workspace : Workspace) : prog (flow WorkspaceKind) :=
  let name := wsSpec_Kind (ws_Spec workspace) in
  r <-- call (Get KWorkspaceKind "" name) ;;
  match r with
  | inr err =>
    if IsNotFound err then fail workspace (stateMsgErrorUnknownWorkspaceKind name)
    else Ret (Return (Done emptyResult (Some err)))
  | inl workspaceKind =>
    match meta_DeletionTimestamp (wsk_Meta workspaceKind) with
    | Some _ => Ret (Next workspaceKind)
    | None =>
      if ContainsFinalizer (wsk_Meta workspaceKind) WorkspaceKindFinalizer
      then Ret (Next workspaceKind)
      else
        u <-- call (Update KWorkspaceKind (mkWorkspaceKind
               (AddFinalizer (wsk_Meta workspaceKind) WorkspaceKindFinalizer)
               (wsk_Spec workspaceKind) (wsk_Status workspaceKind))) ;;
        or_return u
    end
  end.

(** ** The selected options, recorded in the status *)

Definition ws_mapStatus (w : Workspace) (f : WorkspaceStatus → WorkspaceStatus) : Workspace :=
  ws_setStatus w (f (ws_Status w)).

(** [Desired], [RedirectChain] and [PendingRestart] from a resolution. *)
Definition optionInfo {V} `{OptionValue V} (current : V)
    (desired : option (V * list WorkspacePodOptionRedirectStep)) : WorkspacePodOptionInfo :=
  match desired with
  | Some (d, chain) => mkPodOptionInfo (opt_Id d) chain
  | None => mkPodOptionInfo (opt_Id current) []
  end.

Definition setPending {V} (desired : option (V * list WorkspacePodOptionRedirectStep))
    (s : WorkspaceStatus) : WorkspaceStatus :=
  match desired with Some _ => st_setPendingRestart s true | None => s end.

Definition resolveOptions (workspace : Workspace) (workspaceKind : WorkspaceKind)
    : prog (flow (Workspace * ImageConfigValue * PodConfigValue)) :=
  let workspace := ws_mapStatus workspace (λ s, st_setPendingRestart s false) in
  ' (currentImageConfig, desiredImageConfig) <~
    or_fail (getImageConfig workspace workspaceKind) workspace
      (λ e, stateMsgErrorInvalidImageConfig (Error e)) ;;
  let workspace := ws_mapStatus workspace (λ s,
    st_setPodTemplateOptions (setPending desiredImageConfig s)
      (mkPodOptionsStatus (optionInfo currentImageConfig desiredImageConfig)
         (pos_PodConfig (st_PodTemplateOptions s)))) in
  ' (currentPodConfig, desiredPodConfig) <~
    or_fail (getPodConfig workspace workspaceKind) workspace
      (λ e, stateMsgErrorInvalidPodConfig (Error e)) ;;
  let workspace := ws_mapStatus workspace (λ s,
    st_setPodTemplateOptions (setPending desiredPodConfig s)
      (mkPodOptionsStatus (pos_ImageConfig (st_PodTemplateOptions s))
         (optionInfo currentPodConfig desiredPodConfig))) in
  Ret (Next (workspace, currentImageConfig, currentPodConfig)).

(** ** ServiceAccount, StatefulSet and Service *)

(** [r.Create] of the ServiceAccount: an existing one is another's, or the cache is
    stale. *)
Definition createServiceAccount (workspace : Workspace) (serviceAccount : ServiceAccount)
    : prog (flow ServiceAccount) :=
  r <-- call (Create KServiceAccount serviceAccount) ;;
  match r with
  | inl created => Ret (Next created)
  | inr err =>
    if IsAlreadyExists err then
      g <-- call (Get KServiceAccount (meta_Namespace (sa_Meta serviceAccount))
                   (meta_Name (sa_Meta serviceAccount))) ;;
      match g with
      | inr getErr =>
        Ret (Return (if IsNotFound getErr then Done (mkResult requeueAfterStaleCache) None
                     else Done emptyResult (Some getErr)))
      | inl existing =>
        if IsControlledBy (sa_Meta existing) workspace
        then Ret (Return (Done (mkResult requeueAfterStaleCache) None))
        else fail workspace (stateMsgErrorServiceAccountNotOwned (meta_Name (sa_Meta existing)))
      end
    else Ret (Return (Done emptyResult (Some err)))
  end.

Definition reconcileServiceAccount (namespace : string) (workspace : Workspace)
    : prog (flow string) :=
  serviceAccount <~ or_panic (generateServiceAccount workspace) ;;
  serviceAccount <~ setController workspace KServiceAccount serviceAccount ;;
  owned <~ listOwned KServiceAccount (ws_Name workspace) namespace ;;
  ' (name, _) <~ reconcileOwned KServiceAccount ConflictIsError CopyServiceAccountFields
      stateMsgErrorMultipleServiceAccounts (createServiceAccount workspace)
      workspace owned serviceAccount ;;
  Ret (Next name).

Definition reconcileOwnedStatefulSet (workspace : Workspace) (namespace : string)
    (desiredStatefulSet : StatefulSet) : prog (flow (string * StatefulSet)) :=
  owned <~ listOwned KStatefulSet (ws_Name workspace) namespace ;;
  reconcileOwned KStatefulSet ConflictRequeues CopyStatefulSetFields
    stateMsgErrorMultipleStatefulSets (createOwned KStatefulSet)
    workspace owned desiredStatefulSet.

(** The generated StatefulSet; without KubeGateway it is reconciled at once. *)
Definition prepareStatefulSet (namespace : string) (workspace : Workspace)
    (workspaceKind : WorkspaceKind) (imageConfig : ImageConfigValue)
    (podConfig : PodConfigValue) (serviceAccountName : string) : prog (flow StatefulSet) :=
  statefulSet <~ or_fail
    (generateStatefulSet workspace workspaceKind (icv_Spec imageConfig) (pcv_Spec podConfig)
       serviceAccountName) workspace (λ e, stateMsgErrorGenFailureStatefulSet (Error e)) ;;
  statefulSet <~ setController workspace KStatefulSet statefulSet ;;
  if cfg_UseKubeGateway cfg then Ret (Next statefulSet)
  else
    ' (_, statefulSet) <~ reconcileOwnedStatefulSet workspace namespace statefulSet ;;
    Ret (Next statefulSet).

(** Services of the kube-rbac-proxy are not counted. *)
Definition isProxyService (svc : Service) : bool :=
  bool_decide (gm (meta_Labels (svc_Meta svc)) !! "app.kubernetes.io/component"
               = Some "kube-rbac-proxy").

Definition reconcileService (namespace : string) (workspace : Workspace)
    (imageConfig : ImageConfigValue) : prog (flow Service) :=
  service <~ or_fail (generateService workspace (icv_Spec imageConfig)) workspace
    (λ e, stateMsgErrorGenFailureService (Error e)) ;;
  service <~ setController workspace KService service ;;
  ownedServices <~ listOwned KService (ws_Name workspace) namespace ;;
  let workspaceServices := filter (λ svc, isProxyService svc = false) ownedServices in
  ' (_, service) <~ reconcileOwned KService ConflictIsError CopyServiceFields
      stateMsgErrorMultipleServices (createOwned KService) workspace workspaceServices service ;;
  Ret (Next service).

(** ** The kube-rbac-proxy sidecar *)

Definition sts_setTemplate (s : StatefulSet) (t : PodTemplateSpec) : StatefulSet :=
  mkStatefulSet (sts_Meta s)
    (mkStatefulSetSpec (stsSpec_Replicas (sts_Spec s)) (stsSpec_Selector (sts_Spec s)) t
       (stsSpec_Rest (sts_Spec s))).

Definition addSidecar (s : StatefulSet) (sidecar : Container) (volumes : list Volume)
    : StatefulSet :=
  let t := stsSpec_Template (sts_Spec s) in
  let p := ptpl_Spec t in
  sts_setTemplate s (mkPodTemplateSpec (ptpl_Labels t) (ptpl_Annotations t)
    (mkPodSpec (pspec_Affinity p) (pspec_Containers p ++ [sidecar]) (pspec_NodeSelector p)
       (pspec_SchedulerName p) (pspec_SecurityContext p) (pspec_ServiceAccountName p)
       (pspec_Tolerations p) (pspec_Volumes p ++ volumes))).

(** The Workspace's StatefulSet if there is one only, and how many there are. *)
Definition findOwnedStatefulSet (namespace workspaceName : string)
    : prog (flow (option StatefulSet * nat)) :=
  owned <~ listOwned KStatefulSet workspaceName namespace ;;
  Ret (Next match owned with
            | [existing] => (Some existing, 1%nat)
            | _ => (None, length owned)
            end).

(** The StatefulSet to write, whether to write it, and the TLS error if any: an
    unusable profile keeps the existing pod template, and creates no StatefulSet. *)
Definition applySidecar (namespace : string) (workspace : Workspace)
    (workspaceKind : WorkspaceKind) (imageConfig : ImageConfigValue) (statefulSet : StatefulSet)
    : prog (flow (StatefulSet * bool * option error)) :=
  if cfg_UseKubeGateway cfg && kubeRBACProxySidecarNeeded workspaceKind (icv_Spec imageConfig) then
    fips <-- FIPSEnabled ;;
    proxyTLS <-- ResolveProxyTLS fips ;;
    match proxyTLS with
    | Err tlsErr =>
      ' (existing, count) <~ findOwnedStatefulSet namespace (ws_Name workspace) ;;
      Ret (Next match count, existing with
                | O, _ => (statefulSet, false, Some tlsErr)
                | 1%nat, Some existing =>
                  (sts_setTemplate statefulSet (stsSpec_Template (sts_Spec existing)), true,
                   Some tlsErr)
                | _, _ => (statefulSet, true, Some tlsErr)
                end)
    | Ok proxyTLS =>
      sidecar <~ or_panic
        (generateKubeRBACProxySidecar cfg workspace workspaceKind (icv_Spec imageConfig) proxyTLS) ;;
      Ret (Next match sidecar with
                | Some (sidecar, volumes) => (addSidecar statefulSet sidecar volumes, true, None)
                | None => (statefulSet, true, None)
                end)
    | Panic w => Ret (Return (Crashed w))
    end
  else Ret (Next (statefulSet, true, None)).

(** The StatefulSet written, and its name. *)
Definition writeStatefulSet (namespace : string) (workspace : Workspace)
    (statefulSet : StatefulSet) (write : bool) : prog (flow (string * StatefulSet)) :=
  if write then reconcileOwnedStatefulSet workspace namespace statefulSet
  else Ret (Next (meta_Name (sts_Meta statefulSet), statefulSet)).

(** ** Istio *)

Definition reconcileVirtualService (namespace : string) (workspace : Workspace)
    (workspaceKind : WorkspaceKind) (imageConfig : ImageConfigValue) (service : Service)
    : prog (flow ()) :=
  virtualsvc <~ or_fail
    (generateVirtualService cfg workspace workspaceKind service (icv_Spec imageConfig)) workspace
    (λ e, stateMsgErrorGenFailureVirtualService (Error e)) ;;
  virtualsvc <~
    match SetControllerReference workspace (vs_Meta virtualsvc) with
    | inl m => Ret (Next (obj_setMeta KVirtualService virtualsvc m))
    | inr err =>
      fail workspace (stateMsgErrorSetControllerReference "VirtualService" (Error err))
    end ;;
  owned <~ listOwned KVirtualService (ws_Name workspace) namespace ;;
  _ <~ reconcileOwned KVirtualService ConflictIsError CopyVirtualServiceFields
      stateMsgErrorMultipleVirtualServices (createOwned KVirtualService) workspace owned virtualsvc ;;
  Ret (Next ()).

(** ** Gateway API *)

(** The Workspace with the cleanup finalizer. *)
Definition ensureFinalizer (workspace : Workspace) : prog (flow Workspace) :=
  if ContainsFinalizer (ws_Meta workspace) WorkspaceFinalizer then Ret (Next workspace)
  else updateFound KWorkspace ConflictRequeues
         (ws_setMeta workspace (AddFinalizer (ws_Meta workspace) WorkspaceFinalizer)).

Definition reconcileClusterRoleBinding (desired : ClusterRoleBinding) : prog (flow ()) :=
  ensureNamed KClusterRoleBinding true "" (meta_Name (crb_Meta desired)) desired (λ found,
    if bool_decide (crb_Subjects found = crb_Subjects desired)
       && bool_decide (crb_RoleRef found = crb_RoleRef desired)
    then Ret (Next ())
    else
      _ <~ updateFound KClusterRoleBinding ConflictIsError
             (mkClusterRoleBinding (crb_Meta found) (crb_RoleRef desired) (crb_Subjects desired)) ;;
      Ret (Next ())).

(** The gateway resources that do not depend on the route; the kube-rbac-proxy
    Service is created only. *)
Definition reconcileProxyResources (workspace : Workspace) (serviceAccountName : string)
    : prog (flow (Workspace * Service)) :=
  let clusterRoleBinding := generateKubeRBACProxyClusterRoleBinding workspace serviceAccountName in
  workspace <~ ensureFinalizer workspace ;;
  _ <~ reconcileClusterRoleBinding clusterRoleBinding ;;
  configMap <~ or_panic (generateKubeRBACProxyConfigMap workspace) ;;
  configMap <~ setController workspace KConfigMap configMap ;;
  _ <~ ensureNamed KConfigMap true (ws_Namespace workspace) (obj_Name KConfigMap configMap)
         configMap (updateIfChanged KConfigMap ConflictIsError CopyConfigMapFields configMap) ;;
  proxyService <~ or_panic (generateKubeRBACProxyService workspace) ;;
  proxyService <~ setController workspace KService proxyService ;;
  r <-- call (Get KService (ws_Namespace workspace) (obj_Name KService proxyService)) ;;
  match r with
  | inl _ => Ret (Next (workspace, proxyService))
  | inr err =>
    if IsNotFound err then
      proxyService <~ setController workspace KService proxyService ;;
      c <-- call (Create KService proxyService) ;;
      Ret match c with
          | inl created => Next (workspace, created)
          | inr err => if IsAlreadyExists err then Next (workspace, proxyService)
                       else Return (Done emptyResult (Some err))
          end
    else Ret (Return (Done emptyResult (Some err)))
  end.

Definition reconcileGateway (workspace : Workspace) (workspaceKind : WorkspaceKind)
    (imageConfig : ImageConfigValue) (serviceAccountName : string) : prog (flow Workspace) :=
  ' (workspace, proxyService) <~ reconcileProxyResources workspace serviceAccountName ;;
  referenceGrant <~ setController workspace KReferenceGrant
    (generateKubeGatewayReferenceGrant cfg workspace proxyService) ;;
  _ <~ ensureNamed KReferenceGrant true (ws_Namespace workspace)
         (referenceGrantName (ws_Name workspace)) referenceGrant
         (updateIfChanged KReferenceGrant ConflictRequeues CopyReferenceGrantFields referenceGrant) ;;
  match generateGatewayV1HTTPRoute cfg workspace workspaceKind proxyService
          (icv_Spec imageConfig) with
  | None => fail workspace "no HTTP port found for Gateway API routing"
  | Some route =>
    _ <~ ensureNamed KHTTPRoute false (meta_Namespace (hr_Meta route)) (meta_Name (hr_Meta route))
           route (updateIfChanged KHTTPRoute ConflictRequeues CopyHTTPRouteFields route) ;;
    Ret (Next workspace)
  end.

(** The Workspace after the routing stage. *)
Definition reconcileRouting (namespace : string) (workspace : Workspace)
    (workspaceKind : WorkspaceKind) (imageConfig : ImageConfigValue) (service : Service)
    (serviceAccountName : string) : prog (flow Workspace) :=
  if cfg_UseIstio cfg then
    _ <~ reconcileVirtualService namespace workspace workspaceKind imageConfig service ;;
    Ret (Next workspace)
  else if cfg_UseKubeGateway cfg then
    reconcileGateway workspace workspaceKind imageConfig serviceAccountName
  else Ret (Next workspace).

(** ** Pod, status and activity *)

Definition fetchPod (namespace statefulSetName : string) : prog (flow (option Pod)) :=
  r <-- call (Get KPod namespace (statefulSetName +:+ "-0")) ;;
  Ret match r with
      | inl pod => Next (Some pod)
      | inr err => if IsNotFound err then Next None else Return (Done emptyResult (Some err))
      end.

(** The status after the activity probe and rules, the result, whether to pause, and
    the cache. *)
Definition reconcileStatus (c : gmap string (Selector + error)) (workspace : Workspace)
    (workspaceKind : WorkspaceKind) (imageConfig : ImageConfigValue) (podConfig : PodConfigValue)
    (pod : option Pod) (statefulSet : StatefulSet) (serviceAccountName : string)
    : prog (flow (Workspace * Result * bool) * gmap string (Selector + error)) :=
  ' (status, result, err) <-- generateWorkspaceStatus workspace pod statefulSet serviceAccountName ;;
  match err with
  | Some err => Ret (Return (Done emptyResult (Some err)), c)
  | None =>
    activity <-- reconcileActivity hasHTTPProber hasPodExecutor c (ws_setStatus workspace status)
                   workspaceKind (Some imageConfig) (Some podConfig) pod ;;
    Ret (match ao_result activity with
         | Ok (activityResult, paused) =>
             Next (ao_workspace activity, mergeReconcileResult result activityResult, paused)
         | Err err => Return (Done emptyResult (Some err))
         | Panic w => Return (Crashed w)
         end, ao_cache activity)
  end.

(** The status update, if the status changed since the fetch. *)
Definition persistStatus (currentStatus : WorkspaceStatus) (workspace : Workspace)
    : prog (flow Workspace) :=
  if bool_decide (currentStatus = ws_Status workspace) then Ret (Next workspace)
  else r <-- call (UpdateStatus KWorkspace workspace) ;; or_return r.

(** The persisted outcome of a reconcile. *)
Definition finishReconcile (originalWorkspace workspace : Workspace) (result : Result)
    (paused : bool) (proxyTLSErr : option error) : prog (flow outcome) :=
  let workspace :=
    match proxyTLSErr with
    | Some err => ws_mapStatus workspace (λ s,
        st_setState s WorkspaceStateError (stateMsgErrorKubeRBACProxyTLS (Error err)))
    | None => workspace
    end in
  workspace <~ persistStatus (ws_Status originalWorkspace) workspace ;;
  if paused then
    r <-- call (Patch KWorkspace (ws_setPaused workspace true) originalWorkspace) ;;
    _ <~ or_return r ;;
    Ret (Next (Done emptyResult proxyTLSErr))
  else
    Ret (Next (match proxyTLSErr with
               | Some err => Done emptyResult (Some err)
               | None => Done result None
               end)).

(** ** The reconciler *)

(** What the stages before the Pod is looked at hand over. *)
Record resources := mkResources {
  rs_workspace : Workspace;
  rs_kind : WorkspaceKind;
  rs_image : ImageConfigValue;
  rs_podConfig : PodConfigValue;
  rs_serviceAccountName : string;
  rs_statefulSetName : string;
  rs_statefulSet : StatefulSet;
  rs_proxyTLSErr : option error;
}.

Definition reconcileResources (namespace : string) (workspace : Workspace)
    : prog (flow resources) :=
  workspaceKind <~ fetchWorkspaceKind workspace ;;
  ' (workspace, imageConfig, podConfig) <~ resolveOptions workspace workspaceKind ;;
  serviceAccountName <~ reconcileServiceAccount namespace workspace ;;
  statefulSet <~ prepareStatefulSet namespace workspace workspaceKind imageConfig podConfig
                   serviceAccountName ;;
  service <~ reconcileService namespace workspace imageConfig ;;
  ' (statefulSet, write, proxyTLSErr) <~
    applySidecar namespace workspace workspaceKind imageConfig statefulSet ;;
  ' (statefulSetName, statefulSet) <~ writeStatefulSet namespace workspace statefulSet write ;;
  workspace <~ reconcileRouting namespace workspace workspaceKind imageConfig service
                 serviceAccountName ;;
  r <-- reconcileRoleBindings workspace workspaceKind serviceAccountName ;;
  match r with
  | Err err => Ret (Return (Done emptyResult (Some err)))
  | Panic w => Ret (Return (Crashed w))
  | Ok _ =>
    Ret (Next (mkResources workspace workspaceKind imageConfig podConfig serviceAccountName
                 statefulSetName statefulSet proxyTLSErr))
  end.

(** From the Pod on. *)
Definition reconcilePod (c : gmap string (Selector + error)) (namespace : string)
    (originalWorkspace : Workspace) (rs : resources)
    : prog (flow outcome * gmap string (Selector + error)) :=
  pod <-- fetchPod namespace (rs_statefulSetName rs) ;;
  match pod with
  | Return o => Ret (Return o, c)
  | Next pod =>
    ' (st, c) <-- reconcileStatus c (rs_workspace rs) (rs_kind rs) (rs_image rs) (rs_podConfig rs)
                   pod (rs_statefulSet rs) (rs_serviceAccountName rs) ;;
    match st with
    | Return o => Ret (Return o, c)
    | Next (workspace, result, paused) =>
      o <-- finishReconcile originalWorkspace workspace result paused (rs_proxyTLSErr rs) ;;
      Ret (o, c)
    end
  end.

(** What the reconciler returns, however it returned. *)
Definition flow_outcome (r : flow outcome) : outcome :=
  match r with Next o | Return o => o end.

Definition Reconcile (c : gmap string (Selector + error)) (namespace name : string)
    : prog (outcome * gmap string (Selector + error)) :=
  w <-- fetchWorkspace namespace name ;;
  match w with
  | Return o => Ret (o, c)
  | Next originalWorkspace =>
    rs <-- reconcileResources namespace originalWorkspace ;;
    match rs with
    | Return o => Ret (o, c)
    | Next rs =>
      ' (r, c) <-- reconcilePod c namespace originalWorkspace rs ;;
      Ret (flow_outcome r, c)
    end
  end.

(** [mapWorkspaceKindToRequest]: the Workspaces to reconcile when a kind changes. *)
Definition mapWorkspaceKindToRequest (workspaceKind : WorkspaceKind)
    : prog (list (string * string)) :=
  r <-- call (List KWorkspace (mkListOptions
         (Some (IndexWorkspaceKindField, wsk_Name workspaceKind)) ∅ "")) ;;
  Ret match r with
      | inr _ => []
      | inl items => (λ w, (ws_Namespace w, ws_Name w)) <$> items
      end.
End reconcile.
