(* ===== verification/ReconcileSpec.v ===== *)
(** * What the Workspace reconciler guarantees

    Properties of every history of [Reconcile]: against an API server that may
    answer any request with any object or error. *)

From Stdlib Require Import ZArith.
From stdpp Require Import base gmap strings list.
From S2P Require Import Prelude K8sTypes ApiTypes Names CopyFields Options Client Examples.
From S2P Require Import Probe Activity State TLS Generate Field Webhook Owned RoleBindings Reconcile.

(** ** Walking through the requests of a program *)

Lemma calls_ok_call {X} (P : ∀ X, req X → Prop) (q : req X) : P X q → calls_ok P (call q).
Proof. by split. Qed.

(** Unfold the definition at the head of a program. *)
Ltac unfold_head p :=
  match p with
  | ?f _ => unfold_head f
  | _ => unfold p
  end.

Create HintDb calls.

(** Show that every request of a program satisfies a predicate, closing the
    requests on which it computes to a trivial fact. *)
Ltac calls :=
  repeat match goal with
  | |- ∀ _, _ => intro
  | |- calls_ok _ (pbind _ _) => apply calls_ok_bind
  | |- calls_ok _ (fbind _ _) => apply calls_ok_fbind
  | |- calls_ok _ (call _) => apply calls_ok_call; try exact I; try (intros []; fail)
  | |- calls_ok _ (Ret _) => exact I
  | |- calls_ok _ (match ?x with _ => _ end) => destruct x
  | |- calls_ok _ (let _ := _ in _) => cbv zeta
  | |- calls_ok _ (pruneRoleBindings _ _) => solve [auto with calls nocore]
  | |- calls_ok _ (createRoleBindings _) => solve [auto with calls nocore]
  | |- calls_ok _ ?p => unfold_head p; cbv beta
  end.

(** ** Cleanup before the finalizer is removed *)

(** The object was found missing, or found and deleted. *)
Definition gone (k : kind) (namespace name : string) (h : list event) : Prop :=
  (∃ err, Ev (Get k namespace name) (inr err) ∈ h ∧ IsNotFound err = true) ∨
  (∃ found d, Ev (Get k namespace name) (inl found) ∈ h ∧
     Ev (Delete k (meta_Namespace (obj_Meta k found)) (obj_Name k found)) d ∈ h ∧
     match d with inl _ => True | inr err => IsNotFound err = true end).

Lemma gone_mono k ns n h h' : h `prefix_of` h' → gone k ns n h → gone k ns n h'.
Proof.
  intros [l ->] [(err & ? & ?)|(found & d & ? & ? & ?)]; [left|right].
  - exists err. set_solver.
  - exists found, d. set_solver.
Qed.

(** An update of the Workspace keeps the cleanup finalizer. *)
Definition keeps_finalizer {X} (q : req X) : Prop :=
  match q with
  | Update KWorkspace w => ContainsFinalizer (ws_Meta w) WorkspaceFinalizer = true
  | _ => True
  end.

(** ** Requests that do not occur before a point *)

(** A sort of request, and the histories without it. *)
Definition without (P : ∀ X, req X → Prop) (h : list event) : Prop :=
  Forall (event_ok (λ X q, ¬ P X q)) h.

Definition avoids {R} (P : ∀ X, req X → Prop) (p : prog R) : Prop :=
  calls_ok (λ X q, ¬ P X q) p.

Lemma avoids_sat {R} P (p : prog R) h :
  avoids P p → without P h → sat p h (λ h' _, h `prefix_of` h' ∧ without P h').
Proof.
  intros Hp Hh. eapply sat_mono; [by apply calls_ok_sat|].
  intros h' _ (k & -> & Hk). split; [by apply prefix_app_r|by apply Forall_app].
Qed.

Lemma avoids_after {R} P (P' : list event → ∀ X, req X → Prop) (p : prog R) h :
  (∀ h' X (q : req X), without P h' → ¬ P X q → P' h' X q) →
  avoids P p → without P h → calls_after P' p h.
Proof.
  intros HP. revert h. induction p as [r|X q k IH]; intros h; simpl; [done|].
  intros [Hq Hk] Hh. split; [by apply HP|]. intros x. apply IH; [by apply Hk|].
  apply Forall_app. split; [done|]. by repeat constructor.
Qed.

Section spec.
Context `{OwnerLib} `{TemplateLib} `{SelectorLib} `{ProbeLib} `{MapOrder} `{UnstructuredLib}.
Context (cfg : EnvConfig) (hasHTTPProber hasPodExecutor : bool).

Lemma deleteIfPresent_sat k ns n h :
  sat (deleteIfPresent k ns n) h (λ h' r,
    h `prefix_of` h' ∧ ∀ u, r = Next u → gone k ns n h').
Proof.
  intros [found|err]; simpl.
  - intros d. split; [rewrite <-(assoc_L (++)); by apply prefix_app_r|].
    intros u Hr. right. exists found, d. split_and!; [set_solver..|].
    destruct d as [|err]; [done|]. by destruct (IsNotFound err).
  - split; [by apply prefix_app_r|]. intros u Hr. left. exists err.
    split; [set_solver|]. by destruct (IsNotFound err).
Qed.

Lemma prune_keeps todo items : calls_ok (@keeps_finalizer) (pruneRoleBindings todo items).
Proof.
  revert todo. induction items as [|f items IH]; intros todo; cbn [pruneRoleBindings]; [done|].
  destruct (todo !! _); [case_bool_decide; [destruct (CopyRoleBindingFields _ _) as [[? []]| |]|]|];
    try done; try (split; [done|]; intros [?|?]; simpl; repeat case_match; done || apply IH).
Qed.

Lemma create_keeps todo : calls_ok (@keeps_finalizer) (createRoleBindings todo).
Proof.
  induction todo as [|[n rb] todo IH]; cbn [createRoleBindings]; [done|].
  split; [done|]. by intros [?|?].
Qed.

#[local] Hint Resolve prune_keeps create_keeps : calls.

Lemma resources_keep ns w : calls_ok (@keeps_finalizer) (reconcileResources cfg ns w).
Proof. calls. apply AddFinalizer_present. Qed.

Lemma pod_keeps c ns w rs :
  calls_ok (@keeps_finalizer) (reconcilePod hasHTTPProber hasPodExecutor c ns w rs).
Proof. calls. Qed.

(** The cleanup removes the finalizer only when both resources are gone. *)
Lemma cleanup_after (w : Workspace) h :
  calls_after (λ h X q, keeps_finalizer q ∨
      gone KClusterRoleBinding "" (clusterRoleBindingName (ws_Name w) (ws_Namespace w)) h ∧
      gone KHTTPRoute (cfg_ControllerNamespace cfg) (httpRouteName (ws_Namespace w) (ws_Name w)) h)
    (cleanupWorkspace (A := Workspace) cfg w) h.
Proof.
  unfold cleanupWorkspace. destruct (ContainsFinalizer _ _); [|done].
  apply calls_after_fbind.
  { eapply calls_ok_after; [left; eassumption|]. calls. }
  eapply sat_mono; [apply deleteIfPresent_sat|]. intros h1 [[]|o] [_ Hg1]; [|done].
  specialize (Hg1 () eq_refl). apply calls_after_fbind.
  { eapply calls_ok_after; [left; eassumption|]. calls. }
  eapply sat_mono; [apply deleteIfPresent_sat|]. intros h2 [[]|o] [Hp Hg2]; [|done].
  specialize (Hg2 () eq_refl). split; [|by intros [?|err]; [|destruct (IsConflict err)]].
  right. split; [by eapply gone_mono|done].
Qed.

(** The Workspace as fetched, and what a run of the whole reconciler may update. *)
Definition fetched (ns name : string) (w : Workspace) (h : list event) : Prop :=
  Ev (Get KWorkspace ns name) (inl w) ∈ h.

Definition finalizer_safe (ns name : string) (h : list event) (X : Type) (q : req X) : Prop :=
  keeps_finalizer q ∨ ∃ w, fetched ns name w h ∧
    is_Some (meta_DeletionTimestamp (ws_Meta w)) ∧
    gone KClusterRoleBinding "" (clusterRoleBindingName (ws_Name w) (ws_Namespace w)) h ∧
    gone KHTTPRoute (cfg_ControllerNamespace cfg) (httpRouteName (ws_Namespace w) (ws_Name w)) h.

Lemma Reconcile_finalizer_safe c ns name :
  calls_after (finalizer_safe ns name) (Reconcile cfg hasHTTPProber hasPodExecutor c ns name) [].
Proof.
  unfold Reconcile. apply calls_after_bind.
  - split; [by left|]. intros [w|err]; simpl; [|done].
    destruct (meta_DeletionTimestamp (ws_Meta w)) eqn:Hdel; [|done].
    eapply calls_after_mono; [|apply cleanup_after].
    intros h' X q [l ->] [?|[? ?]]; [by left|]. right. exists w.
    split_and!; [|by rewrite Hdel|done..]. unfold fetched. set_solver.
  - eapply sat_mono; [apply sat_prefix|]. intros h1 [w|o] _; [|done].
    eapply calls_ok_after; [left; eassumption|]. apply calls_ok_bind; [apply resources_keep|].
    intros [rs|o]; [|done]. apply calls_ok_bind; [apply pod_keeps|]. by intros [? ?].
Qed.

(** ** Unusable TLS profiles *)

Definition is_profile X (q : req X) : Prop :=
  match q with GetUnstructured _ _ => True | _ => False end.

Definition is_sts_write X (q : req X) : Prop :=
  match q with Create KStatefulSet _ | Update KStatefulSet _ => True | _ => False end.

(** An environment that serves [x] as the cluster's TLS profile. *)
Definition profileEnv (x : answer string) : handler () := λ X q s,
  (match q in req X return X → X with
   | GetUnstructured _ _ => λ _, x
   | _ => λ y, y
   end (exEnv 0 (mkExecOutcome [] None) X q s).1, s).

(** A profile that cannot be applied: resolving it fails, in FIPS mode or not. *)
Definition profile_unusable (x : answer string) : Prop :=
  ∀ fips, ∃ e, (interp (profileEnv x) (ResolveProxyTLS fips) ()).1 = Err e.

Definition read_unusable (h : list event) : Prop :=
  ∃ x, Ev (GetUnstructured apiServerGVK apiServerName) x ∈ h ∧ profile_unusable x.

(** The pod template of a StatefulSet that was listed. *)
Definition listed_template (t : PodTemplateSpec) (h : list event) : Prop :=
  ∃ opts (items : list StatefulSet) o, Ev (List KStatefulSet opts) (inl items) ∈ h ∧ o ∈ items ∧
    stsSpec_Template (sts_Spec o) = t.

(** More than one StatefulSet was listed at once. *)
Definition listed_many (h : list event) : Prop :=
  ∃ opts (items : list StatefulSet), Ev (List KStatefulSet opts) (inl items) ∈ h ∧ 1 < length items.

Definition template_kept (t : PodTemplateSpec) (h : list event) : Prop :=
  listed_template t h ∨ listed_many h.

Lemma template_kept_mono t h h' : h `prefix_of` h' → template_kept t h → template_kept t h'.
Proof.
  intros [l ->] [(opts & items & o & ? & ?)|(opts & items & ? & ?)]; [left|right].
  - exists opts, items, o. set_solver.
  - exists opts, items. set_solver.
Qed.

(** A StatefulSet written after an profile_unusable profile was read keeps a template. *)
Definition sts_ok (h : list event) (X : Type) (q : req X) : Prop :=
  read_unusable h →
  match q with
  | Create KStatefulSet o | Update KStatefulSet o => template_kept (stsSpec_Template (sts_Spec o)) h
  | _ => True
  end.

Lemma no_profile_read h : without is_profile h → ¬ read_unusable h.
Proof.
  intros Hh (x & Hx & _). unfold without in Hh. rewrite Forall_forall in Hh.
  by destruct (Hh _ Hx).
Qed.

Lemma sts_ok_no_profile {R} (p : prog R) h :
  avoids is_profile p → without is_profile h → calls_after sts_ok p h.
Proof. apply avoids_after. intros h' X q Hh _ Hr. by destruct (no_profile_read h'). Qed.

Lemma sts_ok_no_write {R} (p : prog R) h : avoids is_sts_write p → calls_after sts_ok p h.
Proof.
  apply calls_ok_after. intros h' X q Hq _. destruct q; try destruct k; simpl in *;
    done || by destruct Hq.
Qed.

(** The profile is read at most once. *)
Definition profile_answer (e : event) : option (answer string) :=
  match e with
  | Ev q x => match q in req X return X → option (answer string) with
              | GetUnstructured _ _ => λ x, Some x
              | _ => λ _, None
              end x
  end.

Lemma read_unusable_last h x l :
  without is_profile h → without is_profile l →
  read_unusable (h ++ [Ev (GetUnstructured apiServerGVK apiServerName) x] ++ l) → profile_unusable x.
Proof.
  intros Hh Hl (y & Hy & Hu). rewrite !elem_of_app in Hy.
  unfold without in *. rewrite Forall_forall in Hh, Hl.
  destruct Hy as [Hy|[Hy|Hy]]; [by destruct (Hh _ Hy)| |by destruct (Hl _ Hy)].
  apply list_elem_of_singleton, (f_equal profile_answer) in Hy. simpl in Hy. by simplify_eq.
Qed.

Lemma ResolveProxyTLS_sat fips h :
  sat (ResolveProxyTLS fips) h (λ h' r, ∃ x,
    h' = h ++ [Ev (GetUnstructured apiServerGVK apiServerName) x] ∧
    r = (interp (profileEnv x) (ResolveProxyTLS fips) ()).1).
Proof. intros x. by exists x. Qed.

Lemma applySidecar_sat ns w wk img sts h :
  without is_profile h →
  sat (applySidecar cfg ns w wk img sts) h (λ h' r, ∀ s write err,
    r = Next (s, write, err) → read_unusable h' →
    write = false ∨ template_kept (stsSpec_Template (sts_Spec s)) h').
Proof.
  intros Hh. unfold applySidecar.
  destruct (cfg_UseKubeGateway cfg && _); [|by intros s wr err _ Hr; destruct (no_profile_read h)].
  rewrite sat_bind. eapply sat_mono.
  { apply (avoids_sat is_profile); [|exact Hh]. unfold avoids. calls. }
  intros h1 fips [_ Hh1]. rewrite sat_bind. eapply sat_mono; [apply ResolveProxyTLS_sat|].
  intros h2 tls (x & -> & Htls).
  assert (Hx : ∀ l, without is_profile l →
    read_unusable ((h1 ++ [Ev (GetUnstructured apiServerGVK apiServerName) x]) ++ l) →
    ∃ e, tls = Err e).
  { intros l Hl Hr. rewrite <-(assoc_L (++)) in Hr. rewrite Htls.
    by apply (read_unusable_last h1 x l). }
  clear Htls. destruct tls as [tls|tlsErr|why].
  - rewrite sat_fbind. destruct (generateKubeRBACProxySidecar _ _ _ _ _) as [o|e|why]; simpl;
      try by intros ? ? ? [=]. intros s wr err _ Hr.
    destruct (Hx [] (Forall_nil_2 _)) as [e [=]]. by rewrite app_nil_r.
  - unfold findOwnedStatefulSet. rewrite !sat_fbind. intros [items|e]; simpl; [|by intros ? ? ? [=]].
    set (h2 := _ ++ [_]).
    destruct items as [|o1 [|o2 items]]; simpl; intros s wr err Hnext _; simplify_eq/=; [by left|right..].
    + left. eexists _, _, o1. split; [subst h2; apply elem_of_app; right; by apply elem_of_cons; left|].
      split; [set_solver|done].
    + right. eexists _, _. split; [subst h2; apply elem_of_app; right; by apply elem_of_cons; left|].
      simpl. lia.
  - by intros ? ? ? [=].
Qed.

Lemma applySidecar_no_write ns w wk img sts :
  avoids is_sts_write (applySidecar cfg ns w wk img sts).
Proof. unfold avoids. calls. Qed.

Lemma read_unusable_before h l :
  without is_profile l → read_unusable (h ++ l) → read_unusable h.
Proof.
  intros Hl (x & [Hx|Hx]%elem_of_app & Hu); [by exists x|].
  unfold without in Hl. rewrite Forall_forall in Hl. by destruct (Hl _ Hx).
Qed.

Lemma copy_template d t t' u :
  CopyStatefulSetFields d t = Ok (t', u) →
  stsSpec_Template (sts_Spec t') = stsSpec_Template (sts_Spec d).
Proof. by intros (rd & rt & _ & _ & -> & _)%CopyStatefulSetFields_ok. Qed.

Lemma writeStatefulSet_after ns w sts write h :
  (read_unusable h → write = false ∨ template_kept (stsSpec_Template (sts_Spec sts)) h) →
  calls_after sts_ok (writeStatefulSet ns w sts write) h.
Proof.
  intros Hk. unfold writeStatefulSet. destruct write; [|done].
  unfold reconcileOwnedStatefulSet. apply calls_after_fbind.
  { apply sts_ok_no_write. unfold avoids. calls. }
  intros [items|err]; simpl; [|done]. set (h1 := h ++ [_]).
  assert (Hw : ∀ o, stsSpec_Template (sts_Spec o) = stsSpec_Template (sts_Spec sts) →
    read_unusable h1 → template_kept (stsSpec_Template (sts_Spec o)) h1).
  { intros o -> Hr. apply (template_kept_mono _ h); [by apply prefix_app_r|].
    apply read_unusable_before in Hr; [|by repeat constructor; intros []].
    by destruct (Hk Hr). }
  destruct items as [|o [|o2 items]]; unfold reconcileOwned.
  - split; [|by intros [?|?]]. intros Hr. by apply Hw.
  - apply calls_after_fbind; [by destruct (CopyStatefulSetFields sts o)|].
    destruct (CopyStatefulSetFields sts o) as [[o' changed]|e|why] eqn:Hc; simpl; [|done..].
    destruct changed; [|done]. split; [|intros [?|err]; simpl; [done|by destruct (IsConflict err)]].
    intros Hr. apply Hw; [by eapply copy_template|done].
  - apply sts_ok_no_write. unfold avoids. calls.
Qed.

Lemma prune_no_write todo items : calls_ok (λ X q, ¬ is_sts_write X q) (pruneRoleBindings todo items).
Proof.
  revert todo. induction items as [|f items IH]; intros todo; cbn [pruneRoleBindings]; [done|].
  destruct (todo !! _); [case_bool_decide; [destruct (CopyRoleBindingFields _ _) as [[? []]| |]|]|];
    try done; try (split; [intros []|]; intros [?|?]; simpl; repeat case_match; done || apply IH).
Qed.

Lemma create_no_write todo : calls_ok (λ X q, ¬ is_sts_write X q) (createRoleBindings todo).
Proof.
  induction todo as [|[n rb] todo IH]; cbn [createRoleBindings]; [done|].
  split; [intros []|]. by intros [?|?].
Qed.

#[local] Hint Resolve prune_no_write create_no_write : calls.

(** The stages before the sidecar do not read the profile. *)
Lemma stages_no_profile ns w wk img pc sa :
  avoids is_profile (fetchWorkspaceKind w) ∧ avoids is_profile (resolveOptions w wk) ∧
  avoids is_profile (reconcileServiceAccount ns w) ∧
  avoids is_profile (prepareStatefulSet cfg ns w wk img pc sa) ∧
  avoids is_profile (reconcileService ns w img).
Proof. unfold avoids. split_and!; calls. Qed.

(** The stages after the StatefulSet do not write it. *)
Lemma stages_no_write c ns w wk img svc sa rs :
  avoids is_sts_write (reconcileRouting cfg ns w wk img svc sa) ∧
  avoids is_sts_write (reconcileRoleBindings w wk sa) ∧
  avoids is_sts_write (reconcilePod hasHTTPProber hasPodExecutor c ns w rs).
Proof. unfold avoids. split_and!; calls. Qed.

(** A stage that does not read the profile, and what follows. *)
Lemma sts_ok_stage {A B} (p : prog (flow A)) (f : A → prog (flow B)) h :
  avoids is_profile p → without is_profile h →
  (∀ a h', without is_profile h' → calls_after sts_ok (f a) h') →
  calls_after sts_ok (fbind p f) h.
Proof.
  intros Hp Hh Hf. apply calls_after_fbind; [by apply sts_ok_no_profile|].
  eapply sat_mono; [by apply avoids_sat|]. intros h' [a|o] [_ Hh']; [by apply Hf|done].
Qed.

Lemma resources_sts_ok ns w h :
  without is_profile h → calls_after sts_ok (reconcileResources cfg ns w) h.
Proof.
  intros Hh. unfold reconcileResources.
  apply sts_ok_stage; [apply (stages_no_profile ns w (exKind [] [] None []) (exImage "" None [])
    (exPodConfig "" None) "")|done|].
  intros wk h1 Hh1. apply sts_ok_stage; [apply (stages_no_profile ns w wk (exImage "" None [])
    (exPodConfig "" None) "")|done|].
  intros [[w2 img] pc] h2 Hh2.
  apply sts_ok_stage; [apply (stages_no_profile ns w2 wk img pc "")|done|]. intros sa h3 Hh3.
  apply sts_ok_stage; [apply (stages_no_profile ns w2 wk img pc sa)|done|]. intros sts h4 Hh4.
  apply sts_ok_stage; [apply (stages_no_profile ns w2 wk img pc sa)|done|]. intros svc h5 Hh5.
  apply calls_after_fbind; [apply sts_ok_no_write, applySidecar_no_write|].
  eapply sat_mono; [by apply applySidecar_sat|].
  intros h6 [[[sts' write] err]|o] Hk; [|done]. specialize (Hk _ _ _ eq_refl).
  apply calls_after_fbind; [by apply writeStatefulSet_after|].
  eapply sat_mono; [apply sat_prefix|]. intros h7 [[name sts2]|o] _; [|done].
  apply sts_ok_no_write. apply calls_ok_fbind.
  { apply (stages_no_write ∅ ns w2 wk img svc sa
      (mkResources w2 wk img pc sa name sts2 err)). }
  intros w3. apply calls_ok_bind.
  { apply (stages_no_write ∅ ns w3 wk img svc sa (mkResources w3 wk img pc sa name sts2 err)). }
  by intros [?|?|?].
Qed.

Lemma Reconcile_sts_ok c ns name :
  calls_after sts_ok (Reconcile cfg hasHTTPProber hasPodExecutor c ns name) [].
Proof.
  assert (Hfetch : avoids is_profile (fetchWorkspace cfg ns name)) by (unfold avoids; calls).
  unfold Reconcile. apply calls_after_bind; [by apply sts_ok_no_profile; [|constructor]|].
  eapply sat_mono; [apply avoids_sat; [exact Hfetch|constructor]|].
  intros h1 [w|o] [_ Hh1]; [|done]. apply calls_after_bind; [by apply resources_sts_ok|].
  eapply sat_mono; [apply sat_prefix|]. intros h2 [rs|o] _; [|done].
  apply sts_ok_no_write. apply calls_ok_bind; [|by intros [? ?]].
  apply (stages_no_write c ns w (rs_kind rs) (rs_image rs)
    (mkService emptyMeta (mkServiceSpec [] ∅ "" "")) "" rs).
Qed.

(** ** Properties *)

(** C1: The cleanup finalizer of a Workspace is removed only after the cluster-scoped
    ClusterRoleBinding and the HTTPRoute in the controller's namespace are gone: in
    every history of [Reconcile], an update that sends a Workspace without the
    finalizer comes after answers by which each was missing, or was found and its
    deletion succeeded or found it missing; and the Workspace was being deleted. *)
Theorem finalizer_removed_after_cleanup c ns name h1 w' x h2 r :
  runs (Reconcile cfg hasHTTPProber hasPodExecutor c ns name)
    (h1 ++ Ev (Update KWorkspace w') x :: h2) r →
  ContainsFinalizer (ws_Meta w') WorkspaceFinalizer = false →
  ∃ w, fetched ns name w h1 ∧ is_Some (meta_DeletionTimestamp (ws_Meta w)) ∧
    gone KClusterRoleBinding "" (clusterRoleBindingName (ws_Name w) (ws_Namespace w)) h1 ∧
    gone KHTTPRoute (cfg_ControllerNamespace cfg) (httpRouteName (ws_Namespace w) (ws_Name w)) h1.
Proof.
  intros Hr Hno.
  destruct (calls_after_runs _ _ _ _ _ _ _ _ _ (Reconcile_finalizer_safe c ns name) Hr)
    as [Hkeep|Hsafe]; [simpl in Hkeep; congruence|exact Hsafe].
Qed.

(** C2: The sidecar fails closed: once a reconcile has read a cluster TLS profile that
    cannot be applied, every StatefulSet it creates or updates carries the pod
    template of a StatefulSet the API server listed in this reconcile, so no new
    template is published, provided no list showed more than one StatefulSet. *)
Theorem unusable_tls_keeps_template c ns name h1 o x h2 r :
  runs (Reconcile cfg hasHTTPProber hasPodExecutor c ns name)
    (h1 ++ Ev (Update KStatefulSet o) x :: h2) r ∨
  runs (Reconcile cfg hasHTTPProber hasPodExecutor c ns name)
    (h1 ++ Ev (Create KStatefulSet o) x :: h2) r →
  read_unusable h1 → ¬ listed_many h1 →
  listed_template (stsSpec_Template (sts_Spec o)) h1.
Proof.
  intros Hr Hread Hmany.
  assert (template_kept (stsSpec_Template (sts_Spec o)) h1) as [|]; [|done..].
  destruct Hr as [Hr|Hr];
    exact (calls_after_runs _ _ _ _ _ _ _ _ _ (Reconcile_sts_ok c ns name) Hr Hread).
Qed.

(** Every status update carries the state [Error]. *)
Definition persists_error {X} (q : req X) : Prop :=
  match q with
  | UpdateStatus KWorkspace w => st_State (ws_Status w) = WorkspaceStateError
  | _ => True
  end.

(** An unusable TLS profile keeps the minimum running time from ever being
    reached across reconciles: the status persisted with a TLS error has the state
    [Error], and a reconcile that starts from this state and finds the Pod up resets
    [lastRunningTime] to a time read in the same reconcile, so that a pause needs the
    minimum running time to pass between two readings of the clock in one reconcile. *)
Theorem tls_error_restarts_running_time :
  (∀ orig w res paused err,
     calls_ok (@persists_error) (finishReconcile orig w res paused (Some err))) ∧
  (∀ c w wk img pc pod sts sa h r w' res,
     st_State (ws_Status w) = WorkspaceStateError →
     runs (reconcileStatus hasHTTPProber hasPodExecutor c w wk img pc pod sts sa) h r →
     r.1 = Next (w', res, true) →
     ∃ t1 t2 dec, Ev Now t1 ∈ h ∧ Ev Now t2 ∈ h ∧
       st_LastRunningTime (ws_Status w') = UnixMilli t1 ∧
       (IsEligibleForPause (act_LastActivity (st_Activity (ws_Status w')))
          (UnixMilli t1) (UnixMilli t2)
          (dec_SecondsSinceActive (T := bool) dec) (dec_MinRunningSeconds dec)).1 = true).
Proof.
  split; [intros; calls; done|].
  intros c w wk img pc pod sts sa h r w' res Herr Hr. revert Hr.
  assert (Hs : sat (reconcileStatus hasHTTPProber hasPodExecutor c w wk img pc pod sts sa) [] (λ h r,
    r.1 = Next (w', res, true) → ∃ t1 t2 dec, Ev Now t1 ∈ h ∧ Ev Now t2 ∈ h ∧
       st_LastRunningTime (ws_Status w') = UnixMilli t1 ∧
       (IsEligibleForPause (act_LastActivity (st_Activity (ws_Status w')))
          (UnixMilli t1) (UnixMilli t2)
          (dec_SecondsSinceActive (T := bool) dec) (dec_MinRunningSeconds dec)).1 = true));
    [|intros Hr; exact (proj1 (sat_runs _ [] _) Hs h r Hr)].
  unfold reconcileStatus. rewrite sat_bind. apply sat_runs.
  intros h1 [[s res1] err] Hst%generateWorkspaceStatus_runs. destruct err as [e|]; [done|].
  simpl app. rewrite sat_bind. eapply sat_mono; [apply reconcileActivity_sat|].
  intros h2 out Hrun. destruct Hrun as [|?|? ? ? ? ? ? d|p t a nsl x h' pr w2 d c'
    Hp Hrunning Hdue Hns Hcon Hsucc He]; simpl; [by intros [=]|done|by destruct d; intros [=]|].
  destruct d as [paused|]; [|done]. intros [= <- _ ->].
  pose proof (evaluatePauseDecision_frame _ _ _ _ _ _ _ _ _ _ He) as [rr ->].
  apply evaluatePauseDecision_true in He as [Hok (dec & _ & _ & _ & Hel)].
  destruct (stc_transition _ _ _ _ _ _ Hst eq_refl) as [_ (t1 & Ht1 & Hlast)].
  { split; [exact Hrunning|]. left. congruence. }
  exists t1, t, dec. unfold updateActivityStatusFromProbe in *. rewrite Hok in *. simpl in *.
  rewrite Hlast in *. split_and!; [set_solver..|done|done].
Qed.
End spec.

(** ** Picking events out of a history *)

Section pick.
Context {A : Type} (f : event → option A).

(** The first event that [f] recognises, with what comes before and after. *)
Fixpoint first_split (h : list event) : option (list event * A * list event) :=
  match h with
  | [] => None
  | e :: h =>
    match f e with
    | Some a => Some ([], a, h)
    | None => (λ '(h1, a, h2), (e :: h1, a, h2)) <$> first_split h
    end
  end.

Lemma first_split_Some h h1 a h2 :
  first_split h = Some (h1, a, h2) → ∃ e, f e = Some a ∧ h = h1 ++ e :: h2.
Proof.
  revert h1. induction h as [|e h IH]; intros h1; simpl; [done|].
  destruct (f e) as [a'|] eqn:He; [intros [= <- <- <-]; by exists e|].
  intros ([[h1' a'] h2'] & Hh & [= -> -> ->])%fmap_Some. destruct (IH _ Hh) as (e' & ? & ->).
  by exists e'.
Qed.
End pick.

Definition as_patch (e : event) : option (Workspace * Workspace * answer Workspace) :=
  match e with
  | Ev q x => match q in req X return X → option (Workspace * Workspace * answer Workspace) with
              | Patch KWorkspace o b => λ x, Some (o, b, x)
              | _ => λ _, None
              end x
  end.

Lemma as_patch_Some e o b x : as_patch e = Some (o, b, x) → e = Ev (Patch KWorkspace o b) x.
Proof. destruct e as [X q y]. destruct q; try destruct k; simpl; try done. by intros [= <- <- <-]. Qed.

Definition as_update (e : event) : option (Workspace * answer Workspace) :=
  match e with
  | Ev q x => match q in req X return X → option (Workspace * answer Workspace) with
              | Update KWorkspace o => λ x, Some (o, x)
              | _ => λ _, None
              end x
  end.

Lemma as_update_Some e o x : as_update e = Some (o, x) → e = Ev (Update KWorkspace o) x.
Proof. destruct e as [X q y]. destruct q; try destruct k; simpl; try done. by intros [= <- <-]. Qed.

Definition as_sts_update (e : event) : option (StatefulSet * answer StatefulSet) :=
  match e with
  | Ev q x => match q in req X return X → option (StatefulSet * answer StatefulSet) with
              | Update KStatefulSet o => λ x, Some (o, x)
              | _ => λ _, None
              end x
  end.

Lemma as_sts_update_Some e o x : as_sts_update e = Some (o, x) → e = Ev (Update KStatefulSet o) x.
Proof. destruct e as [X q y]. destruct q; try destruct k; simpl; try done. by intros [= <- <-]. Qed.

Definition as_sts_create (e : event) : option (StatefulSet * answer StatefulSet) :=
  match e with
  | Ev q x => match q in req X return X → option (StatefulSet * answer StatefulSet) with
              | Create KStatefulSet o => λ x, Some (o, x)
              | _ => λ _, None
              end x
  end.

Lemma as_sts_create_Some e o x : as_sts_create e = Some (o, x) → e = Ev (Create KStatefulSet o) x.
Proof. destruct e as [X q y]. destruct q; try destruct k; simpl; try done. by intros [= <- <-]. Qed.

Definition as_sts_list (e : event) : option (list StatefulSet) :=
  match e with
  | Ev q x => match q in req X return X → option (list StatefulSet) with
              | List KStatefulSet _ => λ x, match x with inl l => Some l | inr _ => None end
              | _ => λ _, None
              end x
  end.

Definition few_check (h : list event) : bool :=
  forallb (λ e, match as_sts_list e with Some l => (length l <=? 1)%nat | None => true end) h.

Lemma not_listed_many h : few_check h = true → ¬ listed_many h.
Proof.
  unfold few_check.
  intros Hall (opts & items & Hin & Hlen). rewrite forallb_forall in Hall.
  apply list_elem_of_In, Hall in Hin. simpl in Hin. apply Nat.leb_le in Hin. lia.
Qed.

(** ** Witnesses *)

Definition exCfg (gateway : bool) : EnvConfig :=
  mkEnvConfig "kubeflow/gateway" "*" "cluster.local" false gateway "gw" "gw-ns" "controller-ns"
    "proxy:1".

Definition exReconcile (gateway : bool) : prog (outcome * gmap string (option string + error)) :=
  Reconcile (H := exampleOwnerLib) (H0 := exampleTemplates) (H1 := exampleSelectorLib)
    (H2 := exampleProbeLib) (H3 := canonicalOrder) (H4 := exampleUnstructured)
    (exCfg gateway) true true ∅ "ns" "test".

(** An API server that serves a Workspace and its kind, the StatefulSets that the
    [n]-th list shows, a Pod, and a TLS profile that may not be read. *)
Definition exCluster (w : Workspace) (wk : WorkspaceKind) (lists : nat → list StatefulSet)
    (pod : option Pod) : handler nat := λ X q n,
  match q in req X return X → X * nat with
  | Get KWorkspace _ _ => λ _, (inl w, n)
  | Get KWorkspaceKind _ _ => λ _, (inl wk, n)
  | Get KPod _ _ => λ x, (match pod with Some p => inl p | None => x end, n)
  | List KStatefulSet _ => λ _, (inl (lists n), S n)
  | GetUnstructured _ _ => λ _, (inr (ApiError Forbidden "forbidden"), n)
  | _ => λ x, (x, n)
  end (exampleActivityEnv X q ()).1.

Definition exDeleted : Workspace :=
  ws_setMeta (exampleIdle None)
    (mkObjectMeta "test" "" "ns" "uid-1" "1" 1 0 (Some 1%Z) None None [] [WorkspaceFinalizer]).

Definition exHTTPKind : WorkspaceKind := exampleIdleKind.

Definition exReadyPod : Pod :=
  mkPod (mkObjectMeta "ws-test-abc-0" "" "ns" "pod-uid" "1" 1 0 None None None [] [])
    "node" [mkPodContainer "main" ""] [] [] "Running" "10.0.0.1"
    [mkPodCondition "PodScheduled" "True" "" ""; mkPodCondition "Ready" "True" "" ""] [] [].

Definition exRun (gateway : bool) (w : Workspace) (lists : nat → list StatefulSet)
    (pod : option Pod) : list event :=
  trace (exCluster w exHTTPKind lists pod) (exReconcile gateway) 0.

(** A fact about the trace of a run, computed once, holds of a list of events of which
    nothing else need be known. *)
Lemma exRun_runs (P : list event → Prop) gateway w lists pod :
  P (exRun gateway w lists pod) → ∃ h r, runs (exReconcile gateway) h r ∧ P h.
Proof.
  intros HP. eexists (exRun gateway w lists pod), _. split; [apply interp_runs|exact HP].
Qed.

(** The same about the first event [f] picks. *)
Definition first_event {A} (f : event → option A) (P : list event → A → bool)
    (h : list event) : Prop :=
  match first_split f h with Some (h1, a, h2) => P h1 a | None => false end = true.

Lemma exRun_first {A} (f : event → option A) P gateway w lists pod :
  first_event f P (exRun gateway w lists pod) →
  ∃ h1 a e h2 r, runs (exReconcile gateway) (h1 ++ e :: h2) r ∧ f e = Some a ∧ P h1 a = true.
Proof.
  intros (h & r & Hr & Hf)%exRun_runs. unfold first_event in Hf.
  destruct (first_split f h) as [[[h1 a] h2]|] eqn:Hs; [|discriminate].
  apply first_split_Some in Hs as (e & He & ->). by exists h1, a, e, h2, r.
Qed.

(** A Workspace being deleted whose resources are gone. *)
Lemma finalizer_removed_after_cleanup_witness :
  ∃ h1 w, fetched "ns" "test" w h1 ∧ is_Some (meta_DeletionTimestamp (ws_Meta w)) ∧
    gone KHTTPRoute "controller-ns" (httpRouteName (ws_Namespace w) (ws_Name w)) h1.
Proof.
  destruct (exRun_first as_update
    (λ _ '(w', _), negb (ContainsFinalizer (ws_Meta w') WorkspaceFinalizer))
    false exDeleted (λ _, []) None) as (h1 & [w' x] & e & h2 & r & Hr & ->%as_update_Some & Hno);
    [vm_compute; reflexivity|].
  apply negb_true_iff in Hno.
  destruct (finalizer_removed_after_cleanup (H := exampleOwnerLib) (H0 := exampleTemplates)
    (H1 := exampleSelectorLib) (H2 := exampleProbeLib) (H3 := canonicalOrder)
    (H4 := exampleUnstructured) (exCfg false) true true ∅ "ns" "test"
    _ _ _ _ _ Hr Hno)
    as (w & Hf & Hd & _ & Hg).
  exists h1, w. split; [exact Hf|]. split; [exact Hd|exact Hg].
Defined.

(** Reading the profile is forbidden: resolving it fails. *)
Lemma exUnusable :
  profile_unusable (H4 := exampleUnstructured) (inr (ApiError Forbidden "forbidden")).
Proof. intros fips. eexists. vm_compute. reflexivity. Qed.

Definition as_profile (e : event) : option (string * string * answer string) :=
  match e with
  | Ev q x => match q in req X return X → option (string * string * answer string) with
              | GetUnstructured gvk name => λ x, Some (gvk, name, x)
              | _ => λ _, None
              end x
  end.

Definition unusable_check (h : list event) : bool :=
  existsb (λ e, bool_decide (as_profile e = Some (apiServerGVK, apiServerName,
                               inr (ApiError Forbidden "forbidden")))) h.

Lemma unusable_check_sound h :
  unusable_check h = true → read_unusable (H4 := exampleUnstructured) h.
Proof.
  intros (e & Hin%list_elem_of_In & He%bool_decide_eq_true)%existsb_exists.
  exists (inr (ApiError Forbidden "forbidden")). split; [|apply exUnusable].
  assert (e = Ev (GetUnstructured apiServerGVK apiServerName)
                 (inr (ApiError Forbidden "forbidden"))) as <-; [|done].
  destruct e as [X q y]. destruct q; simpl in He; try done. by injection He as -> -> ->.
Qed.

(** The existing StatefulSet keeps its (empty) pod template. *)
Lemma unusable_tls_keeps_template_witness :
  ∃ h1 o, listed_template (stsSpec_Template (sts_Spec o)) h1.
Proof.
  destruct (exRun_first as_sts_update (λ h1 _, unusable_check h1 && few_check h1) true
    (exampleIdle None) (λ _, [exSts]) (Some exReadyPod))
    as (h1 & [o x] & e & h2 & r & Hr & ->%as_sts_update_Some & Hc); [vm_compute; reflexivity|].
  apply andb_true_iff in Hc as [Hu%unusable_check_sound Hm%not_listed_many].
  exists h1, o.
  exact (unusable_tls_keeps_template (H := exampleOwnerLib) (H0 := exampleTemplates)
    (H1 := exampleSelectorLib) (H2 := exampleProbeLib) (H3 := canonicalOrder)
    (H4 := exampleUnstructured) (exCfg true) true true ∅ "ns" "test"
    _ _ _ _ _ (or_introl Hr) Hu Hm).
Defined.

(** ** Behaviours the comments rule out *)

(** Without KubeGateway the StatefulSet is reconciled twice in one reconcile, so a
    list that lags behind makes the second pass create again what the first one just
    created: the second request sends the object the API server returned for the
    first. *)
Theorem statefulset_created_twice :
  ∃ h r o1 o2 x, runs (exReconcile false) h r ∧
    omap as_sts_create h = [(o1, inl o2); (o2, x)].
Proof.
  destruct (exRun_runs (λ h, match omap as_sts_create h with
                             | [(_, inl o); (o2, _)] => o = o2
                             | _ => False
                             end) false (exampleIdle None) (λ _, []) (Some exReadyPod))
    as (h & r & Hr & Hh); [vm_compute; reflexivity|].
  exists h, r. destruct (omap as_sts_create h) as [|[o1 [o|]] [|[o2 x] [|]]]; try done.
  subst o. by exists o1, o2, x.
Qed.

(** The first list shows two StatefulSets, every later one a single StatefulSet. *)
Definition exShrinking (n : nat) : list StatefulSet :=
  match n with O => [exSts; exSts] | S _ => [exSts] end.

(** When the first list shows two StatefulSets and the second shows one, a
    reconcile that has read an unusable TLS profile updates that one to a freshly
    generated pod template without the kube-rbac-proxy sidecar. *)
Theorem unusable_tls_drops_sidecar :
  ∃ h1 o x h2 r, runs (exReconcile true) (h1 ++ Ev (Update KStatefulSet o) x :: h2) r ∧
    read_unusable (H4 := exampleUnstructured) h1 ∧
    ctr_Name <$> pspec_Containers (ptpl_Spec (stsSpec_Template (sts_Spec o))) = ["main"].
Proof.
  destruct (exRun_first as_sts_update
    (λ h1 '(o, _), unusable_check h1 &&
       bool_decide (ctr_Name <$> pspec_Containers (ptpl_Spec (stsSpec_Template (sts_Spec o)))
                    = ["main"])) true (exampleIdle None) exShrinking (Some exReadyPod))
    as (h1 & [o x] & e & h2 & r & Hr & ->%as_sts_update_Some & Hc); [vm_compute; reflexivity|].
  apply andb_true_iff in Hc as [Hu%unusable_check_sound Ho%bool_decide_eq_true_1].
  exists h1, o, x, h2, r. by split.
Qed.
