(* ===== verification/Triples.v ===== *)
(** * Triples over histories

    Proving a property of every request of a long program needs, at each request, what the
    earlier stages have established.  [triple P p h Q]: started after the history [h], every
    request of [p] satisfies [P] of the history before it, and every run ends with a longer
    history and a result that satisfy [Q].  The rules follow the program's structure; [flows]
    is the postcondition of a stage that may return early. *)

From stdpp Require Import base gmap strings list.
From S2P Require Import Prelude K8sTypes ApiTypes Client Owned.

Definition triple {R} (P : list event → ∀ X, req X → Prop) (p : prog R) (h : list event)
    (Q : list event → R → Prop) : Prop :=
  calls_after P p h ∧ sat p h (λ h' r, h `prefix_of` h' ∧ Q h' r).

(** What a stage hands to the code below. *)
Definition flows {A} (Q : list event → A → Prop) (h : list event) (r : flow A) : Prop :=
  match r with Next a => Q h a | Return _ => True end.

Section rules.
Context {P : list event → ∀ X, req X → Prop}.

Lemma triple_ret {R} (r : R) h (Q : list event → R → Prop) : Q h r → triple P (Ret r) h Q.
Proof. by intros HQ. Qed.

Lemma triple_mono {R} (p : prog R) h (Q Q' : list event → R → Prop) :
  triple P p h Q → (∀ h' r, h `prefix_of` h' → Q h' r → Q' h' r) → triple P p h Q'.
Proof.
  intros [Hc Hs] HQ. split; [done|]. eapply sat_mono; [exact Hs|]. intros h' r [Hp Hr]. auto.
Qed.

Lemma triple_bind {A B} (p : prog A) (f : A → prog B) h (R : list event → A → Prop) Q :
  triple P p h R → (∀ h' a, h `prefix_of` h' → R h' a → triple P (f a) h' Q) →
  triple P (pbind p f) h Q.
Proof.
  intros [Hc Hs] Hf. split.
  - apply calls_after_bind; [done|]. eapply sat_mono; [exact Hs|]. intros h' a [Hp Ha].
    by apply Hf.
  - rewrite sat_bind. eapply sat_mono; [exact Hs|]. intros h' a [Hp Ha].
    eapply sat_mono; [apply (Hf h' a Hp Ha)|]. intros h'' r [Hp' Hr]. split; [by etrans|done].
Qed.

Lemma triple_vis {X R} (q : req X) (k : X → prog R) h Q :
  P h X q → (∀ x, triple P (k x) (h ++ [Ev q x]) Q) → triple P (Vis q k) h Q.
Proof.
  intros Hq Hk. split; [split; [done|]; intros x; apply Hk|]. intros x.
  eapply sat_mono; [apply Hk|]. intros h' r [Hp Hr]. split; [|done].
  etrans; [|exact Hp]. by apply prefix_app_r.
Qed.

Lemma triple_call {X R} (q : req X) (k : X → prog R) h Q :
  P h X q → (∀ x, triple P (k x) (h ++ [Ev q x]) Q) → triple P (pbind (call q) k) h Q.
Proof. apply (triple_vis q k). Qed.

Lemma triple_fbind {A B} (p : prog (flow A)) (f : A → prog (flow B)) h
    (R : list event → A → Prop) Q :
  triple P p h (flows R) →
  (∀ h' a, h `prefix_of` h' → R h' a → triple P (f a) h' (flows Q)) →
  triple P (fbind p f) h (flows Q).
Proof.
  intros Hp Hf. unfold fbind. eapply triple_bind; [exact Hp|].
  intros h' [a|o] Hpre HR; [by apply Hf|by apply triple_ret].
Qed.

(** Requests that satisfy [P] after any history. *)
Lemma triple_ok {R} (P0 : ∀ X, req X → Prop) (p : prog R) h :
  (∀ h X (q : req X), P0 X q → P h X q) → calls_ok P0 p → triple P p h (λ _ _, True).
Proof.
  intros HP Hp. split; [by eapply calls_ok_after|].
  eapply sat_mono; [apply sat_prefix|]. auto.
Qed.

Lemma triple_sat {R} (p : prog R) h Q :
  triple P p h (λ _ _, True) → sat p h Q → triple P p h Q.
Proof.
  intros [Hc _] Hs. split; [done|]. eapply sat_mono; [apply (sat_and _ _ _ _ (sat_prefix p h) Hs)|].
  auto.
Qed.

Lemma triple_runs {R} (p : prog R) Q h1 X (q : req X) x h2 r :
  triple P p [] Q → runs p (h1 ++ Ev q x :: h2) r → P h1 X q.
Proof. intros [Hc _] Hr. exact (calls_after_runs P p [] h1 X q x h2 r Hc Hr). Qed.

(** ** Pure steps *)

Lemma or_panic_triple {A} (g : go A) h (Q : list event → A → Prop) :
  (∀ a, g = Ok a → Q h a) → triple P (or_panic g) h (flows Q).
Proof. intros HQ. destruct g; apply triple_ret; simpl; auto. Qed.

Lemma setController_triple `{OwnerLib} w k (o : obj k) h (Q : list event → obj k → Prop) :
  (∀ m, SetControllerReference w (obj_Meta k o) = inl m → Q h (obj_setMeta k o m)) →
  triple P (setController w k o) h (flows Q).
Proof.
  intros HQ. unfold setController. destruct (SetControllerReference _ _); apply triple_ret; simpl; auto.
Qed.

Lemma or_return_triple {A} (a : answer A) h (Q : list event → A → Prop) :
  (∀ v, a = inl v → Q h v) → triple P (or_return a) h (flows Q).
Proof. intros HQ. destruct a; apply triple_ret; simpl; auto. Qed.
End rules.
