(* ===== verification/Quiescence.v ===== *)
(** * The Workspace reconciler writes only what differs

    A reconciler that writes what is already there wakes itself up for ever: every write is a
    watch event that requeues the Workspace.  [writes_justified] shows of every history of
    [Reconcile] that no create, update, status update or deletion is without a reason in what
    was read before.  The one write that is not compared with anything is the patch that
    pauses the Workspace ([Pausing.paused_workspace_patched]). *)

From Stdlib Require Import ZArith.
From stdpp Require Import base gmap strings list.
From S2P Require Import Prelude K8sTypes ApiTypes Names CopyFields Options Client Examples.
From S2P Require Import Probe Activity State TLS Generate Field Webhook Owned RoleBindings Reconcile.
From S2P Require Import Triples ReconcileSpec.

(** ** Why a write is sent *)

(** The API server answered with the object. *)
Definition served (k : kind) (o : obj k) (h : list event) : Prop :=
  (∃ ns n, Ev (Get k ns n) (inl o) ∈ h) ∨
  (∃ opts items, Ev (List k opts) (inl items) ∈ h ∧ o ∈ items) ∨
  (∃ o', Ev (Update k o') (inl o) ∈ h).

(** [m] is the metadata of the same object at the same resource version. *)
Definition same_version (m0 m : ObjectMeta) : Prop :=
  meta_Namespace m = meta_Namespace m0 ∧ meta_Name m = meta_Name m0 ∧
  meta_UID m = meta_UID m0 ∧ meta_ResourceVersion m = meta_ResourceVersion m0.

(** [m] is [m0] with the finalizer [f] added, or removed, and nothing else. *)
Definition changes_finalizer (f : string) (m0 m : ObjectMeta) : Prop :=
  m = setFinalizers m0 (meta_Finalizers m) ∧
  ContainsFinalizer m f = negb (ContainsFinalizer m0 f) ∧
  filter (λ g, g ≠ f) (meta_Finalizers m) = filter (λ g, g ≠ f) (meta_Finalizers m0).

(** An update of [o0] to [o] changes it.  The status of a Workspace and of a WorkspaceKind
    is a subresource: their updates change the controller's finalizer. *)
Definition updates (k : kind) : obj k → obj k → Prop :=
  match k return obj k → obj k → Prop with
  | KWorkspace => λ o0 o, ws_Spec o = ws_Spec o0 ∧
      changes_finalizer WorkspaceFinalizer (ws_Meta o0) (ws_Meta o)
  | KWorkspaceKind => λ o0 o, wsk_Spec o = wsk_Spec o0 ∧
      changes_finalizer WorkspaceKindFinalizer (wsk_Meta o0) (wsk_Meta o)
  | _ => λ o0 o, o ≠ o0
  end.

(** The RoleBinding was deleted. *)
Definition deleted (k : kind) (o : obj k) (h : list event) : Prop :=
  ∃ d, Ev (Delete k (meta_Namespace (obj_Meta k o)) (obj_Name k o)) d ∈ h ∧
    match d with inl _ => True | inr err => IsNotFound err = true end.

(** [item], listed, does not stand for [o]: it is the Service of the kube-rbac-proxy, or a
    RoleBinding of another name or deleted by now. *)
Definition other (k : kind) (o item : obj k) (h : list event) : Prop :=
  match k return obj k → obj k → Prop with
  | KService => λ _ item, isProxyService item = true
  | KRoleBinding => λ o item, rb_Name item ≠ rb_Name o ∨ deleted KRoleBinding item h
  | _ => λ _ _, False
  end o item.

(** There was no such object: it was not found, or not among the Workspace's own. *)
Definition missing (k : kind) (o : obj k) (h : list event) : Prop :=
  (∃ ns err, Ev (Get k ns (obj_Name k o)) (inr err) ∈ h ∧ IsNotFound err = true) ∨
  (∃ w ns items, served KWorkspace w h ∧
     Ev (List k (ownedListOptions (ws_Name w) ns)) (inl items) ∈ h ∧
     ∀ item, item ∈ items → other k o item h).

(** The reason for a request. *)
Definition justified (h : list event) (X : Type) (q : req X) : Prop :=
  match q with
  | Update k o => ∃ o0, served k o0 h ∧ same_version (obj_Meta k o0) (obj_Meta k o) ∧ updates k o0 o
  | UpdateStatus KWorkspace w =>
      (∃ w0, served KWorkspace w0 h ∧ ws_Status w ≠ ws_Status w0) ∧
      (∃ w1, served KWorkspace w1 h ∧ ws_Meta w = ws_Meta w1)
  | UpdateStatus _ _ => False
  | Create k o => missing k o h
  | Delete k ns n => ∃ o, served k o h ∧ meta_Namespace (obj_Meta k o) = ns ∧ obj_Name k o = n
  | Patch KWorkspace o base => served KWorkspace base h ∧ wsSpec_Paused (ws_Spec o) = true
  | Patch _ _ _ | JSONPatch _ _ _ _ => False
  | _ => True
  end.

Lemma served_mono k o h h' : h `prefix_of` h' → served k o h → served k o h'.
Proof.
  intros [l ->] [(ns & n & ?)|[(opts & items & ? & ?)|(o' & ?)]].
  - left. exists ns, n. set_solver.
  - right; left. exists opts, items. set_solver.
  - right; right. exists o'. set_solver.
Qed.

Lemma served_get k ns n (o : obj k) h : served k o (h ++ [Ev (Get k ns n) (inl o)]).
Proof. left. exists ns, n. set_solver. Qed.

Lemma served_update k o' (o : obj k) h : served k o (h ++ [Ev (Update k o') (inl o)]).
Proof. right; right. exists o'. set_solver. Qed.

Lemma deleted_mono k o h h' : h `prefix_of` h' → deleted k o h → deleted k o h'.
Proof. intros [l ->] (d & ? & ?). exists d. set_solver. Qed.

Lemma other_mono k o item h h' : h `prefix_of` h' → other k o item h → other k o item h'.
Proof.
  intros Hp. unfold other. destruct k; try done.
  intros [?|Hd]; [by left|]. right. by eapply (deleted_mono KRoleBinding).
Qed.

Lemma missing_mono k o h h' : h `prefix_of` h' → missing k o h → missing k o h'.
Proof.
  intros Hp [(ns & err & Hin & ?)|(w & ns & items & Hs & Hin & Hother)].
  - left. exists ns, err. split; [|done]. destruct Hp as [l ->]. set_solver.
  - right. exists w, ns, items. split; [by eapply served_mono|]. split.
    + destruct Hp as [l ->]. set_solver.
    + intros item Hitem. eapply other_mono; [exact Hp|by apply Hother].
Qed.

(** ** Copying fields *)

(** A copy that requires an update changes the object. *)
Lemma copy_changes `{CopyFieldsLaws T} (d t t' : T) : copyFields d t = Ok (t', true) → t' ≠ t.
Proof.
  intros Hc ->. pose proof (copy_converged d t t true Hc) as Hconv.
  by apply (copy_exact d t t true Hc) in Hconv.
Qed.

Lemma meta_frame_version m0 m : meta_frame m0 m → same_version m0 m.
Proof. intros Hf. unfold meta_frame in Hf. destruct m0, m. simpl in *. injection Hf as -> -> -> ->. done. Qed.

(** What the reconciler relies on of a [Copy*Fields] function. *)
Definition copies (k : kind) (copy : obj k → obj k → go (obj k * bool)) : Prop :=
  ∀ d t t', copy d t = Ok (t', true) →
    same_version (obj_Meta k t) (obj_Meta k t') ∧ updates k t t'.

(** By the laws of the interface. *)
Ltac copies :=
  intros d t t' Hc; split;
    [apply meta_frame_version; pose proof (copy_frame d t t' true Hc) as Hf; simpl in Hf; tauto
    |exact (copy_changes d t t' Hc)].

Lemma copies_StatefulSet : copies KStatefulSet CopyStatefulSetFields.
Proof. copies. Qed.
Lemma copies_Service : copies KService CopyServiceFields.
Proof. copies. Qed.
Lemma copies_ServiceAccount : copies KServiceAccount CopyServiceAccountFields.
Proof. copies. Qed.
Lemma copies_RoleBinding : copies KRoleBinding CopyRoleBindingFields.
Proof. copies. Qed.
Lemma copies_VirtualService : copies KVirtualService CopyVirtualServiceFields.
Proof. copies. Qed.
Lemma copies_HTTPRoute : copies KHTTPRoute CopyHTTPRouteFields.
Proof. copies. Qed.
Lemma copies_ConfigMap : copies KConfigMap CopyConfigMapFields.
Proof. copies. Qed.
Lemma copies_ReferenceGrant : copies KReferenceGrant CopyReferenceGrantFields.
Proof. copies. Qed.

Create HintDb copies.

#[local] Hint Resolve copies_StatefulSet copies_Service copies_ServiceAccount copies_RoleBinding
  copies_VirtualService copies_HTTPRoute copies_ConfigMap copies_ReferenceGrant : copies.

(** ** The stages *)

(** The Workspace in memory, as the API server last served it but for parts of the status. *)
Definition tracks (w : Workspace) (h : list event) : Prop :=
  ∃ w0, served KWorkspace w0 h ∧ ws_Meta w = ws_Meta w0 ∧ ws_Spec w = ws_Spec w0 ∧
    st_State (ws_Status w) = st_State (ws_Status w0) ∧
    st_StateMessage (ws_Status w) = st_StateMessage (ws_Status w0).

Lemma tracks_mono w h h' : h `prefix_of` h' → tracks w h → tracks w h'.
Proof. intros Hp (w0 & Hs & Hw). exists w0. split; [by eapply served_mono|done]. Qed.

Lemma served_tracks w h : served KWorkspace w h → tracks w h.
Proof. intros Hs. by exists w. Qed.

(** A later history: along the stages walked through. *)
Ltac later :=
  match goal with
  | |- ?h `prefix_of` ?h => done
  | H : ?h `prefix_of` ?h' |- ?h `prefix_of` ?h' => exact H
  | H : ?h `prefix_of` _ |- ?h `prefix_of` _ => etrans; [exact H|]; later
  end.

Ltac still_tracks :=
  cbv beta in *;
  match goal with Hw : tracks ?w ?h |- tracks ?w _ => apply (tracks_mono w h); [later|exact Hw] end.

Section stages.
Context `{OwnerLibLaws} `{TemplateLib} `{SelectorLib} `{ProbeLib} `{MapOrderLaws} `{UnstructuredLib}.
Context (cfg : EnvConfig) (hasHTTPProber hasPodExecutor : bool).

Abbreviation steps := (triple justified).

Lemma fail_steps {A} w msg h (Q : list event → A → Prop) :
  tracks w h → steps (fail w msg) h (flows Q).
Proof.
  intros (w0 & Hs & Hm & _ & Hst & Hmsg). unfold fail, updateWorkspaceState.
  destruct (bool_decide _ && bool_decide _) eqn:Heq; [by apply triple_ret|].
  apply triple_call; [|intros x; by apply triple_ret]. split; [|exists w0; by split].
  exists w0. split; [done|]. intros Hstatus. simpl in Hstatus.
  apply (f_equal (λ s, (st_State s, st_StateMessage s))) in Hstatus. simpl in Hstatus.
  injection Hstatus as E1 E2. rewrite Hst, Hmsg, <-E1, <-E2 in Heq.
  by rewrite !bool_decide_eq_true_2 in Heq.
Qed.

Lemma or_fail_steps {A} (g : go A) w msg h (Q : list event → A → Prop) :
  tracks w h → (∀ a, g = Ok a → Q h a) → steps (or_fail g w msg) h (flows Q).
Proof.
  intros Hw HQ. destruct g as [a|e|p]; [apply triple_ret, HQ; done|by apply fail_steps|by apply triple_ret].
Qed.

Lemma listOwned_steps k n ns h :
  steps (listOwned k n ns) h (flows (λ h' items, Ev (List k (ownedListOptions n ns)) (inl items) ∈ h')).
Proof.
  apply triple_call; [done|]. intros x. apply or_return_triple. intros items ->. set_solver.
Qed.

Lemma updateFound_steps k policy (o : obj k) h :
  justified h _ (Update k o) → steps (updateFound k policy o) h (flows (λ h' o', served k o' h')).
Proof.
  intros Hj. apply triple_call; [done|]. intros [o'|err]; apply triple_ret.
  - apply served_update.
  - destruct policy; [|destruct (IsConflict err)]; exact I.
Qed.

Lemma copied_justified k copy d t t' h :
  copies k copy → copy d t = Ok (t', true) → served k t h → justified h _ (Update k t').
Proof. intros Hk Hc Hs. exists t. split; [done|]. by apply (Hk d). Qed.

Lemma reconcileOwned_steps k policy copy multiple create w items desired h :
  copies k copy → tracks w h → (∀ item, item ∈ items → served k item h) →
  (items = [] → steps (create desired) h (flows (λ _ _, True))) →
  steps (reconcileOwned k policy copy multiple create w items desired) h (flows (λ _ _, True)).
Proof.
  intros Hk Hw Hitems Hcreate. destruct items as [|item [|item2 items]]; cbn [reconcileOwned].
  - eapply triple_fbind; [by apply Hcreate|]. intros h' o _ _. by apply triple_ret.
  - eapply triple_fbind; [by apply or_panic_triple; intros a Ha; exact Ha|].
    intros h' [t' []] Hp Hc; [|by apply triple_ret].
    eapply triple_fbind; [apply updateFound_steps|intros h2 o _ _; by apply triple_ret].
    eapply copied_justified; [done..|]. eapply served_mono; [exact Hp|]. apply Hitems. set_solver.
  - by apply fail_steps.
Qed.

Lemma listed_served k opts items (item : obj k) h :
  Ev (List k opts) (inl items) ∈ h → item ∈ items → served k item h.
Proof. right; left. eauto. Qed.

Lemma none_missing k w ns (o : obj k) h :
  tracks w h → Ev (List k (ownedListOptions (ws_Name w) ns)) (inl []) ∈ h → missing k o h.
Proof.
  intros (w0 & Hs & Hm & _) Hin. right. exists w0, ns, []. split; [done|]. split.
  - unfold ws_Name in *. by rewrite <-Hm.
  - intros item []%elem_of_nil.
Qed.

Lemma createOwned_steps k (o : obj k) h :
  missing k o h → steps (createOwned k o) h (flows (λ _ _, True)).
Proof.
  intros Hm. apply triple_call; [done|]. intros x. by apply or_return_triple.
Qed.

Lemma ensureNamed_steps k ignore ns n (o : obj k) found h :
  obj_Name k o = n →
  (∀ h' o', h `prefix_of` h' → served k o' h' → steps (found o') h' (flows (λ _ _, True))) →
  steps (ensureNamed k ignore ns n o found) h (flows (λ _ _, True)).
Proof.
  intros <- Hfound. apply triple_call; [done|]. intros [o'|err].
  - apply Hfound; [by apply prefix_app_r|apply served_get].
  - destruct (IsNotFound err) eqn:Hnf; [|by apply triple_ret].
    apply triple_call; [left; exists ns, err; set_solver|].
    intros [o'|err2]; apply triple_ret; [done|]. by destruct (ignore && _).
Qed.

Lemma updateIfChanged_steps k policy copy (d t : obj k) h :
  copies k copy → served k t h → steps (updateIfChanged k policy copy d t) h (flows (λ _ _, True)).
Proof.
  intros Hk Hs. eapply triple_fbind; [by apply or_panic_triple; intros a Ha; exact Ha|].
  intros h' [t' []] Hp Hc; [|by apply triple_ret].
  eapply triple_fbind; [apply updateFound_steps|intros h2 o _ _; by apply triple_ret].
  eapply copied_justified; [done..|]. by eapply served_mono.
Qed.

(** ** Finalizers *)

Lemma finalizer_added m f :
  ContainsFinalizer m f = false → changes_finalizer f m (AddFinalizer m f).
Proof.
  intros Hf. split; [|split]; [..|].
  - unfold AddFinalizer. by rewrite Hf.
  - by rewrite AddFinalizer_present, Hf.
  - unfold AddFinalizer. rewrite Hf. simpl. rewrite filter_app, filter_cons_False by naive_solver.
    by rewrite app_nil_r.
Qed.

Lemma finalizer_removed m f :
  ContainsFinalizer m f = true → changes_finalizer f m (RemoveFinalizer m f).
Proof.
  intros Hf. split; [done|]. split; [by rewrite RemoveFinalizer_gone, Hf|].
  apply list_filter_filter_l. tauto.
Qed.

(** ** Fetching and cleaning up *)

Lemma deleteIfPresent_steps k ns n h :
  steps (deleteIfPresent k ns n) h (flows (λ _ _, True)).
Proof.
  apply triple_call; [done|]. intros [o|err]; [|apply triple_ret; by destruct (IsNotFound err)].
  apply triple_call; [exists o; split; [apply served_get|done]|].
  intros [?|err]; apply triple_ret; [done|by destruct (IsNotFound err)].
Qed.

Lemma finalizer_removed_justified w h :
  served KWorkspace w h → ContainsFinalizer (ws_Meta w) WorkspaceFinalizer = true →
  justified h _ (Update KWorkspace (ws_setMeta w (RemoveFinalizer (ws_Meta w) WorkspaceFinalizer))).
Proof.
  intros Hs Hf. exists w. split; [done|]. split; [done|]. split; [done|].
  by apply finalizer_removed.
Qed.

Lemma cleanupWorkspace_steps {A} w h (Q : list event → A → Prop) :
  served KWorkspace w h → steps (cleanupWorkspace cfg w) h (flows Q).
Proof.
  intros Hs. unfold cleanupWorkspace.
  destruct (ContainsFinalizer _ _) eqn:Hf; [|by apply triple_ret].
  eapply triple_fbind; [apply deleteIfPresent_steps|]. intros h1 _ Hp1 _.
  eapply triple_fbind; [apply deleteIfPresent_steps|]. intros h2 _ Hp2 _.
  apply triple_call.
  - apply finalizer_removed_justified; [|done]. eapply served_mono; [|exact Hs]. by etrans.
  - intros [?|err]; apply triple_ret; [done|by destruct (IsConflict err)].
Qed.

Lemma fetchWorkspace_steps ns name :
  steps (fetchWorkspace cfg ns name) [] (flows (λ h w, served KWorkspace w h)).
Proof.
  apply triple_call; [done|]. intros [w|err]; [|by apply triple_ret].
  destruct (meta_DeletionTimestamp _).
  - apply cleanupWorkspace_steps, served_get.
  - apply triple_ret, served_get.
Qed.

Lemma AddFinalizer_version m f : same_version m (AddFinalizer m f).
Proof. unfold AddFinalizer. by destruct (ContainsFinalizer m f). Qed.

Lemma fetchWorkspaceKind_steps w h :
  tracks w h → steps (fetchWorkspaceKind w) h (flows (λ _ _, True)).
Proof.
  intros Hw. apply triple_call; [done|]. intros [wk|err].
  - destruct (meta_DeletionTimestamp _); [by apply triple_ret|].
    destruct (ContainsFinalizer _ _) eqn:Hf; [by apply triple_ret|].
    apply triple_call; [|intros x; by apply or_return_triple].
    exists wk. split; [apply served_get|]. split; [apply AddFinalizer_version|].
    split; [done|]. by apply finalizer_added.
  - destruct (IsNotFound err); [|by apply triple_ret]. apply fail_steps.
    eapply tracks_mono; [by apply prefix_app_r|done].
Qed.

(** Assigning other parts of the status. *)
Lemma tracks_mapStatus w f h :
  (∀ s, st_State (f s) = st_State s ∧ st_StateMessage (f s) = st_StateMessage s) →
  tracks w h → tracks (ws_mapStatus w f) h.
Proof.
  intros Hf (w0 & Hs & Hm & Hsp & Hst & Hmsg). destruct (Hf (ws_Status w)) as [E1 E2].
  exists w0. simpl. by rewrite E1, E2.
Qed.

Lemma resolveOptions_steps w wk h :
  tracks w h → steps (resolveOptions w wk) h (flows (λ h' '(w', _, _), tracks w' h')).
Proof.
  intros Hw. unfold resolveOptions.
  assert (Hw1 : tracks (ws_mapStatus w (λ s, st_setPendingRestart s false)) h)
    by by apply tracks_mapStatus.
  eapply triple_fbind; [by apply or_fail_steps; [done|]; intros a Ha; exact Ha|].
  intros h1 [img dimg] Hp1 _. eapply triple_fbind.
  { apply or_fail_steps; [|intros a Ha; exact Ha].
    apply tracks_mapStatus; [by destruct dimg|by eapply tracks_mono]. }
  intros h2 [pod dpod] Hp2 _. apply triple_ret. simpl. eapply tracks_mono; [exact Hp2|].
  apply tracks_mapStatus; [by destruct dpod|]. apply tracks_mapStatus; [by destruct dimg|].
  by eapply tracks_mono.
Qed.

(** ** Owned objects *)

Lemma createServiceAccount_steps w sa h :
  tracks w h → missing KServiceAccount sa h →
  steps (createServiceAccount w sa) h (flows (λ _ _, True)).
Proof.
  intros Hw Hm. apply triple_call; [done|]. intros [o|err]; [by apply triple_ret|].
  destruct (IsAlreadyExists err); [|by apply triple_ret].
  apply triple_call; [done|]. intros [e|err2]; [|by apply triple_ret].
  destruct (IsControlledBy _ _); [by apply triple_ret|]. apply fail_steps.
  eapply tracks_mono; [|exact Hw]. rewrite <-(assoc_L (++)). by apply prefix_app_r.
Qed.

(** List what the Workspace owns of a kind and reconcile the one object. *)
Lemma owned_steps {B} k policy copy multiple create w ns desired filt
    (f : string * obj k → prog (flow B)) h (Q : list event → B → Prop) :
  copies k copy → tracks w h →
  (∀ items item, item ∈ filt items → item ∈ items) →
  (∀ h' items, h `prefix_of` h' → Ev (List k (ownedListOptions (ws_Name w) ns)) (inl items) ∈ h' →
     filt items = [] → steps (create desired) h' (flows (λ _ _, True))) →
  (∀ h' r, h `prefix_of` h' → steps (f r) h' (flows Q)) →
  steps (owned <~ listOwned k (ws_Name w) ns ;;
         r <~ reconcileOwned k policy copy multiple create w (filt owned) desired ;; f r)%go
    h (flows Q).
Proof.
  intros Hk Hw Hfilt Hcreate Hf. eapply triple_fbind; [apply listOwned_steps|].
  intros h1 items Hp1 Hin. eapply triple_fbind.
  - apply reconcileOwned_steps; [done|by eapply tracks_mono|..].
    + intros item Hitem. eapply listed_served; [exact Hin|by apply Hfilt].
    + by apply Hcreate.
  - intros h2 r Hp2 _. apply Hf. by etrans.
Qed.

Lemma owned_missing k w ns items (o : obj k) h :
  tracks w h → Ev (List k (ownedListOptions (ws_Name w) ns)) (inl items) ∈ h →
  (∀ item, item ∈ items → other k o item h) → missing k o h.
Proof.
  intros (w0 & Hs & Hm & _) Hin Hother. right. exists w0, ns, items. split; [done|].
  unfold ws_Name in *. by rewrite <-Hm.
Qed.

Lemma owned_all {B} k policy copy multiple create w ns desired
    (f : string * obj k → prog (flow B)) h (Q : list event → B → Prop) :
  copies k copy → tracks w h →
  (∀ h', h `prefix_of` h' → missing k desired h' → steps (create desired) h' (flows (λ _ _, True))) →
  (∀ h' r, h `prefix_of` h' → steps (f r) h' (flows Q)) →
  steps (owned <~ listOwned k (ws_Name w) ns ;;
         r <~ reconcileOwned k policy copy multiple create w owned desired ;; f r)%go
    h (flows Q).
Proof.
  intros Hk Hw Hcreate Hf. apply (owned_steps k policy copy multiple create w ns desired (λ x, x));
    [done..| |done].
  intros h' items Hp Hin ->. apply Hcreate; [done|].
  eapply (owned_missing _ w); [still_tracks|exact Hin|]. by intros item []%elem_of_nil.
Qed.

(** An object with its controller reference: the metadata is otherwise the same. *)
Lemma owned_by w k (o : obj k) h :
  (∀ m, obj_Meta k (obj_setMeta k o m) = m) →
  steps (setController w k o) h (flows (λ _ o', obj_Name k o' = obj_Name k o)).
Proof.
  intros Hk. apply setController_triple. intros m [owners ->]%set_owners_only.
  unfold obj_Name. by rewrite Hk.
Qed.

Lemma reconcileServiceAccount_steps ns w h :
  tracks w h → steps (reconcileServiceAccount ns w) h (flows (λ _ _, True)).
Proof.
  intros Hw. unfold reconcileServiceAccount.
  eapply triple_fbind; [by apply or_panic_triple; intros a Ha; exact Ha|]. intros h1 sa Hp1 _.
  eapply triple_fbind; [by apply owned_by|]. intros h2 sa2 Hp2 _.
  assert (Hw2 : tracks w h2) by still_tracks.
  apply owned_all; [auto with copies|done|..].
  - intros h3 Hp3 Hm. apply createServiceAccount_steps; [still_tracks|done].
  - intros h3 [name o] _. by apply triple_ret.
Qed.

Lemma reconcileOwnedStatefulSet_steps w ns sts h :
  tracks w h → steps (reconcileOwnedStatefulSet w ns sts) h (flows (λ _ _, True)).
Proof.
  intros Hw. unfold reconcileOwnedStatefulSet.
  eapply triple_fbind; [apply listOwned_steps|]. intros h1 items Hp1 Hin.
  apply (reconcileOwned_steps KStatefulSet); [auto with copies|still_tracks|..].
  - intros item. by apply listed_served with (1 := Hin).
  - intros ->. apply createOwned_steps. eapply (owned_missing _ w); [still_tracks|exact Hin|].
    by intros item []%elem_of_nil.
Qed.

Lemma prepareStatefulSet_steps ns w wk img pc sa h :
  tracks w h → steps (prepareStatefulSet cfg ns w wk img pc sa) h (flows (λ _ _, True)).
Proof.
  intros Hw. unfold prepareStatefulSet.
  eapply triple_fbind; [by apply or_fail_steps; [done|]; intros a Ha; exact Ha|].
  intros h1 sts Hp1 _. eapply triple_fbind; [by apply owned_by|]. intros h2 sts2 Hp2 _.
  destruct (cfg_UseKubeGateway cfg); [by apply triple_ret|].
  eapply triple_fbind; [apply reconcileOwnedStatefulSet_steps|].
  - still_tracks.
  - intros h3 [? ?] _ _. by apply triple_ret.
Qed.

Lemma reconcileService_steps ns w img h :
  tracks w h → steps (reconcileService ns w img) h (flows (λ _ _, True)).
Proof.
  intros Hw. unfold reconcileService.
  eapply triple_fbind; [by apply or_fail_steps; [done|]; intros a Ha; exact Ha|].
  intros h1 svc Hp1 _. eapply triple_fbind; [by apply owned_by|]. intros h2 svc2 Hp2 _.
  assert (Hw2 : tracks w h2) by still_tracks. cbv zeta.
  apply (owned_steps KService _ _ _ _ _ _ _ (filter (λ svc, isProxyService svc = false)));
    [auto with copies|done|..].
  - intros items item [_ ?]%list_elem_of_filter. done.
  - intros h3 items Hp3 Hin Hnone. apply createOwned_steps.
    eapply (owned_missing _ w); [still_tracks|exact Hin|]. intros item Hitem. simpl.
    destruct (isProxyService item) eqn:Hproxy; [done|].
    assert (item ∈ filter (λ svc, isProxyService svc = false) items) as Hf
      by by apply list_elem_of_filter.
    rewrite Hnone in Hf. by apply elem_of_nil in Hf.
  - intros h3 [name o] _. by apply triple_ret.
Qed.

(** A request that writes nothing. *)
Definition harmless (X : Type) (q : req X) : Prop :=
  if is_write q then False else True.

Lemma harmless_justified h X (q : req X) : harmless X q → justified h X q.
Proof. by destruct q. Qed.

Lemma applySidecar_steps ns w wk img sts h :
  steps (applySidecar cfg ns w wk img sts) h (λ _ _, True).
Proof. apply (triple_ok harmless); [apply harmless_justified|]. calls. Qed.

Lemma writeStatefulSet_steps ns w sts write h :
  tracks w h → steps (writeStatefulSet ns w sts write) h (flows (λ _ _, True)).
Proof.
  intros Hw. destruct write; [by apply reconcileOwnedStatefulSet_steps|by apply triple_ret].
Qed.

(** ** Routing *)

Lemma reconcileVirtualService_steps ns w wk img svc h :
  tracks w h → steps (reconcileVirtualService cfg ns w wk img svc) h (flows (λ _ _, True)).
Proof.
  intros Hw. unfold reconcileVirtualService.
  eapply triple_fbind; [by apply or_fail_steps; [done|]; intros a Ha; exact Ha|].
  intros h1 vs Hp1 _. eapply (triple_fbind _ _ _ (λ _ _, True)).
  { destruct (SetControllerReference _ _); [by apply triple_ret|].
    apply fail_steps. still_tracks. }
  intros h2 vs2 Hp2 _. assert (Hw2 : tracks w h2) by still_tracks.
  apply owned_all; [auto with copies|done|..].
  - intros h3 _ Hm. by apply createOwned_steps.
  - intros h3 r _. by apply triple_ret.
Qed.

Lemma ensureFinalizer_steps w h :
  tracks w h → steps (ensureFinalizer w) h (flows (λ h' w', tracks w' h')).
Proof.
  intros Hw. unfold ensureFinalizer. destruct (ContainsFinalizer _ _) eqn:Hf; [by apply triple_ret|].
  eapply triple_mono; [apply (updateFound_steps KWorkspace)|].
  - destruct Hw as (w0 & Hs & Hm & Hsp & _). exists w0. split; [done|].
    simpl. rewrite <-Hm. split; [apply AddFinalizer_version|]. split; [done|]. simpl.
    by apply finalizer_added.
  - intros h' [w'|o] _ Hs; [by apply served_tracks|done].
Qed.

Lemma reconcileClusterRoleBinding_steps crb h :
  steps (reconcileClusterRoleBinding crb) h (flows (λ _ _, True)).
Proof.
  apply ensureNamed_steps; [done|]. intros h' o Hp Hs.
  destruct (bool_decide _ && bool_decide _) eqn:Heq; [by apply triple_ret|].
  eapply triple_fbind; [apply updateFound_steps|intros h2 o2 _ _; by apply triple_ret].
  exists o. split; [done|]. split; [done|]. simpl. intros Ho. rewrite <-Ho in Heq. simpl in Heq.
  by rewrite !bool_decide_eq_true_2 in Heq.
Qed.

Lemma reconcileProxyResources_steps w sa h :
  tracks w h → steps (reconcileProxyResources w sa) h (flows (λ h' '(w', _), tracks w' h')).
Proof.
  intros Hw. unfold reconcileProxyResources. cbv zeta.
  eapply triple_fbind; [by apply ensureFinalizer_steps|]. intros h1 w1 Hp1 Hw1.
  eapply triple_fbind; [apply reconcileClusterRoleBinding_steps|]. intros h2 _ Hp2 _.
  eapply triple_fbind; [by apply or_panic_triple; intros a Ha; exact Ha|]. intros h3 cm Hp3 _.
  eapply triple_fbind; [by apply owned_by|]. intros h4 cm2 Hp4 _.
  eapply triple_fbind.
  { apply (ensureNamed_steps KConfigMap); [done|]. intros h' o _ Hs.
    apply updateIfChanged_steps; [auto with copies|done]. }
  intros h5 _ Hp5 _.
  eapply triple_fbind; [by apply or_panic_triple; intros a Ha; exact Ha|]. intros h6 svc Hp6 _.
  eapply triple_fbind; [by apply owned_by|]. intros h7 svc2 Hp7 _.
  apply triple_call; [done|]. intros [o|err].
  { apply triple_ret. simpl. apply (tracks_mono w1 h7); [by apply prefix_app_r|still_tracks]. }
  destruct (IsNotFound err) eqn:Hnf; [|by apply triple_ret].
  eapply triple_fbind; [by apply owned_by|]. intros h8 svc3 Hp8 Hname.
  assert (Hw8 : tracks w1 h8).
  { eapply (tracks_mono w1 h7); [|still_tracks]. etrans; [|exact Hp8]. by apply prefix_app_r. }
  apply triple_call.
  - left. exists (ws_Namespace w1), err. split; [|done]. rewrite Hname.
    destruct Hp8 as [l ->]. set_solver.
  - assert (∀ x, tracks w1 (h8 ++ [Ev (Create KService svc3) x])) as Hw9.
    { intros x. apply (tracks_mono w1 h8); [by apply prefix_app_r|exact Hw8]. }
    intros [o|err2]; apply triple_ret; [apply Hw9|]. destruct (IsAlreadyExists err2); [apply Hw9|done].
Qed.

Lemma reconcileGateway_steps w wk img sa h :
  tracks w h → steps (reconcileGateway cfg w wk img sa) h (flows (λ h' w', tracks w' h')).
Proof.
  intros Hw. unfold reconcileGateway.
  eapply triple_fbind; [by apply reconcileProxyResources_steps|]. intros h1 [w1 svc] Hp1 Hw1.
  eapply triple_fbind; [by apply (owned_by w1 KReferenceGrant)|]. intros h2 rg Hp2 Hname.
  eapply triple_fbind.
  { apply (ensureNamed_steps KReferenceGrant); [exact Hname|]. intros h' o _ Hs.
    apply updateIfChanged_steps; [auto with copies|done]. }
  intros h3 _ Hp3 _.
  destruct (generateGatewayV1HTTPRoute _ _ _ _ _) as [route|]; [|apply fail_steps; still_tracks].
  eapply triple_fbind.
  { apply (ensureNamed_steps KHTTPRoute); [done|]. intros h' o _ Hs.
    apply updateIfChanged_steps; [auto with copies|done]. }
  intros h4 _ Hp4 _. apply triple_ret. simpl. still_tracks.
Qed.

Lemma reconcileRouting_steps ns w wk img svc sa h :
  tracks w h → steps (reconcileRouting cfg ns w wk img svc sa) h (flows (λ h' w', tracks w' h')).
Proof.
  intros Hw. unfold reconcileRouting. destruct (cfg_UseIstio cfg).
  - eapply triple_fbind; [by apply reconcileVirtualService_steps|]. intros h1 _ Hp1 _.
    apply triple_ret. simpl. still_tracks.
  - destruct (cfg_UseKubeGateway cfg); [by apply reconcileGateway_steps|by apply triple_ret].
Qed.

(** ** RoleBindings *)

(** The RoleBindings still to create, keyed by name, are not among those visited. *)
Definition pending (todo : gmap string RoleBinding) (visited : list RoleBinding)
    (h : list event) : Prop :=
  ∀ n rb, todo !! n = Some rb → rb_Name rb = n ∧
    ∀ item, item ∈ visited → other KRoleBinding rb item h.

Lemma pending_mono todo visited h h' :
  h `prefix_of` h' → pending todo visited h → pending todo visited h'.
Proof.
  intros Hp Hpend n rb Hn. destruct (Hpend n rb Hn) as [? Hv]. split; [done|].
  intros item Hitem. eapply other_mono; [exact Hp|by apply Hv].
Qed.

Lemma pending_delete todo visited f h :
  pending todo visited h → pending (delete (rb_Name f) todo) (visited ++ [f]) h.
Proof.
  intros Hpend n rb [Hne Hn]%lookup_delete_Some. destruct (Hpend n rb Hn) as [Hname Hv].
  split; [done|]. intros item [Hitem| ->%list_elem_of_singleton]%elem_of_app; [by apply Hv|].
  left. by rewrite Hname.
Qed.

Lemma pending_deleted todo visited f h :
  deleted KRoleBinding f h → pending todo visited h → pending todo (visited ++ [f]) h.
Proof.
  intros Hd Hpend n rb Hn. destruct (Hpend n rb Hn) as [Hname Hv].
  split; [done|]. intros item [Hitem| ->%list_elem_of_singleton]%elem_of_app; [by apply Hv|by right].
Qed.

Lemma pruneRoleBindings_steps todo items visited h :
  (∀ item, item ∈ items → served KRoleBinding item h) → pending todo visited h →
  steps (pruneRoleBindings todo items) h (λ h' r,
    ∀ rest, r = Ok rest → pending rest (visited ++ items) h').
Proof.
  revert todo visited h. induction items as [|f items IH]; intros todo visited h Hitems Hpend;
    cbn [pruneRoleBindings].
  { apply triple_ret. intros rest [= <-]. by rewrite app_nil_r. }
  rewrite cons_middle, (assoc_L (++)).
  assert (Hf : served KRoleBinding f h) by (apply Hitems; set_solver).
  assert (Hgo : ∀ todo' h', h `prefix_of` h' → pending todo' (visited ++ [f]) h' →
    steps (pruneRoleBindings todo' items) h' (λ h' r,
      ∀ rest, r = Ok rest → pending rest ((visited ++ [f]) ++ items) h')).
  { intros todo' h' Hp Hpend'. apply IH; [|done]. intros item Hitem.
    eapply served_mono; [exact Hp|]. apply Hitems. set_solver. }
  assert (Hdel : ∀ d, match d with inl _ => True | inr err => IsNotFound err = true end →
    steps (pruneRoleBindings todo items)
      (h ++ [Ev (Delete KRoleBinding (meta_Namespace (rb_Meta f)) (rb_Name f)) d]) (λ h' r,
      ∀ rest, r = Ok rest → pending rest ((visited ++ [f]) ++ items) h')).
  { intros d Hd. apply Hgo; [by apply prefix_app_r|]. apply pending_deleted.
    - exists d. split; [set_solver|done].
    - eapply pending_mono; [by apply prefix_app_r|done]. }
  assert (Hdelete : steps (r <-- call (Delete KRoleBinding (meta_Namespace (rb_Meta f)) (rb_Name f)) ;;
      match r with
      | inr err => if IsNotFound err then pruneRoleBindings todo items else Ret (Err err)
      | inl _ => pruneRoleBindings todo items
      end)%go h (λ h' r, ∀ rest, r = Ok rest → pending rest ((visited ++ [f]) ++ items) h')).
  { apply triple_call; [by exists f|]. intros [[]|err]; [by apply Hdel|].
    destruct (IsNotFound err) eqn:Hnf; [by apply Hdel|by apply triple_ret]. }
  destruct (todo !! rb_Name f) as [d|]; [|exact Hdelete].
  destruct (bool_decide _); [|exact Hdelete].
  destruct (CopyRoleBindingFields d f) as [[f' []]|e|p] eqn:Hc; try by apply triple_ret.
  - apply triple_call; [by eapply (copied_justified KRoleBinding); [auto with copies|..]|].
    intros [o|err]; [|by apply triple_ret]. apply Hgo; [by apply prefix_app_r|].
    apply pending_delete. eapply pending_mono; [by apply prefix_app_r|done].
  - apply Hgo; [done|]. by apply pending_delete.
Qed.

Lemma createRoleBindings_steps todo h :
  (∀ n rb, (n, rb) ∈ todo → missing KRoleBinding rb h) →
  steps (createRoleBindings todo) h (λ _ _, True).
Proof.
  revert h. induction todo as [|[n rb] todo IH]; intros h Hm; cbn [createRoleBindings];
    [by apply triple_ret|].
  apply triple_call; [by apply (Hm n); left|]. intros [o|err]; [|by apply triple_ret].
  apply IH. intros n' rb' Hin. eapply missing_mono; [by apply prefix_app_r|].
  apply (Hm n'). by right.
Qed.

Lemma reconcileRoleBindings_steps w wk sa h :
  tracks w h → steps (reconcileRoleBindings w wk sa) h (λ _ _, True).
Proof.
  intros Hw. unfold reconcileRoleBindings.
  destruct (desiredRoleBindings _ _ _ _) as [desired|e|p] eqn:Hd; try by apply triple_ret.
  apply triple_call; [done|]. intros [items|err]; [|by apply triple_ret].
  set (h1 := h ++ _).
  assert (Hp1 : h `prefix_of` h1) by by apply prefix_app_r.
  assert (Hin : Ev (List KRoleBinding (ownedListOptions (ws_Name w) (ws_Namespace w))) (inl items) ∈ h1)
    by (subst h1; apply elem_of_app; right; by apply elem_of_cons; left).
  eapply triple_bind.
  { apply (pruneRoleBindings_steps desired items []).
    - intros item. by apply listed_served with (1 := Hin).
    - intros n rb Hn. split; [|by intros item []%elem_of_nil].
      eapply desired_keyed; [|exact Hd|exact Hn]. by intros ? ?. }
  intros h2 [rest|e|p] Hp2 Hpend; try by apply triple_ret.
  apply createRoleBindings_steps. intros n rb Hrb%elem_of_range.
  eapply (owned_missing _ w); [still_tracks|destruct Hp2 as [l ->]; apply elem_of_app; by left|].
  by apply (Hpend rest eq_refl n rb).
Qed.

Lemma reconcileResources_steps ns w h :
  tracks w h → steps (reconcileResources cfg ns w) h
    (flows (λ h' rs, tracks (rs_workspace rs) h')).
Proof.
  intros Hw. unfold reconcileResources.
  eapply triple_fbind; [by apply fetchWorkspaceKind_steps|]. intros h1 wk Hp1 _.
  eapply triple_fbind; [apply resolveOptions_steps; still_tracks|]. intros h2 [[w2 img] pc] Hp2 Hw2.
  eapply triple_fbind; [by apply reconcileServiceAccount_steps|]. intros h3 sa Hp3 _.
  eapply triple_fbind; [apply prepareStatefulSet_steps; still_tracks|]. intros h4 sts Hp4 _.
  eapply triple_fbind; [apply reconcileService_steps; still_tracks|]. intros h5 svc Hp5 _.
  eapply triple_fbind.
  { eapply triple_mono; [apply applySidecar_steps|]. intros h' [r|o] _ _; exact I. }
  intros h6 [[sts2 write] tls] Hp6 _.
  eapply triple_fbind; [apply writeStatefulSet_steps; still_tracks|]. intros h7 [name sts3] Hp7 _.
  eapply triple_fbind; [apply reconcileRouting_steps; still_tracks|]. intros h8 w8 Hp8 Hw8.
  eapply triple_bind; [by apply reconcileRoleBindings_steps|].
  intros h9 [u|e|p] Hp9 _; apply triple_ret; try exact I. simpl. still_tracks.
Qed.

(** ** The Pod and the status *)

(** Only the status is computed. *)
Definition keeps_object (w w' : Workspace) : Prop := ws_Meta w' = ws_Meta w ∧ ws_Spec w' = ws_Spec w.

Lemma reconcileActivity_keeps c w wk img pc pod h :
  sat (reconcileActivity hasHTTPProber hasPodExecutor c w wk img pc pod) h
    (λ _ out, keeps_object w (ao_workspace out)).
Proof.
  eapply sat_mono; [apply reconcileActivity_sat|]. intros h' out Hrun.
  destruct Hrun as [| |p t a nsl remaining w' d c' Hp Hst Hdue Hns He
                    |p t a nsl x h' r w2 d c' Hp Hrunning Hdue Hns Hcon Hsucc He]; [done|done|..];
    simpl; pose proof (evaluatePauseDecision_frame _ _ _ _ _ _ _ _ _ _ He) as [rr ->]; [done|].
  unfold updateActivityStatusFromProbe. by destruct (Succeeded r).
Qed.

Lemma reconcileStatus_steps c w wk img pc pod sts sa h :
  steps (reconcileStatus hasHTTPProber hasPodExecutor c w wk img pc pod sts sa) h (λ _ r,
    ∀ w' res paused, r.1 = Next (w', res, paused) → keeps_object w w').
Proof.
  apply triple_sat; [apply (triple_ok harmless); [apply harmless_justified|calls]|].
  unfold reconcileStatus. rewrite sat_bind. eapply sat_mono; [apply sat_prefix|].
  intros h1 [[status result] [err|]] _; [done|].
  rewrite sat_bind. eapply sat_mono; [apply reconcileActivity_keeps|].
  intros h2 out Hout w' res paused. simpl.
  destruct (ao_result out) as [[? ?]|?|?]; intros [=]. by subst.
Qed.

Lemma finishReconcile_steps orig w res paused tls h :
  served KWorkspace orig h → (∃ w1, served KWorkspace w1 h ∧ ws_Meta w = ws_Meta w1) →
  steps (finishReconcile orig w res paused tls) h (λ _ _, True).
Proof.
  intros Horig Hmeta. unfold finishReconcile.
  set (w' := match tls with Some _ => _ | None => w end).
  assert (Hmeta' : ∃ w1, served KWorkspace w1 h ∧ ws_Meta w' = ws_Meta w1) by by destruct tls.
  clearbody w'. eapply triple_mono; [|by intros; exact I].
  eapply (triple_fbind _ _ _ (λ _ _, True)).
  - unfold persistStatus. case_bool_decide as Heq; [by apply triple_ret|].
    apply triple_call; [split; [|done]; exists orig; split; [done|congruence]|].
    intros x. by apply or_return_triple.
  - intros h1 w1 Hp1 _. instantiate (1 := λ _ _, True). destruct paused; [|by apply triple_ret].
    apply triple_call; [split; [by eapply served_mono|done]|]. intros x.
    eapply (triple_fbind _ _ _ (λ _ _, True)); [by apply or_return_triple|].
    intros h2 a _ _. by apply triple_ret.
Qed.

Lemma Reconcile_steps c ns name :
  steps (Reconcile cfg hasHTTPProber hasPodExecutor c ns name) [] (λ _ _, True).
Proof.
  unfold Reconcile. eapply triple_bind; [apply fetchWorkspace_steps|].
  intros h1 [w|o] _ Hw; [|by apply triple_ret]. simpl in Hw.
  eapply triple_bind; [by apply reconcileResources_steps, served_tracks|].
  intros h2 [rs|o] Hp2 Hrs; [|by apply triple_ret]. simpl in Hrs.
  eapply (triple_bind _ _ _ (λ _ _, True)); [|by intros h' [r c'] _ _; apply triple_ret].
  unfold reconcilePod. eapply (triple_bind _ _ _ (λ _ _, True)).
  { apply (triple_ok harmless); [apply harmless_justified|calls]. }
  intros h3 [pod|o] Hp3 _; [|by apply triple_ret].
  eapply triple_bind; [apply reconcileStatus_steps|].
  intros h4 [[[[w' res] paused]|o] c'] Hp4 Hkeep; [|by apply triple_ret].
  destruct (Hkeep w' res paused eq_refl) as [Hm _].
  eapply (triple_bind _ _ _ (λ _ _, True)); [|by intros; apply triple_ret].
  apply finishReconcile_steps.
  - eapply served_mono; [|exact Hw]. later.
  - destruct Hrs as (w0 & Hs & Hm0 & _). exists w0. split; [|congruence].
    eapply served_mono; [|exact Hs]. later.
Qed.

(** C4: Every write of a reconcile of a Workspace has a reason in what the API server
    answered before in the same reconcile: an update is of an object that was served, at the
    resource version it was served with, and changes it (for the Workspace and its kind, whose
    status is a subresource, it adds or removes the controller's own finalizer and leaves the
    spec, the other finalizers and the rest of the metadata); a status update changes a served
    status; a creation follows a NotFound for that name or a list of the Workspace's own
    objects in which nothing stands for the object; a deletion is of an object that was served;
    the patch sets [spec.paused] on top of a served Workspace. *)
Theorem writes_justified c ns name h1 X (q : req X) x h2 r :
  runs (Reconcile cfg hasHTTPProber hasPodExecutor c ns name) (h1 ++ Ev q x :: h2) r →
  justified h1 X q.
Proof. intros Hr. by eapply triple_runs; [apply Reconcile_steps|exact Hr]. Qed.
End stages.

(** ** What was written settles *)

Section settles.
Context (k : kind) `{CopyFieldsLaws (obj k)}.
Context (policy : on_conflict) (multiple : string → string) (workspace : Workspace).

(** The API server stores of an object what the reconciler manages. *)
Definition stores (o o' : obj k) : Prop :=
  (∀ d, converged d o → converged d o') ∧ (∀ d, copyDefined d o → copyDefined d o').

Definition stores_writes (h : list event) : Prop := ∀ o o',
  Ev (Create k o) (inl o') ∈ h ∨ Ev (Update k o) (inl o') ∈ h → stores o o'.

(** Reconciling a converged object asks nothing of the API server. *)
Lemma converged_owned create d o :
  copyDefined d o → converged d o →
  ∃ o', reconcileOwned k policy copyFields multiple create workspace [o] d
          = Ret (Next (obj_Name k o, o')) ∧ semEqual o' o.
Proof.
  intros (o' & u & Hc)%copy_total Hconv. apply (copy_exact d o o' u Hc) in Hconv as ->.
  exists o'. split; [|by eapply copy_noop]. simpl. by rewrite Hc.
Qed.

Lemma reconcileOwned_converges items d :
  copyDefined d d → converged d d →
  sat (reconcileOwned k policy copyFields multiple (createOwned k) workspace items d) [] (λ h r,
    ∀ n o, r = Next (n, o) → stores_writes h → copyDefined d o ∧ converged d o).
Proof.
  intros Hdd Hconv. destruct items as [|item [|item2 items]]; cbn [reconcileOwned].
  - intros [o'|err]; [|by intros n o [=]]. intros n o [= _ <-] Hst.
    destruct (Hst d o') as [H1 H2]; [left; set_solver|]. auto.
  - destruct (copyFields d item) as [[t' []]|e|p] eqn:Hc; [|intros n o [= _ <-] _|by intros n o [=]..].
    + intros [o'|err].
      * intros n o [= _ <-] Hst. destruct (Hst t' o') as [H1 H2]; [right; set_solver|].
        split; [by eapply H2, copy_defined|by eapply H1, copy_converged].
      * destruct policy; [|destruct (IsConflict err) eqn:He]; simpl; rewrite ?He; by intros n o [=].
    + split; [by eapply copy_defined|by eapply copy_converged].
  - unfold fail, updateWorkspaceState. destruct (bool_decide _ && bool_decide _); [by intros n o [=]|].
    intros x n o [=].
Qed.

(** When an owned object was created or reconciled without error and the API server stored
    what was sent, reconciling again with the object it answered, and the same desired one,
    makes no request and hands on an equal object. *)
Theorem owned_settles items d h n o :
  copyDefined d d → converged d d →
  runs (reconcileOwned k policy copyFields multiple (createOwned k) workspace items d) h (Next (n, o)) →
  stores_writes h →
  ∃ o', reconcileOwned k policy copyFields multiple (createOwned k) workspace [o] d
          = Ret (Next (obj_Name k o, o')) ∧ semEqual o' o.
Proof.
  intros Hdd Hconv Hr Hst.
  destruct (proj1 (sat_runs _ [] _) (reconcileOwned_converges items d Hdd Hconv) h _ Hr n o eq_refl Hst).
  by apply converged_owned.
Qed.
End settles.

(** ** Witness *)

(** The StatefulSet that is updated differs from a served one of its version. *)
Lemma writes_justified_witness :
  ∃ h1 o o0, served KStatefulSet o0 h1 ∧ same_version (sts_Meta o0) (sts_Meta o) ∧ o ≠ o0.
Proof.
  destruct (exRun_first as_sts_update (λ _ _, true) false (exampleIdle None) (λ _, [exSts])
    (Some exReadyPod)) as (h1 & [o x] & e & h2 & r & Hr & ->%as_sts_update_Some & _);
    [vm_compute; reflexivity|].
  destruct (writes_justified (H := exampleOwnerLib) (H0 := exampleOwnerLib_laws)
    (H1 := exampleTemplates) (H2 := exampleSelectorLib) (H3 := exampleProbeLib)
    (H4 := canonicalOrder) (H5 := canonicalOrder_laws) (H6 := exampleUnstructured)
    (exCfg false) true true ∅ "ns" "test" _ _ _ _ _ _ Hr) as (o0 & Hs & Hv & Hu).
  exists h1, o, o0. split; [exact Hs|]. split; [exact Hv|exact Hu].
Defined.

Definition as_service_create (e : event) : option (Service * answer Service) :=
  match e with
  | Ev q x => match q in req X return X → option (Service * answer Service) with
              | Create KService o => λ x, Some (o, x)
              | _ => λ _, None
              end x
  end.

Definition exOwnedService : Service :=
  mkService (mkObjectMeta "ws-test-abc" "" "ns" "uid-3" "1" 0 0 None (Some {["app" := "ws"]}) None [] [])
    (mkServiceSpec [mkServicePort "http-8888" 8888 (FromInt32 8888) "TCP"] {["app" := "ws"]} "ClusterIP" "").

(** A Service that was created and then found again. *)
Lemma owned_settles_witness :
  ∃ o', reconcileOwned KService ConflictIsError CopyServiceFields (λ s, s) (createOwned KService)
    exWorkspaceRunning [exOwnedService] exOwnedService = Ret (Next ("ws-test-abc", o')) ∧
  o' = exOwnedService.
Proof.
  destruct (owned_settles KService (H := copy_Service) ConflictIsError (λ s, s) exWorkspaceRunning
    [] exOwnedService [Ev (Create KService exOwnedService) (inl exOwnedService)] "ws-test-abc"
    exOwnedService) as (o' & Heq & Hsem); [exact I|by split_and!; unfold map_contains|..].
  - exists (inl exOwnedService), []. split; [reflexivity|]. split; reflexivity.
  - intros o o1 [Hin|Hin]; apply list_elem_of_singleton in Hin;
      apply (f_equal as_service_create) in Hin; [|discriminate].
    simpl in Hin. injection Hin as -> ->. by split.
  - exists o'. split; [exact Heq|exact Hsem].
Defined.
