(* ===== verification/Pausing.v ===== *)
(** * Pausing an idle Workspace

    The one change of a Workspace's spec that the reconciler makes: the patch that sets
    [spec.paused].  [pause_patch_is_last] shows of every history of [Reconcile] that it is the
    last request, and that the Pod whose probe it follows is the Pod of the Workspace.
    [paused_workspace_patched] is about the patch of a Workspace that is paused already. *)

From Stdlib Require Import ZArith.
From stdpp Require Import base gmap strings list.
From S2P Require Import Prelude K8sTypes ApiTypes Names CopyFields Options Client Examples.
From S2P Require Import Probe Activity State TLS Generate Field Webhook Owned RoleBindings Reconcile.
From S2P Require Import Triples ReconcileSpec Quiescence.

(** A patch of a Workspace. *)
Definition is_patch X (q : req X) : Prop :=
  match q with Patch _ _ _ => True | _ => False end.

(** The WorkspaceKind of the Workspace, as fetched or as its update with the protection
    finalizer was answered. *)
Definition kind_of (w : Workspace) (wk : WorkspaceKind) (h : list event) : Prop :=
  let fetched wk := Ev (Get KWorkspaceKind "" (wsSpec_Kind (ws_Spec w))) (inl wk) ∈ h in
  fetched wk ∨
  ∃ wk0, fetched wk0 ∧
    Ev (Update KWorkspaceKind (mkWorkspaceKind (AddFinalizer (wsk_Meta wk0) WorkspaceKindFinalizer)
          (wsk_Spec wk0) (wsk_Status wk0))) (inl wk) ∈ h.

(** The StatefulSets of the Workspace, as listed. *)
Definition listed_sets (ns : string) (w : Workspace) (l : list StatefulSet) (h : list event) : Prop :=
  Ev (List KStatefulSet (ownedListOptions (ws_Name w) ns)) (inl l) ∈ h.

(** The name of the Workspace's StatefulSet: the only one listed, or the one created.  It has
    no name when none is listed and an unusable TLS profile keeps it from being created. *)
Definition statefulSet_of (ns : string) (w : Workspace) (name : string) (h : list event) : Prop :=
  (∃ sts, listed_sets ns w [sts] h ∧ name = meta_Name (sts_Meta sts)) ∨
  (∃ o sts, Ev (Create KStatefulSet o) (inl sts) ∈ h ∧ name = meta_Name (sts_Meta sts)) ∨
  (listed_sets ns w [] h ∧ name = "").

Section spec.
Context `{OwnerLibLaws} `{TemplateLib} `{SelectorLib} `{ProbeLib} `{MapOrderLaws} `{UnstructuredLib}.
Context (cfg : EnvConfig) (hasHTTPProber hasPodExecutor : bool).

(** The probe of the Workspace's kind, for the image configuration the Workspace selects, was
    sent to the Pod of its StatefulSet and answered well. *)
Definition probed (ns : string) (base : Workspace) (h : list event) : Prop :=
  ∃ w wk img desired p name pod result,
    served KWorkspace w h ∧ kind_of base wk h ∧
    getImageConfig base wk = Ok (img, desired) ∧
    kpt_ActivityProbe (wsk_PodTemplate wk) = Some p ∧
    statefulSet_of ns base name h ∧
    Ev (Get KPod ns (name +:+ "-0")) (inl pod) ∈ h ∧
    probe_succeeded w p (Some img) pod h result.

Lemma kind_of_mono w wk h h' : h `prefix_of` h' → kind_of w wk h → kind_of w wk h'.
Proof.
  intros [l ->] [?|(wk0 & ? & ?)]; [left; set_solver|right; exists wk0; set_solver].
Qed.

Lemma statefulSet_of_mono ns w n h h' :
  h `prefix_of` h' → statefulSet_of ns w n h → statefulSet_of ns w n h'.
Proof.
  intros [l ->] [(sts & ? & ?)|[(o & sts & ? & ?)|[? ?]]]; [left|right; left|right; right].
  - exists sts. split; [apply elem_of_app; by left|done].
  - exists o, sts. split; [apply elem_of_app; by left|done].
  - split; [apply elem_of_app; by left|done].
Qed.

(** ** What the stages before the Pod establish *)

(** Triples that ask nothing of the requests. *)
Abbreviation walks := (triple (λ _ _ _, True)).

Lemma walks_any {R} (p : prog R) h : walks p h (λ _ _, True).
Proof. apply (triple_ok (λ _ _, True)); [done|]. induction p as [r|X q k IH]; [done|]. by split. Qed.

Lemma walks_flow {A} (p : prog (flow A)) h : walks p h (flows (λ _ _, True)).
Proof. eapply triple_mono; [apply walks_any|]. by intros h' [a|o]. Qed.

(** Skip a stage. *)
Ltac skip := eapply triple_fbind; [apply walks_flow|].

Lemma fail_walks {A} w msg h (Q : list event → A → Prop) : walks (fail w msg) h (flows Q).
Proof. eapply triple_bind; [apply walks_any|]. intros h' o _ _. by apply triple_ret. Qed.

Lemma or_fail_walks {A} (g : go A) w msg h (Q : list event → A → Prop) :
  (∀ a, g = Ok a → Q h a) → walks (or_fail g w msg) h (flows Q).
Proof. intros HQ. destruct g as [a|e|p]; [by apply triple_ret, HQ|apply fail_walks|by apply triple_ret]. Qed.

Lemma listOwned_walks k n ns h :
  walks (listOwned k n ns) h (flows (λ h' items, Ev (List k (ownedListOptions n ns)) (inl items) ∈ h')).
Proof. apply triple_call; [done|]. intros x. apply or_return_triple. intros items ->. set_solver. Qed.

Lemma fetchWorkspaceKind_of w h : walks (fetchWorkspaceKind w) h (flows (λ h' wk, kind_of w wk h')).
Proof.
  apply triple_call; [done|].
  intros [wk|err]; [|by destruct (IsNotFound err); [apply fail_walks|apply triple_ret]].
  set (h1 := h ++ _).
  assert (Hin : Ev (Get KWorkspaceKind "" (wsSpec_Kind (ws_Spec w))) (inl wk) ∈ h1)
    by (subst h1; set_solver).
  destruct (meta_DeletionTimestamp _); [apply triple_ret; by left|].
  destruct (ContainsFinalizer _ _); [apply triple_ret; by left|].
  apply triple_call; [done|]. intros x. apply or_return_triple. intros wk' ->.
  right. exists wk. split; [apply elem_of_app; by left|]. apply elem_of_app. right. left.
Qed.

Lemma resolveOptions_image w wk h :
  walks (resolveOptions w wk) h (flows (λ _ '(w', img, _),
    ws_Meta w' = ws_Meta w ∧ ∃ desired, getImageConfig w wk = Ok (img, desired))).
Proof.
  unfold resolveOptions.
  eapply triple_fbind; [by apply or_fail_walks; intros a Ha; exact Ha|].
  intros h1 [img dimg] _ Himg. skip. intros h2 [pod dpod] _ _. apply triple_ret.
  split; [done|]. by exists dimg.
Qed.

Lemma reconcileOwnedStatefulSet_of w ns o h :
  walks (reconcileOwnedStatefulSet w ns o) h (flows (λ h' '(n, _), statefulSet_of ns w n h')).
Proof.
  unfold reconcileOwnedStatefulSet. eapply triple_fbind; [apply listOwned_walks|].
  intros h1 [|item [|item2 items]] _ Hin; cbn [reconcileOwned].
  - eapply (triple_fbind _ _ _ (λ h' created, Ev (Create KStatefulSet o) (inl created) ∈ h')).
    { apply triple_call; [done|]. intros x. apply or_return_triple. intros sts ->. set_solver. }
    intros h2 sts _ Hc. apply triple_ret. right; left. by exists o, sts.
  - assert (Hof : ∀ h', h1 `prefix_of` h' → statefulSet_of ns w (meta_Name (sts_Meta item)) h').
    { intros h' Hp. eapply statefulSet_of_mono; [exact Hp|]. left. by exists item. }
    skip. intros h2 [t' []] Hp2 _; [|by apply triple_ret, Hof].
    skip. intros h3 t2 Hp3 _. apply triple_ret, Hof. by etrans.
  - apply fail_walks.
Qed.

(** The generated StatefulSet has no name; with KubeGateway it is handed on as generated. *)
Lemma prepareStatefulSet_unnamed ns w wk img pc sa h :
  walks (prepareStatefulSet cfg ns w wk img pc sa) h
    (flows (λ _ sts, cfg_UseKubeGateway cfg = true → meta_Name (sts_Meta sts) = "")).
Proof.
  unfold prepareStatefulSet.
  eapply triple_fbind; [by apply or_fail_walks; intros a Ha; exact Ha|]. intros h1 sts _ Hgen.
  assert (Hname : meta_Name (sts_Meta sts) = "").
  { unfold generateStatefulSet in Hgen.
    destruct (generateNamePrefix _ _) as [pre| |]; cbn [go_bind] in Hgen; [|done..].
    destruct (generateContainerPorts _ _) as [cs| |]; cbn [go_bind] in Hgen; [|done..].
    destruct (generateContainerEnv _ _) as [envs| |]; cbn [go_bind] in Hgen; [|done..].
    destruct (generateVolumes w wk) as [st| |]; cbn [go_bind] in Hgen; [|done..].
    injection Hgen as <-. reflexivity. }
  eapply (triple_fbind _ _ _ (λ _ sts2, meta_Name (sts_Meta sts2) = "")).
  { apply (setController_triple w KStatefulSet). intros m [owners ->]%set_owners_only. exact Hname. }
  intros h2 sts2 _ Hn2. destruct (cfg_UseKubeGateway cfg);
    [apply triple_ret; intros _; exact Hn2|].
  skip. intros h3 [n sts3] _ _. apply triple_ret. by intros [=].
Qed.

Lemma findOwned_walks ns w h :
  walks (findOwnedStatefulSet ns (ws_Name w)) h
    (flows (λ h' '(_, n), n = 0%nat → listed_sets ns w [] h')).
Proof.
  unfold findOwnedStatefulSet. eapply triple_fbind; [apply listOwned_walks|].
  intros h1 [|item [|item2 items]] _ Hin; apply triple_ret; [by intros _|done..].
Qed.

(** The StatefulSet is left alone only when none is listed. *)
Lemma applySidecar_withheld ns w wk img sts h :
  walks (applySidecar cfg ns w wk img sts) h
    (flows (λ h' '(sts', write, _), write = false →
      cfg_UseKubeGateway cfg = true ∧ sts' = sts ∧ listed_sets ns w [] h')).
Proof.
  unfold applySidecar. destruct (cfg_UseKubeGateway cfg); cbn [andb]; [|by apply triple_ret].
  destruct (kubeRBACProxySidecarNeeded _ _); [|by apply triple_ret].
  eapply triple_bind; [apply walks_any|]. intros h1 fips _ _.
  eapply triple_bind; [apply walks_any|]. intros h2 [tls|e|p] _ _; [..|by apply triple_ret].
  - skip. intros h3 [[sidecar volumes]|] _ _; by apply triple_ret.
  - eapply triple_fbind; [apply findOwned_walks|].
    intros h3 [existing [|[|n]]] _ Hnone; apply triple_ret; [by intros _; split_and!; [..|apply Hnone]|by destruct existing|done].
Qed.

Lemma writeStatefulSet_of ns w sts write h :
  (write = false → listed_sets ns w [] h ∧ meta_Name (sts_Meta sts) = "") →
  walks (writeStatefulSet ns w sts write) h (flows (λ h' '(n, _), statefulSet_of ns w n h')).
Proof.
  intros Hw. destruct write; [apply reconcileOwnedStatefulSet_of|].
  apply triple_ret. right; right. by apply Hw.
Qed.

(** What the probe will need. *)
Definition ready (ns : string) (w : Workspace) (rs : resources) (h : list event) : Prop :=
  kind_of w (rs_kind rs) h ∧
  (∃ desired, getImageConfig w (rs_kind rs) = Ok (rs_image rs, desired)) ∧
  statefulSet_of ns w (rs_statefulSetName rs) h.

Lemma reconcileResources_ready ns w h :
  walks (reconcileResources cfg ns w) h (flows (λ h' rs, ready ns w rs h')).
Proof.
  unfold reconcileResources.
  eapply triple_fbind; [apply fetchWorkspaceKind_of|]. intros h1 wk _ Hwk.
  eapply triple_fbind; [apply resolveOptions_image|]. intros h2 [[w2 img] pc] Hp2 [Hmeta Himg].
  skip. intros h3 sa Hp3 _.
  eapply triple_fbind; [apply prepareStatefulSet_unnamed|]. intros h4 sts Hp4 Hname.
  skip. intros h5 svc Hp5 _.
  eapply triple_fbind; [apply applySidecar_withheld|]. intros h6 [[sts2 write] tls] Hp6 Hwrite.
  eapply triple_fbind.
  { apply writeStatefulSet_of. intros Hw. destruct (Hwrite Hw) as (Hg & -> & ?). by auto. }
  intros h7 [name sts3] Hp7 Hsts. skip. intros h8 w8 Hp8 _.
  eapply triple_bind; [apply walks_any|].
  intros h9 [u|e|p] Hp9 _; apply triple_ret; try exact I. split_and!; [|exact Himg|]; simpl.
  - eapply kind_of_mono; [|exact Hwk]. later.
  - unfold statefulSet_of, listed_sets, ws_Name in Hsts |- *. rewrite Hmeta in Hsts.
    eapply (statefulSet_of_mono ns w); [|exact Hsts]. later.
Qed.

Lemma fetchPod_walks ns n h :
  walks (fetchPod ns n) h (flows (λ h' pod, ∀ p, pod = Some p →
    Ev (Get KPod ns (n +:+ "-0")) (inl p) ∈ h')).
Proof.
  apply triple_call; [done|]. intros [p|err]; apply triple_ret; [|by destruct (IsNotFound err)].
  intros p' [= ->]. set_solver.
Qed.

(** A decision to pause comes after a probe that succeeded. *)
Lemma reconcileStatus_probed c w wk img pc pod sts sa h :
  walks (reconcileStatus hasHTTPProber hasPodExecutor c w wk img pc pod sts sa) h (λ h' r,
    ∀ w' res, r.1 = Next (w', res, true) → ∃ p pod' result,
      kpt_ActivityProbe (wsk_PodTemplate wk) = Some p ∧ pod = Some pod' ∧
      probe_succeeded w p (Some img) pod' h' result).
Proof.
  apply triple_sat; [apply walks_any|].
  unfold reconcileStatus. rewrite sat_bind. eapply sat_mono; [apply sat_prefix|].
  intros h1 [[status result] [err|]] _; [by intros ? ?|].
  rewrite sat_bind. eapply sat_mono; [apply reconcileActivity_sat|].
  intros h2 out Hrun w' res. destruct Hrun as [|?|? ? ? ? ? ? d|p t a nsl x h' r w2 d c'
    Hp Hst Hdue Hns Hcon Hsucc He]; simpl; [by intros [=]|done|by destruct d; intros [=]|].
  destruct d as [paused|]; [|done]. intros [= _ _ ->].
  apply evaluatePauseDecision_true in He as [Hok _].
  destruct (Hsucc Hok) as (pod' & Hpod & Hprobe). exists p, pod', r. split_and!; [done|done|].
  assert (probe_succeeded w p (Some img) pod' h' r) as Hprobe' by exact Hprobe.
  eapply probe_succeeded_mono; [|exact Hprobe']. set_solver.
Qed.

(** ** The patch *)

Lemma prune_no_patch todo items : calls_ok (λ X q, ¬ is_patch X q) (pruneRoleBindings todo items).
Proof.
  revert todo. induction items as [|f items IH]; intros todo; cbn [pruneRoleBindings]; [done|].
  destruct (todo !! _); [case_bool_decide; [destruct (CopyRoleBindingFields _ _) as [[? []]| |]|]|];
    try done; try (split; [intros []|]; intros [?|?]; simpl; repeat case_match; done || apply IH).
Qed.

Lemma create_no_patch todo : calls_ok (λ X q, ¬ is_patch X q) (createRoleBindings todo).
Proof.
  induction todo as [|[n rb] todo IH]; cbn [createRoleBindings]; [done|].
  split; [intros []|]. by intros [?|?].
Qed.

#[local] Hint Resolve prune_no_patch create_no_patch : calls.

(** A patch is the only one, sets [spec.paused] on top of the Workspace as fetched, and follows
    a successful probe. *)
Definition patch_ok (ns name : string) (h : list event) (X : Type) (q : req X) : Prop :=
  without is_patch h ∧
  match q with
  | Patch KWorkspace o base =>
      wsSpec_Paused (ws_Spec o) = true ∧ fetched ns name base h ∧ probed ns base h
  | Patch _ _ _ => False
  | _ => True
  end.

Lemma patch_ok_other ns name h X (q : req X) :
  without is_patch h → ¬ is_patch X q → patch_ok ns name h X q.
Proof. intros Hh Hq. split; [done|]. destruct q; simpl in *; done || by destruct Hq. Qed.

Abbreviation steps ns name := (triple (patch_ok ns name)).

(** A stage that does not patch. *)
Lemma unpatched {R} ns name (p : prog R) h (Q : list event → R → Prop) :
  avoids is_patch p → without is_patch h → walks p h Q →
  steps ns name p h (λ h' r, without is_patch h' ∧ Q h' r).
Proof.
  intros Hp Hh [_ Hs]. split; [by eapply avoids_after; [apply patch_ok_other|..]|].
  eapply sat_mono; [apply (sat_and _ _ _ _ (avoids_sat _ _ _ Hp Hh) Hs)|].
  intros h' r ([? ?] & ? & ?). by split.
Qed.

Lemma finish_patch ns name orig w res paused tls h :
  without is_patch h → fetched ns name orig h → (paused = true → probed ns orig h) →
  steps ns name (finishReconcile orig w res paused tls) h (λ _ _, True).
Proof.
  intros Hh Hf Hp. unfold finishReconcile. set (w' := match tls with Some _ => _ | None => w end).
  clearbody w'. eapply triple_bind.
  { apply (unpatched ns name _ _ (λ h' _, h `prefix_of` h')); [unfold avoids; calls|done|].
    apply triple_sat; [apply walks_any|apply sat_prefix]. }
  intros h1 [w1|o] _ [Hh1 Hpre]; [|by apply triple_ret]. destruct paused; [|by apply triple_ret].
  apply triple_call; [split; [done|]; split; [done|]; split|].
  - unfold fetched in *. destruct Hpre as [l ->]. set_solver.
  - destruct (Hp eq_refl) as (w2 & wk & img & desired & p & n & pod & r & Hw2 & Hwk & Himg & Hk & Hn & Hpod & Hr).
    exists w2, wk, img, desired, p, n, pod, r. split_and!; try done.
    + by eapply served_mono.
    + by eapply kind_of_mono.
    + by eapply statefulSet_of_mono.
    + destruct Hpre as [l ->]. set_solver.
    + eapply probe_succeeded_mono; [|exact Hr]. destruct Hpre as [l ->]. set_solver.
  - intros [?|?]; by apply triple_ret.
Qed.

Lemma fetchWorkspace_walks ns name :
  walks (fetchWorkspace cfg ns name) [] (flows (λ h w, fetched ns name w h)).
Proof.
  apply triple_call; [done|]. intros [w|err]; [|by apply triple_ret].
  destruct (meta_DeletionTimestamp _); [|apply triple_ret; unfold fetched; set_solver].
  unfold cleanupWorkspace. destruct (ContainsFinalizer _ _); [|by apply triple_ret].
  skip. intros h1 [] _ _. skip. intros h2 [] _ _.
  apply triple_call; [done|]. intros [?|err]; apply triple_ret; [done|by destruct (IsConflict err)].
Qed.

Lemma Reconcile_patch_ok c ns name :
  steps ns name (Reconcile cfg hasHTTPProber hasPodExecutor c ns name) [] (λ _ _, True).
Proof.
  unfold Reconcile. eapply triple_bind.
  { apply unpatched; [unfold avoids; calls|constructor|apply fetchWorkspace_walks]. }
  intros h1 [w|o] _ [Hh1 Hw]; [|by apply triple_ret]. cbn [flows] in Hw.
  assert (Hserved : served KWorkspace w h1) by (left; by exists ns, name).
  eapply triple_bind.
  { apply (unpatched _ _ _ _ (λ h' r, flows (λ h' rs, ready ns w rs h') h' r ∧
      flows (λ h' rs, tracks (rs_workspace rs) h') h' r)); [unfold avoids; calls|done|].
    apply triple_sat; [apply walks_any|]. apply sat_and.
    - eapply sat_mono; [apply reconcileResources_ready|]. by intros h' r [_ ?].
    - eapply sat_mono; [by apply (reconcileResources_steps cfg), served_tracks|]. by intros h' r [_ ?]. }
  intros h2 [rs|o] Hp2 [Hh2 [Hready Htracks]]; [|by apply triple_ret].
  destruct Hready as (Hwk & Himg & Hsts).
  eapply (triple_bind _ _ _ (λ _ _, True)); [|by intros h' [r c'] _ _; apply triple_ret].
  unfold reconcilePod. eapply triple_bind.
  { apply unpatched; [unfold avoids; calls|done|apply fetchPod_walks]. }
  intros h3 [pod|o] Hp3 [Hh3 Hpod]; [|by apply triple_ret]. simpl in Hpod.
  eapply triple_bind.
  { apply unpatched; [unfold avoids; calls|done|apply reconcileStatus_probed]. }
  intros h4 [[[[w' res] paused]|o] c'] Hp4 [Hh4 Hprobed]; [|by apply triple_ret].
  eapply (triple_bind _ _ _ (λ _ _, True)); [|by intros; apply triple_ret].
  apply finish_patch; [done| |].
  - unfold fetched in *. assert (h1 `prefix_of` h4) as [l ->] by later. set_solver.
  - intros ->. destruct (Hprobed w' res eq_refl) as (p & pod' & result & Hk & Hsome & Hprobe).
    destruct Htracks as (w0 & Hs0 & Hm0 & _), Himg as [desired Himg].
    exists w0, (rs_kind rs), (rs_image rs), desired, p, (rs_statefulSetName rs), pod', result.
    split_and!; try done.
    + eapply served_mono; [|exact Hs0]. later.
    + eapply kind_of_mono; [|exact Hwk]. later.
    + eapply statefulSet_of_mono; [|exact Hsts]. later.
    + apply Hpod in Hsome. destruct Hp4 as [l ->]. set_solver.
    + unfold probe_succeeded, jupyterURL, ws_Namespace, ws_Name in Hprobe |- *. by rewrite <-Hm0.
Qed.

(** C3: A Workspace is paused by at most one patch, the last request of the reconcile: it sets
    [spec.paused] relative to the Workspace as it was fetched.  Earlier in the same reconcile
    the probe of the Workspace's kind, for the image configuration it selects, was sent to the
    first Pod of the Workspace's StatefulSet as fetched in this reconcile (its address and the
    Workspace's path, or its name and namespace) and was answered well.  That Pod is the one
    named [-0] after the StatefulSet that was listed or created (or the empty name, when none is
    listed and an unusable TLS profile keeps it from being created). *)
Theorem pause_patch_is_last c ns name h1 o base x h2 r :
  runs (Reconcile cfg hasHTTPProber hasPodExecutor c ns name)
    (h1 ++ Ev (Patch KWorkspace o base) x :: h2) r →
  h2 = [] ∧ wsSpec_Paused (ws_Spec o) = true ∧ fetched ns name base h1 ∧ probed ns base h1.
Proof.
  intros Hr. split.
  - destruct h2 as [|[Y q y] h2]; [done|].
    rewrite (cons_middle (Ev (Patch KWorkspace o base) x)), (assoc_L (++)) in Hr.
    pose proof (triple_runs _ _ _ _ _ _ _ _ (Reconcile_patch_ok c ns name) Hr) as Hw.
    destruct Hw as [Hw _]. unfold without in Hw. apply Forall_app in Hw as [_ Hw].
    apply Forall_cons in Hw as [Hw _]. by destruct Hw.
  - exact (proj2 (triple_runs _ _ _ _ _ _ _ _ (Reconcile_patch_ok c ns name) Hr)).
Qed.
End spec.

(** ** Witness *)

(** An idle Workspace is paused. *)
Lemma pause_patch_is_last_witness :
  ∃ h1 o base, wsSpec_Paused (ws_Spec o) = true ∧ fetched "ns" "test" base h1 ∧
    probed (H3 := exampleProbeLib) "ns" base h1.
Proof.
  destruct (exRun_first as_patch (λ _ _, true) false (exampleIdle None) (λ _, [])
    (Some exReadyPod)) as (h1 & [[o base] x] & e & h2 & r & Hr & ->%as_patch_Some & _);
    [vm_compute; reflexivity|].
  destruct (pause_patch_is_last (H := exampleOwnerLib) (H0 := exampleOwnerLib_laws)
    (H1 := exampleTemplates) (H2 := exampleSelectorLib) (H3 := exampleProbeLib)
    (H4 := canonicalOrder) (H5 := canonicalOrder_laws) (H6 := exampleUnstructured)
    (exCfg false) true true ∅ "ns" "test" _ _ _ _ _ _ Hr) as (_ & Hp & Hf & He).
  exists h1, o, base. split; [exact Hp|]. split; [exact Hf|exact He].
Defined.

(** ** The write without a comparison *)

(** A Workspace that is paused already, but whose Pod still runs, is patched to be paused
    again: the pause decision looks at the state, not at [spec.paused]. *)
Theorem paused_workspace_patched :
  ∃ h1 o base x h2 r, runs (exReconcile false) (h1 ++ Ev (Patch KWorkspace o base) x :: h2) r ∧
    fetched "ns" "test" base h1 ∧ wsSpec_Paused (ws_Spec base) = true.
Proof.
  destruct (exRun_first as_patch (λ h1 '(_, base, _), wsSpec_Paused (ws_Spec base)) false
    (ws_setPaused (exampleIdle None) true) (λ _, []) (Some exReadyPod))
    as (h1 & [[o base] x] & e & h2 & r & Hr & ->%as_patch_Some & Hp); [vm_compute; reflexivity|].
  exists h1, o, base, x, h2, r. split; [exact Hr|]. split; [|exact Hp].
  exact (proj1 (proj2 (proj2 (triple_runs _ _ _ _ _ _ _ _
    (Reconcile_patch_ok (H := exampleOwnerLib) (H0 := exampleOwnerLib_laws)
    (H1 := exampleTemplates) (H2 := exampleSelectorLib) (H3 := exampleProbeLib)
    (H4 := canonicalOrder) (H5 := canonicalOrder_laws) (H6 := exampleUnstructured)
    (exCfg false) true true ∅ "ns" "test") Hr)))).
Qed.

