(* ===== verification/KindController.v ===== *)
(** * The WorkspaceKind reconciler ([workspacekind_controller.go],
      [helper/configmap_cache.go])

    It releases the protection finalizer of a kind that no Workspace uses, counts how
    many Workspaces use each option, and fingerprints the icon and the logo.  The
    ConfigMaps these come from are read from a cache of their own, whose transform
    stores a SHA-256 per data key in an annotation; [Get KConfigMap] is a read of that
    cache here. *)

From Stdlib Require Import ZArith.
From stdpp Require Import base gmap strings list fin_maps.
From S2P Require Import Prelude K8sTypes ApiTypes Sha256 Options Client Examples Field Webhook.
From S2P Require Import WebhookSpec Owned.

Definition ImageSourceLabel : string := "notebooks.kubeflow.org/image-source".
Definition SHA256AnnotationPrefix : string := "VIRTUAL.notebooks.kubeflow.org/sha256.".

Definition wsk_setStatus (k : WorkspaceKind) (s : WorkspaceKindStatus) : WorkspaceKind :=
  mkWorkspaceKind (wsk_Meta k) (wsk_Spec k) s.
Definition wsk_setMeta (k : WorkspaceKind) (m : ObjectMeta) : WorkspaceKind :=
  mkWorkspaceKind m (wsk_Spec k) (wsk_Status k).

Section kind_controller.
Context `{MapOrder}.

(** ** The ConfigMap cache *)

(** One loop of the transform, over [Data] or [BinaryData]. *)
Definition hashAnnotations (site : string) (data annotations : gmap string string)
    : gmap string string :=
  foldl (λ a e, <[SHA256AnnotationPrefix +:+ e.1 := sha256_hex e.2]> a) annotations
    (range site data).

(** The transform on a ConfigMap (objects of other types are left alone). *)
Definition TransformConfigMapSHA256 (cm : ConfigMap) : ConfigMap :=
  let annotations := gm (meta_Annotations (cm_Meta cm)) in
  let annotations := hashAnnotations "cm.Data" (cm_Data cm) annotations in
  let annotations := hashAnnotations "cm.BinaryData" (cm_BinaryData cm) annotations in
  mkConfigMap (setAnnotations (cm_Meta cm) (Some annotations)) (cm_Data cm) (cm_BinaryData cm).

(** ** Assets *)

Definition assetError (e : ConfigMapError) (msg : string) : ImageAssetStatus :=
  mkImageAssetStatus "" (Some (mkAssetConfigMapStatus (Some e) (Some msg))).

Definition reconcileAssetStatus (asset : WorkspaceKindAsset) : prog ImageAssetStatus :=
  match asset_Url asset, asset_ConfigMap asset with
  | Some _, _ | None, None => Ret (mkImageAssetStatus "" None)
  | None, Some cmRef =>
    cm <-- call (Get KConfigMap (acm_Namespace cmRef) (acm_Name cmRef)) ;;
    Ret match cm with
    | inr err =>
      if IsNotFound err then
        assetError ConfigMapErrorNotFound
          ("ConfigMap " +:+ quote (acm_Name cmRef) +:+ " not found in namespace "
           +:+ quote (acm_Namespace cmRef) +:+ " (if it exists, ensure it has the "
           +:+ quote ImageSourceLabel +:+ " label)")
      else
        assetError ConfigMapErrorOther
          ("failed to get ConfigMap " +:+ quote (acm_Name cmRef) +:+ " in namespace "
           +:+ quote (acm_Namespace cmRef) +:+ ": " +:+ Error err)
    | inl cm =>
      match gm (meta_Annotations (cm_Meta cm)) !! (SHA256AnnotationPrefix +:+ acm_Key cmRef) with
      | None =>
        assetError ConfigMapErrorKeyNotFound
          ("key " +:+ quote (acm_Key cmRef) +:+ " not found in ConfigMap "
           +:+ quote (acm_Name cmRef) +:+ " in namespace " +:+ quote (acm_Namespace cmRef))
      | Some sha256Hash => mkImageAssetStatus sha256Hash None
      end
    end
  end.

(** ** The reconciler *)

(** The protection finalizer is removed when no Workspace uses the kind. *)
Definition releaseKind (workspaceKind : WorkspaceKind) (workspaces : list Workspace)
    : prog (flow WorkspaceKind) :=
  if (length workspaces =? 0)%nat
     && ContainsFinalizer (wsk_Meta workspaceKind) WorkspaceKindFinalizer
  then r <-- call (Update KWorkspaceKind (wsk_setMeta workspaceKind
              (RemoveFinalizer (wsk_Meta workspaceKind) WorkspaceKindFinalizer))) ;;
       or_return r
  else Ret (Next workspaceKind).

Definition optionMetrics {V} `{OptionValue V} (values : list V) (counts : gmap string Z)
    : list OptionMetric :=
  (λ v, mkOptionMetric (opt_Id v) (default 0%Z (counts !! opt_Id v))) <$> values.

Definition kindStatus (workspaceKind : WorkspaceKind) (workspaces : list Workspace)
    (icon logo : ImageAssetStatus) : WorkspaceKindStatus :=
  let '(imageConfigCount, podConfigCount) := countUsage workspaceKind workspaces in
  mkKindStatus (wrap32 (Z.of_nat (length workspaces)))
    (mkOptionsMetrics (optionMetrics (wsk_ImageValues workspaceKind) imageConfigCount)
                      (optionMetrics (wsk_PodValues workspaceKind) podConfigCount))
    icon logo.

Definition reconcileKind (workspaceKind : WorkspaceKind) : prog (flow outcome) :=
  let currentStatus := wsk_Status workspaceKind in
  r <-- call (workspacesOfKind workspaceKind) ;;
  workspaces <~ or_return r ;;
  workspaceKind <~ releaseKind workspaceKind workspaces ;;
  icon <-- reconcileAssetStatus (spawner_Icon (kspec_Spawner (wsk_Spec workspaceKind))) ;;
  logo <-- reconcileAssetStatus (spawner_Logo (kspec_Spawner (wsk_Spec workspaceKind))) ;;
  let workspaceKind :=
    wsk_setStatus workspaceKind (kindStatus workspaceKind workspaces icon logo) in
  if bool_decide (currentStatus = wsk_Status workspaceKind)
  then Ret (Next (Done emptyResult None))
  else
    r <-- call (UpdateStatus KWorkspaceKind workspaceKind) ;;
    _ <~ or_return r ;;
    Ret (Next (Done emptyResult None)).

Definition WorkspaceKindReconciler_Reconcile (name : string) : prog outcome :=
  r <-- call (Get KWorkspaceKind "" name) ;;
  match r with
  | inr err => Ret (Done emptyResult (if IsNotFound err then None else Some err))
  | inl workspaceKind =>
    o <-- reconcileKind workspaceKind ;;
    Ret match o with Next o | Return o => o end
  end.
End kind_controller.

(** ** The cache *)

(** The entry a key of the data is hashed to. *)
Definition cachedHash (cm : ConfigMap) (key : string) : option string :=
  match cm_BinaryData cm !! key, cm_Data cm !! key with
  | Some v, _ | None, Some v => Some (sha256_hex v)
  | None, None => None
  end.

Section cache.
Context `{MapOrderLaws}.

Lemma hash_loop (l : list (string * string)) (a : gmap string string) key :
  NoDup l.*1 →
  foldl (λ a e, <[SHA256AnnotationPrefix +:+ e.1 := sha256_hex e.2]> a) a l
    !! (SHA256AnnotationPrefix +:+ key) =
  match (list_to_map l : gmap string string) !! key with
  | Some v => Some (sha256_hex v)
  | None => a !! (SHA256AnnotationPrefix +:+ key)
  end.
Proof.
  revert a. induction l as [|[k v] l IH]; intros a; [done|].
  intros [Hk Hl]%NoDup_cons.
  change (list_to_map ((k, v) :: l)) with (<[k := v]> (list_to_map l : gmap string string)).
  cbn [foldl]. rewrite IH by done. cbn [fst snd].
  destruct (decide (k = key)) as [->|Hne].
  - apply not_elem_of_list_to_map_1 in Hk. cbn [fst] in Hk. by rewrite Hk, !lookup_insert_eq.
  - rewrite (lookup_insert_ne _ k key) by done.
    rewrite lookup_insert_ne; [done|].
    by intros ?%(inj (String.append SHA256AnnotationPrefix)).
Qed.

Lemma hashAnnotations_lookup site data a key :
  hashAnnotations site data a !! (SHA256AnnotationPrefix +:+ key) =
  match data !! key with
  | Some v => Some (sha256_hex v)
  | None => a !! (SHA256AnnotationPrefix +:+ key)
  end.
Proof.
  unfold hashAnnotations. rewrite hash_loop by apply range_NoDup. by rewrite range_list_to_map.
Qed.

Lemma transform_lookup cm key :
  gm (meta_Annotations (cm_Meta (TransformConfigMapSHA256 cm)))
    !! (SHA256AnnotationPrefix +:+ key) =
  match cachedHash cm key with
  | Some s => Some s
  | None => gm (meta_Annotations (cm_Meta cm)) !! (SHA256AnnotationPrefix +:+ key)
  end.
Proof.
  unfold TransformConfigMapSHA256, cachedHash. simpl.
  rewrite !hashAnnotations_lookup.
  by destruct (cm_BinaryData cm !! key), (cm_Data cm !! key).
Qed.
End cache.

(** ** What the reconciler does *)

(** How the status describes the Workspaces of a kind. *)
Definition metrics_exact {V} `{OptionValue V} (values : list V) (selected : Workspace → string)
    (wss : list Workspace) (ms : list OptionMetric) : Prop :=
  ms = (λ v, mkOptionMetric (opt_Id v)
               (Z.of_nat (length (filter (λ w, selected w = opt_Id v) wss)))) <$> values.

Definition status_exact (wk : WorkspaceKind) (wss : list Workspace) (s : WorkspaceKindStatus)
    : Prop :=
  kst_Workspaces s = Z.of_nat (length wss) ∧
  metrics_exact (wsk_ImageValues wk) (λ w, wpo_ImageConfig (ws_Options w)) wss
    (ptom_ImageConfig (kst_PodTemplateOptions s)) ∧
  metrics_exact (wsk_PodValues wk) (λ w, wpo_PodConfig (ws_Options w)) wss
    (ptom_PodConfig (kst_PodTemplateOptions s)).

Lemma optionMetrics_exact {V} `{OptionValue V} (values : list V) selected wss :
  (Z.of_nat (length wss) < 2 ^ 31)%Z →
  metrics_exact values selected wss (optionMetrics values (usageCounts values selected wss)).
Proof.
  intros Hlen. apply list_fmap_ext. intros _ v _. f_equal. unfold usageCounts.
  rewrite (count_loop selected wss _ (opt_Id v) 0 (count_base values (opt_Id v))); lia.
Qed.

Lemma kindStatus_exact wk wss icon logo :
  (Z.of_nat (length wss) < 2 ^ 31)%Z → status_exact wk wss (kindStatus wk wss icon logo).
Proof.
  intros Hlen. split_and!; [|by apply optionMetrics_exact..].
  simpl. apply wrap32_small. unfold in_int32. lia.
Qed.

(** The requests of the reconciler, given what came before. *)
Definition kind_call (name : string) (h : list event) {X} (q : req X) : Prop :=
  match q with
  | Update KWorkspaceKind k => ∃ wk,
      Ev (Get KWorkspaceKind "" name) (inl wk) ∈ h ∧ Ev (workspacesOfKind wk) (inl []) ∈ h ∧
      k = wsk_setMeta wk (RemoveFinalizer (wsk_Meta wk) WorkspaceKindFinalizer)
  | UpdateStatus KWorkspaceKind _ => True
  | Get KConfigMap ns n => ∃ wk ref,
      (Ev (Get KWorkspaceKind "" name) (inl wk) ∈ h ∨ ∃ k, Ev (Update KWorkspaceKind k) (inl wk) ∈ h) ∧
      (asset_ConfigMap (spawner_Icon (kspec_Spawner (wsk_Spec wk))) = Some ref ∨
       asset_ConfigMap (spawner_Logo (kspec_Spawner (wsk_Spec wk))) = Some ref) ∧
      acm_Namespace ref = ns ∧ acm_Name ref = n
  | q => is_write q = false
  end.

(** The kind as it was fetched, or as the release of its finalizer returned it. *)
Definition kind_source (name : string) (h : list event) (wk : WorkspaceKind) : Prop :=
  Ev (Get KWorkspaceKind "" name) (inl wk) ∈ h ∨
  ∃ k, Ev (Update KWorkspaceKind k) (inl wk) ∈ h.

Lemma kind_source_mono name h h' wk :
  h `prefix_of` h' → kind_source name h wk → kind_source name h' wk.
Proof. intros [l ->] [?|(k & ?)]; [left|right; exists k]; set_solver. Qed.

Lemma last_event (h : list event) e : e ∈ h ++ [e].
Proof. set_solver. Qed.

Lemma earlier_event (h : list event) e e' : e ∈ h → e ∈ h ++ [e'].
Proof. set_solver. Qed.

#[local] Hint Resolve last_event earlier_event : core.

Section calls.
Context `{MapOrder}.

Lemma asset_calls name wk asset h :
  kind_source name h wk →
  (asset = spawner_Icon (kspec_Spawner (wsk_Spec wk)) ∨
   asset = spawner_Logo (kspec_Spawner (wsk_Spec wk))) →
  calls_after (@kind_call name) (reconcileAssetStatus asset) h.
Proof.
  intros Hs Ha. unfold reconcileAssetStatus.
  destruct (asset_Url asset), (asset_ConfigMap asset) as [ref|] eqn:Hr; try done.
  split; [|done]. exists wk, ref. split; [exact Hs|]. split; [|done].
  destruct Ha as [Ha | Ha]; rewrite Ha in Hr; auto.
Qed.

Lemma release_calls name wk wss h :
  Ev (Get KWorkspaceKind "" name) (inl wk) ∈ h → Ev (workspacesOfKind wk) (inl wss) ∈ h →
  calls_after (@kind_call name) (releaseKind wk wss) h.
Proof.
  intros Hg Hl. unfold releaseKind. case_match eqn:E; [|done].
  apply andb_true_iff in E as [Hz%Nat.eqb_eq%length_zero_iff_nil _]. subst wss.
  split; [by exists wk|]. by intros [?|?].
Qed.

Lemma release_sat name wk wss h :
  Ev (Get KWorkspaceKind "" name) (inl wk) ∈ h →
  sat (releaseKind wk wss) h (λ h' r, h `prefix_of` h' ∧
    match r with
    | Next wk' => kind_source name h' wk' ∧
        (wk' = wk ∧ h' = h ∨ wss = [] ∧ ∃ k, h' = h ++ [Ev (Update KWorkspaceKind k) (inl wk')])
    | Return o => ∃ err, o = Done emptyResult (Some err)
    end).
Proof.
  intros Hg. unfold releaseKind. case_match eqn:E.
  - apply andb_true_iff in E as [Hz%Nat.eqb_eq%length_zero_iff_nil _]. subst wss.
    intros [k|err]; simpl; (split; [by eexists|]); [|by eexists].
    split; [right; by eexists|right; split; [done|by eexists]].
  - split; [done|]. split; [by left|by left].
Qed.

Lemma kind_calls name : calls_after (@kind_call name) (WorkspaceKindReconciler_Reconcile name) [].
Proof.
  split; [done|]. intros [wk|err]; [|done]. cbn [pbind].
  apply calls_after_bind; [|eapply sat_mono; [apply sat_prefix|intros; exact I]].
  split; [done|]. intros [wss|err]; [|done].
  set (h := _ ++ [Ev (workspacesOfKind wk) _]).
  assert (Ev (Get KWorkspaceKind "" name) (inl wk) ∈ h) as Hg by (subst h; auto).
  change (calls_after (@kind_call name) (fbind (releaseKind wk wss) (λ workspaceKind,
    icon <-- reconcileAssetStatus (spawner_Icon (kspec_Spawner (wsk_Spec workspaceKind))) ;;
    logo <-- reconcileAssetStatus (spawner_Logo (kspec_Spawner (wsk_Spec workspaceKind))) ;;
    let workspaceKind := wsk_setStatus workspaceKind (kindStatus workspaceKind wss icon logo) in
    if bool_decide (wsk_Status wk = wsk_Status workspaceKind)
    then Ret (Next (Done emptyResult None))
    else
      r <-- call (UpdateStatus KWorkspaceKind workspaceKind) ;;
      _ <~ or_return r ;; Ret (Next (Done emptyResult None)))) h).
  apply calls_after_fbind; [by apply release_calls; subst h|].
  eapply sat_mono; [by apply (release_sat name)|]. intros h1 [wk'|o]; [|done].
  intros (_ & Hs & _).
  apply calls_after_bind; [apply (asset_calls name wk'); auto|].
  eapply sat_mono; [apply sat_prefix|]. intros h2 icon Hp.
  apply (kind_source_mono _ _ _ _ Hp) in Hs.
  apply calls_after_bind; [apply (asset_calls name wk'); auto|].
  eapply sat_mono; [apply sat_prefix|]. intros h3 logo Hp'. cbv zeta.
  case_match; [done|]. split; [done|]. by intros [?|?].
Qed.
End calls.

(** The status of an asset, from what the cache holds of its ConfigMap: the hash of the
    data under its key ([BinaryData] first), else whatever annotation of that name the
    ConfigMap itself carries, else an error. *)
Definition asset_recorded `{MapOrder} (h : list event) (asset : WorkspaceKindAsset)
    (st : ImageAssetStatus) : Prop :=
  match asset_Url asset, asset_ConfigMap asset with
  | None, Some ref => ∃ x,
      Ev (Get KConfigMap (acm_Namespace ref) (acm_Name ref)) x ∈ h ∧
      match x with
      | inr err => ∃ msg,
          st = assetError (if IsNotFound err then ConfigMapErrorNotFound else ConfigMapErrorOther) msg
      | inl cm => ∀ stored, cm = TransformConfigMapSHA256 stored →
        match cachedHash stored (acm_Key ref),
              gm (meta_Annotations (cm_Meta stored)) !! (SHA256AnnotationPrefix +:+ acm_Key ref) with
        | Some sha, _ | None, Some sha => st = mkImageAssetStatus sha None
        | None, None => ∃ msg, st = assetError ConfigMapErrorKeyNotFound msg
        end
      end
  | _, _ => st = mkImageAssetStatus "" None
  end.

(** A status that is exact for the Workspaces listed and the ConfigMaps read is on
    record: it was fetched, or its update was accepted. *)
Definition status_on_record `{MapOrder} (name : string) (h : list event) : Prop :=
  ∃ wk0 wk wss s, Ev (Get KWorkspaceKind "" name) (inl wk0) ∈ h ∧
    Ev (workspacesOfKind wk0) (inl wss) ∈ h ∧
    (wk = wk0 ∨ wss = [] ∧ ∃ k, Ev (Update KWorkspaceKind k) (inl wk) ∈ h) ∧
    (s = wsk_Status wk0 ∨
     ∃ h1 y, h = h1 ++ [Ev (UpdateStatus KWorkspaceKind (wsk_setStatus wk s)) (inl y)]) ∧
    ((Z.of_nat (length wss) < 2 ^ 31)%Z → status_exact wk wss s) ∧
    asset_recorded h (spawner_Icon (kspec_Spawner (wsk_Spec wk))) (kst_SpawnerIcon s) ∧
    asset_recorded h (spawner_Logo (kspec_Spawner (wsk_Spec wk))) (kst_SpawnerLogo s).

Lemma asset_recorded_mono `{MapOrder} h h' asset st :
  (∀ e, e ∈ h → e ∈ h') → asset_recorded h asset st → asset_recorded h' asset st.
Proof.
  unfold asset_recorded. intros Hh. destruct (asset_Url asset), (asset_ConfigMap asset); try done.
  intros (x & Hx & ?). exists x. auto.
Qed.

Section properties.
Context `{MapOrderLaws}.

Lemma asset_sat asset h :
  sat (reconcileAssetStatus asset) h (λ h' st, h `prefix_of` h' ∧ asset_recorded h' asset st).
Proof.
  unfold reconcileAssetStatus, asset_recorded.
  destruct (asset_Url asset), (asset_ConfigMap asset) as [ref|]; try done.
  intros x. simpl. split; [by eexists|]. exists x. split; [auto|]. destruct x as [cm|err].
  - intros stored ->. rewrite transform_lookup.
    destruct (cachedHash stored (acm_Key ref)); [done|]. case_match; [done|by eexists].
  - destruct (IsNotFound err); by eexists.
Qed.

Lemma reconcileKind_sat name wk h :
  Ev (Get KWorkspaceKind "" name) (inl wk) ∈ h →
  sat (reconcileKind wk) h (λ h' r,
    match r with
    | Next o => o = Done emptyResult None ∧ status_on_record name h'
    | Return o => ∃ err, o = Done emptyResult (Some err)
    end).
Proof.
  intros Hg. unfold reconcileKind. cbv zeta. rewrite sat_bind. intros [wss|err]; [|by eexists].
  set (h0 := h ++ _). assert (Ev (Get KWorkspaceKind "" name) (inl wk) ∈ h0) as Hg0 by (subst h0; auto).
  cbn [sat]. rewrite sat_fbind. cbn [sat or_return].
  rewrite sat_fbind. eapply sat_mono; [by apply (release_sat name)|].
  intros h1 [wk'|o]; [|by intros [_ ?]]. intros (Hp1 & _ & Hwk).
  rewrite sat_bind. eapply sat_mono; [apply asset_sat|]. intros h2 icon [Hp2 Hi].
  rewrite sat_bind. eapply sat_mono; [apply asset_sat|]. intros h3 logo [Hp3 Hlg]. cbv zeta.
  set (s := kindStatus wk' wss icon logo).
  assert (∀ e, e ∈ h1 → e ∈ h3) as H13.
  { intros e. destruct Hp2 as [l2 ->], Hp3 as [l3 ->]. set_solver. }
  assert (asset_recorded h3 (spawner_Icon (kspec_Spawner (wsk_Spec wk'))) icon) as Hi3.
  { eapply asset_recorded_mono; [|exact Hi]. intros e. destruct Hp3 as [l3 ->]. set_solver. }
  assert (∀ e, e ∈ h0 → e ∈ h3) as H03.
  { intros e He. apply H13. destruct Hp1 as [l1 ->]. set_solver. }
  assert (wk' = wk ∨ wss = [] ∧ ∃ k, Ev (Update KWorkspaceKind k) (inl wk') ∈ h3) as Hor.
  { destruct Hwk as [[-> ->]|(-> & k & ->)]; [by left|right]. split; [done|]. exists k. auto. }
  assert (Ev (workspacesOfKind wk) (inl wss) ∈ h3) as Hl by (apply H03; subst h0; auto).
  case_bool_decide as Hst.
  - split; [done|]. exists wk, wk', wss, s. split_and!; auto.
    intros Hlen. by apply kindStatus_exact.
  - intros [y|err]; simpl; [|by eexists]. split; [done|]. exists wk, wk', wss, s.
    split_and!; auto.
    + destruct Hor as [?|(? & k & ?)]; [by left|right; split; [done|exists k; auto]].
    + right. by exists h3, y.
    + intros Hlen. by apply kindStatus_exact.
    + eapply asset_recorded_mono; [|exact Hi3]. auto.
    + eapply asset_recorded_mono; [|exact Hlg]. auto.
Qed.

(** C31: The protection finalizer of a WorkspaceKind is removed only after the API
    server answered, in the same reconcile, that no Workspace in any namespace uses the
    kind; the update changes nothing else of the kind as it was fetched. *)
Theorem kind_released_when_unused name h1 k x h2 r :
  runs (WorkspaceKindReconciler_Reconcile name) (h1 ++ Ev (Update KWorkspaceKind k) x :: h2) r →
  ∃ wk, Ev (Get KWorkspaceKind "" name) (inl wk) ∈ h1 ∧ Ev (workspacesOfKind wk) (inl []) ∈ h1 ∧
    k = wsk_setMeta wk (RemoveFinalizer (wsk_Meta wk) WorkspaceKindFinalizer).
Proof. intros Hr. exact (calls_after_runs _ _ [] h1 _ _ _ _ _ (kind_calls name) Hr). Qed.

(** C32: A reconcile of a WorkspaceKind that returns without error leaves a status on
    record that is exact: the number of Workspaces listed for the kind, and for every
    option of the kind, in order, how many of them select it (lists shorter than 2^31,
    the range of the counters); and for the icon and the logo the SHA-256 of the data
    under their key, or the error, in whatever order the cache hashed the keys.  A key
    that the ConfigMap lacks is still reported as found if the ConfigMap carries an
    annotation of the cache's name. The status is the one that was fetched, or the last
    one the API server accepted in this reconcile. *)
Theorem kind_status_recorded name h res :
  runs (WorkspaceKindReconciler_Reconcile name) h (Done res None) →
  (∃ err, h = [Ev (Get KWorkspaceKind "" name) (inr err)] ∧ IsNotFound err = true) ∨
  status_on_record name h.
Proof.
  intros ([wk|err] & h' & -> & Hr).
  - right. revert h' Hr. cbn [pbind].
    cut (sat (o <-- reconcileKind wk ;; Ret match o with Next o | Return o => o end)
           [Ev (Get KWorkspaceKind "" name) (inl wk)]
           (λ h r, r = Done res None → status_on_record name h)).
    { intros Hs h' Hr. rewrite sat_runs in Hs. by apply (Hs h' _ Hr). }
    rewrite sat_bind. eapply sat_mono; [apply (reconcileKind_sat name); set_solver|].
    intros h' [o|o]; simpl; [by intros [_ ?] _|by intros [err ->]].
  - left. destruct Hr as [-> [= _ He]]. exists err. by destruct (IsNotFound err).
Qed.
End properties.

(** ** Witnesses *)

(** A kind with the protection finalizer, its icon in a ConfigMap. *)
Definition exAssetKind : WorkspaceKind :=
  let k := exKind [exImage "a" None exPorts; exImage "b" (Some "a") exPorts]
             [exPodConfig "p" None] None [] in
  let s := wsk_Spec k in
  mkWorkspaceKind (setFinalizers (wsk_Meta k) [WorkspaceKindFinalizer])
    (mkKindSpec (mkSpawner "JupyterLab" "" None None None
       (mkAsset None (Some (mkAssetConfigMap "icons" "ns" "icon.svg" "image/svg+xml"))) exAsset)
       (kspec_PodTemplate s) (kspec_ActivityRules s) (kspec_FilterRules s))
    (wsk_Status k).

Definition exIcons : ConfigMap :=
  mkConfigMap (exMeta "icons" "ns") {[ "icon.svg" := "<svg/>" ]} ∅.

Definition exKindEnv (wss : list Workspace) : handler () := λ X q s,
  (match q in req X return X → X with
   | Get KWorkspaceKind _ _ => λ _, inl exAssetKind
   | List KWorkspace _ => λ _, inl wss
   | Get KConfigMap _ _ => λ _, inl (TransformConfigMapSHA256 (H := canonicalOrder) exIcons)
   | _ => λ x, x
   end (exEnv 0 (mkExecOutcome [] None) X q s).1, s).

Definition exKindRun (wss : list Workspace) : list event :=
  trace (exKindEnv wss) (WorkspaceKindReconciler_Reconcile "jupyterlab") ().


(** Nobody uses the kind: its finalizer goes. *)
Lemma kind_released_when_unused_witness :
  ∃ (h1 : list event) wk, Ev (Get KWorkspaceKind "" "jupyterlab") (inl wk) ∈ h1 ∧
    Ev (workspacesOfKind wk) (inl []) ∈ h1.
Proof.
  pose proof (interp_runs (exKindEnv []) (WorkspaceKindReconciler_Reconcile "jupyterlab") ()) as Hr.
  assert (∃ h1 k x h2, trace (exKindEnv []) (WorkspaceKindReconciler_Reconcile "jupyterlab") ()
    = h1 ++ Ev (Update KWorkspaceKind k) x :: h2) as (h1 & k & x & h2 & Hh).
  { exists (take 2 (exKindRun [])).
    exists (wsk_setMeta exAssetKind (RemoveFinalizer (wsk_Meta exAssetKind) WorkspaceKindFinalizer)).
    exists (inl (wsk_setMeta exAssetKind (RemoveFinalizer (wsk_Meta exAssetKind) WorkspaceKindFinalizer))).
    exists (drop 3 (exKindRun [])). vm_compute. reflexivity. }
  rewrite Hh in Hr.
  destruct (kind_released_when_unused "jupyterlab" h1 k x h2 _ Hr) as (wk & Hg & Hl & _).
  by exists h1, wk.
Defined.

(** One Workspace uses the kind. *)
Lemma kind_status_recorded_witness :
  ∃ h, status_on_record (H := canonicalOrder) "jupyterlab" h.
Proof.
  set (ws := exWorkspace "test" false "b" "p" (exStatus WorkspaceStateRunning emptyActivity 0)).
  pose proof (interp_runs (exKindEnv [ws]) (WorkspaceKindReconciler_Reconcile "jupyterlab") ()) as Hr.
  assert ((interp (exKindEnv [ws]) (WorkspaceKindReconciler_Reconcile "jupyterlab") ()).1
          = Done emptyResult None) as Hd by (vm_compute; reflexivity).
  rewrite Hd in Hr. exists (exKindRun [ws]).
  destruct (kind_status_recorded (H := canonicalOrder) (H0 := canonicalOrder_laws)
    "jupyterlab" _ _ Hr) as [(err & Hh & _)|Hs]; [|exact Hs].
  apply (f_equal length) in Hh. vm_compute in Hh. discriminate.
Defined.
