(* ===== verification/Watches.v ===== *)
(** * Field indexes and watches ([helper/index.go], [SetupWithManager])

    The index functions decide what a list with a field selector returns; the watches turn
    a change of an object into requests to reconcile: their predicates let an update through
    or not ([WatchLib], controller-runtime's), and their map functions name what is to be
    reconciled ([queueOf]).  [asset_change_requeues] is about the ConfigMaps of a kind. *)

From Stdlib Require Import ZArith.
From stdpp Require Import base gmap strings list.
From S2P Require Import Prelude K8sTypes ApiTypes Names Options Client Examples Field Webhook Owned.
From S2P Require Import Reconcile KindController.

Definition IndexWorkspaceKindConfigMapImageSourceField : string := ".spec.configMapImageSource".
Definition OwnerKindWorkspace : string := "Workspace".
Definition GroupVersion : string := "kubeflow.org/v1beta1".

(** ** Index functions *)

Definition indexByWorkspaceOwner (m : ObjectMeta) : list string :=
  match GetControllerOf m with
  | None => []
  | Some owner =>
    if negb (bool_decide (owner_APIVersion owner = GroupVersion))
       || negb (bool_decide (owner_Kind owner = OwnerKindWorkspace)) then []
    else [owner_Name owner]
  end.

Definition indexEventByUid (e : Event) : list string :=
  if bool_decide (ev_InvolvedUID e = "") then [] else [ev_InvolvedUID e].

Definition indexWorkspaceByKind (ws : Workspace) : list string :=
  if bool_decide (wsSpec_Kind (ws_Spec ws) = "") then [] else [wsSpec_Kind (ws_Spec ws)].

Definition indexKindByConfigMap (wsk : WorkspaceKind) : list string :=
  let value (asset : WorkspaceKindAsset) :=
    match asset_ConfigMap asset with
    | Some cm => [acm_Namespace cm +:+ "/" +:+ acm_Name cm]
    | None => []
    end in
  value (spawner_Icon (kspec_Spawner (wsk_Spec wsk)))
  ++ value (spawner_Logo (kspec_Spawner (wsk_Spec wsk))).

(** ** Watch functions of the WorkspaceKind controller *)

Definition mapWorkspaceToRequest (ws : Workspace) : list string := [wsSpec_Kind (ws_Spec ws)].

Definition mapConfigMapToRequests (cm : ConfigMap) : prog (list string) :=
  r <-- call (List KWorkspaceKind (mkListOptions
         (Some (IndexWorkspaceKindConfigMapImageSourceField,
                meta_Namespace (cm_Meta cm) +:+ "/" +:+ meta_Name (cm_Meta cm))) ∅ "")) ;;
  Ret match r with
      | inr _ => []
      | inl items => wsk_Name <$> items
      end.

(** ** Watches *)

(** The updates a watch lets through. *)
Inductive change_predicate := GenerationChanged | ResourceVersionChanged.

(** A request to reconcile: namespace and name. *)
Abbreviation request := (string * string)%type.

Inductive watch :=
| For (k : kind)
| Owns (k : kind)
| WatchesMap (k : kind) (map : obj k → prog (list request))
    (change : change_predicate) (pred : obj k → bool)
| WatchesRawSource (k : kind) (map : obj k → prog (list request)) (change : change_predicate).

(** The source of the ConfigMaps is the cache the reconciler reads them from. *)
Definition WorkspaceKindReconciler_SetupWithManager : list watch :=
  [For KWorkspaceKind;
   WatchesMap KWorkspace (λ ws, Ret ((λ name, ("", name)) <$> mapWorkspaceToRequest ws))
     GenerationChanged (λ _, true);
   WatchesRawSource KConfigMap
     (λ cm, names <-- mapConfigMapToRequests cm ;; Ret ((λ name, ("", name)) <$> names))
     ResourceVersionChanged].

(** ** What a watch queues (controller-runtime) *)

Inductive change (T : Type) := Created (o : T) | Updated (old new : T) | Deleted (o : T).
Arguments Created {T}. Arguments Updated {T}. Arguments Deleted {T}.

Definition objects {T} (c : change T) : list T :=
  match c with Created o | Deleted o => [o] | Updated old new => [old; new] end.

(** [Update] of [GenerationChangedPredicate] and [ResourceVersionChangedPredicate]. *)
Class WatchLib := { updatePasses : change_predicate → ObjectMeta → ObjectMeta → bool }.

(** They compare what they are named after. *)
Class WatchLibLaws `{WatchLib} : Prop := {
  passes_version old new : updatePasses ResourceVersionChanged old new
    = negb (bool_decide (meta_ResourceVersion old = meta_ResourceVersion new));
  passes_generation old new : updatePasses GenerationChanged old new
    = negb (bool_decide (meta_Generation old = meta_Generation new));
}.

(** [handler.EnqueueRequestsFromMapFunc]: an update queues for the old and the new object. *)
Definition enqueue {T} (map : T → prog (list request)) (c : change T) : prog (list request) :=
  match c with
  | Created o | Deleted o => map o
  | Updated old new => r1 <-- map old ;; r2 <-- map new ;; Ret (r1 ++ r2)
  end.

Section requests.
Context `{WatchLib}.

(** The predicates of a watch: on the change of an update, and on the (new) object. *)
Definition passes (k : kind) (filter : change_predicate) (pred : obj k → bool)
    (c : change (obj k)) : bool :=
  match c with
  | Created o | Deleted o => pred o
  | Updated old new => updatePasses filter (obj_Meta k old) (obj_Meta k new) && pred new
  end.

Definition filtered (k : kind) (map : obj k → prog (list request)) (filter : change_predicate)
    (pred : obj k → bool) (c : change (obj k)) : prog (list request) :=
  if passes k filter pred c then enqueue map c else Ret [].

(** The requests a watch makes of a change of an object of this kind. *)
Definition requestsOf (w : watch) (k : kind) : option (change (obj k) → prog (list request)) :=
  let at_kind k' (f : change (obj k') → prog (list request)) :=
    match decide (k' = k) with
    | left E => Some (eq_rect k' (λ k, change (obj k) → prog (list request)) f k E)
    | right _ => None
    end in
  match w with
  | WatchesMap k' map filter pred => at_kind k' (filtered k' map filter pred)
  | WatchesRawSource k' map filter => at_kind k' (filtered k' map filter (λ _, true))
  | For _ | Owns _ => None
  end.

(** What the watches of a controller queue for a change, by their map functions. *)
Fixpoint queueOf (watches : list watch) (k : kind) (c : change (obj k)) : prog (list request) :=
  match watches with
  | [] => Ret []
  | w :: watches =>
    reqs <-- match requestsOf w k with Some f => f c | None => Ret [] end ;;
    rest <-- queueOf watches k c ;;
    Ret (reqs ++ rest)
  end.
End requests.

(** The watches of other kinds queue nothing. *)
Lemma queueOf_none `{WatchLib} watches k c h reqs :
  Forall (λ w, requestsOf w k = None) watches →
  runs (queueOf watches k c) h reqs ↔ h = [] ∧ reqs = [].
Proof.
  intros Hw. revert h reqs. induction Hw as [|w watches Hw _ IH]; intros h reqs; simpl; [naive_solver|].
  rewrite Hw. cbn [pbind]. rewrite runs_bind. split.
  - intros (h1 & h2 & rest & -> & [-> ->]%IH & [-> <-]). done.
  - intros [-> ->]. exists [], [], []. split; [done|]. split; [by apply IH|done].
Qed.

Lemma queueOf_one `{WatchLib} pre w post k f c h reqs :
  Forall (λ w, requestsOf w k = None) pre → requestsOf w k = Some f →
  Forall (λ w, requestsOf w k = None) post →
  runs (queueOf (pre ++ w :: post) k c) h reqs → runs (f c) h reqs.
Proof.
  intros Hpre Hw Hpost. revert h reqs. induction Hpre as [|v pre Hv _ IH]; intros h reqs; simpl.
  - rewrite Hw, runs_bind. intros (h1 & h2 & r1 & -> & Hr & Hrest).
    apply runs_bind in Hrest as (h3 & h4 & r2 & -> & [-> ->]%queueOf_none & [-> <-]); [|done].
    by rewrite !app_nil_r.
  - rewrite Hv. cbn [pbind]. rewrite runs_bind. intros (h1 & h2 & rest & -> & Hr%IH & [-> <-]).
    by rewrite app_nil_r.
Qed.

(** An update that changes an object changes its resource version. *)
Definition versioned (k : kind) (c : change (obj k)) : Prop :=
  match c with
  | Updated old new =>
      meta_ResourceVersion (obj_Meta k old) ≠ meta_ResourceVersion (obj_Meta k new)
  | _ => True
  end.

Lemma passes_versioned `{WatchLibLaws} k pred c :
  versioned k c → (∀ o, o ∈ objects c → pred o = true) →
  passes k ResourceVersionChanged pred c = true.
Proof.
  intros Hv Hp. destruct c as [o|old new|o]; simpl in *; [apply Hp; set_solver| |apply Hp; set_solver].
  rewrite passes_version, bool_decide_eq_false_2 by done. apply Hp. set_solver.
Qed.

(** The parts of what is queued: one per object. *)
Lemma enqueue_runs {T} (map : T → prog (list request)) c h reqs :
  runs (enqueue map c) h reqs →
  (∀ o, o ∈ objects c → ∃ h1 r1, h1 ⊆ h ∧ runs (map o) h1 r1 ∧ r1 ⊆ reqs) ∧
  (∀ x, x ∈ reqs → ∃ o h1 r1, o ∈ objects c ∧ h1 ⊆ h ∧ runs (map o) h1 r1 ∧ x ∈ r1).
Proof.
  destruct c as [o|old new|o]; simpl; intros Hr.
  - split; [intros ? ->%list_elem_of_singleton|intros x Hx; exists o]; exists h, reqs; set_solver.
  - apply runs_bind in Hr as (h1 & h2 & r1 & -> & Hr1 & Hr).
    apply runs_bind in Hr as (h3 & h4 & r2 & -> & Hr2 & Hr). destruct Hr as [-> <-].
    rewrite app_nil_r. split.
    + intros o [->| ->%list_elem_of_singleton]%elem_of_cons; [exists h1, r1|exists h3, r2]; set_solver.
    + intros x [Hx|Hx]%elem_of_app; [exists old, h1, r1|exists new, h3, r2]; set_solver.
  - split; [intros ? ->%list_elem_of_singleton|intros x Hx; exists o]; exists h, reqs; set_solver.
Qed.

(** ** Lists that serve an index *)

(** Every list of the kind by this field in the history succeeded and returned the stored
    objects that the index finds. *)
Definition serves (k : kind) (field : string) (index : obj k → list string)
    (stored : list (obj k)) (h : list event) : Prop :=
  ∀ opts v x, Ev (List k opts) x ∈ h → lo_field opts = Some (field, v) →
    x = inl (filter (λ o, v ∈ index o) stored).

(** The kind takes its icon or its logo from this ConfigMap. *)
Definition references (ns name : string) (wk : WorkspaceKind) : Prop :=
  ∃ ref, acm_Namespace ref = ns ∧ acm_Name ref = name ∧
    (asset_ConfigMap (spawner_Icon (kspec_Spawner (wsk_Spec wk))) = Some ref ∨
     asset_ConfigMap (spawner_Logo (kspec_Spawner (wsk_Spec wk))) = Some ref).

Lemma indexKindByConfigMap_references v wk :
  v ∈ indexKindByConfigMap wk ↔
  ∃ ns name, v = ns +:+ "/" +:+ name ∧ references ns name wk.
Proof.
  unfold indexKindByConfigMap, references. rewrite elem_of_app. split.
  - intros [Hv|Hv]; (case_match eqn:E; [|set_solver]);
      apply list_elem_of_singleton in Hv as ->; repeat eexists; eauto.
  - intros (ns & name & -> & ref & <- & <- & [E|E]); [left|right]; rewrite E; set_solver.
Qed.

Lemma indexWorkspaceByKind_uses v w :
  v ≠ "" → v ∈ indexWorkspaceByKind w ↔ wsSpec_Kind (ws_Spec w) = v.
Proof. intros Hv. unfold indexWorkspaceByKind. case_bool_decide; set_solver. Qed.

Lemma references_inj ns name ns' name' wk :
  no_slash ns → no_slash ns' → ns +:+ "/" +:+ name = ns' +:+ "/" +:+ name' →
  references ns' name' wk → references ns name wk.
Proof. intros H1 H2 Heq Hr. by apply no_slash_app_inj in Heq as [-> ->]. Qed.

Lemma mapConfigMapToRequests_spec cm h reqs stored name :
  runs (mapConfigMapToRequests cm) h reqs →
  serves KWorkspaceKind IndexWorkspaceKindConfigMapImageSourceField indexKindByConfigMap stored h →
  name ∈ reqs ↔ ∃ wk, wk ∈ stored ∧ wsk_Name wk = name ∧
    meta_Namespace (cm_Meta cm) +:+ "/" +:+ meta_Name (cm_Meta cm) ∈ indexKindByConfigMap wk.
Proof.
  intros (x & h' & -> & Hr) Hs. specialize (Hs _ _ x (proj2 (elem_of_cons _ _ _) (or_introl eq_refl)) eq_refl). subst x.
  destruct Hr as [-> <-]. rewrite list_elem_of_fmap. setoid_rewrite list_elem_of_filter.
  naive_solver.
Qed.

(** When a WorkspaceKind changes, exactly the Workspaces that use it are queued
    for a reconcile, whatever their namespace, in the order they are listed. *)
Theorem kind_change_requeues wk h reqs stored :
  wsk_Name wk ≠ "" →
  runs (mapWorkspaceKindToRequest wk) h reqs →
  serves KWorkspace IndexWorkspaceKindField indexWorkspaceByKind stored h →
  reqs = (λ w, (ws_Namespace w, ws_Name w)) <$>
           filter (λ w, wsSpec_Kind (ws_Spec w) = wsk_Name wk) stored.
Proof.
  intros Hn (x & h' & -> & Hr) Hs. specialize (Hs _ _ x (proj2 (elem_of_cons _ _ _) (or_introl eq_refl)) eq_refl). subst x.
  destruct Hr as [-> <-]. f_equal. apply list_filter_iff. intros w.
  by apply indexWorkspaceByKind_uses.
Qed.

Lemma serves_mono k field index stored h h' :
  h ⊆ h' → serves k field index stored h' → serves k field index stored h.
Proof. intros Hsub Hs opts v x Hin. by apply Hs, Hsub. Qed.

(** What the reconciler reads a ConfigMap for. *)
Lemma asset_read_references `{MapOrder} wk h r ns name x :
  runs (WorkspaceKindReconciler_Reconcile (wsk_Name wk)) h r →
  (∀ wk', Ev (Get KWorkspaceKind "" (wsk_Name wk)) (inl wk') ∈ h → wk' = wk) →
  (∀ k wk', Ev (Update KWorkspaceKind k) (inl wk') ∈ h → wsk_Spec wk' = wsk_Spec k) →
  Ev (Get KConfigMap ns name) x ∈ h → references ns name wk.
Proof.
  intros Hr Hget Hupd Hread. apply list_elem_of_split in Hread as (h1 & h2 & ->).
  destruct (calls_after_runs _ _ [] h1 _ _ _ _ _ (kind_calls (wsk_Name wk)) Hr)
    as (wk' & ref & Hsrc & Href & Hns & Hname).
  exists ref. split_and!; [done..|].
  assert (wsk_Spec wk' = wsk_Spec wk) as <-; [|done].
  change ([] ++ h1) with h1 in Hsrc. destruct Hsrc as [Hg|[k Hk]].
  - rewrite (Hget wk'); [done|]. set_solver.
  - rewrite (Hupd k wk') by set_solver.
    apply list_elem_of_split in Hk as (g1 & g2 & ->).
    rewrite <-(assoc_L (++)) in Hr.
    change ((?e :: g2) ++ ?l) with (e :: (g2 ++ l)) in Hr.
    destruct (calls_after_runs _ _ [] g1 _ _ _ _ _ (kind_calls (wsk_Name wk)) Hr)
      as (wk0 & Hg & _ & ->). simpl. rewrite (Hget wk0); [done|]. set_solver.
Qed.

(** C35: A change of a ConfigMap queues the WorkspaceKinds that depend on it: if a reconcile that
    fetched a stored kind read a ConfigMap, then a later creation, update to a new resource
    version or deletion of this ConfigMap passes the watch of the controller on ConfigMaps and
    queues that kind, provided the lists of kinds by their index succeed (on an error the code
    logs it and queues nothing); and only kinds that take their icon or logo from the ConfigMap
    are queued (namespaces have no slash).  The reconcile's update of the kind, if there was
    one, is taken to be answered with the spec that was sent. *)
Theorem asset_change_requeues `{MapOrder} `{WatchLibLaws} wk h r x ns name c h' reqs stored :
  runs (WorkspaceKindReconciler_Reconcile (wsk_Name wk)) h r →
  (∀ wk', Ev (Get KWorkspaceKind "" (wsk_Name wk)) (inl wk') ∈ h → wk' = wk) →
  (∀ k wk', Ev (Update KWorkspaceKind k) (inl wk') ∈ h → wsk_Spec wk' = wsk_Spec k) →
  Ev (Get KConfigMap ns name) x ∈ h →
  (∀ cm, cm ∈ objects c → meta_Namespace (cm_Meta cm) = ns ∧ meta_Name (cm_Meta cm) = name) →
  versioned KConfigMap c → wk ∈ stored →
  runs (queueOf WorkspaceKindReconciler_SetupWithManager KConfigMap c) h' reqs →
  serves KWorkspaceKind IndexWorkspaceKindConfigMapImageSourceField indexKindByConfigMap stored h' →
  ("", wsk_Name wk) ∈ reqs ∧
  (no_slash ns → (∀ k ns' n, k ∈ stored → references ns' n k → no_slash ns') →
   ∀ req, req ∈ reqs → ∃ k, k ∈ stored ∧ req = ("", wsk_Name k) ∧ references ns name k).
Proof.
  intros Hr Hget Hupd Hread Hobj Hv Hin Hrun Hserves.
  set (map := λ cm, (names <-- mapConfigMapToRequests cm ;; Ret ((λ name, ("", name)) <$> names))%go).
  apply (queueOf_one [_; _] (WatchesRawSource KConfigMap map ResourceVersionChanged) [] KConfigMap
    (filtered KConfigMap map ResourceVersionChanged (λ _, true))) in Hrun;
    [|by repeat constructor|done|done].
  unfold filtered in Hrun. rewrite (passes_versioned KConfigMap) in Hrun by done.
  apply enqueue_runs in Hrun as [Hall Hsome].
  assert (Hmap : ∀ cm h1 r1, h1 ⊆ h' → cm ∈ objects c →
    runs (map cm) h1 r1 →
    ∀ n, ("", n) ∈ r1 ↔ ∃ k, k ∈ stored ∧ wsk_Name k = n ∧ ns +:+ "/" +:+ name ∈ indexKindByConfigMap k).
  { intros cm h1 r1 Hsub Hcm Hr1 n. apply runs_bind in Hr1 as (h2 & h3 & names & -> & Hm & Hr1).
    destruct Hr1 as [-> <-]. rewrite app_nil_r in Hsub.
    destruct (Hobj cm Hcm) as [<- <-].
    rewrite <-(mapConfigMapToRequests_spec cm h2 names stored n Hm) by by eapply serves_mono.
    rewrite list_elem_of_fmap. split; [by intros (? & [= <-] & ?)|eauto]. }
  split.
  - assert (∃ cm, cm ∈ objects c) as [cm Hcm]
      by (destruct c as [o|old new|o]; eexists; left).
    destruct (Hall cm Hcm) as (h1 & r1 & Hsub & Hr1 & Hreqs). apply Hreqs.
    apply (Hmap cm h1 r1 Hsub Hcm Hr1). exists wk. split_and!; [done..|].
    apply indexKindByConfigMap_references. exists ns, name. split; [done|].
    by eapply asset_read_references.
  - intros Hns Hstored [rns rname] Hreq.
    destruct (Hsome _ Hreq) as (cm & h1 & r1 & Hcm & Hsub & Hr1 & Hin1).
    assert (rns = "") as ->.
    { apply runs_bind in Hr1 as (h2 & h3 & names & _ & _ & [_ <-]).
      by apply list_elem_of_fmap in Hin1 as (? & [= ->] & _). }
    apply (Hmap cm h1 r1 Hsub Hcm Hr1) in Hin1 as (k & Hk & <- & Hv').
    apply indexKindByConfigMap_references in Hv' as (ns' & n' & Heq & Href).
    exists k. split_and!; [done..|]. eapply references_inj; [done| |done..]. by eapply Hstored.
Qed.

(** ** Witnesses *)

Definition as_list (k : kind) (e : event) : option (ListOptions * answer (list (obj k))) :=
  match e with
  | Ev q x =>
    match q in req X return X → option (ListOptions * answer (list (obj k))) with
    | List k' opts => λ x,
        match decide (k' = k) with
        | left E => Some (opts, eq_rect k' (λ k, answer (list (obj k))) x k E)
        | right _ => None
        end
    | _ => λ _, None
    end x
  end.

Lemma serves_one k field v index stored labels ns x :
  x = inl (filter (λ o, v ∈ index o) stored) →
  serves k field index stored [Ev (List k (mkListOptions (Some (field, v)) labels ns)) x].
Proof.
  intros -> opts' v' x' Hin%list_elem_of_singleton Hf.
  apply (f_equal (as_list k)) in Hin. simpl in Hin.
  rewrite !(decide_True_pi (P := k = k) eq_refl) in Hin. injection Hin as -> ->.
  by injection Hf as <-.
Qed.

Lemma serves_app k field index stored h1 h2 :
  serves k field index stored h1 → serves k field index stored h2 →
  serves k field index stored (h1 ++ h2).
Proof. intros H1 H2 opts v x [Hin|Hin]%elem_of_app; [by apply H1|by apply H2]. Qed.

Lemma kind_change_requeues_witness :
  ∃ reqs, reqs = [("ns", "test")] ∧
    reqs = (λ w, (ws_Namespace w, ws_Name w)) <$>
      filter (λ w, wsSpec_Kind (ws_Spec w) = wsk_Name exAssetKind)
        [exWorkspace "test" false "b" "p" (exStatus WorkspaceStateRunning emptyActivity 0)].
Proof.
  set (w := exWorkspace "test" false "b" "p" (exStatus WorkspaceStateRunning emptyActivity 0)).
  exists [("ns", "test")]. split; [done|].
  apply (kind_change_requeues exAssetKind
    [Ev (List KWorkspace (mkListOptions (Some (IndexWorkspaceKindField, "jupyterlab")) ∅ "")) (inl [w])]);
    [done|by eexists _, _|by apply serves_one].
Defined.

(** The kinds a history fetched, and the kinds it updated. *)
Definition as_kind_get (e : event) : option (answer WorkspaceKind) :=
  match e with
  | Ev q x => match q in req X return X → option (answer WorkspaceKind) with
              | Get KWorkspaceKind _ _ => λ x, Some x
              | _ => λ _, None
              end x
  end.

Definition as_kind_update (e : event) : option (answer WorkspaceKind) :=
  match e with
  | Ev q x => match q in req X return X → option (answer WorkspaceKind) with
              | Update KWorkspaceKind _ => λ x, Some x
              | _ => λ _, None
              end x
  end.

Lemma omap_elem {A} (f : event → option A) (h : list event) l e a :
  omap f h = l → e ∈ h → f e = Some a → a ∈ l.
Proof. intros <- He Ha. apply list_elem_of_omap. by exists e. Qed.

(** The predicates as documented. *)
Definition exampleWatchLib : WatchLib := {|
  updatePasses p old new :=
    match p with
    | ResourceVersionChanged => negb (bool_decide (meta_ResourceVersion old = meta_ResourceVersion new))
    | GenerationChanged => negb (bool_decide (meta_Generation old = meta_Generation new))
    end |}.

#[global] Instance exampleWatchLib_laws : @WatchLibLaws exampleWatchLib.
Proof. by split. Qed.

(** The icons, in the next resource version. *)
Definition exIconsChanged : ConfigMap :=
  mkConfigMap (mkObjectMeta "icons" "" "ns" "" "next" 0 0 None None None [] []) ∅ ∅.

(** One Workspace uses the kind; its icon is read, then changes. *)
Lemma asset_change_requeues_witness :
  ∃ h reqs, runs (queueOf (H := exampleWatchLib) WorkspaceKindReconciler_SetupWithManager KConfigMap
    (Updated exIcons exIconsChanged)) h reqs ∧ ("", wsk_Name exAssetKind) ∈ reqs.
Proof.
  set (ws := exWorkspace "test" false "b" "p" (exStatus WorkspaceStateRunning emptyActivity 0)).
  pose proof (interp_runs (exKindEnv [ws]) (WorkspaceKindReconciler_Reconcile "jupyterlab") ()) as Hr.
  assert (∃ s r, trace (exKindEnv [ws]) (WorkspaceKindReconciler_Reconcile "jupyterlab") () =
    [ Ev (Get KWorkspaceKind "" "jupyterlab") (inl exAssetKind);
      Ev (workspacesOfKind exAssetKind) (inl [ws]);
      Ev (Get KConfigMap "ns" "icons") (inl (TransformConfigMapSHA256 (H := canonicalOrder) exIcons));
      r ] ∧ as_kind_get r = None ∧ as_kind_update r = None ∧ r = Ev (UpdateStatus KWorkspaceKind s) (inl s))
    as (s & r & Hh & Hg & Hu & _).
  { eexists _, _. split; [vm_compute; reflexivity|]. by split_and!. }
  rewrite Hh in Hr.
  set (h' := [Ev (List KWorkspaceKind (mkListOptions
           (Some (IndexWorkspaceKindConfigMapImageSourceField, "ns/icons")) ∅ "")) (inl [exAssetKind]);
    Ev (List KWorkspaceKind (mkListOptions
           (Some (IndexWorkspaceKindConfigMapImageSourceField, "ns/icons")) ∅ "")) (inl [exAssetKind])]).
  assert (Hq : runs (queueOf (H := exampleWatchLib) WorkspaceKindReconciler_SetupWithManager KConfigMap
    (Updated exIcons exIconsChanged)) h' [("", "jupyterlab"); ("", "jupyterlab")]).
  { clear. do 2 (eexists _, _; split; [reflexivity|]). split; reflexivity. }
  exists h', [("", "jupyterlab"); ("", "jupyterlab")]. split; [exact Hq|].
  refine (proj1 (asset_change_requeues (H := canonicalOrder) (H0 := exampleWatchLib)
    (H1 := exampleWatchLib_laws) exAssetKind _ _ _ "ns" "icons" (Updated exIcons exIconsChanged)
    h' [("", "jupyterlab"); ("", "jupyterlab")] [exAssetKind] Hr _ _ _ _ _ _ Hq _)).
  - clear Hr Hh. intros wk' Hin. eapply (omap_elem as_kind_get _ [inl exAssetKind]) in Hin; [| |done].
    + clear -Hin. apply list_elem_of_singleton in Hin. by injection Hin.
    + clear -Hg. simpl. by rewrite Hg.
  - clear Hr Hh. intros k wk' Hin. eapply (omap_elem as_kind_update _ []) in Hin; [| |done].
    + clear -Hin. inversion Hin.
    + clear -Hu. simpl. by rewrite Hu.
  - apply elem_of_cons; right. apply elem_of_cons; right. apply elem_of_cons; left. reflexivity.
  - clear. intros cm [->| ->%list_elem_of_singleton]%elem_of_cons; split; reflexivity.
  - clear. vm_compute. discriminate.
  - apply elem_of_cons; left. reflexivity.
  - clear. apply (serves_app _ _ _ _ [_] [_]); apply serves_one; reflexivity.
Defined.
