(* ===== verification/FilterRules.v ===== *)
(** * Filter rules ([backend/internal/filterrules/engine.go])

    The rules of a WorkspaceKind hide or deny the kind itself or single options,
    depending on labels of the namespace and of the selected options.  The engine
    compiles the selectors once and evaluates the rules first match wins; the
    declarative reading of the rules ([decides]) mentions neither. *)

From Stdlib Require Import ZArith.
From stdpp Require Import base gmap strings list.
From S2P Require Import Prelude K8sTypes ApiTypes Client Options Examples.

(** ** Data *)

(** [models/common]: [Restrictions], [DenyMessage] and the default. *)
Record DenyMessage := mkDenyMessageModel { dm_Text : string }.
Record Restrictions := mkRestrictions {
  rs_Deny : bool;
  rs_DenyMessage : option DenyMessage;
}.
Definition DefaultRestrictions : Restrictions := mkRestrictions false None.

Record EvalTarget := mkEvalTarget {
  et_Scope : FilterRuleScope;
  et_Labels : list OptionSpawnerLabel;
}.

Record EvalResult := mkEvalResult {
  er_UIHide : bool;
  er_APIHide : bool;
  er_Restrictions : Restrictions;
}.

(** [spawnerLabelsToMap]: later labels override earlier ones. *)
Definition spawnerLabelsToMap (spawnerLabels : list OptionSpawnerLabel) : gmap string string :=
  foldl (λ m l, <[osl_Key l := osl_Value l]> m) ∅ spawnerLabels.

(** ** Effects *)

Definition resolveRestrictions (effect : FilterRuleEffect) : Restrictions :=
  match fre_API effect with
  | None => DefaultRestrictions
  | Some api =>
    match fea_Deny api with
    | Some true =>
        mkRestrictions true ((λ m, mkDenyMessageModel (fdm_Text m)) <$> fea_DenyMessage api)
    | _ => DefaultRestrictions
    end
  end.

Definition resultFromEffect (effect : FilterRuleEffect) : EvalResult :=
  mkEvalResult
    (match fre_UI effect with Some ui => feu_Hide ui | None => false end)
    (match fre_API effect with Some api => default false (fea_Hide api) | None => false end)
    (resolveRestrictions effect).

(** No rule matched. *)
Definition defaultResult : EvalResult := mkEvalResult false false DefaultRestrictions.

Section engine.
Context `{SelectorLib}.

(** ** Compiled rules *)

Record compiledMatch := mkCompiledMatch {
  cm_match : FilterRuleMatch;
  cm_selector : Selector;
}.

Record compiledRule := mkCompiledRule {
  cr_rule : FilterRule;
  cr_matches : list compiledMatch;
}.

(** Label maps that were not provided are [None] (nil). *)
Record EvalContext := mkEvalContext {
  ec_NamespaceLabels : gomap;
  ec_ImageConfigLabels : gomap;
  ec_PodConfigLabels : gomap;
  ec_compiledRules : list compiledRule;
}.

Definition compileSelector (m : FilterRuleMatch) : option Selector :=
  let labelSelector :=
    match frm_MatchNamespace m, frm_MatchImageConfig m, frm_MatchPodConfig m with
    | Some s, _, _ | None, Some s, _ | None, None, Some s => Some (frs_Selector s)
    | None, None, None => None
    end in
  match labelSelector with
  | None => None
  | Some s => match LabelSelectorAsSelector s with inl c => Some c | inr _ => None end
  end.

Fixpoint compileMatches (ms : list FilterRuleMatch) : list compiledMatch :=
  match ms with
  | [] => []
  | m :: rest =>
    match compileSelector m with
    | None => compileMatches rest
    | Some selector => mkCompiledMatch m selector :: compileMatches rest
    end
  end.

Fixpoint compileRules (rules : list FilterRule) : list compiledRule :=
  match rules with
  | [] => []
  | rule :: rest =>
    match compileMatches (fr_Match rule) with
    | [] => compileRules rest
    | matches => mkCompiledRule rule matches :: compileRules rest
    end
  end.

Definition filterRulesByScope (rules : list FilterRule) (scopes : FilterRuleScope → bool)
    : list FilterRule :=
  filter (λ rule, scopes (fr_Scope rule) = true) rules.

(** ** Evaluation *)

Definition matchSelector (selector : Selector) (targetLabels : gomap) : bool :=
  match targetLabels with
  | None => false
  | Some labels => Matches selector labels
  end.

Definition imageConfigLabels (targetScope : FilterRuleScope) (targetLabels : gmap string string)
    (evalCtx : EvalContext) : gomap :=
  if bool_decide (targetScope = FilterRuleScopeImageConfig) then Some targetLabels
  else ec_ImageConfigLabels evalCtx.

Definition podConfigLabels (targetScope : FilterRuleScope) (targetLabels : gmap string string)
    (evalCtx : EvalContext) : gomap :=
  if bool_decide (targetScope = FilterRuleScopePodConfig) then Some targetLabels
  else ec_PodConfigLabels evalCtx.

Definition conditionMatches (cm : compiledMatch) (targetScope : FilterRuleScope)
    (targetLabels : gmap string string) (evalCtx : EvalContext) : bool :=
  match frm_MatchNamespace (cm_match cm), frm_MatchImageConfig (cm_match cm),
        frm_MatchPodConfig (cm_match cm) with
  | Some _, _, _ => matchSelector (cm_selector cm) (ec_NamespaceLabels evalCtx)
  | None, Some _, _ =>
      matchSelector (cm_selector cm) (imageConfigLabels targetScope targetLabels evalCtx)
  | None, None, Some _ =>
      matchSelector (cm_selector cm) (podConfigLabels targetScope targetLabels evalCtx)
  | None, None, None => false
  end.

Fixpoint allConditionsMatch (matches : list compiledMatch) (targetScope : FilterRuleScope)
    (targetLabels : gmap string string) (evalCtx : EvalContext) : bool :=
  match matches with
  | [] => true
  | m :: rest =>
    if negb (conditionMatches m targetScope targetLabels evalCtx) then false
    else allConditionsMatch rest targetScope targetLabels evalCtx
  end.

Fixpoint evaluateRules (rules : list compiledRule) (target : EvalTarget)
    (targetLabels : gmap string string) (evalCtx : EvalContext) : EvalResult :=
  match rules with
  | [] => defaultResult
  | cr :: rest =>
    if negb (bool_decide (fr_Scope (cr_rule cr) = et_Scope target))
    then evaluateRules rest target targetLabels evalCtx
    else if negb (allConditionsMatch (cr_matches cr) (et_Scope target) targetLabels evalCtx)
    then evaluateRules rest target targetLabels evalCtx
    else resultFromEffect (fr_Effect (cr_rule cr))
  end.

Definition Evaluate (target : EvalTarget) (evalCtx : EvalContext) : EvalResult :=
  evaluateRules (ec_compiledRules evalCtx) target (spawnerLabelsToMap (et_Labels target)) evalCtx.

(** ** Contexts *)

(** The labels of the first value with this id; nil for the empty id or none. *)
Definition selectedLabels {V} `{OptionValue V} (spawner : V → OptionSpawnerInfo)
    (values : list V) (id : string) : gomap :=
  if bool_decide (id = "") then None
  else match list_find (λ v, opt_Id v = id) values with
       | Some (_, v) => Some (spawnerLabelsToMap (osi_Labels (spawner v)))
       | None => None
       end.

Definition buildEvalContext (wsk : WorkspaceKind) (namespaceLabels : gomap)
    (scopes : FilterRuleScope → bool) (imageConfigID podConfigID : string) : EvalContext :=
  mkEvalContext namespaceLabels
    (selectedLabels icv_Spawner (wsk_ImageValues wsk) imageConfigID)
    (selectedLabels pcv_Spawner (wsk_PodValues wsk) podConfigID)
    (compileRules (filterRulesByScope (kspec_FilterRules (wsk_Spec wsk)) scopes)).

Definition workspaceKindScopes (s : FilterRuleScope) : bool :=
  match s with FilterRuleScopeWorkspaceKind => true | _ => false end.
Definition imageAndPodConfigScopes (s : FilterRuleScope) : bool :=
  match s with FilterRuleScopeImageConfig | FilterRuleScopePodConfig => true | _ => false end.

Definition EvaluateWorkspaceKindFilterScopeRule (wsk : WorkspaceKind) (namespaceLabels : gomap)
    : EvalResult :=
  Evaluate (mkEvalTarget FilterRuleScopeWorkspaceKind [])
    (buildEvalContext wsk namespaceLabels workspaceKindScopes "" "").

Definition BuildEvalContextForImageAndPodCfg (wsk : WorkspaceKind) (namespaceLabels : gomap)
    (imageConfigID podConfigID : string) : EvalContext :=
  buildEvalContext wsk namespaceLabels imageAndPodConfigScopes imageConfigID podConfigID.
End engine.

(** ** The declarative reading *)

(** What a match condition is about, and its selector: the first one set. *)
Inductive subject := OnNamespace | OnImageConfig | OnPodConfig.

Definition condition_of (m : FilterRuleMatch) : option (subject * LabelSelector) :=
  match frm_MatchNamespace m, frm_MatchImageConfig m, frm_MatchPodConfig m with
  | Some s, _, _ => Some (OnNamespace, frs_Selector s)
  | None, Some s, _ => Some (OnImageConfig, frs_Selector s)
  | None, None, Some s => Some (OnPodConfig, frs_Selector s)
  | None, None, None => None
  end.

Section reading.
Context `{SelectorLib}.

(** The value evaluated: its scope and own labels; and the request's context, where
    [None] is what the request did not provide. *)
Context (scope : FilterRuleScope) (own : gmap string string).
Context (ns img pod : gomap).

Definition subject_labels (s : subject) : gomap :=
  match s, scope with
  | OnNamespace, _ => ns
  | OnImageConfig, FilterRuleScopeImageConfig | OnPodConfig, FilterRuleScopePodConfig => Some own
  | OnImageConfig, _ => img
  | OnPodConfig, _ => pod
  end.

Definition well_formed (m : FilterRuleMatch) : Prop :=
  ∃ s sel c, condition_of m = Some (s, sel) ∧ LabelSelectorAsSelector sel = inl c.

Definition holds (m : FilterRuleMatch) : Prop :=
  ∃ s sel c l, condition_of m = Some (s, sel) ∧ LabelSelectorAsSelector sel = inl c ∧
    subject_labels s = Some l ∧ Matches c l = true.

(** A rule applies when it is for the scope, has a well-formed condition, and all its
    well-formed conditions hold. *)
Definition applies (r : FilterRule) : Prop :=
  fr_Scope r = scope ∧ (∃ m, m ∈ fr_Match r ∧ well_formed m) ∧
  ∀ m, m ∈ fr_Match r → well_formed m → holds m.

(** The first rule that applies decides. *)
Definition decides (rules : list FilterRule) (res : EvalResult) : Prop :=
  (∃ rs1 r rs2, rules = rs1 ++ r :: rs2 ∧ Forall (λ r', ¬ applies r') rs1 ∧ applies r ∧
     res = resultFromEffect (fr_Effect r)) ∨
  (Forall (λ r, ¬ applies r) rules ∧ res = defaultResult).

Lemma decides_cons_applies r rules :
  applies r → decides (r :: rules) (resultFromEffect (fr_Effect r)).
Proof. intros Hr. left. by exists [], r, rules. Qed.

Lemma decides_cons_skip r rules res :
  ¬ applies r → decides rules res → decides (r :: rules) res.
Proof.
  intros Hr [(rs1 & r' & rs2 & -> & Hrs & Ha & ->)|[Hrs ->]]; [left|right].
  - exists (r :: rs1), r', rs2. split_and!; try done. by constructor.
  - split; [by constructor|done].
Qed.

Lemma decides_nil_inv res : decides [] res → res = defaultResult.
Proof. intros [(rs1 & r & rs2 & Heq & _)|[_ ->]]; [by destruct rs1|done]. Qed.

Lemma decides_cons_inv r rules res :
  decides (r :: rules) res →
  (applies r ∧ res = resultFromEffect (fr_Effect r)) ∨ (¬ applies r ∧ decides rules res).
Proof.
  intros [(rs1 & r' & rs2 & Heq & Hrs & Ha & ->)|[Hrs ->]].
  - destruct rs1 as [|r1 rs1]; injection Heq as -> ->; [by left|right].
    inversion Hrs; subst. split; [done|]. left. by exists rs1, r', rs2.
  - right. inversion Hrs; subst. split; [done|by right].
Qed.

(** There is one decision. *)
Lemma decides_unique rules res res' : decides rules res → decides rules res' → res = res'.
Proof.
  induction rules as [|r rules IH]; [by intros ->%decides_nil_inv ->%decides_nil_inv|].
  intros [[? ->]|[? ?]]%decides_cons_inv [[? ->]|[? ?]]%decides_cons_inv; by auto.
Qed.
End reading.

(** ** The engine implements the reading *)

Section refinement.
Context `{SelectorLib}.

Lemma compileSelector_condition m :
  compileSelector m =
  match condition_of m with
  | Some (_, sel) => match LabelSelectorAsSelector sel with inl c => Some c | inr _ => None end
  | None => None
  end.
Proof.
  unfold compileSelector, condition_of.
  by destruct (frm_MatchNamespace m), (frm_MatchImageConfig m), (frm_MatchPodConfig m).
Qed.

Lemma compileSelector_well_formed m : is_Some (compileSelector m) ↔ well_formed m.
Proof.
  rewrite compileSelector_condition. unfold well_formed. split.
  - intros [c Hc]. destruct (condition_of m) as [[s sel]|]; [|done].
    destruct (LabelSelectorAsSelector sel) as [c'|] eqn:E; [|done]. by exists s, sel, c'.
  - intros (s & sel & c & -> & ->). by eexists.
Qed.

Lemma conditionMatches_holds m c scope own ctx :
  compileSelector m = Some c →
  conditionMatches (mkCompiledMatch m c) scope own ctx = true ↔
  holds scope own (ec_NamespaceLabels ctx) (ec_ImageConfigLabels ctx) (ec_PodConfigLabels ctx) m.
Proof.
  rewrite compileSelector_condition. unfold conditionMatches, holds, condition_of. simpl.
  intros Hc.
  assert (∀ s sel labels, 
    match LabelSelectorAsSelector sel with inl c => Some c | inr _ => None end = Some c →
    labels = subject_labels scope own (ec_NamespaceLabels ctx) (ec_ImageConfigLabels ctx)
      (ec_PodConfigLabels ctx) s →
    matchSelector c labels = true ↔
    ∃ s' sel' c' l, Some (s, sel) = Some (s', sel') ∧ LabelSelectorAsSelector sel' = inl c' ∧
      subject_labels scope own (ec_NamespaceLabels ctx) (ec_ImageConfigLabels ctx)
        (ec_PodConfigLabels ctx) s' = Some l ∧ Matches c' l = true) as Hgen.
  { intros s sel labels Hs ->. destruct (LabelSelectorAsSelector sel) as [c'|] eqn:E; [|done].
    injection Hs as ->. unfold matchSelector.
    destruct (subject_labels _ _ _ _ _ s) as [l|] eqn:El.
    { split; [intros Hm; by exists s, sel, c, l|].
      intros (s' & sel' & c' & l' & [= <- <-] & ? & ? & ?). congruence. }
    split; [done|]. intros (s' & sel' & c' & l & [= <- <-] & ? & ? & ?). congruence. }
  destruct (frm_MatchNamespace m) as [s|]; [by apply Hgen|].
  destruct (frm_MatchImageConfig m) as [s|].
  { apply Hgen; [done|]. unfold imageConfigLabels. by destruct scope. }
  destruct (frm_MatchPodConfig m) as [s|]; [|done].
  apply Hgen; [done|]. unfold podConfigLabels. by destruct scope.
Qed.

Lemma allConditionsMatch_holds ms scope own ctx :
  allConditionsMatch (compileMatches ms) scope own ctx = true ↔
  ∀ m, m ∈ ms → well_formed m →
    holds scope own (ec_NamespaceLabels ctx) (ec_ImageConfigLabels ctx) (ec_PodConfigLabels ctx) m.
Proof.
  induction ms as [|m ms IH]; [split; [set_solver|done]|]. simpl.
  destruct (compileSelector m) as [c|] eqn:Hc.
  - assert (well_formed m) as Hw by (apply compileSelector_well_formed; by eexists).
    pose proof (conditionMatches_holds m c scope own ctx Hc) as Hm. simpl.
    destruct (conditionMatches _ scope own ctx); simpl.
    + rewrite IH. split; [|set_solver]. intros Hall m' [->|Hin]%elem_of_cons Hw'; [by apply Hm|auto].
    + split; [done|]. intros Hall. apply Hm. apply Hall; [set_solver|done].
  - rewrite IH. split; [|set_solver]. intros Hall m' [->|Hin]%elem_of_cons Hw'; [|auto].
    apply compileSelector_well_formed in Hw' as [? ?]. congruence.
Qed.

Lemma compileMatches_nonempty ms :
  compileMatches ms ≠ [] ↔ ∃ m, m ∈ ms ∧ well_formed m.
Proof.
  induction ms as [|m ms IH]; simpl.
  { split; [done|]. intros (m & Hm & _). by apply not_elem_of_nil in Hm. }
  pose proof (compileSelector_well_formed m) as Hw.
  destruct (compileSelector m) as [c|].
  - split; [|done]. intros _. exists m. split; [set_solver|]. by apply Hw.
  - rewrite IH. split; [intros (m' & ? & ?); exists m'; split; [set_solver|done]|].
    intros (m' & [->|Hin]%elem_of_cons & Hm'); [|by exists m'].
    apply Hw in Hm' as [? ?]. done.
Qed.

Lemma evaluateRules_decides rules scopes target own ctx :
  scopes (et_Scope target) = true →
  decides (et_Scope target) own (ec_NamespaceLabels ctx) (ec_ImageConfigLabels ctx)
    (ec_PodConfigLabels ctx) rules
    (evaluateRules (compileRules (filterRulesByScope rules scopes)) target own ctx).
Proof.
  intros Hscope. induction rules as [|r rules IH]; [right; by split|].
  unfold filterRulesByScope in *. rewrite filter_cons.
  destruct (decide (scopes (fr_Scope r) = true)) as [Hs|Hs].
  2: { apply decides_cons_skip; [|done]. intros [Heq _]. by rewrite Heq in Hs. }
  cbn [compileRules]. destruct (compileMatches (fr_Match r)) as [|cm cms] eqn:Hm.
  { apply decides_cons_skip; [|done]. intros (_ & Hex & _). by apply compileMatches_nonempty in Hex. }
  cbn [evaluateRules cr_rule cr_matches]. case_bool_decide as Hsc; cbn [negb].
  2: { apply decides_cons_skip; [|done]. by intros [? _]. }
  pose proof (allConditionsMatch_holds (fr_Match r) (et_Scope target) own ctx) as Ha.
  rewrite Hm in Ha. destruct (allConditionsMatch _ _ _ _); cbn [negb].
  - apply decides_cons_applies. split_and!; [done| |by apply Ha].
    apply compileMatches_nonempty. congruence.
  - apply decides_cons_skip; [|done]. intros (_ & _ & Hall). by apply Ha in Hall.
Qed.

(** C36: [Evaluate], over a context compiled for scopes that include the target's, returns
    the effect of the first of the kind's rules that applies to the target's labels, or
    the default when none does: rules of other scopes and rules without a well-formed
    condition, which compilation drops, decide nothing. *)
Theorem Evaluate_decides target wsk ns scopes imageConfigID podConfigID :
  scopes (et_Scope target) = true →
  decides (et_Scope target) (spawnerLabelsToMap (et_Labels target)) ns
    (selectedLabels icv_Spawner (wsk_ImageValues wsk) imageConfigID)
    (selectedLabels pcv_Spawner (wsk_PodValues wsk) podConfigID)
    (kspec_FilterRules (wsk_Spec wsk))
    (Evaluate target (buildEvalContext wsk ns scopes imageConfigID podConfigID)).
Proof.
  intros Hscope. unfold Evaluate, buildEvalContext.
  set (ctx := mkEvalContext _ _ _ _). by apply (evaluateRules_decides _ scopes target _ ctx).
Qed.
End refinement.

(** ** Examples *)

(** A rule of the scope with conditions that hides the value. *)
Definition exHideRule (scope : FilterRuleScope) (m : list FilterRuleMatch) : FilterRule :=
  mkFilterRule scope
    (mkFilterEffect (Some (mkFilterEffectUI true))
       (Some (mkFilterEffectAPI (Some true) (Some true) (Some (mkDenyMessage "no GPU here"))))) m.

Definition exTeam (v : string) : FilterRuleSelector :=
  mkFilterSelector (mkLabelSelector {["team" := v]} []).

(** The kind hides Pod configs labelled [team=gpu] in namespaces of team [a]; a
    selector that does not compile is dropped from the conditions. *)
Definition exFilterRules : list FilterRule :=
  [exHideRule FilterRuleScopeWorkspaceKind [mkFilterMatch (Some (exTeam "b")) None None];
   exHideRule FilterRuleScopePodConfig
     [mkFilterMatch (Some (exTeam "a")) None None;
      mkFilterMatch None None (Some (exTeam "gpu"));
      mkFilterMatch None (Some (mkFilterSelector (mkLabelSelector {["zone" := "x"]} []))) None]].

Definition exFilterKind : WorkspaceKind :=
  let k := exKind [exImage "img" None []] [exPodConfig "pod" None] None [] in
  mkWorkspaceKind (wsk_Meta k)
    (mkKindSpec (kspec_Spawner (wsk_Spec k)) (kspec_PodTemplate (wsk_Spec k)) [] exFilterRules)
    (wsk_Status k).

Lemma Evaluate_decides_witness :
  let target := mkEvalTarget FilterRuleScopePodConfig [mkSpawnerLabel "team" "gpu"] in
  let ctx := buildEvalContext (H := exampleSelectorLib) exFilterKind (Some {["team" := "a"]})
               imageAndPodConfigScopes "" "" in
  Evaluate (H := exampleSelectorLib) target ctx
    = mkEvalResult true true (mkRestrictions true (Some (mkDenyMessageModel "no GPU here"))) ∧
  decides (H := exampleSelectorLib) FilterRuleScopePodConfig {["team" := "gpu"]}
    (Some {["team" := "a"]}) None None exFilterRules
    (Evaluate (H := exampleSelectorLib) target ctx).
Proof.
  intros target ctx. split; [vm_compute; reflexivity|].
  exact (@Evaluate_decides exampleSelectorLib target exFilterKind (Some {["team" := "a"]})
    imageAndPodConfigScopes "" "" eq_refl).
Defined.
