(* ===== verification/Base64.v ===== *)
(** * [encoding/base64]: the standard encoding

    [base64.StdEncoding.DecodeString] as the backend calls it on the values of
    Secrets: groups of four characters, line breaks skipped, padding required and
    final.  [encode] is [EncodeToString]; [decode_encode] is the round trip. *)

From Stdlib Require Import ZArith Ascii.
From stdpp Require Import base gmap strings list.
From S2P Require Import Prelude.

(** ** The alphabet *)

Definition alphabet : list ascii :=
  chars "ABCDEFGHIJKLMNOPQRSTUVWXYZabcdefghijklmnopqrstuvwxyz0123456789+/".

Definition encode6 (v : N) : ascii := default "A"%char (alphabet !! N.to_nat v).

Definition decode6 (c : ascii) : option N :=
  match list_find (λ d, d = c) alphabet with Some (i, _) => Some (N.of_nat i) | None => None end.

Definition is_newline (c : ascii) : bool :=
  let n := N_of_ascii c in (n =? 10)%N || (n =? 13)%N.

Definition pad : ascii := "="%char.

(** ** Encoding *)

Definition byte_of (n : N) : ascii := ascii_of_N (n mod 256).

Fixpoint encode_list (l : list ascii) : list ascii :=
  match l with
  | a :: b :: c :: rest =>
      let n := (N_of_ascii a * 65536 + N_of_ascii b * 256 + N_of_ascii c)%N in
      encode6 (n / 262144) :: encode6 (n / 4096 mod 64)
        :: encode6 (n / 64 mod 64) :: encode6 (n mod 64) :: encode_list rest
  | [a; b] =>
      let n := (N_of_ascii a * 65536 + N_of_ascii b * 256)%N in
      [encode6 (n / 262144); encode6 (n / 4096 mod 64); encode6 (n / 64 mod 64); pad]
  | [a] =>
      let n := (N_of_ascii a * 65536)%N in
      [encode6 (n / 262144); encode6 (n / 4096 mod 64); pad; pad]
  | [] => []
  end.

Definition encode (s : string) : string :=
  String.string_of_list_ascii (encode_list (chars s)).

(** ** Decoding *)

(** Skip line breaks; what is left and how much was skipped. *)
Fixpoint skip_newlines (l : list ascii) (si : Z) : list ascii * Z :=
  match l with
  | c :: rest => if is_newline c then skip_newlines rest (si + 1) else (l, si)
  | [] => ([], si)
  end.

(** What must follow the first padding character: another one when [two], and then
    nothing.  [None] is success. *)
Definition padding_error (two : bool) (l : list ascii) (si : Z) : option Z :=
  let '(l, si) := if two then skip_newlines l si else (l, si) in
  if two then
    match l with
    | [] => Some si
    | c :: rest =>
      if bool_decide (c = pad) then
        match skip_newlines rest (si + 1) with ([], _) => None | (_, si) => Some si end
      else Some si
    end
  else match skip_newlines l si with ([], _) => None | (_, si) => Some si end.

(** The bytes of a group of two, three or four characters. *)
Definition group2 (a b : N) : list ascii := [byte_of (a * 4 + b / 16)].
Definition group3 (a b c : N) : list ascii :=
  [byte_of (a * 4 + b / 16); byte_of (b * 16 + c / 4)].
Definition group4 (a b c d : N) : list ascii :=
  [byte_of (a * 4 + b / 16); byte_of (b * 16 + c / 4); byte_of (c * 64 + d)].

(** [si] is the position in the input, [acc] the characters of the current group.
    The error is the position that [CorruptInputError] reports. *)
Fixpoint decode_list (l : list ascii) (si : Z) (acc : list N) : list ascii + Z :=
  match l with
  | [] => match acc with [] => inl [] | _ => inr (si - Z.of_nat (length acc))%Z end
  | ch :: rest =>
    match decode6 ch with
    | Some v =>
      match acc with
      | [a; b; c] =>
        match decode_list rest (si + 1) [] with
        | inl bs => inl (group4 a b c v ++ bs)
        | inr e => inr e
        end
      | _ => decode_list rest (si + 1) (acc ++ [v])
      end
    | None =>
      if is_newline ch then decode_list rest (si + 1) acc
      else if negb (bool_decide (ch = pad)) then inr si
      else match acc with
      | [a; b] =>
        match padding_error true rest (si + 1) with
        | None => inl (group2 a b)
        | Some e => inr e
        end
      | [a; b; c] =>
        match padding_error false rest (si + 1) with
        | None => inl (group3 a b c)
        | Some e => inr e
        end
      | _ => inr si
      end
    end
  end.

Definition DecodeString (s : string) : string + string :=
  match decode_list (chars s) 0 [] with
  | inl bs => inl (String.string_of_list_ascii bs)
  | inr i => inr ("illegal base64 data at input byte " +:+ itoa i)
  end.

(** ** The round trip *)

Lemma decode6_encode6 v : (v < 64)%N → decode6 (encode6 v) = Some v.
Proof.
  intros Hv. rewrite <-(N2Nat.id v). assert (N.to_nat v < 64) as Hn by lia.
  generalize dependent (N.to_nat v). intros n Hn.
  assert (forallb (λ n, bool_decide (decode6 (encode6 (N.of_nat n)) = Some (N.of_nat n)))
    (seq 0 64) = true) as Hall by (vm_compute; reflexivity).
  rewrite forallb_forall in Hall. specialize (Hall n).
  eapply bool_decide_eq_true_1, Hall, in_seq. lia.
Qed.

Lemma decode6_pad : decode6 pad = None.
Proof. done. Qed.

Lemma byte_of_eq n a : (n mod 256 = N_of_ascii a)%N → byte_of n = a.
Proof. intros Hn. unfold byte_of. by rewrite Hn, ascii_N_embedding. Qed.

Lemma N_of_ascii_lt a : (N_of_ascii a < 256)%N.
Proof. apply N_ascii_bounded. Qed.

(** The sextets of three bytes. *)
Lemma sextets_of a b c :
  (a < 256)%N → (b < 256)%N → (c < 256)%N →
  let n := (a * 65536 + b * 256 + c)%N in
  (n / 262144 = a / 4 ∧ n / 4096 mod 64 = a mod 4 * 16 + b / 16 ∧
   n / 64 mod 64 = b mod 16 * 4 + c / 64 ∧ n mod 64 = c mod 64)%N.
Proof.
  intros Ha Hb Hc n. subst n.
  assert (∀ k q r, k ≠ 0 → r < k → a * 65536 + b * 256 + c = k * q + r →
    (a * 65536 + b * 256 + c) / k = q ∧ (a * 65536 + b * 256 + c) mod k = r)%N as Hdiv.
  { intros k q r Hk Hr ->. split; symmetry; [by apply N.div_unique with r|by apply N.mod_unique with q]. }
  assert (∀ x k, k ≠ 0 → ∃ q r, x = q * k + r ∧ r < k ∧ x / k = q ∧ x mod k = r)%N as Hqr.
  { intros x k Hk. exists (x / k)%N, (x mod k)%N. split_and!; [|by apply N.mod_lt|done|done].
    rewrite (N.div_mod x k) at 1 by done. lia. }
  destruct (Hqr a 4 ltac:(done))%N as (a1 & a0 & Ea & ? & -> & ->).
  destruct (Hqr b 16 ltac:(done))%N as (b1 & b0 & Eb & ? & -> & ->).
  destruct (Hqr c 64 ltac:(done))%N as (c1 & c0 & Ec & ? & -> & ->). clear Hqr.
  destruct (Hdiv 262144 a1 (a0 * 65536 + b * 256 + c))%N as [-> _]; [lia..|].
  destruct (Hdiv 4096 (a * 16 + b1) (b0 * 256 + c))%N as [-> _]; [lia..|].
  destruct (Hdiv 64 (a * 1024 + b * 4 + c1) c0)%N as [-> ->]; [lia..|].
  split_and!; [done| | |done]; symmetry.
  - apply N.mod_unique with a1; lia.
  - apply N.mod_unique with (a * 16 + b1)%N; lia.
Qed.

Lemma mod_256 q r n : (r < 256)%N → n = (q * 256 + r)%N → (n mod 256 = r)%N.
Proof. intros Hr ->. symmetry. apply N.mod_unique with q; lia. Qed.

(** Decoding the sextets of three bytes gives them back. *)
Lemma group4_sextets a b c :
  let n := (N_of_ascii a * 65536 + N_of_ascii b * 256 + N_of_ascii c)%N in
  group4 (n / 262144) (n / 4096 mod 64) (n / 64 mod 64) (n mod 64) = [a; b; c].
Proof.
  intros n. subst n.
  pose proof (N_of_ascii_lt a) as Ha. pose proof (N_of_ascii_lt b) as Hb.
  pose proof (N_of_ascii_lt c) as Hc.
  destruct (sextets_of (N_of_ascii a) (N_of_ascii b) (N_of_ascii c)) as (-> & -> & -> & ->); [done..|].
  pose proof (N.div_mod (N_of_ascii a) 4 ltac:(done)). pose proof (N.div_mod (N_of_ascii b) 16 ltac:(done)).
  pose proof (N.div_mod (N_of_ascii c) 64 ltac:(done)).
  pose proof (N.mod_lt (N_of_ascii b) 16 ltac:(done)). pose proof (N.mod_lt (N_of_ascii c) 64 ltac:(done)).
  assert (∀ x y k, k ≠ 0 → y < k → (x * k + y) / k = x)%N as Hdiv.
  { intros x y k Hk Hy. rewrite N.div_add_l, N.div_small; lia. }
  assert (N_of_ascii b / 16 < 16)%N by (apply N.Div0.div_lt_upper_bound; lia).
  assert (N_of_ascii c / 64 < 4)%N by (apply N.Div0.div_lt_upper_bound; lia).
  unfold group4. repeat f_equal; apply byte_of_eq.
  - rewrite Hdiv by lia. apply (mod_256 0); lia.
  - rewrite Hdiv by lia. apply (mod_256 (N_of_ascii a mod 4)); lia.
  - apply (mod_256 (N_of_ascii b mod 16)); lia.
Qed.

Lemma group3_sextets a b :
  let n := (N_of_ascii a * 65536 + N_of_ascii b * 256)%N in
  group3 (n / 262144) (n / 4096 mod 64) (n / 64 mod 64) = [a; b].
Proof.
  pose proof (group4_sextets a b Ascii.zero) as H. cbv zeta in *.
  change (N_of_ascii Ascii.zero) with 0%N in H. rewrite N.add_0_r in H.
  unfold group3. unfold group4 in H. by injection H as -> ->.
Qed.

Lemma group2_sextets a :
  let n := (N_of_ascii a * 65536)%N in
  group2 (n / 262144) (n / 4096 mod 64) = [a].
Proof.
  pose proof (group3_sextets a Ascii.zero) as H. cbv zeta in *.
  change (N_of_ascii Ascii.zero) with 0%N in H. rewrite N.mul_0_l, N.add_0_r in H.
  unfold group2. unfold group3 in H. by injection H as ->.
Qed.

Lemma sextet_lt n : (n mod 64 < 64)%N.
Proof. by apply N.mod_lt. Qed.

Lemma sextet_high a b c :
  ((N_of_ascii a * 65536 + N_of_ascii b * 256 + N_of_ascii c) / 262144 < 64)%N.
Proof.
  apply N.Div0.div_lt_upper_bound.
  pose proof (N_of_ascii_lt a). pose proof (N_of_ascii_lt b). pose proof (N_of_ascii_lt c). lia.
Qed.

(** One character of a group that is not its last. *)
Lemma decode_list_char v rest si acc :
  (v < 64)%N → length acc < 3 →
  decode_list (encode6 v :: rest) si acc = decode_list rest (si + 1) (acc ++ [v]).
Proof.
  intros Hv Hl. cbn [decode_list]. rewrite decode6_encode6 by done.
  destruct acc as [|? [|? [|? [|? ?]]]]; simpl in *; try done; lia.
Qed.

Lemma decode_list_group a b c d rest si :
  (a < 64)%N → (b < 64)%N → (c < 64)%N → (d < 64)%N →
  decode_list (encode6 a :: encode6 b :: encode6 c :: encode6 d :: rest) si [] =
  match decode_list rest (si + 4) [] with
  | inl bs => inl (group4 a b c d ++ bs)
  | inr e => inr e
  end.
Proof.
  intros. rewrite 3!decode_list_char by (done || simpl; lia). cbn [app].
  cbn [decode_list]. rewrite decode6_encode6 by done.
  by replace (si + 1 + 1 + 1 + 1)%Z with (si + 4)%Z by lia.
Qed.

(** Decoding what [encode_list] gives is the input, at any position. *)
Lemma decode_encode_list n l si :
  length l ≤ n → decode_list (encode_list l) si [] = inl l.
Proof.
  revert l si. induction n as [|n IH]; intros l si Hl; [by destruct l; [|simpl in Hl; lia]|].
  destruct l as [|a [|b [|c rest]]]; [done|..]; cbn [encode_list].
  - pose proof (sextet_high a Ascii.zero Ascii.zero) as Hh.
    change (N_of_ascii Ascii.zero) with 0%N in Hh. rewrite N.mul_0_l, !N.add_0_r in Hh.
    rewrite 2!decode_list_char by (apply sextet_lt || done || (simpl; lia)).
    change (inl (group2 (N_of_ascii a * 65536 / 262144) (N_of_ascii a * 65536 / 4096 mod 64))
      = (inl [a] : list ascii + Z)). by rewrite group2_sextets.
  - pose proof (sextet_high a b Ascii.zero) as Hh.
    change (N_of_ascii Ascii.zero) with 0%N in Hh. rewrite !N.add_0_r in Hh.
    rewrite 3!decode_list_char by (apply sextet_lt || done || (simpl; lia)).
    cbn [app decode_list]. rewrite decode6_pad. simpl. by rewrite group3_sextets.
  - rewrite decode_list_group by (apply sextet_lt || apply sextet_high).
    rewrite IH by (simpl in Hl; lia). by rewrite group4_sextets.
Qed.

(** Decoding an encoding gives the bytes back. *)
Lemma decode_encode s : DecodeString (encode s) = inl s.
Proof.
  unfold DecodeString, encode.
  rewrite String.list_ascii_of_string_of_list_ascii, (decode_encode_list (length (chars s))) by done.
  by rewrite String.string_of_list_ascii_of_string.
Qed.
