(* ===== verification/Validation.v ===== *)
(** * The backend's errors and validation helpers ([backend/internal/helper/validation.go])

    Repository functions of the backend are programs ([prog]) that return a value or a
    [repo_error]: an internal validation error, one of the repositories' own errors, or
    an error of the API server passed on.  The helpers check names and values, and that
    the objects a request refers to exist and are labelled for use.  Name syntax is
    apimachinery's ([NameLib]), RFC 3339 times are the [time] package's ([TimeLib]);
    integers and booleans are parsed as [strconv] does. *)

From Stdlib Require Import ZArith Ascii.
From stdpp Require Import base gmap strings list.
From S2P Require Import Prelude K8sTypes ApiTypes Client Examples Field Base64 Owned.

(** ** Errors *)

Inductive repo_error :=
| InternalValidationError (fieldErrors : list field_error)
| ErrWorkspaceNotFound | ErrWorkspacePodNotRunning
| ErrWorkspaceAlreadyExists | ErrWorkspaceInvalidState | ErrWorkspaceRevisionConflict
| ErrWorkspaceKindNotFound | ErrWorkspaceKindAlreadyExists | ErrWorkspaceKindRevisionConflict
| ErrWorkspaceKindAssetConfigMapNotFound | ErrWorkspaceKindAssetConfigMapKeyMissing
| ErrWorkspaceKindAssetNotConfigMap
| ErrSecretNotFound | ErrSecretAlreadyExists | ErrSecretNotCanUpdate
| ErrPVCNotFound | ErrPVCAlreadyExists | ErrPVCNotCanUpdate
| ErrContainerNotFound | ErrContainerNotRunning | ErrPreviousLogsNotFound
| Cause (e : error)  (** any other error *)
| Panics (why : string).  (** the request's goroutine panics *)

Definition IsInternalValidationError (err : repo_error) : bool :=
  match err with InternalValidationError _ => true | _ => false end.

Definition FieldErrorsFromInternalValidationError (err : repo_error) : list field_error :=
  match err with InternalValidationError errs => errs | _ => [] end.

(** ** Programs that may fail *)

Abbreviation repo A := (prog (A + repo_error)).

Definition ret {A} (a : A) : repo A := Ret (inl a).
Definition throw {A} (e : repo_error) : repo A := Ret (inr e).

(** [if err != nil { return nil, err }]. *)
Definition rbind {A B} (p : repo A) (f : A → repo B) : repo B :=
  pbind p (λ r, match r with inl a => f a | inr e => throw e end).

Notation "x <=- p ;; k" := (rbind p (λ x, k))
  (at level 20, p at level 99, k at level 200) : go_scope.
Notation "' pat <=- p ;; k" := (rbind p (λ x, match x with pat => k end))
  (at level 20, pat pattern, p at level 99, k at level 200) : go_scope.

(** A call whose errors the code translates. *)
Definition attempt {A} (p : prog (answer A)) (translate : error → repo_error) : repo A :=
  r <-- p ;; match r with inl a => ret a | inr e => throw (translate e) end.

(** [if apierrors.IsNotFound(err) { return err0 }; return err]. *)
Definition notFoundAs (err0 : repo_error) (e : error) : repo_error :=
  if IsNotFound e then err0 else Cause e.

(** Errors and panics of pure code. *)
Definition repo_go {A} (g : go A) : repo A :=
  match g with Ok a => ret a | Err e => throw (Cause e) | Panic w => throw (Panics w) end.

Lemma sat_rbind {A B} (p : repo A) (f : A → repo B) h Q :
  sat (rbind p f) h Q ↔
  sat p h (λ h' r, match r with inl a => sat (f a) h' Q | inr e => Q h' (inr e) end).
Proof.
  unfold rbind. rewrite sat_bind. split; intros Hs; (eapply sat_mono; [exact Hs|]);
    intros h' [a|e]; done.
Qed.

Lemma sat_attempt {A} (q : req (answer A)) translate h Q :
  (∀ a, Q (h ++ [Ev q (inl a)]) (inl a)) →
  (∀ e, Q (h ++ [Ev q (inr e)]) (inr (translate e))) →
  sat (attempt (call q) translate) h Q.
Proof. intros Ha He [a|e]; [apply Ha|apply He]. Qed.

Lemma calls_ok_rbind {A B} P (p : repo A) (f : A → repo B) :
  calls_ok P p → (∀ a, calls_ok P (f a)) → calls_ok P (rbind p f).
Proof. intros Hp Hf. apply calls_ok_bind; [done|]. intros [a|e]; [auto|done]. Qed.

Lemma calls_ok_attempt {A} (P : ∀ X, req X → Prop) (q : req (answer A)) translate :
  P _ q → calls_ok P (attempt (call q) translate).
Proof. intros Hq. split; [done|]. by intros [a|e]. Qed.

#[export] Hint Resolve calls_ok_rbind calls_ok_attempt : go.

Lemma calls_after_rbind {A B} P (p : repo A) (f : A → repo B) h :
  calls_after P p h →
  sat p h (λ h' r, match r with inl a => calls_after P (f a) h' | inr _ => True end) →
  calls_after P (rbind p f) h.
Proof.
  intros Hp Hf. apply calls_after_bind; [done|]. eapply sat_mono; [exact Hf|].
  by intros h' [a|e].
Qed.

Lemma calls_after_attempt {A} (P : list event → ∀ X, req X → Prop) (q : req (answer A)) translate h :
  P h _ q → calls_after P (attempt (call q) translate) h.
Proof. intros Hq. split; [done|]. by intros [a|e]. Qed.

(** ** Histories of reads *)

Definition event_write (e : event) : bool := match e with Ev q _ => is_write q end.

(** Nothing was written. *)
Definition reads_only (h : list event) : Prop := Forall (λ e, event_write e = false) h.

Lemma reads_only_snoc {X} h (q : req X) x :
  reads_only h → is_write q = false → reads_only (h ++ [Ev q x]).
Proof. intros Hh Hq. apply Forall_app. split; [done|by constructor]. Qed.

Lemma reads_only_runs {R} (p : prog R) h r :
  calls_ok (λ _ q, is_write q = false) p → runs p h r → reads_only h.
Proof. intros Hp Hr. eapply Forall_impl; [by eapply calls_ok_runs|]. by intros []. Qed.

(** A program that sends no writes, with what else is known of it. *)
Lemma sat_reads {R} (p : prog R) h (Q : list event → R → Prop) :
  calls_ok (λ _ q, is_write q = false) p → sat p h Q → reads_only h →
  sat p h (λ h' r, reads_only h' ∧ Q h' r).
Proof.
  intros Hp HQ Hh.
  eapply sat_mono; [apply sat_and; [apply (calls_ok_sat _ _ _ Hp)|exact HQ]|].
  intros h' r [(k & -> & Hk) Hr]. split; [|done]. apply Forall_app. split; [done|].
  eapply Forall_impl; [exact Hk|]. by intros [].
Qed.

(** ** Names and values *)

(** [validation.IsDNS1123Subdomain], [IsDNS1123Label] and [IsConfigMapKey]: the messages
    of what is wrong. *)
Class NameLib := {
  IsDNS1123Subdomain : string → list string;
  IsDNS1123Label : string → list string;
  IsConfigMapKey : string → list string;
}.

(** [time.Parse(time.RFC3339, s)], None on error, and [t.Format(time.RFC3339)]. *)
Class TimeLib := {
  ParseRFC3339 : string → option Z;
  FormatRFC3339 : Z → string;
}.

Definition ValidateFieldIsNotEmpty (path value : string) : list field_error :=
  if bool_decide (value = "") then [FieldRequired path ""] else [].

(** The common shape of the two DNS checks. *)
Definition validateName (check : string → list string) (path value : string)
    : list field_error :=
  if bool_decide (value = "") then [FieldRequired path ""]
  else match check value with
       | [] => []
       | failures => [FieldInvalid path (BVString value) (str_join "; " failures)]
       end.

Section names.
Context `{NameLib}.

Definition ValidateFieldIsDNS1123Subdomain (path value : string) : list field_error :=
  validateName IsDNS1123Subdomain path value.
Definition ValidateFieldIsDNS1123Label (path value : string) : list field_error :=
  validateName IsDNS1123Label path value.

Definition ValidateWorkspaceName := ValidateFieldIsDNS1123Subdomain.
Definition ValidateWorkspaceKindName := ValidateFieldIsDNS1123Subdomain.
Definition ValidateKubernetesSecretName := ValidateFieldIsDNS1123Subdomain.
Definition ValidateKubernetesPVCName := ValidateFieldIsDNS1123Subdomain.
Definition ValidateKubernetesStorageClassName := ValidateFieldIsDNS1123Subdomain.
Definition ValidateKubernetesNamespaceName := ValidateFieldIsDNS1123Label.
Definition ValidateKubernetesServicesName := ValidateFieldIsDNS1123Label.
Definition ValidateKubernetesContainersName := ValidateFieldIsDNS1123Label.

Definition ValidateFieldIsConfigMapKey (path keyName : string) : list field_error :=
  (λ failureMsg, FieldInvalid path (BVString keyName) ("invalid key name: " +:+ failureMsg))
    <$> IsConfigMapKey keyName.
End names.

(** [kubefloworgv1beta1.GroupVersion.String()]. *)
Definition WorkspaceKindApiVersion : string := "kubeflow.org/v1beta1".

Definition ValidateWorkspaceKindGVK (apiVersion kind : string) : list field_error :=
  (if bool_decide (apiVersion = "") then [FieldRequired "apiVersion" ""]
   else if bool_decide (apiVersion = WorkspaceKindApiVersion) then []
   else [FieldInvalid "apiVersion" (BVString apiVersion) "invalid apiVersion for a WorkspaceKind"])
  ++
  (if bool_decide (kind = "") then [FieldRequired "kind" ""]
   else if bool_decide (kind = "WorkspaceKind") then []
   else [FieldInvalid "kind" (BVString kind) "invalid kind for a WorkspaceKind"]).

Definition ValidateFieldIsSecretBase64Value (path value : string) : list field_error :=
  match DecodeString value with
  | inl _ => []
  | inr err => [FieldInvalid path (BVString value) err]
  end.

(** *** [strconv.ParseInt(s, 10, 64)], None on error *)

Definition digit (c : ascii) : option Z :=
  let n := Z.of_N (N_of_ascii c) in
  if (48 <=? n)%Z && (n <=? 57)%Z then Some (n - 48)%Z else None.

Fixpoint parseDigits (l : list ascii) (acc : Z) : option Z :=
  match l with
  | [] => Some acc
  | c :: rest => d ← digit c; parseDigits rest (acc * 10 + d)
  end.

(** A sign, at least one digit, and the range of [int64]. *)
Definition ParseInt (s : string) : option Z :=
  let '(neg, l) := match chars s with
                   | c :: rest => if bool_decide (c = "-"%char) then (true, rest)
                                  else if bool_decide (c = "+"%char) then (false, rest)
                                  else (false, c :: rest)
                   | [] => (false, [])
                   end in
  match l with
  | [] => None
  | _ =>
    un ← parseDigits l 0;
    if neg then if (un <=? 2 ^ 63)%Z then Some (- un)%Z else None
    else if (un <? 2 ^ 63)%Z then Some un else None
  end.

Definition ValidateFieldIsPositiveInt64 (path value : string) : Z * list field_error :=
  match ParseInt value with
  | Some parsed =>
    if (parsed <=? 0)%Z
    then (0%Z, [FieldInvalid path (BVString value) "must be a positive integer"])
    else (parsed, [])
  | None => (0%Z, [FieldInvalid path (BVString value) "must be a positive integer"])
  end.

(** [strconv.ParseBool], None on error. *)
Definition ParseBool (s : string) : option bool :=
  if bool_decide (s ∈ ["1"; "t"; "T"; "TRUE"; "true"; "True"]) then Some true
  else if bool_decide (s ∈ ["0"; "f"; "F"; "FALSE"; "false"; "False"]) then Some false
  else None.

Definition ValidateFieldIsBool (path value : string) : bool * list field_error :=
  match ParseBool value with
  | Some parsed => (parsed, [])
  | None => (false, [FieldInvalid path (BVString value) "must be a boolean"])
  end.

(** The zero time on error. *)
Definition ValidateFieldIsRFC3339Time `{TimeLib} (path value : string)
    : option Z * list field_error :=
  match ParseRFC3339 value with
  | Some t => (Some t, [])
  | None => (None, [FieldInvalid path (BVString value) "must be a valid RFC3339 timestamp"])
  end.

(** ** Objects that a request refers to *)

Definition LabelCanMount : string := "notebooks.kubeflow.org/can-mount".
Definition LabelCanUpdate : string := "notebooks.kubeflow.org/can-update".
Definition LabelCanUse : string := "notebooks.kubeflow.org/can-use".

(** The object exists and carries [label=true].  [where_] ends the messages. *)
Definition validateLabelled (k : kind) (noun label where_ namespace path value : string)
    : repo (list field_error) :=
  r <-- call (Get k namespace value) ;;
  match r with
  | inr err =>
    if IsNotFound err
    then ret [FieldInvalid path (BVString value) (noun +:+ " " +:+ quote value +:+ " not found" +:+ where_)]
    else throw (Cause err)
  | inl o =>
    if negb (bool_decide (meta_UID (obj_Meta k o) = ""))
       && negb (bool_decide (gm_index (meta_Labels (obj_Meta k o)) label = "true"))
    then ret [FieldForbidden path (noun +:+ " " +:+ quote value +:+ where_
                +:+ " is not labeled with " +:+ label +:+ "=true")]
    else ret []
  end.

Definition inNamespace (namespace : string) : string := " in namespace " +:+ quote namespace.

Definition ValidateKubernetesSecretIsMountable (path namespace value : string)
    : repo (list field_error) :=
  validateLabelled KSecret "Secret" LabelCanMount (inNamespace namespace) namespace path value.

Definition ValidateKubernetesPVCIsMountable (path namespace value : string)
    : repo (list field_error) :=
  validateLabelled KPersistentVolumeClaim "PersistentVolumeClaim" LabelCanMount
    (inNamespace namespace) namespace path value.

Definition ValidateKubernetesStorageClassIsUsable (path value : string)
    : repo (list field_error) :=
  validateLabelled KStorageClass "StorageClass" LabelCanUse "" "" path value.

(** [labels["can-update"] == "true"]. *)
Definition canUpdate (m : ObjectMeta) : bool :=
  bool_decide (gm_index (meta_Labels m) LabelCanUpdate = "true").

(** [DeleteSecret] and [DeletePVC]: the object is read, and deleted if it is labelled. *)
Definition deleteLabelled (k : kind) (notFound notCanUpdate : repo_error)
    (namespace name : string) : repo () :=
  o <=- attempt (call (Get k namespace name)) (notFoundAs notFound) ;;
  let m := obj_Meta k o in
  if negb (canUpdate m) then throw notCanUpdate
  else attempt (call (Delete k (meta_Namespace m) (meta_Name m))) (notFoundAs notFound).

(** An object that was read, labelled [can-update]. *)
Definition updatable (k : kind) (namespace name : string) (h : list event) (o : obj k) : Prop :=
  Ev (Get k namespace name) (inl o) ∈ h ∧
  gm_index (meta_Labels (obj_Meta k o)) LabelCanUpdate = "true".

Definition delete_outcome (k : kind) (notFound : repo_error) (namespace name : string)
    (h : list event) (r : () + repo_error) : Prop :=
  (reads_only h ∧ ∃ e, r = inr e) ∨
  ∃ h0 o x, h = h0 ++ [Ev (Delete k (meta_Namespace (obj_Meta k o)) (meta_Name (obj_Meta k o))) x] ∧
    reads_only h0 ∧ updatable k namespace name h0 o ∧
    r = match x with inl _ => inl () | inr e => inr (notFoundAs notFound e) end.

Lemma canUpdate_true m : canUpdate m = true → gm_index (meta_Labels m) LabelCanUpdate = "true".
Proof. apply bool_decide_eq_true. Qed.

Lemma deleteLabelled_outcome k notFound notCanUpdate namespace name h r :
  runs (deleteLabelled k notFound notCanUpdate namespace name) h r →
  delete_outcome k notFound namespace name h r.
Proof.
  revert h r. apply (sat_runs _ []). apply sat_rbind, sat_attempt; [intros o|intros e].
  2: { left. split; [by repeat constructor|]. by eexists. }
  cbv beta zeta. destruct (canUpdate (obj_Meta k o)) eqn:Hc; cbn [negb].
  2: { left. split; [by repeat constructor|]. by eexists. }
  apply canUpdate_true in Hc.
  apply sat_attempt; [intros []|intros e]; right;
    (eexists _, o, _; split_and!; [reflexivity|by repeat constructor| |done];
     split; [set_solver|done]).
Qed.

(** ** Examples *)

(** Stand-ins for the libraries: times in decimal, names that are not ["BAD"]. *)
Definition exampleTimeLib : TimeLib := {| ParseRFC3339 := ParseInt; FormatRFC3339 := itoa |}.

Definition exampleNameLib : NameLib :=
  let check s := if bool_decide (s = "BAD") then ["must be lower case"] else [] in
  {| IsDNS1123Subdomain := check; IsDNS1123Label := check; IsConfigMapKey := check |}.

Example parseInt_examples :
  ParseInt "+42" = Some 42%Z ∧ ParseInt "-7" = Some (-7)%Z ∧ ParseInt "" = None ∧
  ParseInt "4x" = None ∧ ParseInt "9223372036854775808" = None ∧
  ParseInt "-9223372036854775808" = Some (-9223372036854775808)%Z.
Proof. repeat split; vm_compute; reflexivity. Qed.
