(* ===== verification/Revision.v ===== *)
(** * Revisions and audit metadata ([backend/internal/models/common])

    The opaque revision that clients send back with an update, and the annotations that
    record who created and updated an object.  An actor is [None] when authentication
    is disabled. *)

From Stdlib Require Import ZArith Ascii.
From stdpp Require Import base gmap strings list pretty.
From S2P Require Import Prelude K8sTypes ApiTypes Sha256 Client Examples Field Validation.

(** ** Labels and annotations *)

Definition AnnotationCreatedBy : string := "notebooks.kubeflow.org/created-by".
Definition AnnotationUpdatedAt : string := "notebooks.kubeflow.org/updated-at".
Definition AnnotationUpdatedBy : string := "notebooks.kubeflow.org/updated-by".
Definition AnnotationDisplayName : string := "notebooks.kubeflow.org/display-name".
Definition AnnotationDescription : string := "notebooks.kubeflow.org/description".
Definition LabelWorkspaceName : string := "notebooks.kubeflow.org/workspace-name".
Definition LabelOdhDashboard : string := "opendatahub.io/dashboard".

(** ** Revisions *)

Abbreviation RevisionString := string (only parsing).

(** What is hashed. *)
Definition revisionInput (m : ObjectMeta) : string :=
  meta_UID m +:+ ":" +:+ meta_Name m +:+ ":" +:+ itoa (meta_Generation m).

Definition CalculateRevision (m : ObjectMeta) : RevisionString := sha256_hex (revisionInput m).

(** ** Audit *)

Record AuditInfo := mkAudit {
  audit_CreatedAt : Z;
  audit_CreatedBy : option string;
  audit_UpdatedAt : option Z;
  audit_UpdatedBy : option string;
  audit_DeletedAt : option Z;
}.

Section audit.
Context `{TimeLib}.

Definition NewAuditFromObjectMeta (m : ObjectMeta) : AuditInfo :=
  let annotations := gm (meta_Annotations m) in
  mkAudit (meta_CreationTimestamp m) (annotations !! AnnotationCreatedBy)
    (annotations !! AnnotationUpdatedAt ≫= ParseRFC3339)
    (annotations !! AnnotationUpdatedBy) (meta_DeletionTimestamp m).

Definition UpdateObjectMetaForCreate (m : ObjectMeta) (actor : option string) : ObjectMeta :=
  let annotations := gm (meta_Annotations m) in
  setAnnotations m (Some
    match actor with
    | Some name => <[AnnotationUpdatedBy := name]> (<[AnnotationCreatedBy := name]> annotations)
    | None => delete AnnotationUpdatedAt
                (delete AnnotationUpdatedBy (delete AnnotationCreatedBy annotations))
    end).

Definition UpdateObjectMetaForUpdate (m : ObjectMeta) (actor : option string) (now : Z)
    : ObjectMeta :=
  let annotations := <[AnnotationUpdatedAt := FormatRFC3339 now]> (gm (meta_Annotations m)) in
  setAnnotations m (Some
    match actor with
    | Some name => <[AnnotationUpdatedBy := name]> annotations
    | None => delete AnnotationUpdatedBy annotations
    end).
End audit.

Definition GetDisplayNameFromObjectMeta (m : ObjectMeta) : string :=
  gm_index (meta_Annotations m) AnnotationDisplayName.

Definition GetDescriptionFromObjectMeta (m : ObjectMeta) : string :=
  gm_index (meta_Annotations m) AnnotationDescription.

(** ** Properties *)

(** A string without [":"], as every name and UID is. *)
Definition no_colon (s : string) : Prop := ":"%char ∉ chars s.

Lemma revisionInput_inj m1 m2 :
  no_colon (meta_UID m1) → no_colon (meta_UID m2) →
  no_colon (meta_Name m1) → no_colon (meta_Name m2) →
  revisionInput m1 = revisionInput m2 →
  meta_UID m1 = meta_UID m2 ∧ meta_Name m1 = meta_Name m2 ∧
  meta_Generation m1 = meta_Generation m2.
Proof.
  intros U1 U2 N1 N2 Heq.
  apply (str_sep_inj ":"%char) in Heq as [-> Heq]; [|done..].
  apply (str_sep_inj ":"%char) in Heq as [-> Heq]; [|done..].
  by apply (inj pretty) in Heq.
Qed.

(** Equal revisions identify the same object (UID and name) at the same generation of its
    spec, unless the two objects' revision inputs are different strings with the same
    SHA-256. *)
Theorem CalculateRevision_identifies m1 m2 :
  no_colon (meta_UID m1) → no_colon (meta_UID m2) →
  no_colon (meta_Name m1) → no_colon (meta_Name m2) →
  CalculateRevision m1 = CalculateRevision m2 →
  (meta_UID m1 = meta_UID m2 ∧ meta_Name m1 = meta_Name m2 ∧
   meta_Generation m1 = meta_Generation m2) ∨
  (revisionInput m1 ≠ revisionInput m2 ∧
   sha256_hex (revisionInput m1) = sha256_hex (revisionInput m2)).
Proof.
  intros U1 U2 N1 N2 Heq. destruct (decide (revisionInput m1 = revisionInput m2)) as [E|Hne].
  - left. by apply revisionInput_inj.
  - by right.
Qed.

Lemma CalculateRevision_identifies_witness :
  let m := exMeta "my-workspace" "ns" in
  (meta_UID m = meta_UID m ∧ meta_Name m = meta_Name m ∧
   meta_Generation m = meta_Generation m) ∨
  (revisionInput m ≠ revisionInput m ∧
   sha256_hex (revisionInput m) = sha256_hex (revisionInput m)).
Proof.
  intros m. apply (CalculateRevision_identifies m m);
    [apply (bool_decide_unpack _); vm_compute; exact I..|reflexivity].
Defined.

Section audit_laws.
Context `{TimeLib}.

(** Reading the audit of what an update wrote. *)
Lemma audit_of_update m actor now :
  let a := NewAuditFromObjectMeta (UpdateObjectMetaForUpdate m actor now) in
  audit_UpdatedBy a = actor ∧ audit_UpdatedAt a = ParseRFC3339 (FormatRFC3339 now) ∧
  audit_CreatedBy a = audit_CreatedBy (NewAuditFromObjectMeta m).
Proof. destruct actor; simpl; split_and!; by simplify_map_eq. Qed.

Lemma audit_of_create m actor :
  let a := NewAuditFromObjectMeta (UpdateObjectMetaForCreate m actor) in
  audit_CreatedBy a = actor ∧ audit_UpdatedBy a = actor.
Proof. destruct actor; simpl; split_and!; by simplify_map_eq. Qed.
End audit_laws.
