(* ===== verification/ListValues.v ===== *)
(** * Listing the options of a WorkspaceKind
    ([backend/internal/models/workspacekinds/podtemplate/options])

    What the spawner may offer: the values of a WorkspaceKind, cut down to the one the
    request's context names, without those a filter rule hides, each with its metrics
    and restrictions.  [buildImageConfigValues] and [buildPodConfigValues] are the same
    code on two types, modelled once over [ListedOption].

    [ListValues_correct] states the outcome declaratively: over the rules' declarative
    reading ([decides] of [FilterRules]), and with an error exactly when the context names
    an option the kind does not have. *)

From Stdlib Require Import ZArith.
From stdpp Require Import base gmap strings list.
From S2P Require Import Prelude K8sTypes ApiTypes Client Options Examples Field FilterRules.
From S2P Require Import Validation.

(** ** The response *)

Record OptionLabel := mkOptionLabel { ol_Key : string; ol_Value : string }.

(** The API's message levels are those of the resource. *)
Record RedirectMessageModel := mkRedirectMessageModel {
  rmm_Text : string;
  rmm_Level : RedirectMessageLevel;
}.

Record OptionRedirectModel := mkRedirectModel {
  orm_To : string;
  orm_Message : option RedirectMessageModel;
}.

Record ClusterOptionMetrics := mkClusterOptionMetrics { com_Workspaces : Z }.

(** [ImageConfigValue] and [PodConfigValue], which have the same fields. *)
Record OptionValueModel := mkOptionValueModel {
  ovm_Id : string;
  ovm_DisplayName : string;
  ovm_Description : string;
  ovm_Labels : list OptionLabel;
  ovm_Hidden : bool;
  ovm_Redirect : option OptionRedirectModel;
  ovm_ClusterMetrics : option ClusterOptionMetrics;
  ovm_Restrictions : Restrictions;
}.

(** [ImageConfig] and [PodConfig]. *)
Record OptionListModel := mkOptionListModel {
  olm_Default : string;
  olm_Values : list OptionValueModel;
}.

Record PodTemplateOptions := mkPodTemplateOptions {
  pto_ImageConfig : OptionListModel;
  pto_PodConfig : OptionListModel;
}.

(** ** The request *)

Record ContextNamespace := mkContextNamespace { cns_Name : string }.
Record ContextPodConfig := mkContextPodConfig { cpc_Id : string }.
Record ContextImageConfig := mkContextImageConfig { cic_Id : string }.

Record ListValuesContext := mkListValuesContext {
  lvc_Namespace : option ContextNamespace;
  lvc_PodConfig : option ContextPodConfig;
  lvc_ImageConfig : option ContextImageConfig;
}.

Record ListValuesRequest := mkListValuesRequest { lvr_Context : ListValuesContext }.

(** [&options.ListValuesRequest{}]. *)
Definition emptyListValues : ListValuesRequest :=
  mkListValuesRequest (mkListValuesContext None None None).

(** [Validate] of the request and its parts. *)
Definition ContextNamespace_Validate `{NameLib} (c : ContextNamespace) (prefix : string)
    : list field_error :=
  ValidateKubernetesNamespaceName (Child prefix ["name"]) (cns_Name c).

Definition ContextPodConfig_Validate (c : ContextPodConfig) (prefix : string) : list field_error :=
  ValidateFieldIsNotEmpty (Child prefix ["id"]) (cpc_Id c).

Definition ContextImageConfig_Validate (c : ContextImageConfig) (prefix : string)
    : list field_error :=
  ValidateFieldIsNotEmpty (Child prefix ["id"]) (cic_Id c).

Definition ListValuesContext_Validate `{NameLib} (c : ListValuesContext) (prefix : string)
    : list field_error :=
  match lvc_Namespace c with
  | Some ns => ContextNamespace_Validate ns (Child prefix ["namespace"])
  | None => []
  end
  ++ match lvc_PodConfig c with
     | Some p => ContextPodConfig_Validate p (Child prefix ["podConfig"])
     | None => []
     end
  ++ match lvc_ImageConfig c with
     | Some i => ContextImageConfig_Validate i (Child prefix ["imageConfig"])
     | None => []
     end.

Definition ListValuesRequest_Validate `{NameLib} (d : ListValuesRequest) (prefix : string)
    : list field_error :=
  ListValuesContext_Validate (lvr_Context d) (Child prefix ["context"]).

(** The imageConfig and podConfig ids, each empty when absent. *)
Definition configIDs (d : ListValuesRequest) : string * string :=
  (match lvc_ImageConfig (lvr_Context d) with Some c => cic_Id c | None => "" end,
   match lvc_PodConfig (lvr_Context d) with Some c => cpc_Id c | None => "" end).

(** ** The functions *)

(** What the listing reads of an option beyond [OptionValue]; [lo_field] and [lo_noun]
    name it in errors. *)
Class ListedOption (V : Type) `{OptionValue V} := {
  opt_Spawner : V → OptionSpawnerInfo;
  opt_Scope : FilterRuleScope;
  opt_field : string;
  opt_phrase : string;
}.

#[global] Instance imageConfig_listed : ListedOption ImageConfigValue := {
  opt_Spawner := icv_Spawner; opt_Scope := FilterRuleScopeImageConfig;
  opt_field := "imageConfig"; opt_phrase := "image config" }.
#[global] Instance podConfig_listed : ListedOption PodConfigValue := {
  opt_Spawner := pcv_Spawner; opt_Scope := FilterRuleScopePodConfig;
  opt_field := "podConfig"; opt_phrase := "pod config" }.

Definition calculateOptionMetricsMap (metrics : list OptionMetric) : gmap string Z :=
  foldl (λ m metric, <[om_Id metric := om_Workspaces metric]> m) ∅ metrics.

Definition buildOptionLabels (labels : list OptionSpawnerLabel) : list OptionLabel :=
  (λ l, mkOptionLabel (osl_Key l) (osl_Value l)) <$> labels.

Definition buildRedirectMessage (msg : option RedirectMessage) : option RedirectMessageModel :=
  match msg with
  | None => None
  | Some m =>
    let level := match rm_Level m with
                 | RedirectMessageLevelInfo => RedirectMessageLevelInfo
                 | RedirectMessageLevelWarning => RedirectMessageLevelWarning
                 | RedirectMessageLevelDanger => RedirectMessageLevelDanger
                 end in
    Some (mkRedirectMessageModel (rm_Text m) level)
  end.

Definition buildOptionRedirect (redirect : option OptionRedirect) : option OptionRedirectModel :=
  match redirect with
  | None => None
  | Some r => Some (mkRedirectModel (redir_To r) (buildRedirectMessage (redir_Message r)))
  end.

Definition buildClusterOptionMetrics (optionId : string) (optionMetricsMap : gmap string Z)
    : option ClusterOptionMetrics :=
  Some (mkClusterOptionMetrics (default 0%Z (optionMetricsMap !! optionId))).

Section options.
Context `{SelectorLib}.

Section build.
Context {V : Type} `{ListedOption V}.

Definition buildOptionValue (value : V) (metrics : gmap string Z) (result : EvalResult)
    : OptionValueModel :=
  mkOptionValueModel (opt_Id value) (osi_DisplayName (opt_Spawner value))
    (default "" (osi_Description (opt_Spawner value)))
    (buildOptionLabels (osi_Labels (opt_Spawner value)))
    (default false (osi_Hidden (opt_Spawner value)) || er_UIHide result)
    (buildOptionRedirect (opt_Redirect value))
    (buildClusterOptionMetrics (opt_Id value) metrics) (er_Restrictions result).

(** The loop over the values: what it appends, and whether it finds the context's id. *)
Fixpoint configValuesLoop (values : list V) (contextId : string) (metrics : gmap string Z)
    (evalCtx : EvalContext) : list OptionValueModel * bool :=
  match values with
  | [] => ([], false)
  | value :: rest =>
    let '(models, found) := configValuesLoop rest contextId metrics evalCtx in
    if negb (bool_decide (contextId = "")) && negb (bool_decide (opt_Id value = contextId))
    then (models, found)
    else
      let found := negb (bool_decide (contextId = "")) || found in
      let result := Evaluate (mkEvalTarget (opt_Scope (V := V)) (osi_Labels (opt_Spawner value))) evalCtx in
      if er_APIHide result then (models, found)
      else (buildOptionValue value metrics result :: models, found)
  end.

Definition buildConfigValues (wskName : string) (values : list V) (contextId : string)
    (metrics : gmap string Z) (evalCtx : EvalContext) : list OptionValueModel * list field_error :=
  let '(models, found) := configValuesLoop values contextId metrics evalCtx in
  (models,
   if negb (bool_decide (contextId = "")) && negb found
   then [FieldInvalid (Child (Child (NewPath ["context"]) [opt_field (V := V)]) ["id"])
           (BVString contextId)
           ("provided " +:+ opt_phrase (V := V) +:+ " id " +:+ quote contextId
            +:+ " not found in workspace kind " +:+ quote wskName)]
   else []).
End build.

Definition buildImageConfigValues (wsk : WorkspaceKind) (request : ListValuesRequest)
    (optionMetricsMap : gmap string Z) (evalCtx : EvalContext)
    : list OptionValueModel * list field_error :=
  buildConfigValues (wsk_Name wsk) (wsk_ImageValues wsk) (configIDs request).1
    optionMetricsMap evalCtx.

Definition buildPodConfigValues (wsk : WorkspaceKind) (request : ListValuesRequest)
    (optionMetricsMap : gmap string Z) (evalCtx : EvalContext)
    : list OptionValueModel * list field_error :=
  buildConfigValues (wsk_Name wsk) (wsk_PodValues wsk) (configIDs request).2
    optionMetricsMap evalCtx.

(** The response, or the field errors of an internal validation error. *)
Definition NewPodTemplateOptionsModelFromWorkspaceKind (wsk : WorkspaceKind)
    (request : ListValuesRequest) (namespaceLabels : gomap)
    : PodTemplateOptions + list field_error :=
  let '(imageConfigID, podConfigID) := configIDs request in
  let evalCtx :=
    BuildEvalContextForImageAndPodCfg wsk namespaceLabels imageConfigID podConfigID in
  let metrics := kst_PodTemplateOptions (wsk_Status wsk) in
  let '(imageConfigValues, imageErrs) :=
    buildImageConfigValues wsk request (calculateOptionMetricsMap (ptom_ImageConfig metrics))
      evalCtx in
  let '(podConfigValues, podErrs) :=
    buildPodConfigValues wsk request (calculateOptionMetricsMap (ptom_PodConfig metrics))
      evalCtx in
  match imageErrs ++ podErrs with
  | [] =>
    let options := kpt_Options (wsk_PodTemplate wsk) in
    inl (mkPodTemplateOptions
      (mkOptionListModel (osc_Default (ic_Spawner (kpo_ImageConfig options))) imageConfigValues)
      (mkOptionListModel (osc_Default (pc_Spawner (kpo_PodConfig options))) podConfigValues))
  | errs => inr errs
  end.

(** ** The specification *)

(** The values a context id leaves: all of them, or those with the id. *)
Definition in_context {V} `{OptionValue V} (contextId : string) (v : V) : Prop :=
  contextId = "" ∨ opt_Id v = contextId.

#[global] Instance in_context_dec {V} `{OptionValue V} contextId (v : V) :
  Decision (in_context contextId v).
Proof. unfold in_context. apply _. Defined.

(** The id is known: absent or the id of a value. *)
Definition known {V} `{OptionValue V} (contextId : string) (values : list V) : Prop :=
  contextId = "" ∨ ∃ v, v ∈ values ∧ opt_Id v = contextId.

(** [models] are the values in the context that no rule hides, in the kind's order, each
    with what the rules decide about it. *)
Definition listed {V} `{ListedOption V} (wsk : WorkspaceKind) (values : list V)
    (ns : gomap) (imageConfigID podConfigID contextId : string) (metrics : gmap string Z)
    (models : list OptionValueModel) : Prop :=
  ∃ res : V → EvalResult,
    (∀ v, decides (opt_Scope (V := V)) (spawnerLabelsToMap (osi_Labels (opt_Spawner v))) ns
            (selectedLabels icv_Spawner (wsk_ImageValues wsk) imageConfigID)
            (selectedLabels pcv_Spawner (wsk_PodValues wsk) podConfigID)
            (kspec_FilterRules (wsk_Spec wsk)) (res v)) ∧
    models = (λ v, buildOptionValue v metrics (res v)) <$>
      filter (λ v, in_context contextId v ∧ er_APIHide (res v) = false) values.

Section loop.
Context {V : Type} `{ListedOption V}.

Lemma configValuesLoop_models (values : list V) contextId metrics evalCtx :
  let res v := Evaluate (mkEvalTarget (opt_Scope (V := V)) (osi_Labels (opt_Spawner v))) evalCtx in
  (configValuesLoop values contextId metrics evalCtx).1 =
  (λ v, buildOptionValue v metrics (res v)) <$>
    filter (λ v, in_context contextId v ∧ er_APIHide (res v) = false) values.
Proof.
  intros res. induction values as [|v values IH]; [done|]. cbn [configValuesLoop].
  destruct (configValuesLoop values contextId metrics evalCtx) as [models found].
  rewrite filter_cons. unfold in_context in *. simpl in IH. subst models.
  do 2 case_bool_decide; simpl; try (rewrite decide_False by naive_solver; done);
    fold (res v); destruct (er_APIHide (res v)) eqn:Ha;
    try (rewrite decide_False by naive_solver; done);
    rewrite decide_True by naive_solver; done.
Qed.

Lemma configValuesLoop_found (values : list V) contextId metrics evalCtx :
  contextId ≠ "" →
  (configValuesLoop values contextId metrics evalCtx).2 = true ↔
  ∃ v, v ∈ values ∧ opt_Id v = contextId.
Proof.
  intros Hid. induction values as [|v values IH]; [simpl; set_solver|].
  cbn [configValuesLoop].
  destruct (configValuesLoop values contextId metrics evalCtx) as [models found]. simpl in IH.
  rewrite (bool_decide_eq_false_2 (contextId = "")) by done. simpl.
  case_bool_decide as Hv; simpl.
  - destruct (er_APIHide _); simpl; set_solver.
  - rewrite IH. set_solver.
Qed.

Lemma buildConfigValues_known wskName (values : list V) contextId metrics evalCtx :
  (buildConfigValues wskName values contextId metrics evalCtx).2 = [] ↔ known contextId values.
Proof.
  unfold buildConfigValues, known.
  pose proof (configValuesLoop_found values contextId metrics evalCtx) as Hf.
  destruct (configValuesLoop values contextId metrics evalCtx) as [models found]. simpl in *.
  case_bool_decide as Hid; simpl; [naive_solver|].
  specialize (Hf Hid). destruct found; simpl; naive_solver.
Qed.
End loop.

(** The models of the values, with the context of a request. *)
Lemma buildConfigValues_listed {V} `{ListedOption V} wsk (values : list V) ns img pod contextId
    metrics :
  imageAndPodConfigScopes (opt_Scope (V := V)) = true →
  listed wsk values ns img pod contextId metrics
    (buildConfigValues (wsk_Name wsk) values contextId metrics
       (BuildEvalContextForImageAndPodCfg wsk ns img pod)).1.
Proof.
  intros Hscope. set (ctx := BuildEvalContextForImageAndPodCfg _ _ _ _).
  exists (λ v, Evaluate (mkEvalTarget (opt_Scope (V := V)) (osi_Labels (opt_Spawner v))) ctx).
  split.
  - intros v. by apply (evaluateRules_decides _ imageAndPodConfigScopes
      (mkEvalTarget (opt_Scope (V := V)) (osi_Labels (opt_Spawner v))) _ ctx).
  - unfold buildConfigValues. rewrite <-configValuesLoop_models.
    by destruct (configValuesLoop values contextId metrics ctx).
Qed.

(** Listing fails exactly when the context names an option that the kind does not have;
    otherwise the response holds, for both options, the kind's default and the values in
    the context that the first matching rule of their scope does not hide, in the kind's
    order and with that rule's restrictions. *)
Theorem ListValues_correct wsk request ns :
  let '(imageConfigID, podConfigID) := configIDs request in
  match NewPodTemplateOptionsModelFromWorkspaceKind wsk request ns with
  | inr errs => errs ≠ [] ∧
      ¬ (known imageConfigID (wsk_ImageValues wsk) ∧ known podConfigID (wsk_PodValues wsk))
  | inl r =>
      known imageConfigID (wsk_ImageValues wsk) ∧ known podConfigID (wsk_PodValues wsk) ∧
      listed wsk (wsk_ImageValues wsk) ns imageConfigID podConfigID imageConfigID
        (calculateOptionMetricsMap (ptom_ImageConfig (kst_PodTemplateOptions (wsk_Status wsk))))
        (olm_Values (pto_ImageConfig r)) ∧
      listed wsk (wsk_PodValues wsk) ns imageConfigID podConfigID podConfigID
        (calculateOptionMetricsMap (ptom_PodConfig (kst_PodTemplateOptions (wsk_Status wsk))))
        (olm_Values (pto_PodConfig r)) ∧
      olm_Default (pto_ImageConfig r) =
        osc_Default (ic_Spawner (kpo_ImageConfig (kpt_Options (wsk_PodTemplate wsk)))) ∧
      olm_Default (pto_PodConfig r) =
        osc_Default (pc_Spawner (kpo_PodConfig (kpt_Options (wsk_PodTemplate wsk))))
  end.
Proof.
  destruct (configIDs request) as [img pod] eqn:Hids.
  unfold NewPodTemplateOptionsModelFromWorkspaceKind, buildImageConfigValues,
    buildPodConfigValues. rewrite Hids. cbn [fst snd].
  set (ctx := BuildEvalContextForImageAndPodCfg _ _ _ _).
  set (im := calculateOptionMetricsMap (ptom_ImageConfig _)).
  set (pm := calculateOptionMetricsMap (ptom_PodConfig _)).
  pose proof (buildConfigValues_known (wsk_Name wsk) (wsk_ImageValues wsk) img im ctx) as Hi.
  pose proof (buildConfigValues_known (wsk_Name wsk) (wsk_PodValues wsk) pod pm ctx) as Hp.
  pose proof (buildConfigValues_listed wsk (wsk_ImageValues wsk) ns img pod img im eq_refl) as Li.
  pose proof (buildConfigValues_listed wsk (wsk_PodValues wsk) ns img pod pod pm eq_refl) as Lp.
  fold ctx in Li, Lp.
  destruct (buildConfigValues (wsk_Name wsk) (wsk_ImageValues wsk) img im ctx) as [imgs ie].
  destruct (buildConfigValues (wsk_Name wsk) (wsk_PodValues wsk) pod pm ctx) as [pods pe].
  cbn [fst snd] in *. destruct (ie ++ pe) as [|e errs] eqn:He; cbn.
  - apply app_nil in He as [-> ->]. split_and!; naive_solver.
  - split; [done|]. rewrite <-Hi, <-Hp. by intros [-> ->].
Qed.

(** A request whose ids are known does not fail; in particular an empty one. *)
Lemma ListValues_known wsk request ns :
  known (configIDs request).1 (wsk_ImageValues wsk) →
  known (configIDs request).2 (wsk_PodValues wsk) →
  ∃ r, NewPodTemplateOptionsModelFromWorkspaceKind wsk request ns = inl r.
Proof.
  unfold NewPodTemplateOptionsModelFromWorkspaceKind, buildImageConfigValues,
    buildPodConfigValues. destruct (configIDs request) as [img pod]. cbn [fst snd].
  set (ctx := BuildEvalContextForImageAndPodCfg _ _ _ _).
  set (im := calculateOptionMetricsMap (ptom_ImageConfig _)).
  set (pm := calculateOptionMetricsMap (ptom_PodConfig _)).
  rewrite <-(buildConfigValues_known (wsk_Name wsk) _ img im ctx).
  rewrite <-(buildConfigValues_known (wsk_Name wsk) _ pod pm ctx).
  destruct (buildConfigValues _ _ img im ctx) as [imgs ie].
  destruct (buildConfigValues _ _ pod pm ctx) as [pods pe].
  cbn [fst snd]. intros -> ->. by eexists.
Qed.

Lemma ListValues_empty wsk ns :
  ∃ r, NewPodTemplateOptionsModelFromWorkspaceKind wsk emptyListValues ns = inl r.
Proof. by apply ListValues_known; left. Qed.
End options.

(** ** Metrics *)

(** The metrics map holds the last metric of each option. *)
Lemma calculateOptionMetricsMap_snoc ms m :
  calculateOptionMetricsMap (ms ++ [m]) =
  <[om_Id m := om_Workspaces m]> (calculateOptionMetricsMap ms).
Proof. unfold calculateOptionMetricsMap. by rewrite foldl_app. Qed.

Lemma calculateOptionMetricsMap_exact {V} `{OptionValue V} (values : list V) (count : string → Z) v :
  v ∈ values →
  calculateOptionMetricsMap ((λ v, mkOptionMetric (opt_Id v) (count (opt_Id v))) <$> values)
    !! opt_Id v = Some (count (opt_Id v)).
Proof.
  induction values as [|w values IH] using rev_ind; [by intros ?%not_elem_of_nil|].
  rewrite fmap_app. simpl. rewrite calculateOptionMetricsMap_snoc. simpl. intros Hv.
  destruct (decide (opt_Id w = opt_Id v)) as [->|Hne]; [by rewrite lookup_insert_eq|].
  rewrite lookup_insert_ne by done. apply IH. set_solver.
Qed.

(** ** Examples *)

(** In a namespace of team [a], an image is listed; the context's unknown pod is an
    error. *)
Example listValues_unknown :
  NewPodTemplateOptionsModelFromWorkspaceKind (H := exampleSelectorLib) exFilterKind
    (mkListValuesRequest (mkListValuesContext None (Some (mkContextPodConfig "gone")) None)) None
  = inr [FieldInvalid "context.podConfig.id" (BVString "gone")
      ("provided pod config id " +:+ quote "gone" +:+ " not found in workspace kind "
       +:+ quote "jupyterlab")].
Proof. vm_compute. reflexivity. Qed.
