(* ===== verification/WorkspaceModel.v ===== *)
(** * API models of Workspaces ([backend/internal/models/workspaces]: writing)

    The models that clients send and receive when they create, read and update a
    Workspace ([types_write.go]), their validation, and their conversion from and to the
    custom resource ([funcs_write.go]).  Converting a model to a resource checks that the
    volumes it mounts exist and are labelled mountable; [unpack_sat] says so, and the
    round-trip theorems say that no field is lost or altered. *)

From Stdlib Require Import ZArith.
From stdpp Require Import base gmap strings list.
From S2P Require Import Prelude K8sTypes ApiTypes Sha256 Client Examples Field Owned.
From S2P Require Import Validation Revision.

(** ** Models *)

(** The API's [PodVolumeMount] and [PodSecretMount]. *)
Record VolumeMountModel := mkVolumeMountModel {
  vmm_PVCName : string;
  vmm_MountPath : string;
  vmm_ReadOnly : bool;
}.

Record SecretMountModel := mkSecretMountModel {
  smm_SecretName : string;
  smm_MountPath : string;
  smm_DefaultMode : Z;
}.

Record PodMetadataMutate := mkPodMetadataMutate {
  pmm_Labels : gmap string string;
  pmm_Annotations : gmap string string;
}.

Record PodVolumesMutate := mkPodVolumesMutate {
  pvmu_Home : option string;
  pvmu_Data : list VolumeMountModel;
  pvmu_Secrets : list SecretMountModel;
}.

Record PodTemplateOptionsMutate := mkPodTemplateOptionsMutate {
  ptom_ImageConfigId : string;
  ptom_PodConfigId : string;
}.

Record PodTemplateMutate := mkPodTemplateMutate {
  ptm_PodMetadata : PodMetadataMutate;
  ptm_Volumes : PodVolumesMutate;
  ptm_Options : PodTemplateOptionsMutate;
}.

Record WorkspaceCreate := mkWorkspaceCreate {
  wcr_Name : string;
  wcr_DisplayName : string;
  wcr_Kind : string;
  wcr_Paused : bool;
  wcr_PodTemplate : PodTemplateMutate;
}.

Record WorkspaceUpdate := mkWorkspaceUpdate {
  wup_Revision : RevisionString;
  wup_DisplayName : string;
  wup_Paused : bool;
  wup_PodTemplate : PodTemplateMutate;
}.

Record WorkspaceActionPause := mkActionPause { wap_Paused : bool }.

(** ** Validation of requests *)

Section validate.
Context `{NameLib} `{ValidationLib}.

Definition PodMetadataMutate_Validate (p : PodMetadataMutate) (prefix : string)
    : list field_error :=
  ValidateLabels (pmm_Labels p) (Child prefix ["labels"])
  ++ ValidateAnnotations (pmm_Annotations p) (Child prefix ["annotations"]).

Definition PodVolumeMount_Validate (p : VolumeMountModel) (prefix : string) : list field_error :=
  ValidateKubernetesPVCName (Child prefix ["pvcName"]) (vmm_PVCName p)
  ++ ValidateFieldIsNotEmpty (Child prefix ["mountPath"]) (vmm_MountPath p).

Definition PodSecretMount_Validate (p : SecretMountModel) (prefix : string) : list field_error :=
  ValidateKubernetesSecretName (Child prefix ["secretName"]) (smm_SecretName p)
  ++ ValidateFieldIsNotEmpty (Child prefix ["mountPath"]) (smm_MountPath p)
  ++ (if negb (smm_DefaultMode p =? 0)%Z
         && ((smm_DefaultMode p <? 0)%Z || (511 <? smm_DefaultMode p)%Z)
      then [FieldInvalid (Child prefix ["defaultMode"]) (BVInt (smm_DefaultMode p))
              "defaultMode must be between 0 and 511"]
      else []).

Definition PodVolumesMutate_Validate (p : PodVolumesMutate) (prefix : string)
    : list field_error :=
  match pvmu_Home p with
  | Some home => ValidateKubernetesPVCName (Child prefix ["home"]) home
  | None => []
  end
  ++ concat (imap (λ i volume, PodVolumeMount_Validate volume (Index (Child prefix ["data"]) i))
               (pvmu_Data p))
  ++ concat (imap (λ i secret, PodSecretMount_Validate secret (Index (Child prefix ["secrets"]) i))
               (pvmu_Secrets p)).

Definition PodTemplateOptionsMutate_Validate (p : PodTemplateOptionsMutate) (prefix : string)
    : list field_error :=
  ValidateFieldIsNotEmpty (Child prefix ["imageConfig"]) (ptom_ImageConfigId p)
  ++ ValidateFieldIsNotEmpty (Child prefix ["podConfig"]) (ptom_PodConfigId p).

Definition PodTemplateMutate_Validate (p : PodTemplateMutate) (prefix : string)
    : list field_error :=
  PodMetadataMutate_Validate (ptm_PodMetadata p) (Child prefix ["podMetadata"])
  ++ PodVolumesMutate_Validate (ptm_Volumes p) (Child prefix ["volumes"])
  ++ PodTemplateOptionsMutate_Validate (ptm_Options p) (Child prefix ["options"]).

Definition WorkspaceCreate_Validate (w : WorkspaceCreate) (prefix : string) : list field_error :=
  ValidateWorkspaceName (Child prefix ["name"]) (wcr_Name w)
  ++ ValidateWorkspaceKindName (Child prefix ["kind"]) (wcr_Kind w)
  ++ PodTemplateMutate_Validate (wcr_PodTemplate w) (Child prefix ["podTemplate"]).

Definition WorkspaceUpdate_Validate (w : WorkspaceUpdate) (prefix : string) : list field_error :=
  (if bool_decide (wup_Revision w = "")
   then [FieldRequired (Child prefix ["revision"]) "revision is required"] else [])
  ++ PodTemplateMutate_Validate (wup_PodTemplate w) (Child prefix ["podTemplate"]).
End validate.

(** ** From the resource *)

(** [ExtractPodMetadata]. *)
Definition ExtractPodMetadata (ws : Workspace) : PodMetadataMutate :=
  match wpt_PodMetadata (wsSpec_PodTemplate (ws_Spec ws)) with
  | Some m => mkPodMetadataMutate (wpm_Labels m) (wpm_Annotations m)
  | None => mkPodMetadataMutate ∅ ∅
  end.

Definition ws_Volumes (ws : Workspace) : WorkspacePodVolumes :=
  wpt_Volumes (wsSpec_PodTemplate (ws_Spec ws)).

Definition extractDataVolumes (ws : Workspace) : list VolumeMountModel :=
  (λ v, mkVolumeMountModel (pvm_PVCName v) (pvm_MountPath v) (default false (pvm_ReadOnly v)))
    <$> wpv_Data (ws_Volumes ws).

Definition extractSecretMounts (ws : Workspace) : list SecretMountModel :=
  (λ s, mkSecretMountModel (psm_SecretName s) (psm_MountPath s) (psm_DefaultMode s))
    <$> wpv_Secrets (ws_Volumes ws).

Definition buildPodTemplateMutate (ws : Workspace) : PodTemplateMutate :=
  mkPodTemplateMutate (ExtractPodMetadata ws)
    (mkPodVolumesMutate (wpv_Home (ws_Volumes ws)) (extractDataVolumes ws)
       (extractSecretMounts ws))
    (mkPodTemplateOptionsMutate (wpo_ImageConfig (ws_Options ws)) (wpo_PodConfig (ws_Options ws))).

Definition NewWorkspaceCreateModelFromWorkspace (ws : Workspace) : WorkspaceCreate :=
  mkWorkspaceCreate (ws_Name ws) (default "" (wsSpec_DisplayName (ws_Spec ws)))
    (wsSpec_Kind (ws_Spec ws)) (wsSpec_Paused (ws_Spec ws)) (buildPodTemplateMutate ws).

Definition NewWorkspaceUpdateModelFromWorkspace (ws : Workspace) : WorkspaceUpdate :=
  mkWorkspaceUpdate (CalculateRevision (ws_Meta ws))
    (default "" (wsSpec_DisplayName (ws_Spec ws)))
    (wsSpec_Paused (ws_Spec ws)) (buildPodTemplateMutate ws).

Definition NewWorkspaceActionPauseFromWorkspace (ws : Workspace) : WorkspaceActionPause :=
  mkActionPause (wsSpec_Paused (ws_Spec ws)).

(** ** To the resource *)

Definition displayNamePtr (displayName : string) : option string :=
  if bool_decide (displayName = "") then None else Some displayName.

Definition volumesPath : string := NewPath ["podTemplate"; "volumes"].

(** A loop that validates the name each mount refers to and converts the mount. *)
Fixpoint unpackMounts {A B} (validate : nat → A → repo (list field_error)) (convert : A → B)
    (i : nat) (l : list A) : repo (list field_error * list B) :=
  match l with
  | [] => ret ([], [])
  | a :: rest =>
    errs <=- validate i a ;;
    '(errs', mounts) <=- unpackMounts validate convert (S i) rest ;;
    ret (errs ++ errs', convert a :: mounts)
  end.

Definition dataVolumeOf (v : VolumeMountModel) : PodVolumeMount :=
  mkPodVolumeMount (vmm_PVCName v) (vmm_MountPath v) (Some (vmm_ReadOnly v)).

Definition secretMountOf (s : SecretMountModel) : PodSecretMount :=
  mkPodSecretMount (smm_SecretName s) (smm_MountPath s) (smm_DefaultMode s).

Definition unpackDataVolumes (data : list VolumeMountModel) (namespace : string)
    : repo (list field_error * list PodVolumeMount) :=
  unpackMounts (λ i v, ValidateKubernetesPVCIsMountable
    (Child (Index (Child volumesPath ["data"]) i) ["pvcName"]) namespace (vmm_PVCName v))
    dataVolumeOf 0 data.

Definition unpackSecretMounts (secrets : list SecretMountModel) (namespace : string)
    : repo (list field_error * list PodSecretMount) :=
  unpackMounts (λ i s, ValidateKubernetesSecretIsMountable
    (Child (Index (Child volumesPath ["secrets"]) i) ["secretName"]) namespace (smm_SecretName s))
    secretMountOf 0 secrets.

Definition validateAndUnpackVolumes (volumes : PodVolumesMutate) (namespace : string)
    : repo (option string * list PodVolumeMount * list PodSecretMount) :=
  homeErrs <=- match pvmu_Home volumes with
               | Some home =>
                   ValidateKubernetesPVCIsMountable (Child volumesPath ["home"]) namespace home
               | None => ret []
               end ;;
  '(dataErrs, dataVolumeMounts) <=- unpackDataVolumes (pvmu_Data volumes) namespace ;;
  '(secretErrs, secretMounts) <=- unpackSecretMounts (pvmu_Secrets volumes) namespace ;;
  match homeErrs ++ dataErrs ++ secretErrs with
  | [] => ret (pvmu_Home volumes, dataVolumeMounts, secretMounts)
  | errs => throw (InternalValidationError errs)
  end.

Definition buildWorkspacePodTemplate (podTemplate : PodTemplateMutate)
    (homeVolumeName : option string) (dataVolumeMounts : list PodVolumeMount)
    (secretMounts : list PodSecretMount) : WorkspacePodTemplate :=
  mkWorkspacePodTemplate
    (Some (mkWorkspacePodMetadata (pmm_Labels (ptm_PodMetadata podTemplate))
             (pmm_Annotations (ptm_PodMetadata podTemplate))))
    (mkWorkspacePodVolumes homeVolumeName dataVolumeMounts secretMounts)
    (mkWorkspacePodOptions (ptom_ImageConfigId (ptm_Options podTemplate))
       (ptom_PodConfigId (ptm_Options podTemplate))).

(** The zero [WorkspaceStatus]. *)
Definition emptyStatus : WorkspaceStatus :=
  mkWorkspaceStatus emptyActivity 0 0 false
    (mkPodOptionsStatus (mkPodOptionInfo "" []) (mkPodOptionInfo "" []))
    (mkWorkspacePodStatus "" "" "" [] []) WorkspaceStateUnset "".

(** An [ObjectMeta] literal with a name and a namespace. *)
Definition nameMeta (name ns : string) : ObjectMeta :=
  mkObjectMeta name "" ns "" "" 0 0 None None None [] [].

Definition NewWorkspaceFromWorkspaceCreateModel (workspaceCreate : WorkspaceCreate)
    (namespace : string) : repo Workspace :=
  '(home, dataVolumeMounts, secretMounts) <=-
    validateAndUnpackVolumes (ptm_Volumes (wcr_PodTemplate workspaceCreate)) namespace ;;
  ret (mkWorkspace (nameMeta (wcr_Name workspaceCreate) namespace)
    (mkWorkspaceSpec (wcr_Paused workspaceCreate)
       (displayNamePtr (wcr_DisplayName workspaceCreate)) (wcr_Kind workspaceCreate)
       (buildWorkspacePodTemplate (wcr_PodTemplate workspaceCreate) home dataVolumeMounts
          secretMounts))
    emptyStatus).

Definition ApplyWorkspaceUpdateModelToWorkspace (workspaceUpdate : WorkspaceUpdate)
    (workspace : Workspace) : repo Workspace :=
  '(_, dataVolumeMounts, secretMounts) <=-
    validateAndUnpackVolumes (ptm_Volumes (wup_PodTemplate workspaceUpdate))
      (ws_Namespace workspace) ;;
  ret (mkWorkspace (ws_Meta workspace)
    (mkWorkspaceSpec (wup_Paused workspaceUpdate)
       (displayNamePtr (wup_DisplayName workspaceUpdate)) (wsSpec_Kind (ws_Spec workspace))
       (buildWorkspacePodTemplate (wup_PodTemplate workspaceUpdate)
          (pvmu_Home (ptm_Volumes (wup_PodTemplate workspaceUpdate))) dataVolumeMounts
          secretMounts))
    (ws_Status workspace)).

(** ** What conversion promises *)

(** An object of kind [k] that was read, and that exists with [label=true] ([UID] is
    empty only for an object the API server never stored). *)
Definition checked (k : kind) (label namespace name : string) (h : list event) : Prop :=
  ∃ o, Ev (Get k namespace name) (inl o) ∈ h ∧
    (meta_UID (obj_Meta k o) = "" ∨ gm_index (meta_Labels (obj_Meta k o)) label = "true").

(** Every volume of the model was checked mountable. *)
Record volumes_checked (v : PodVolumesMutate) (namespace : string) (h : list event) : Prop := {
  home_checked n : pvmu_Home v = Some n → checked KPersistentVolumeClaim LabelCanMount namespace n h;
  data_checked d : d ∈ pvmu_Data v →
    checked KPersistentVolumeClaim LabelCanMount namespace (vmm_PVCName d) h;
  secrets_checked s : s ∈ pvmu_Secrets v →
    checked KSecret LabelCanMount namespace (smm_SecretName s) h;
}.

Lemma checked_mono k label ns n h h' : h `prefix_of` h' → checked k label ns n h → checked k label ns n h'.
Proof.
  intros [h'' ->] (o & Ho & Hl). exists o. split; [|done]. apply elem_of_app. by left.
Qed.

(** A labelled object was read, or there is an error. *)
Lemma validateLabelled_sat k noun label where_ ns path value h :
  sat (validateLabelled k noun label where_ ns path value) h
    (λ h' r, h `prefix_of` h' ∧ (r = inl [] → checked k label ns value h')).
Proof.
  unfold validateLabelled. intros [o|e]; simpl.
  - destruct (bool_decide (meta_UID (obj_Meta k o) = "")) eqn:Hu;
      destruct (bool_decide (gm_index _ label = "true")) eqn:Hl; simpl;
      (split; [by eexists|]); intros Heq; try done; exists o;
      (split; [apply elem_of_app; right; by left|]); go_bool; auto.
  - destruct (IsNotFound e); (split; [by eexists|done]).
Qed.

Lemma unpackMounts_sat {A B} (validate : nat → A → repo (list field_error)) (convert : A → B)
    (P : A → list event → Prop) i l h :
  (∀ a h h', h `prefix_of` h' → P a h → P a h') →
  (∀ i a h, sat (validate i a) h (λ h' r, h `prefix_of` h' ∧ (r = inl [] → P a h'))) →
  sat (unpackMounts validate convert i l) h (λ h' r, h `prefix_of` h' ∧
    ∀ errs mounts, r = inl (errs, mounts) →
      mounts = convert <$> l ∧ (errs = [] → ∀ a, a ∈ l → P a h')).
Proof.
  intros Hmono Hvalid. revert i h. induction l as [|v rest IH]; intros i h.
  { split; [done|]. intros errs mounts [= <- <-]. split; [done|].
    intros _ d Hd. by apply not_elem_of_nil in Hd. }
  cbn [unpackMounts]. apply sat_rbind.
  eapply sat_mono; [apply Hvalid|]. intros h1 [errs|e] [Hp Hc]; [|by split].
  apply sat_rbind. eapply sat_mono; [apply IH|]. intros h2 [[errs' mounts]|e] [Hp' Hr]; simpl;
    (split; [by etrans|]); [|done].
  intros ?? [= <- <-]. destruct (Hr _ _ eq_refl) as [-> Hall]. split; [done|].
  intros [-> ->]%app_nil d [->|Hd]%elem_of_cons; [|by apply Hall].
  eapply Hmono; [done|by apply Hc].
Qed.

(** Volumes that convert were all checked, and convert to themselves. *)
Lemma unpack_sat v ns h :
  sat (validateAndUnpackVolumes v ns) h (λ h' r, h `prefix_of` h' ∧
    ∀ x, r = inl x →
      x = (pvmu_Home v, dataVolumeOf <$> pvmu_Data v, secretMountOf <$> pvmu_Secrets v) ∧
      volumes_checked v ns h').
Proof.
  unfold validateAndUnpackVolumes. apply sat_rbind.
  apply (sat_mono _ _ (λ h' r, h `prefix_of` h' ∧
    (r = inl [] → ∀ n, pvmu_Home v = Some n →
      checked KPersistentVolumeClaim LabelCanMount ns n h'))).
  { destruct (pvmu_Home v) as [home|]; [|by split].
    eapply sat_mono; [apply validateLabelled_sat|]. intros h' r [Hp Hc].
    split; [done|]. intros Hr n [= <-]. by apply Hc. }
  intros h1 [homeErrs|e] [Hp Hc]; [|by split].
  apply sat_rbind. eapply sat_mono; [apply unpackMounts_sat;
    [intros ???; apply checked_mono|intros; apply validateLabelled_sat]|].
  intros h2 [[dataErrs dmounts]|e] [Hp2 Hd]; [|by split; [etrans|]].
  apply sat_rbind. eapply sat_mono; [apply unpackMounts_sat;
    [intros ???; apply checked_mono|intros; apply validateLabelled_sat]|].
  intros h3 [[secretErrs smounts]|e] [Hp3 Hs]; [|by split; [etrans; [|etrans]|]].
  assert (h `prefix_of` h3) by (etrans; [|etrans]; done).
  destruct (Hd _ _ eq_refl) as [-> Hd'], (Hs _ _ eq_refl) as [-> Hs'].
  destruct (homeErrs ++ dataErrs ++ secretErrs) eqn:He; simpl; (split; [done|]); [|done].
  intros x [= <-]. apply app_nil in He as [-> [-> ->]%app_nil].
  split; [done|]. split.
  - intros n Hn. eapply checked_mono; [|by apply Hc]. by etrans.
  - intros d Hin. eapply checked_mono; [|by apply Hd']. done.
  - intros s Hin. by apply Hs'.
Qed.

(** ** Round trips *)

Lemma fmap_id_ext {A} (f : A → A) (l : list A) : (∀ x, f x = x) → f <$> l = l.
Proof.
  intros Hf. induction l as [|x l IH]; [done|]. by rewrite fmap_cons, Hf, IH.
Qed.

(** A resource in the form conversion gives it: explicit [readOnly] and metadata, no
    empty display name. *)
Definition normalizeSpec (s : WorkspaceSpec) : WorkspaceSpec :=
  let t := wsSpec_PodTemplate s in
  mkWorkspaceSpec (wsSpec_Paused s) (wsSpec_DisplayName s ≫= displayNamePtr) (wsSpec_Kind s)
    (mkWorkspacePodTemplate
       (Some (default (mkWorkspacePodMetadata ∅ ∅) (wpt_PodMetadata t)))
       (mkWorkspacePodVolumes (wpv_Home (wpt_Volumes t))
          ((λ v, mkPodVolumeMount (pvm_PVCName v) (pvm_MountPath v)
                   (Some (default false (pvm_ReadOnly v)))) <$> wpv_Data (wpt_Volumes t))
          (wpv_Secrets (wpt_Volumes t)))
       (wpt_Options t)).

Definition ws_setSpec (w : Workspace) (s : WorkspaceSpec) : Workspace :=
  mkWorkspace (ws_Meta w) s (ws_Status w).

Lemma displayNamePtr_default s : default "" (displayNamePtr s) = s.
Proof. unfold displayNamePtr. by case_bool_decide; subst. Qed.

Lemma displayNamePtr_of d : displayNamePtr (default "" d) = d ≫= displayNamePtr.
Proof. by destruct d. Qed.

(** The template a resource gets is the one its model is built from. *)
Lemma buildPodTemplateMutate_build m sp st (t : PodTemplateMutate) :
  wsSpec_PodTemplate sp = buildWorkspacePodTemplate t (pvmu_Home (ptm_Volumes t))
    (dataVolumeOf <$> pvmu_Data (ptm_Volumes t)) (secretMountOf <$> pvmu_Secrets (ptm_Volumes t)) →
  buildPodTemplateMutate (mkWorkspace m sp st) = t.
Proof.
  intros Ht. unfold buildPodTemplateMutate, ExtractPodMetadata, extractDataVolumes,
    extractSecretMounts, ws_Volumes, ws_Options. simpl. rewrite Ht. simpl.
  rewrite <-!list_fmap_compose.
  rewrite !fmap_id_ext by (by intros []). by destruct t as [[] [] []].
Qed.

(** What creating from a model gives. *)
Lemma createModel_sat c ns h :
  sat (NewWorkspaceFromWorkspaceCreateModel c ns) h (λ h' r, h `prefix_of` h' ∧ ∀ ws, r = inl ws →
    NewWorkspaceCreateModelFromWorkspace ws = c ∧ ws_Namespace ws = ns ∧
    volumes_checked (ptm_Volumes (wcr_PodTemplate c)) ns h').
Proof.
  unfold NewWorkspaceFromWorkspaceCreateModel. apply sat_rbind.
  eapply sat_mono; [apply unpack_sat|]. intros h' [[[home ds] ss]|e] [Hp Hx]; simpl;
    (split; [done|]); [|done].
  destruct (Hx _ eq_refl) as [[= -> -> ->] Hc]. intros ? [= <-].
  split_and!; [|done|done].
  unfold NewWorkspaceCreateModelFromWorkspace.
  rewrite (buildPodTemplateMutate_build _ _ _ (wcr_PodTemplate c)) by done.
  simpl. rewrite displayNamePtr_default. by destruct c.
Qed.

(** The Workspace that applying an update gives. *)
Definition applied (u : WorkspaceUpdate) (w : Workspace) : Workspace :=
  let v := ptm_Volumes (wup_PodTemplate u) in
  ws_setSpec w (mkWorkspaceSpec (wup_Paused u) (displayNamePtr (wup_DisplayName u))
    (wsSpec_Kind (ws_Spec w))
    (buildWorkspacePodTemplate (wup_PodTemplate u) (pvmu_Home v)
       (dataVolumeOf <$> pvmu_Data v) (secretMountOf <$> pvmu_Secrets v))).

Lemma apply_sat u w h :
  sat (ApplyWorkspaceUpdateModelToWorkspace u w) h (λ h' r, h `prefix_of` h' ∧ ∀ w', r = inl w' →
    w' = applied u w ∧ volumes_checked (ptm_Volumes (wup_PodTemplate u)) (ws_Namespace w) h').
Proof.
  unfold ApplyWorkspaceUpdateModelToWorkspace. apply sat_rbind.
  eapply sat_mono; [apply unpack_sat|]. intros h' [[[home ds] ss]|e] [Hp Hx]; simpl;
    (split; [done|]); [|done].
  destruct (Hx _ eq_refl) as [[= -> -> ->] Hc]. by intros ? [= <-].
Qed.

Lemma applied_model u w m :
  CalculateRevision m = CalculateRevision (ws_Meta w) →
  NewWorkspaceUpdateModelFromWorkspace (ws_setMeta (applied u w) m) =
    mkWorkspaceUpdate (CalculateRevision (ws_Meta w)) (wup_DisplayName u) (wup_Paused u)
      (wup_PodTemplate u).
Proof.
  intros Hm. unfold NewWorkspaceUpdateModelFromWorkspace, ws_setMeta, applied, ws_setSpec.
  rewrite (buildPodTemplateMutate_build _ _ _ (wup_PodTemplate u)) by done.
  simpl. by rewrite Hm, displayNamePtr_default.
Qed.

(** Applying a Workspace's own model normalizes its spec. *)
Lemma applied_own w :
  applied (NewWorkspaceUpdateModelFromWorkspace w) w = ws_setSpec w (normalizeSpec (ws_Spec w)).
Proof.
  unfold applied, ws_setSpec, normalizeSpec, buildWorkspacePodTemplate. simpl.
  rewrite displayNamePtr_of. unfold extractDataVolumes, extractSecretMounts, ws_Volumes.
  rewrite <-!list_fmap_compose. do 2 f_equal. unfold ExtractPodMetadata, ws_Options.
  destruct w as [m [p d k [md [home ds ss] [i pc]]] st]. simpl.
  rewrite (fmap_id_ext _ ss) by (by intros []). by destruct md as [[]|].
Qed.

(** Creating: the Workspace built from a model is in the namespace, its volumes were all
    read and mountable, and the model read back from it is the model sent. *)
Theorem WorkspaceCreate_roundtrip c ns h ws :
  runs (NewWorkspaceFromWorkspaceCreateModel c ns) h (inl ws) →
  NewWorkspaceCreateModelFromWorkspace ws = c ∧ ws_Namespace ws = ns ∧
  volumes_checked (ptm_Volumes (wcr_PodTemplate c)) ns h.
Proof.
  intros Hr. destruct (proj1 (sat_runs _ _ _) (createModel_sat c ns []) _ _ Hr) as [_ Hs].
  by apply Hs.
Qed.

(** C30: Updating: kind, metadata and status stay, the volumes were all read and mountable in
    the Workspace's namespace, and the model read back is the model sent, with the object's
    revision; in particular updating a Workspace with its own model only normalizes its
    spec. *)
Theorem WorkspaceUpdate_roundtrip u w h w' :
  runs (ApplyWorkspaceUpdateModelToWorkspace u w) h (inl w') →
  NewWorkspaceUpdateModelFromWorkspace w' =
    mkWorkspaceUpdate (CalculateRevision (ws_Meta w)) (wup_DisplayName u) (wup_Paused u)
      (wup_PodTemplate u) ∧
  ws_Meta w' = ws_Meta w ∧ ws_Status w' = ws_Status w ∧
  wsSpec_Kind (ws_Spec w') = wsSpec_Kind (ws_Spec w) ∧
  volumes_checked (ptm_Volumes (wup_PodTemplate u)) (ws_Namespace w) h ∧
  (u = NewWorkspaceUpdateModelFromWorkspace w → w' = ws_setSpec w (normalizeSpec (ws_Spec w))).
Proof.
  intros Hr. destruct (proj1 (sat_runs _ _ _) (apply_sat u w []) _ _ Hr) as [_ Hs].
  destruct (Hs _ eq_refl) as [-> Hc]. split_and!; try done.
  - exact (applied_model u w (ws_Meta w) eq_refl).
  - intros ->. apply applied_own.
Qed.

(** ** Examples *)

Definition exSpecWorkspace : Workspace :=
  exWorkspace "test" false "img" "pod" (exStatus WorkspaceStateRunning emptyActivity 0).

(** Everything is mountable. *)
Definition exMountable : handler () := exBackend exSpecWorkspace {[ LabelCanMount := "true" ]}.

Lemma WorkspaceCreate_roundtrip_witness :
  let c := NewWorkspaceCreateModelFromWorkspace exSpecWorkspace in
  ∃ h ws, runs (NewWorkspaceFromWorkspaceCreateModel c "ns") h (inl ws) ∧
    NewWorkspaceCreateModelFromWorkspace ws = c ∧ length h = 3.
Proof.
  intros c. pose proof (interp_runs exMountable (NewWorkspaceFromWorkspaceCreateModel c "ns") ()) as Hr.
  assert (∃ ws, (interp exMountable (NewWorkspaceFromWorkspaceCreateModel c "ns") ()).1 = inl ws)
    as [ws Hws] by (vm_compute; eexists; reflexivity).
  rewrite Hws in Hr. eexists _, ws. split; [exact Hr|].
  destruct (WorkspaceCreate_roundtrip c "ns" _ ws Hr) as (Hc & _ & _).
  split; [exact Hc|vm_compute; reflexivity].
Defined.

Lemma WorkspaceUpdate_roundtrip_witness :
  let u := NewWorkspaceUpdateModelFromWorkspace exSpecWorkspace in
  ∃ h w', runs (ApplyWorkspaceUpdateModelToWorkspace u exSpecWorkspace) h (inl w') ∧
    w' = ws_setSpec exSpecWorkspace (normalizeSpec (ws_Spec exSpecWorkspace)).
Proof.
  intros u. set (p := ApplyWorkspaceUpdateModelToWorkspace u exSpecWorkspace).
  pose proof (interp_runs exMountable p ()) as Hr.
  assert (∃ w', (interp exMountable p ()).1 = inl w') as [w' Hw']
    by (vm_compute; eexists; reflexivity).
  rewrite Hw' in Hr. eexists _, w'. split; [exact Hr|].
  destruct (WorkspaceUpdate_roundtrip u exSpecWorkspace _ w' Hr) as (_ & _ & _ & _ & _ & Hu).
  by apply Hu.
Defined.

(** An unlabelled claim is an error that names the field. *)
Example unmountable_home :
  (interp (exBackend exSpecWorkspace ∅)
     (NewWorkspaceFromWorkspaceCreateModel
        (mkWorkspaceCreate "test" "" "jupyterlab" false
           (mkPodTemplateMutate (mkPodMetadataMutate ∅ ∅)
              (mkPodVolumesMutate (Some "home") [] []) (mkPodTemplateOptionsMutate "img" "pod")))
        "ns") ()).1
  = inr (InternalValidationError
      [FieldForbidden "podTemplate.volumes.home"
         ("PersistentVolumeClaim " +:+ quote "home" +:+ " in namespace " +:+ quote "ns"
          +:+ " is not labeled with notebooks.kubeflow.org/can-mount=true")]).
Proof. vm_compute. reflexivity. Qed.
