(* ===== verification/WorkspaceRepo.v ===== *)
(** * The Workspace repository ([backend/internal/repositories/workspaces])

    Reading, creating, updating, deleting and pausing Workspaces on behalf of the API.
    [UpdateWorkspace] compares the revision the client sends with that of the stored
    object; [HandlePauseAction] sends a JSON patch that tests the state it expects.
    The theorems hold of every history of answers of the API server. *)

From Stdlib Require Import ZArith.
From stdpp Require Import base gmap strings list.
From S2P Require Import Prelude K8sTypes ApiTypes Sha256 Client Examples Field Owned.
From S2P Require Import Validation Revision WorkspaceModel.

(** ** Operations *)

Definition getWorkspace (namespace workspaceName : string) : repo Workspace :=
  attempt (call (Get KWorkspace namespace workspaceName)) (notFoundAs ErrWorkspaceNotFound).

Definition GetWorkspace (namespace workspaceName : string) : repo WorkspaceUpdate :=
  workspace <=- getWorkspace namespace workspaceName ;;
  ret (NewWorkspaceUpdateModelFromWorkspace workspace).

Section repository.
Context `{TimeLib}.

Definition CreateWorkspace (actor : option string) (workspaceCreate : WorkspaceCreate)
    (namespace : string) : repo WorkspaceCreate :=
  workspace <=- NewWorkspaceFromWorkspaceCreateModel workspaceCreate namespace ;;
  let workspace := ws_setMeta workspace (UpdateObjectMetaForCreate (ws_Meta workspace) actor) in
  created <=- attempt (call (Create KWorkspace workspace))
    (λ err, if IsAlreadyExists err then ErrWorkspaceAlreadyExists else Cause err) ;;
  ret (NewWorkspaceCreateModelFromWorkspace created).

Definition UpdateWorkspace (actor : option string) (workspaceUpdate : WorkspaceUpdate)
    (namespace workspaceName : string) : repo WorkspaceUpdate :=
  now <-- call Now ;;
  workspace <=- getWorkspace namespace workspaceName ;;
  let clusterRevision := CalculateRevision (ws_Meta workspace) in
  let callerRevision := wup_Revision workspaceUpdate in
  if negb (bool_decide (clusterRevision = callerRevision))
  then throw ErrWorkspaceRevisionConflict
  else
    workspace <=- ApplyWorkspaceUpdateModelToWorkspace workspaceUpdate workspace ;;
    let workspace :=
      ws_setMeta workspace (UpdateObjectMetaForUpdate (ws_Meta workspace) actor now) in
    updated <=- attempt (call (Update KWorkspace workspace)) (notFoundAs ErrWorkspaceNotFound) ;;
    ret (NewWorkspaceUpdateModelFromWorkspace updated).
End repository.

Definition DeleteWorkspace (namespace workspaceName : string) : repo () :=
  attempt (call (Delete KWorkspace namespace workspaceName)) (notFoundAs ErrWorkspaceNotFound).

Definition pausePatch (targetPauseState : bool) : list WorkspacePatchOperation :=
  [mkPatchOperation "test" "/spec/paused" (PatchBool (negb targetPauseState))]
  ++ (if negb targetPauseState
      then [mkPatchOperation "test" "/status/state" (PatchState WorkspaceStatePaused)] else [])
  ++ [mkPatchOperation "replace" "/spec/paused" (PatchBool targetPauseState)].

Definition HandlePauseAction (namespace workspaceName : string)
    (workspaceActionPause : WorkspaceActionPause) : repo WorkspaceActionPause :=
  workspace <=- attempt
    (call (JSONPatch KWorkspace namespace workspaceName (pausePatch (wap_Paused workspaceActionPause))))
    (λ err, if IsNotFound err then ErrWorkspaceNotFound
            else if IsInvalid err then ErrWorkspaceInvalidState
            else Cause (ErrorWrap ("failed to patch workspace: " +:+ Error err) err)) ;;
  ret (NewWorkspaceActionPauseFromWorkspace workspace).

(** ** Reading before writing *)

(** Checking volumes only reads claims and Secrets. *)
Lemma unpack_calls (P : ∀ X, req X → Prop) v ns :
  (∀ name, P _ (Get KPersistentVolumeClaim ns name)) → (∀ name, P _ (Get KSecret ns name)) →
  calls_ok P (validateAndUnpackVolumes v ns).
Proof.
  intros Hp Hs.
  assert (∀ k noun label w p n, P _ (Get k ns n) →
    calls_ok P (validateLabelled k noun label w ns p n)) as Hv.
  { intros. split; [done|]. intros [o|e]; simpl; unfold throw, ret; by case_match. }
  assert (∀ A B (val : nat → A → repo (list field_error)) (conv : A → B) i l,
    (∀ i a, calls_ok P (val i a)) → calls_ok P (unpackMounts val conv i l)) as Hm.
  { intros A B val conv i l Hval. revert i.
    induction l as [|a l IH]; intros i; [done|]. cbn [unpackMounts].
    apply calls_ok_rbind; [done|]. intros errs.
    apply calls_ok_rbind; [done|]. by intros [??]. }
  unfold validateAndUnpackVolumes.
  apply calls_ok_rbind; [destruct (pvmu_Home v); [by apply Hv|done]|].
  intros e1. apply calls_ok_rbind; [apply Hm; intros; by apply Hv|]. intros [e2 d].
  apply calls_ok_rbind; [apply Hm; intros; by apply Hv|]. intros [e3 s].
  unfold throw, ret. by case_match.
Qed.

Lemma unpack_reads v ns :
  calls_ok (λ _ q, is_write q = false) (validateAndUnpackVolumes v ns).
Proof. by apply unpack_calls. Qed.

Lemma create_reads c ns :
  calls_ok (λ _ q, is_write q = false) (NewWorkspaceFromWorkspaceCreateModel c ns).
Proof. apply calls_ok_rbind; [apply unpack_reads|]. intros [[home ds] ss]. exact I. Qed.

Lemma apply_reads u w :
  calls_ok (λ _ q, is_write q = false) (ApplyWorkspaceUpdateModelToWorkspace u w).
Proof. apply calls_ok_rbind; [apply unpack_reads|]. intros [[home ds] ss]. exact I. Qed.

Section writes.
Context `{TimeLib}.

(** ** Creating *)

(** Either nothing was written and creation failed, or the last request creates a
    Workspace whose model is the client's and whose volumes were checked. *)
Definition create_outcome (actor : option string) (c : WorkspaceCreate) (ns : string)
    (h : list event) (r : WorkspaceCreate + repo_error) : Prop :=
  (reads_only h ∧ ∃ e, r = inr e) ∨
  ∃ h0 ws x, h = h0 ++ [Ev (Create KWorkspace ws) x] ∧ reads_only h0 ∧
    NewWorkspaceCreateModelFromWorkspace ws = c ∧ ws_Namespace ws = ns ∧
    volumes_checked (ptm_Volumes (wcr_PodTemplate c)) ns h0 ∧
    audit_CreatedBy (NewAuditFromObjectMeta (ws_Meta ws)) = actor ∧
    r = match x with
        | inl created => inl (NewWorkspaceCreateModelFromWorkspace created)
        | inr e => inr (if IsAlreadyExists e then ErrWorkspaceAlreadyExists else Cause e)
        end.

(** C25: [CreateWorkspace] writes at most once, last, and only a Workspace that carries the
    client's model and whose volumes were all read and mountable in the namespace; the
    client gets the stored object's model, or the translated error. *)
Theorem CreateWorkspace_outcome actor c ns h r :
  runs (CreateWorkspace actor c ns) h r → create_outcome actor c ns h r.
Proof.
  revert h r. apply (sat_runs _ []). apply sat_rbind.
  eapply sat_mono; [apply sat_reads; [apply create_reads|apply createModel_sat|by constructor]|].
  intros h [ws|e] (Hro & _ & Hs); [|by left; eauto].
  destruct (Hs _ eq_refl) as (Hc & Hns & Hv). apply sat_rbind.
  assert (NewWorkspaceCreateModelFromWorkspace
    (ws_setMeta ws (UpdateObjectMetaForCreate (ws_Meta ws) actor)) = c) as Hc' by done.
  apply sat_attempt; [intros created|intros e]; right; eexists h, _, _;
    (split_and!; [done..|by apply (audit_of_create (ws_Meta ws) actor)|done]).
Qed.

(** ** Updating *)

(** What the write of an update satisfies: the client's model on a Workspace read at the
    client's revision. *)
Definition update_guarded (u : WorkspaceUpdate) (namespace name : string) (h : list event)
    (w' : Workspace) : Prop :=
  ∃ w, Ev (Get KWorkspace namespace name) (inl w) ∈ h ∧
    CalculateRevision (ws_Meta w) = wup_Revision u ∧
    meta_ResourceVersion (ws_Meta w') = meta_ResourceVersion (ws_Meta w) ∧
    ws_Status w' = ws_Status w ∧ wsSpec_Kind (ws_Spec w') = wsSpec_Kind (ws_Spec w) ∧
    NewWorkspaceUpdateModelFromWorkspace w' = u ∧
    volumes_checked (ptm_Volumes (wup_PodTemplate u)) (ws_Namespace w) h.

Definition update_outcome (u : WorkspaceUpdate) (namespace name : string) (h : list event)
    (r : WorkspaceUpdate + repo_error) : Prop :=
  (reads_only h ∧ ∃ e, r = inr e) ∨
  ∃ h0 w' x, h = h0 ++ [Ev (Update KWorkspace w') x] ∧ reads_only h0 ∧
    update_guarded u namespace name h0 w' ∧
    r = match x with
        | inl updated => inl (NewWorkspaceUpdateModelFromWorkspace updated)
        | inr e => inr (notFoundAs ErrWorkspaceNotFound e)
        end.

Lemma UpdateWorkspace_outcome actor u ns name h r :
  runs (UpdateWorkspace actor u ns name) h r → update_outcome u ns name h r.
Proof.
  revert h r. apply (sat_runs _ []). unfold UpdateWorkspace. apply sat_bind, sat_call.
  intros now. assert (reads_only ([] ++ [Ev Now now])) as H0 by (by constructor).
  apply sat_rbind, sat_attempt; [intros w|intros e].
  2: { left. split; [by apply reads_only_snoc|]. by eexists. }
  pose proof (reads_only_snoc _ (Get KWorkspace ns name) (inl w) H0 eq_refl) as H1.
  case_bool_decide as Hrev; cbn [negb]; [|by left; eauto].
  apply sat_rbind. eapply sat_mono; [apply sat_reads; [apply apply_reads|apply apply_sat|done]|].
  intros h [w'|e] (Hro & Hp & Hs); [|by left; eauto].
  destruct (Hs _ eq_refl) as [-> Hc]. apply sat_rbind.
  assert (update_guarded u ns name h
    (ws_setMeta (applied u w) (UpdateObjectMetaForUpdate (ws_Meta (applied u w)) actor now))) as Hg.
  { exists w. split_and!; try done.
    - eapply elem_of_prefix; [|done]. set_solver.
    - rewrite applied_model by done. rewrite Hrev. by destruct u. }
  apply sat_attempt; [intros updated|intros e]; right; eexists h, _, _;
    by split_and!.
Qed.

(** C24: An update is guarded by optimistic concurrency: whatever the API server answers,
    [UpdateWorkspace] writes at most once, last, and only a Workspace that this call read
    with the revision the client sent, at the resource version read, so that the API server
    rejects it if the object has changed since; status and kind are untouched, its model is
    the client's, and the client's volumes were all read and mountable.  A client with
    another revision changes nothing. *)
Theorem UpdateWorkspace_guarded actor u ns name h r :
  runs (UpdateWorkspace actor u ns name) h r → update_outcome u ns name h r.
Proof. apply UpdateWorkspace_outcome. Qed.
End writes.

(** ** Pausing *)

(** The reading of a JSON patch (RFC 6902) on a Workspace, for the two paths the code
    uses: a failing test or an unsupported operation rejects the whole patch. *)
Definition pointer (w : Workspace) (path : string) : option patch_value :=
  if bool_decide (path = "/spec/paused") then Some (PatchBool (wsSpec_Paused (ws_Spec w)))
  else if bool_decide (path = "/status/state") then Some (PatchState (st_State (ws_Status w)))
  else None.

#[global] Instance patch_value_eq_dec : EqDecision patch_value.
Proof. solve_decision. Defined.

Definition applyOperation (w : Workspace) (op : WorkspacePatchOperation) : option Workspace :=
  if bool_decide (patch_Op op = "test") then
    if bool_decide (pointer w (patch_Path op) = Some (patch_Value op)) then Some w else None
  else if bool_decide (patch_Op op = "replace") && bool_decide (patch_Path op = "/spec/paused")
  then match patch_Value op with PatchBool b => Some (ws_setPaused w b) | _ => None end
  else None.

Fixpoint applyPatch (w : Workspace) (ops : list WorkspacePatchOperation) : option Workspace :=
  match ops with
  | [] => Some w
  | op :: rest => w' ← applyOperation w op; applyPatch w' rest
  end.

(** The patch applies exactly when the Workspace is not yet in the target state, and, to
    start it, when its state is Paused; and then it only sets [spec.paused]. *)
Lemma pausePatch_applies w target w' :
  applyPatch w (pausePatch target) = Some w' ↔
  wsSpec_Paused (ws_Spec w) = negb target ∧
  (target = false → st_State (ws_Status w) = WorkspaceStatePaused) ∧
  w' = ws_setPaused w target.
Proof.
  unfold pausePatch. destruct target; cbn [negb app applyPatch];
    unfold applyOperation, pointer; cbn [patch_Op patch_Path patch_Value mbind option_bind];
    repeat (case_bool_decide; simplify_eq/=); split; intros Hw;
    repeat match goal with
    | H : _ ∧ _ |- _ => destruct H
    | H : false = false → _ |- _ => specialize (H eq_refl)
    end; simplify_eq; try congruence; by split_and!.
Qed.

(** A pause or start action is one patch request, whatever the answer: it applies exactly
    to a Workspace that is not in the target state yet (and, for a start, whose state is
    Paused), where it sets [spec.paused] and nothing else; a rejected patch is reported as
    an invalid state, a missing Workspace as not found. *)
Theorem HandlePauseAction_guarded ns name action h r :
  runs (HandlePauseAction ns name action) h r →
  let target := wap_Paused action in
  ∃ x, h = [Ev (JSONPatch KWorkspace ns name (pausePatch target)) x] ∧
    (∀ w w', applyPatch w (pausePatch target) = Some w' ↔
      wsSpec_Paused (ws_Spec w) = negb target ∧
      (target = false → st_State (ws_Status w) = WorkspaceStatePaused) ∧
      w' = ws_setPaused w target) ∧
    r = match x with
        | inl w => inl (NewWorkspaceActionPauseFromWorkspace w)
        | inr e => inr (if IsNotFound e then ErrWorkspaceNotFound
                        else if IsInvalid e then ErrWorkspaceInvalidState
                        else Cause (ErrorWrap ("failed to patch workspace: " +:+ Error e) e))
        end.
Proof.
  intros Hr target. unfold HandlePauseAction in Hr. destruct Hr as (x & h' & -> & Hr).
  exists x. destruct x as [w|e]; destruct Hr as [-> <-]; split_and!; try done;
    intros w1 w2; apply pausePatch_applies.
Qed.

(** ** Examples *)

Lemma CreateWorkspace_outcome_witness :
  let c := NewWorkspaceCreateModelFromWorkspace exSpecWorkspace in
  ∃ h r, runs (CreateWorkspace (Some "alice") c "ns") h r ∧ length h = 4 ∧
    create_outcome (H := exampleTimeLib) (Some "alice") c "ns" h r.
Proof.
  intros c. set (p := CreateWorkspace (Some "alice") c "ns").
  pose proof (interp_runs exMountable p ()) as Hr. eexists _, _. split_and!; [exact Hr| |].
  - vm_compute. reflexivity.
  - exact (CreateWorkspace_outcome (H := exampleTimeLib) (Some "alice") c "ns" _ _ Hr).
Defined.

(** The current revision is accepted, another one is not. *)
Definition exUpdate (revision : RevisionString) : WorkspaceUpdate :=
  let u := NewWorkspaceUpdateModelFromWorkspace exSpecWorkspace in
  mkWorkspaceUpdate revision "renamed" true (wup_PodTemplate u).

Lemma UpdateWorkspace_guarded_witness :
  let u := exUpdate (CalculateRevision (ws_Meta exSpecWorkspace)) in
  ∃ h r, runs (UpdateWorkspace (H := exampleTimeLib) (Some "alice") u "ns" "test") h r ∧
    length h = 6 ∧ update_outcome u "ns" "test" h r.
Proof.
  intros u. set (p := UpdateWorkspace (H := exampleTimeLib) (Some "alice") u "ns" "test").
  pose proof (interp_runs exMountable p ()) as Hr. eexists _, _. split_and!; [exact Hr| |].
  - vm_compute. reflexivity.
  - exact (UpdateWorkspace_guarded (H := exampleTimeLib) (Some "alice") u "ns" "test" _ _ Hr).
Defined.

Example stale_revision :
  (interp exMountable (UpdateWorkspace (H := exampleTimeLib) None (exUpdate "stale") "ns" "test") ()).1
  = inr ErrWorkspaceRevisionConflict.
Proof. vm_compute. reflexivity. Qed.

Lemma HandlePauseAction_guarded_witness :
  let p := HandlePauseAction "ns" "test" (mkActionPause true) in
  ∃ h r, runs p h r ∧ ∃ x, h = [Ev (JSONPatch KWorkspace "ns" "test" (pausePatch true)) x].
Proof.
  intros p. pose proof (interp_runs exMountable p ()) as Hr. eexists _, _. split; [exact Hr|].
  destruct (HandlePauseAction_guarded "ns" "test" (mkActionPause true) _ _ Hr) as (x & Hx & _).
  exists x. exact Hx.
Defined.
