(* ===== verification/Paths.v ===== *)
(** * Paths and parameters of the REST API

    The constants of [backend/api/constants] ([paths.go], [query_params.go]), which both the
    routes and the URLs in the models are built from. *)

From Stdlib Require Import Ascii.
From stdpp Require Import base strings.
From S2P Require Import Prelude.

Definition PathPrefix : string := "/api/v1".
Definition NamespacePathParam : string := "namespace".
Definition ResourceNamePathParam : string := "name".
Definition HealthCheckPath : string := PathPrefix +:+ "/healthcheck".
Definition UserPath : string := PathPrefix +:+ "/user".
Definition AllWorkspacesPath : string := PathPrefix +:+ "/workspaces".
Definition WorkspacesByNamespacePath : string := AllWorkspacesPath +:+ "/:" +:+ NamespacePathParam.
Definition WorkspacesByNamePath : string :=
  AllWorkspacesPath +:+ "/:" +:+ NamespacePathParam +:+ "/:" +:+ ResourceNamePathParam.
Definition WorkspaceActionsPath : string := WorkspacesByNamePath +:+ "/actions".
Definition PauseWorkspacePath : string := WorkspaceActionsPath +:+ "/pause".
Definition WorkspacePodTemplateDetailsPath : string :=
  WorkspacesByNamePath +:+ "/podtemplate/details".
Definition WorkspacePodTemplatePodLogsBatchPath : string :=
  WorkspacesByNamePath +:+ "/podtemplate/logs/batch".
Definition WorkspacePodTemplateResourcesPath : string :=
  WorkspacesByNamePath +:+ "/podtemplate/resources".
Definition AllWorkspaceKindsPath : string := PathPrefix +:+ "/workspacekinds".
Definition WorkspaceKindsByNamePath : string :=
  AllWorkspaceKindsPath +:+ "/:" +:+ ResourceNamePathParam.
Definition PodTemplateOptionsListValuesPath : string :=
  WorkspaceKindsByNamePath +:+ "/podtemplate/options/listvalues".
Definition WorkspaceKindsAssetsPath : string := WorkspaceKindsByNamePath +:+ "/assets".
Definition WorkspaceKindIconPath : string := WorkspaceKindsAssetsPath +:+ "/icon".
Definition WorkspaceKindLogoPath : string := WorkspaceKindsAssetsPath +:+ "/logo".
Definition AllNamespacesPath : string := PathPrefix +:+ "/namespaces".
Definition SecretsByNamespacePath : string := PathPrefix +:+ "/secrets/:" +:+ NamespacePathParam.
Definition SecretsByNamePath : string := SecretsByNamespacePath +:+ "/:" +:+ ResourceNamePathParam.
Definition AllStorageClassesPath : string := PathPrefix +:+ "/storageclasses".
Definition PVCsByNamespacePath : string :=
  PathPrefix +:+ "/persistentvolumeclaims/:" +:+ NamespacePathParam.
Definition PVCsByNamePath : string := PVCsByNamespacePath +:+ "/:" +:+ ResourceNamePathParam.

Definition NamespaceQueryParam : string := "namespace".
Definition NamespaceFilterQueryParam : string := "namespaceFilter".
Definition ContainerQueryParam : string := "container".
Definition TailLinesQueryParam : string := "tailLines".
Definition PreviousQueryParam : string := "previous".
Definition SinceTimeQueryParam : string := "sinceTime".
