(* ===== verification/KindModel.v ===== *)
(** * API models of WorkspaceKinds ([backend/internal/models/workspacekinds],
      [models/common/assets])

    What the API lists about a WorkspaceKind, with the references under which its icon
    and logo are served, and the models of creating and updating one.  Listing evaluates
    the kind's own filter rules; the embedded options use an empty request, which cannot
    fail, so the code's [panic] is unreachable ([kind_model_total]). *)

From Stdlib Require Import ZArith Ascii.
From stdpp Require Import base gmap strings list.
From S2P Require Import Prelude K8sTypes ApiTypes Sha256 Client Options Examples Field Owned.
From S2P Require Import Paths.
From S2P Require Import FilterRules Validation Revision ListValues.

(** ** Strings and paths *)

(** [strings.TrimRight(s, "/")]. *)
Fixpoint dropSlashes (l : list ascii) : list ascii :=
  match l with
  | c :: rest => if bool_decide (c = "/"%char) then dropSlashes rest else l
  | [] => []
  end.
Definition TrimRightSlash (s : string) : string :=
  String.string_of_list_ascii (reverse (dropSlashes (reverse (chars s)))).

(** [strings.Replace(s, old, new, 1)], for a non-empty [old]. *)
Fixpoint ReplaceFirst (s old new : string) : string :=
  if String.prefix old s then new +:+ String.substring (slen old) (slen s - slen old) s
  else match s with
       | "" => ""
       | String c rest => String c (ReplaceFirst rest old new)
       end.

(** ** Assets *)

Inductive ImageRefErrorCode :=
| ImageRefErrorCodeConfigMapMissing
| ImageRefErrorCodeConfigMapKeyMissing
| ImageRefErrorCodeConfigMapOther
| ImageRefErrorCodeConfigMapUnknown.

Record ImageRef := mkImageRef {
  ir_URL : string;
  ir_Error : option ImageRefErrorCode;
}.

Inductive wskAssetType := wskAssetTypeIcon | wskAssetTypeLogo.

(** The part of the backend's [EnvConfig] that models read. *)
Record BackendConfig := mkBackendConfig { bc_ProxyUrlPrefix : string }.

Definition configMapStatusToErrorCode (status : option WorkspaceKindAssetConfigMapStatus)
    : option ImageRefErrorCode :=
  match status ≫= acs_Error with
  | None => None
  | Some ConfigMapErrorNotFound => Some ImageRefErrorCodeConfigMapMissing
  | Some ConfigMapErrorKeyNotFound => Some ImageRefErrorCodeConfigMapKeyMissing
  | Some ConfigMapErrorOther => Some ImageRefErrorCodeConfigMapOther
  end.

Definition newImageRefFromWorkspaceKindAsset (cfg : BackendConfig) (asset : WorkspaceKindAsset)
    (status : ImageAssetStatus) (workspaceKindName : string) (assetType : wskAssetType)
    : ImageRef :=
  match asset_Url asset, asset_ConfigMap asset with
  | Some url, _ => mkImageRef url None
  | None, Some _ =>
    let urlPrefix := if bool_decide (bc_ProxyUrlPrefix cfg = "") then ""
                     else TrimRightSlash (bc_ProxyUrlPrefix cfg) in
    let urlPath :=
      ReplaceFirst
        match assetType with
        | wskAssetTypeIcon => WorkspaceKindIconPath
        | wskAssetTypeLogo => WorkspaceKindLogoPath
        end (":" +:+ ResourceNamePathParam) workspaceKindName in
    let urlParams := if bool_decide (ias_Sha256 status = "") then ""
                     else "?sha256=" +:+ ias_Sha256 status in
    mkImageRef (urlPrefix +:+ urlPath +:+ urlParams)
      (configMapStatusToErrorCode (ias_ConfigMap status))
  | None, None => mkImageRef "" None
  end.

Definition NewImageRefFromWorkspaceKindAssetIcon (cfg : BackendConfig)
    (asset : WorkspaceKindAsset) (status : ImageAssetStatus) (name : string) : ImageRef :=
  newImageRefFromWorkspaceKindAsset cfg asset status name wskAssetTypeIcon.

Definition NewImageRefFromWorkspaceKindAssetLogo (cfg : BackendConfig)
    (asset : WorkspaceKindAsset) (status : ImageAssetStatus) (name : string) : ImageRef :=
  newImageRefFromWorkspaceKindAsset cfg asset status name wskAssetTypeLogo.

(** ** The list item *)

(** [PodMetadata] and [StatefulSetMetadata]. *)
Record MetadataModel := mkMetadataModel {
  mm_Labels : gmap string string;
  mm_Annotations : gmap string string;
}.

Record ActivityProbeModel := mkActivityProbeModel {
  apm_MinProbeIntervalSeconds : Z;
  apm_ProbeIntervalSeconds : Z;
  apm_PodExecTimeout : option Z;  (** [podExec.timeoutSeconds] *)
  apm_Jupyter : option (bool * string);  (** [lastActivity] and [portId] *)
}.

Record ActivityRuleModel := mkActivityRuleModel {
  arm_SecondsSinceActive : Z;
  arm_MinRunningSecondsModel : Z;
  arm_Match : option (option LabelSelector * option LabelSelector);
    (** the selectors of [matchNamespace] and [matchPodConfig] *)
  arm_PauseWorkspace : bool;
}.

Record WorkspaceKindListItem := mkWorkspaceKindListItem {
  wkl_Name : string;
  wkl_DisplayName : string;
  wkl_Description : string;
  wkl_Deprecated : bool;
  wkl_DeprecationMessage : string;
  wkl_Hidden : bool;
  wkl_Icon : ImageRef;
  wkl_Logo : ImageRef;
  wkl_Workspaces : Z;  (** [clusterMetrics.workspacesCount] *)
  wkl_PodMetadata : MetadataModel;
  wkl_StatefulSetMetadata : MetadataModel;
  wkl_Home : string;  (** [podTemplate.volumeMounts.home] *)
  wkl_ActivityProbe : option ActivityProbeModel;
  wkl_Options : PodTemplateOptions;
  wkl_ActivityRules : list ActivityRuleModel;
  wkl_Restrictions : Restrictions;
}.

Definition buildActivityProbe (probe : option ActivityProbe) : option ActivityProbeModel :=
  match probe with
  | None => None
  | Some probe => Some
      (mkActivityProbeModel
        (default DefaultMinProbeIntervalSeconds (ap_MinProbeIntervalSeconds probe))
        (default DefaultProbeIntervalSeconds (ap_ProbeIntervalSeconds probe))
        ((λ p, default DefaultPodExecTimeoutSeconds (pe_TimeoutSeconds p)) <$> ap_PodExec probe)
        ((λ j, (jup_LastActivity j, jup_PortId j)) <$> ap_Jupyter probe))
  end.

Definition buildActivityRules (rules : list ActivityRule) : list ActivityRuleModel :=
  (λ rule, mkActivityRuleModel (arc_SecondsSinceActive (rule_Config rule))
    (default 0%Z (arc_MinRunningSeconds (rule_Config rule)))
    ((λ m, (nsm_Selector <$> arm_MatchNamespace m, pcm_Selector <$> arm_MatchPodConfig m))
       <$> rule_Match rule)
    (default false (are_PauseWorkspace (rule_Effect rule)))) <$> rules.

Section kind_model.
Context `{SelectorLib}.

(** The item, or [None] when a rule hides the kind ([apiHide]). *)
Definition NewWorkspaceKindModelFromWorkspaceKind (cfg : BackendConfig) (wsk : WorkspaceKind)
    (namespaceLabels : gomap) : go (option WorkspaceKindListItem) :=
  let result := EvaluateWorkspaceKindFilterScopeRule wsk namespaceLabels in
  if er_APIHide result then Ok None
  else
    let template := wsk_PodTemplate wsk in
    let podMetadata := match kpt_PodMetadata template with
      | Some m => mkMetadataModel (kpm_Labels m) (kpm_Annotations m)
      | None => mkMetadataModel ∅ ∅ end in
    let stsMetadata := match kpt_StatefulSetMetadata template with
      | Some m => mkMetadataModel (ksm_Labels m) (ksm_Annotations m)
      | None => mkMetadataModel ∅ ∅ end in
    match NewPodTemplateOptionsModelFromWorkspaceKind wsk emptyListValues None with
    | inr errs => Panic "invalid call to NewPodTemplateOptionsModelFromWorkspaceKind"
    | inl podTemplateOptions =>
      let spawner := kspec_Spawner (wsk_Spec wsk) in
      let status := wsk_Status wsk in
      Ok (Some (mkWorkspaceKindListItem (wsk_Name wsk)
        (spawner_DisplayName spawner) (spawner_Description spawner)
        (default false (spawner_Deprecated spawner))
        (default "" (spawner_DeprecationMessage spawner))
        (default false (spawner_Hidden spawner) || er_UIHide result)
        (NewImageRefFromWorkspaceKindAssetIcon cfg (spawner_Icon spawner) (kst_SpawnerIcon status)
           (wsk_Name wsk))
        (NewImageRefFromWorkspaceKindAssetLogo cfg (spawner_Logo spawner) (kst_SpawnerLogo status)
           (wsk_Name wsk))
        (kst_Workspaces status) podMetadata stsMetadata
        (kvm_Home (kpt_VolumeMounts template))
        (buildActivityProbe (kpt_ActivityProbe template)) podTemplateOptions
        (buildActivityRules (kspec_ActivityRules (wsk_Spec wsk)))
        (er_Restrictions result)))
    end.

(** ** Properties *)

(** The listing of a kind never panics. *)
Lemma kind_model_total cfg wsk ns :
  ∃ r, NewWorkspaceKindModelFromWorkspaceKind cfg wsk ns = Ok r.
Proof.
  unfold NewWorkspaceKindModelFromWorkspaceKind. destruct (er_APIHide _); [by eexists|].
  destruct (ListValues_empty wsk None) as [r ->]. by eexists.
Qed.
End kind_model.

(** ** Creating and updating *)

Record WorkspaceKindCreate := mkWorkspaceKindCreate {
  wkc_Name : string;
  wkc_Spawner : WorkspaceKindSpawner;
  wkc_PodTemplate : WorkspaceKindPodTemplate;
}.

Record WorkspaceKindUpdate := mkWorkspaceKindUpdate {
  wku_Revision : RevisionString;
  wku_Spawner : WorkspaceKindSpawner;
  wku_PodTemplate : WorkspaceKindPodTemplate;
  wku_ActivityRules : list ActivityRule;
}.

Definition WorkspaceKindUpdate_Validate (w : WorkspaceKindUpdate) (prefix : string)
    : list field_error :=
  if bool_decide (wku_Revision w = "")
  then [FieldRequired (Child prefix ["revision"]) "revision is required"] else [].

Definition NewWorkspaceKindCreateModelFromWorkspaceKind (wsk : WorkspaceKind)
    : WorkspaceKindCreate :=
  mkWorkspaceKindCreate (wsk_Name wsk) (kspec_Spawner (wsk_Spec wsk)) (wsk_PodTemplate wsk).

Definition NewWorkspaceKindUpdateModelFromWorkspaceKind (wsk : WorkspaceKind)
    : WorkspaceKindUpdate :=
  mkWorkspaceKindUpdate (CalculateRevision (wsk_Meta wsk)) (kspec_Spawner (wsk_Spec wsk))
    (wsk_PodTemplate wsk) (kspec_ActivityRules (wsk_Spec wsk)).

Definition ApplyWorkspaceKindUpdateModelToWorkspaceKind (update : WorkspaceKindUpdate)
    (wsk : WorkspaceKind) : WorkspaceKind :=
  mkWorkspaceKind (wsk_Meta wsk)
    (mkKindSpec (wku_Spawner update) (wku_PodTemplate update) (wku_ActivityRules update)
       (kspec_FilterRules (wsk_Spec wsk)))
    (wsk_Status wsk).

(** Reading the model back; a kind's own model leaves it as it is; filter rules stay. *)
Lemma kind_update_roundtrip u wsk :
  let wsk' := ApplyWorkspaceKindUpdateModelToWorkspaceKind u wsk in
  NewWorkspaceKindUpdateModelFromWorkspaceKind wsk' =
    mkWorkspaceKindUpdate (CalculateRevision (wsk_Meta wsk)) (wku_Spawner u) (wku_PodTemplate u)
      (wku_ActivityRules u) ∧
  kspec_FilterRules (wsk_Spec wsk') = kspec_FilterRules (wsk_Spec wsk) ∧
  (u = NewWorkspaceKindUpdateModelFromWorkspaceKind wsk → wsk' = wsk).
Proof. split_and!; [done..|]. intros ->. by destruct wsk as [m [] st]. Qed.

Example icon_url :
  NewImageRefFromWorkspaceKindAssetIcon (mkBackendConfig "/workspaces//")
    (mkAsset None (Some (mkAssetConfigMap "icons" "ns" "icon.svg" "image/svg+xml")))
    (mkImageAssetStatus "abc" None) "jupyterlab"
  = mkImageRef "/workspaces/api/v1/workspacekinds/jupyterlab/assets/icon?sha256=abc" None.
Proof. vm_compute. reflexivity. Qed.
