(* ===== verification/KindRepo.v ===== *)
(** * The WorkspaceKind repository ([backend/internal/repositories/workspacekinds])

    Reading, listing, creating, updating and deleting WorkspaceKinds, listing the values
    of their options for a namespace, and serving the bytes of their icon and logo.
    [configMapClient] reads the filtered cache of image-source ConfigMaps; its reads are
    [Get KConfigMap]. *)

From Stdlib Require Import ZArith.
From stdpp Require Import base gmap strings list.
From S2P Require Import Prelude K8sTypes ApiTypes Sha256 Client Options Examples Field Owned.
From S2P Require Import FilterRules Validation Revision ListValues KindModel.

Definition wsk_withMeta (k : WorkspaceKind) (m : ObjectMeta) : WorkspaceKind :=
  mkWorkspaceKind m (wsk_Spec k) (wsk_Status k).

Definition getWorkspaceKind (name : string) : repo WorkspaceKind :=
  attempt (call (Get KWorkspaceKind "" name)) (notFoundAs ErrWorkspaceKindNotFound).

Definition GetWorkspaceKind (name : string) : repo WorkspaceKindUpdate :=
  workspaceKind <=- getWorkspaceKind name ;;
  ret (NewWorkspaceKindUpdateModelFromWorkspaceKind workspaceKind).

(** The labels of a namespace: nil without a name, never nil with one. *)
Definition resolveNamespaceLabels (namespaceName fieldPath : string) : repo gomap :=
  if bool_decide (namespaceName = "") then ret None
  else
    namespace <=- attempt (call (Get KNamespace "" namespaceName))
      (λ err, if IsNotFound err
              then InternalValidationError
                     [FieldInvalid fieldPath (BVString namespaceName)
                        ("namespace " +:+ quote namespaceName +:+ " not found")]
              else Cause err) ;;
    ret (Some (gm (meta_Labels (nsObj_Meta namespace)))).

Definition CreateWorkspaceKind (actor : option string) (workspaceKind : WorkspaceKind)
    : repo WorkspaceKindCreate :=
  let workspaceKind :=
    wsk_withMeta workspaceKind (UpdateObjectMetaForCreate (wsk_Meta workspaceKind) actor) in
  created <=- attempt (call (Create KWorkspaceKind workspaceKind))
    (λ err, if IsAlreadyExists err then ErrWorkspaceKindAlreadyExists else Cause err) ;;
  ret (NewWorkspaceKindCreateModelFromWorkspaceKind created).

Definition DeleteWorkspaceKind (name : string) : repo () :=
  attempt (call (Delete KWorkspaceKind "" name)) (notFoundAs ErrWorkspaceKindNotFound).

Section kind_repository.
Context `{SelectorLib} `{TimeLib}.

(** The loop over the kinds: the items that no rule hides. *)
Fixpoint kindModels (cfg : BackendConfig) (namespaceLabels : gomap) (kinds : list WorkspaceKind)
    : go (list WorkspaceKindListItem) :=
  match kinds with
  | [] => Ok []
  | wsk :: rest =>
    let! item := NewWorkspaceKindModelFromWorkspaceKind cfg wsk namespaceLabels in
    let! items := kindModels cfg namespaceLabels rest in
    Ok (match item with None => items | Some i => i :: items end)
  end.

Definition GetWorkspaceKinds (cfg : BackendConfig) (namespaceFilter : string)
    : repo (list WorkspaceKindListItem) :=
  kinds <=- attempt (call (List KWorkspaceKind (mkListOptions None ∅ ""))) Cause ;;
  namespaceLabels <=- resolveNamespaceLabels namespaceFilter (NewPath ["namespaceFilter"]) ;;
  repo_go (kindModels cfg namespaceLabels kinds).

Definition UpdateWorkspaceKind (actor : option string) (workspaceKindUpdate : WorkspaceKindUpdate)
    (name : string) : repo WorkspaceKindUpdate :=
  now <-- call Now ;;
  workspaceKind <=- getWorkspaceKind name ;;
  if negb (bool_decide
       (CalculateRevision (wsk_Meta workspaceKind) = wku_Revision workspaceKindUpdate))
  then throw ErrWorkspaceKindRevisionConflict
  else
    let workspaceKind :=
      ApplyWorkspaceKindUpdateModelToWorkspaceKind workspaceKindUpdate workspaceKind in
    let workspaceKind := wsk_withMeta workspaceKind
      (UpdateObjectMetaForUpdate (wsk_Meta workspaceKind) actor now) in
    updated <=- attempt (call (Update KWorkspaceKind workspaceKind))
      (notFoundAs ErrWorkspaceKindNotFound) ;;
    ret (NewWorkspaceKindUpdateModelFromWorkspaceKind updated).

Definition ListPodTemplateOptionsValues (name : string) (listValuesRequest : ListValuesRequest)
    : repo PodTemplateOptions :=
  workspaceKind <=- getWorkspaceKind name ;;
  let namespaceName := match lvc_Namespace (lvr_Context listValuesRequest) with
                       | Some ns => cns_Name ns | None => "" end in
  namespaceLabels <=- resolveNamespaceLabels namespaceName
                        (NewPath ["context"; "namespace"; "name"]) ;;
  match NewPodTemplateOptionsModelFromWorkspaceKind workspaceKind listValuesRequest
          namespaceLabels with
  | inl options => ret options
  | inr errs => throw (InternalValidationError errs)
  end.
End kind_repository.

(** ** Asset bytes *)

Definition getWorkspaceKindAssetBytes (name : string) (assetType : wskAssetType)
    : repo (string * string) :=
  workspaceKind <=- getWorkspaceKind name ;;
  let spawner := kspec_Spawner (wsk_Spec workspaceKind) in
  match asset_ConfigMap match assetType with
                        | wskAssetTypeIcon => spawner_Icon spawner
                        | wskAssetTypeLogo => spawner_Logo spawner
                        end with
  | None => throw ErrWorkspaceKindAssetNotConfigMap
  | Some assetConfigMap =>
    configMap <=- attempt
      (call (Get KConfigMap (acm_Namespace assetConfigMap) (acm_Name assetConfigMap)))
      (notFoundAs ErrWorkspaceKindAssetConfigMapNotFound) ;;
    match cm_Data configMap !! acm_Key assetConfigMap,
          cm_BinaryData configMap !! acm_Key assetConfigMap with
    | Some bytes, _ | None, Some bytes => ret (bytes, acm_MediaType assetConfigMap)
    | None, None => throw ErrWorkspaceKindAssetConfigMapKeyMissing
    end
  end.

(** ** Properties *)

Section updates.
Context `{TimeLib}.

(** Either nothing was written and the update failed, or the last request updates the kind
    read at the client's revision. *)
Definition kind_update_outcome (u : WorkspaceKindUpdate) (name : string) (h : list event)
    (r : WorkspaceKindUpdate + repo_error) : Prop :=
  (reads_only h ∧ ∃ e, r = inr e) ∨
  ∃ h0 k k' x, h = h0 ++ [Ev (Update KWorkspaceKind k') x] ∧ reads_only h0 ∧
    Ev (Get KWorkspaceKind "" name) (inl k) ∈ h0 ∧
    CalculateRevision (wsk_Meta k) = wku_Revision u ∧
    meta_ResourceVersion (wsk_Meta k') = meta_ResourceVersion (wsk_Meta k) ∧
    kspec_FilterRules (wsk_Spec k') = kspec_FilterRules (wsk_Spec k) ∧
    NewWorkspaceKindUpdateModelFromWorkspaceKind k' = u ∧
    r = match x with
        | inl updated => inl (NewWorkspaceKindUpdateModelFromWorkspaceKind updated)
        | inr e => inr (notFoundAs ErrWorkspaceKindNotFound e)
        end.

(** Updating a kind is guarded like updating a Workspace: at most one write, last, of the
    kind read at the client's revision, with the client's model and the stored filter rules,
    which the update model does not carry. *)
Theorem UpdateWorkspaceKind_guarded actor u name h r :
  runs (UpdateWorkspaceKind actor u name) h r → kind_update_outcome u name h r.
Proof.
  revert h r. apply (sat_runs _ []). unfold UpdateWorkspaceKind. apply sat_bind, sat_call.
  intros now. assert (reads_only ([] ++ [Ev Now now])) as H0 by (by constructor).
  apply sat_rbind, sat_attempt; [intros k|intros e].
  2: { left. split; [by apply reads_only_snoc|]. by eexists. }
  pose proof (reads_only_snoc _ (Get KWorkspaceKind "" name) (inl k) H0 eq_refl) as H1.
  case_bool_decide as Hrev; cbn [negb]; [|by left; eauto].
  apply sat_rbind. set (k' := wsk_withMeta _ _).
  assert (NewWorkspaceKindUpdateModelFromWorkspaceKind k' = u) as Hu.
  { unfold NewWorkspaceKindUpdateModelFromWorkspaceKind.
    replace (CalculateRevision (wsk_Meta k')) with (CalculateRevision (wsk_Meta k)) by done.
    rewrite Hrev. by destruct u. }
  apply sat_attempt; [intros updated|intros e]; right; eexists _, k, _, _;
    (split_and!; [reflexivity|exact H1|set_solver|exact Hrev|done|done|exact Hu|done]).
Qed.
End updates.

(** ** Examples *)

Definition exKindHandler (k : WorkspaceKind) (labels : gmap string string) (icons : ConfigMap)
    : handler () := λ X q s,
  (match q in req X return X → X with
   | Get KWorkspaceKind _ _ => λ _, inl k
   | List KWorkspaceKind _ => λ _, inl [k]
   | Get KNamespace _ name => λ _, inl (mkNamespace (exLabelledMeta name "" labels))
   | Get KConfigMap _ _ => λ _, inl icons
   | _ => λ x, x
   end (exEnv 0 (mkExecOutcome [] None) X q s).1, s).

Lemma UpdateWorkspaceKind_guarded_witness :
  let u := NewWorkspaceKindUpdateModelFromWorkspaceKind exFilterKind in
  ∃ h r, runs (UpdateWorkspaceKind (H0 := exampleTimeLib) None u "jupyterlab") h r ∧ length h = 3 ∧
    kind_update_outcome u "jupyterlab" h r.
Proof.
  intros u. set (p := UpdateWorkspaceKind (H0 := exampleTimeLib) None u "jupyterlab").
  pose proof (interp_runs (exKindHandler exFilterKind ∅ (mkConfigMap emptyMeta ∅ ∅)) p ()) as Hr.
  eexists _, _. split_and!; [exact Hr|vm_compute; reflexivity|].
  exact (UpdateWorkspaceKind_guarded (H := exampleTimeLib) None u "jupyterlab" _ _ Hr).
Defined.
