(* ===== verification/WorkspaceList.v ===== *)
(** * Listing Workspaces ([backend/internal/models/workspaces/funcs.go],
      [podtemplate/details])

    What the API shows about a Workspace: its spec and status, joined with the
    WorkspaceKind it was made from, which may be gone.  [buildServices] panics when an
    image names a port the kind does not have; kinds that the webhook admitted never make
    it panic ([list_item_total] in [BackendSpec]). *)

From Stdlib Require Import ZArith.
From stdpp Require Import base gmap strings list.
From S2P Require Import Prelude K8sTypes ApiTypes Sha256 Client Options Examples Field Owned.
From S2P Require Import FilterRules Validation Revision ListValues WorkspaceModel WorkspaceRepo.
From S2P Require Import KindModel KindRepo.

(** ** Models *)

Record OptionInfo := mkOptionInfo {
  oi_Id : string;
  oi_DisplayName : string;
  oi_Description : string;
  oi_Labels : option (list OptionLabel);  (** nil for an unknown option *)
}.

Record RedirectStep := mkRedirectStepModel {
  rs_Source : OptionInfo;
  rs_Target : OptionInfo;
  rs_Message : option RedirectMessageModel;
}.

(** [ImageConfig] and [PodConfig]. *)
Record SelectedOption := mkSelectedOption {
  so_Current : OptionInfo;
  so_RedirectChain : list RedirectStep;
}.

Record HttpService := mkHttpService { hs_DisplayName : string; hs_HttpPath : string }.
Record ServiceModel := mkServiceModel { sm_HttpService : option HttpService }.

Record WorkspaceKindInfo := mkWorkspaceKindInfo {
  wki_Name : string;
  wki_Missing : bool;
  wki_Icon : ImageRef;
  wki_Logo : ImageRef;
}.

Record ActivityModel := mkActivityModel {
  am_LastActivity : Z;
  am_LastUpdate : Z;
  am_LastProbe : option WorkspaceActivityLastProbe;
  am_EligibleAfter : option Z;  (** [rules.pauseWorkspace.eligibleAfter] *)
}.

Record WorkspaceListItem := mkWorkspaceListItem {
  wli_Name : string;
  wli_DisplayName : string;
  wli_Namespace : string;
  wli_WorkspaceKind : WorkspaceKindInfo;
  wli_Paused : bool;
  wli_PausedTime : Z;
  wli_LastRunningTime : Z;
  wli_State : WorkspaceState;
  wli_StateMessage : string;
  wli_ImageConfig : SelectedOption;
  wli_PodConfig : SelectedOption;
  wli_Activity : ActivityModel;
  wli_Services : option (list ServiceModel);
  wli_Audit : AuditInfo;
}.

Definition UnknownImageConfig : string := "__UNKNOWN_IMAGE_CONFIG__".
Definition UnknownPodConfig : string := "__UNKNOWN_POD_CONFIG__".
Definition UnknownIconURL : string := "__UNKNOWN_ICON_URL__".
Definition UnknownLogoURL : string := "__UNKNOWN_LOGO_URL__".
Definition UnknownHomeMountPath : string := "__UNKNOWN_HOME_MOUNT_PATH__".

(** ** The WorkspaceKind, if it exists *)

(** The zero [WorkspaceKind], which stands for a missing one. *)
Definition emptyKind : WorkspaceKind :=
  mkWorkspaceKind emptyMeta
    (mkKindSpec (mkSpawner "" "" None None None (mkAsset None None) (mkAsset None None))
       (mkKindPodTemplate None None None None None (mkKindVolumeMounts "") [] [] [] [] None None None
          (mkKindPodOptions (mkImageConfig (mkOptionsSpawnerConfig "") [])
             (mkPodConfig (mkOptionsSpawnerConfig "") [])))
       [] [])
    (mkKindStatus 0 (mkOptionsMetrics [] []) (mkImageAssetStatus "" None)
       (mkImageAssetStatus "" None)).

Definition WskExists (wsk : WorkspaceKind) : bool :=
  negb (bool_decide (meta_UID (wsk_Meta wsk) = "")).

(** A panic when the kind exists and is not the Workspace's. *)
Definition EnsureWskMatchesWorkspace (ws : Workspace) (wsk : WorkspaceKind) : go () :=
  if WskExists wsk && negb (bool_decide (wsSpec_Kind (ws_Spec ws) = wsk_Name wsk))
  then Panic "provided WorkspaceKind does not match the Workspace" else Ok ().

(** ** Options *)

Definition buildOptionInfo (id unknownFallback : string) (spawnerInfo : option OptionSpawnerInfo)
    : OptionInfo :=
  match spawnerInfo with
  | Some s => mkOptionInfo id (osi_DisplayName s) (default "" (osi_Description s))
                (Some (buildOptionLabels (osi_Labels s)))
  | None => mkOptionInfo id unknownFallback unknownFallback None
  end.

Section selected.
Context {V : Type} `{ListedOption V}.

(** The options of the kind by id; none when it is missing. *)
Definition optionsById (wsk : WorkspaceKind) (values : list V) : gmap string V :=
  if WskExists wsk then index_by opt_Id values else ∅.

Definition buildRedirectStep (optionMap : gmap string V) (unknown : string)
    (step : WorkspacePodOptionRedirectStep) : RedirectStep :=
  mkRedirectStepModel
    (buildOptionInfo (step_Source step) unknown (opt_Spawner <$> optionMap !! step_Source step))
    (buildOptionInfo (step_Target step) unknown (opt_Spawner <$> optionMap !! step_Target step))
    match optionMap !! step_Source step ≫= opt_Redirect with
    | Some redirect =>
      if bool_decide (redir_To redirect = step_Target step)
      then buildRedirectMessage (redir_Message redirect) else None
    | None => None
    end.

Definition buildSelectedOption (optionMap : gmap string V) (unknown id : string)
    (redirectChain : list WorkspacePodOptionRedirectStep) : SelectedOption :=
  mkSelectedOption (buildOptionInfo id unknown (opt_Spawner <$> optionMap !! id))
    (buildRedirectStep optionMap unknown <$> redirectChain).
End selected.

(** The model and the current value, if known. *)
Definition buildImageConfig (ws : Workspace) (wsk : WorkspaceKind)
    : SelectedOption * option ImageConfigValue :=
  let imageConfigMap := optionsById wsk (wsk_ImageValues wsk) in
  let id := wpo_ImageConfig (ws_Options ws) in
  (buildSelectedOption imageConfigMap UnknownImageConfig id
     (poi_RedirectChain (pos_ImageConfig (st_PodTemplateOptions (ws_Status ws)))),
   imageConfigMap !! id).

Definition buildPodConfig (ws : Workspace) (wsk : WorkspaceKind)
    : SelectedOption * option PodConfigValue :=
  let podConfigMap := optionsById wsk (wsk_PodValues wsk) in
  let id := wpo_PodConfig (ws_Options ws) in
  (buildSelectedOption podConfigMap UnknownPodConfig id
     (poi_RedirectChain (pos_PodConfig (st_PodTemplateOptions (ws_Status ws)))),
   podConfigMap !! id).

(** ** Services *)

Definition buildService (ws : Workspace) (wskPodTemplatePorts : gmap PortId WorkspaceKindPort)
    (port : ImagePort) : go ServiceModel :=
  match wskPodTemplatePorts !! iport_Id port with
  | None => Panic ("workspace portID " +:+ quote (iport_Id port)
                   +:+ " does not exist in the workspace kind")
  | Some wskPort =>
    Ok (mkServiceModel
      (if bool_decide (kport_Protocol wskPort = ImagePortProtocolHTTP)
       then Some (mkHttpService (default (kport_DefaultDisplayName wskPort) (iport_DisplayName port))
              ("/workspace/connect/" +:+ ws_Namespace ws +:+ "/" +:+ ws_Name ws +:+ "/"
               +:+ iport_Id port +:+ "/"))
       else None))
  end.

Fixpoint buildServicesLoop (ws : Workspace) (ports : gmap PortId WorkspaceKindPort)
    (l : list ImagePort) : go (list ServiceModel) :=
  match l with
  | [] => Ok []
  | port :: rest =>
    let! service := buildService ws ports port in
    let! services := buildServicesLoop ws ports rest in
    Ok (service :: services)
  end.

Definition buildServices (ws : Workspace) (wskPodTemplatePorts : gmap PortId WorkspaceKindPort)
    (imageConfigValue : option ImageConfigValue) : go (option (list ServiceModel)) :=
  match imageConfigValue with
  | None => Ok None
  | Some v =>
    let! services := buildServicesLoop ws wskPodTemplatePorts (ics_Ports (icv_Spec v)) in
    Ok (Some services)
  end.

(** ** Icons, activity *)

Definition buildIconImageRef (cfg : BackendConfig) (ws : Workspace) (wsk : WorkspaceKind)
    : ImageRef :=
  if WskExists wsk
  then NewImageRefFromWorkspaceKindAssetIcon cfg (spawner_Icon (kspec_Spawner (wsk_Spec wsk)))
         (kst_SpawnerIcon (wsk_Status wsk)) (wsSpec_Kind (ws_Spec ws))
  else mkImageRef UnknownIconURL None.

Definition buildLogoImageRef (cfg : BackendConfig) (ws : Workspace) (wsk : WorkspaceKind)
    : ImageRef :=
  if WskExists wsk
  then NewImageRefFromWorkspaceKindAssetLogo cfg (spawner_Logo (kspec_Spawner (wsk_Spec wsk)))
         (kst_SpawnerLogo (wsk_Status wsk)) (wsSpec_Kind (ws_Spec ws))
  else mkImageRef UnknownLogoURL None.

(** The API's result values are those of the resource. *)
Definition buildLastProbeInfo (probe : option WorkspaceActivityLastProbe)
    : option WorkspaceActivityLastProbe :=
  match probe with
  | None => None
  | Some p =>
    let result := match lp_Result p with
                  | WorkspaceProbeResultSuccess => WorkspaceProbeResultSuccess
                  | WorkspaceProbeResultFailure => WorkspaceProbeResultFailure
                  | WorkspaceProbeResultTimeout => WorkspaceProbeResultTimeout
                  end in
    Some (mkLastProbe (lp_StartTime p) (lp_EndTime p) result (lp_Message p))
  end.

Definition buildActivityRulesInfo (activity : WorkspaceActivity) : option Z :=
  pr_EligibleAfter <$> (act_Rules activity ≫= ar_PauseWorkspace).

(** ** The list item *)

Section list.
Context `{TimeLib}.

Definition NewWorkspaceListItemFromWorkspace (cfg : BackendConfig) (ws : Workspace)
    (wsk : WorkspaceKind) : go WorkspaceListItem :=
  let! _ := EnsureWskMatchesWorkspace ws wsk in
  let '(imageConfigModel, imageConfigValue) := buildImageConfig ws wsk in
  let '(podConfigModel, _) := buildPodConfig ws wsk in
  let wskPodTemplatePorts :=
    if WskExists wsk then index_by kport_Id (kpt_Ports (wsk_PodTemplate wsk)) else ∅ in
  let! services := buildServices ws wskPodTemplatePorts imageConfigValue in
  let status := ws_Status ws in
  Ok (mkWorkspaceListItem (ws_Name ws) (default "" (wsSpec_DisplayName (ws_Spec ws)))
    (ws_Namespace ws)
    (mkWorkspaceKindInfo (wsSpec_Kind (ws_Spec ws)) (negb (WskExists wsk))
       (buildIconImageRef cfg ws wsk) (buildLogoImageRef cfg ws wsk))
    (wsSpec_Paused (ws_Spec ws)) (st_PauseTime status) (st_LastRunningTime status)
    (st_State status) (st_StateMessage status) imageConfigModel podConfigModel
    (mkActivityModel (act_LastActivity (st_Activity status)) (act_LastUpdate (st_Activity status))
       (buildLastProbeInfo (act_LastProbe (st_Activity status)))
       (buildActivityRulesInfo (st_Activity status)))
    services (NewAuditFromObjectMeta (ws_Meta ws))).

(** The kind of a Workspace, zero when it does not exist. *)
Definition getKindOrEmpty (name : string) : repo WorkspaceKind :=
  r <-- call (Get KWorkspaceKind "" name) ;;
  match r with
  | inl wsk => ret wsk
  | inr err => if IsNotFound err then ret emptyKind else throw (Cause err)
  end.

Fixpoint workspaceModels (cfg : BackendConfig) (workspaces : list Workspace)
    : repo (list WorkspaceListItem) :=
  match workspaces with
  | [] => ret []
  | ws :: rest =>
    wsk <=- getKindOrEmpty (wsSpec_Kind (ws_Spec ws)) ;;
    item <=- repo_go (NewWorkspaceListItemFromWorkspace cfg ws wsk) ;;
    items <=- workspaceModels cfg rest ;;
    ret (item :: items)
  end.

(** [GetWorkspaces], and [GetAllWorkspaces] with the empty namespace. *)
Definition getWorkspaceModels (cfg : BackendConfig) (namespace : string)
    : repo (list WorkspaceListItem) :=
  workspaces <=- attempt (call (List KWorkspace (mkListOptions None ∅ namespace))) Cause ;;
  workspaceModels cfg workspaces.
End list.

(** ** Details *)

Record PodVolumeInfo := mkPodVolumeInfo {
  pvi_PVCName : string;
  pvi_MountPath : string;
  pvi_ReadOnly : bool;
}.

Record WorkspaceDetailPod := mkDetailPod {
  dp_Name : string;
  dp_NodeName : string;
  dp_Containers : list string;
  dp_InitContainers : list string;
}.

Record WorkspaceDetails := mkWorkspaceDetails {
  wd_PodMetadata : PodMetadataMutate;
  wd_Home : option PodVolumeInfo;
  wd_Data : list PodVolumeInfo;
  wd_Secrets : list SecretMountModel;
  wd_Pod : option WorkspaceDetailPod;
}.

Definition buildHomeVolume (ws : Workspace) (wsk : WorkspaceKind) : option PodVolumeInfo :=
  match wpv_Home (ws_Volumes ws) with
  | None => None
  | Some home =>
    let mountPath := if WskExists wsk then kvm_Home (kpt_VolumeMounts (wsk_PodTemplate wsk))
                     else UnknownHomeMountPath in
    Some (mkPodVolumeInfo home mountPath false)
  end.

Definition buildDataVolumes (ws : Workspace) : list PodVolumeInfo :=
  (λ v, mkPodVolumeInfo (pvm_PVCName v) (pvm_MountPath v) (default false (pvm_ReadOnly v)))
    <$> wpv_Data (ws_Volumes ws).

Definition buildSecretVolumes (ws : Workspace) : list SecretMountModel :=
  (λ s, mkSecretMountModel (psm_SecretName s) (psm_MountPath s) (psm_DefaultMode s))
    <$> wpv_Secrets (ws_Volumes ws).

Definition buildDetailPod (ws : Workspace) : option WorkspaceDetailPod :=
  let pod := st_PodTemplatePod (ws_Status ws) in
  if bool_decide (wps_Name pod = "") then None
  else Some (mkDetailPod (wps_Name pod) (wps_NodeName pod) (wpc_Name <$> wps_Containers pod)
               (wpc_Name <$> wps_InitContainers pod)).

Definition NewWorkspaceDetailsFromWorkspace (ws : Workspace) (wsk : WorkspaceKind)
    : go WorkspaceDetails :=
  let! _ := EnsureWskMatchesWorkspace ws wsk in
  Ok (mkWorkspaceDetails (ExtractPodMetadata ws) (buildHomeVolume ws wsk) (buildDataVolumes ws)
    (buildSecretVolumes ws) (buildDetailPod ws)).

Definition GetWorkspaceDetails (namespace workspaceName : string) : repo WorkspaceDetails :=
  workspace <=- getWorkspace namespace workspaceName ;;
  workspaceKind <=- getKindOrEmpty (wsSpec_Kind (ws_Spec workspace)) ;;
  repo_go (NewWorkspaceDetailsFromWorkspace workspace workspaceKind).
