(* ===== verification/Mounts.v ===== *)
(** * Who mounts what

    The backend shows which Workspaces and Pods use a Secret or a volume claim.  Three
    functions build the same index ([buildSecretMountMap] of [repositories/secrets],
    [buildPodInfoMap] and [buildWorkspaceInfoMap] of [repositories/pvcs]): a map from
    the name that is mounted to what mounts it, where an object that mounts a name
    several times is listed once. *)

From stdpp Require Import base gmap strings list.
From S2P Require Import Prelude K8sTypes ApiTypes.

Section mounts.
Context {A B : Type} (names : B → list string) (info : B → A).

(** [if !seen[name] { m[name] = append(m[name], info); seen[name] = true }]. *)
Definition addOnce (x : A) (st : gmap string (list A) * gset string) (name : string)
    : gmap string (list A) * gset string :=
  let '(m, seen) := st in
  if bool_decide (name ∈ seen) then (m, seen)
  else (<[name := default [] (m !! name) ++ [x]]> m, {[name]} ∪ seen).

(** The loop over the names one object mounts. *)
Definition addMounts (m : gmap string (list A)) (b : B) : gmap string (list A) :=
  (foldl (addOnce (info b)) (m, ∅) (names b)).1.

(** The loop over the objects. *)
Definition buildMountMap (l : list B) : gmap string (list A) := foldl addMounts ∅ l.

Lemma addOnce_loop x l m seen name :
  (foldl (addOnce x) (m, seen) l).1 !! name =
  if bool_decide (name ∈ l ∧ name ∉ seen) then Some (default [] (m !! name) ++ [x])
  else m !! name.
Proof.
  revert m seen. induction l as [|n l IH]; intros m seen.
  { rewrite bool_decide_eq_false_2; [done|]. by intros [?%not_elem_of_nil _]. }
  cbn [foldl addOnce]. case_bool_decide as Hn; rewrite IH.
  - case_bool_decide; case_bool_decide; set_solver.
  - destruct (decide (n = name)) as [->|Hne].
    + rewrite (bool_decide_eq_false_2 (name ∈ l ∧ _)), lookup_insert_eq by set_solver.
      rewrite bool_decide_eq_true_2 by set_solver. done.
    + rewrite lookup_insert_ne by done. case_bool_decide as H1; case_bool_decide as H2;
        [done|set_solver..|done].
Qed.

Lemma addMounts_lookup m b name :
  addMounts m b !! name =
  if bool_decide (name ∈ names b) then Some (default [] (m !! name) ++ [info b]) else m !! name.
Proof.
  unfold addMounts. rewrite addOnce_loop. case_bool_decide; case_bool_decide; set_solver.
Qed.

(** The objects that mount [name], in order, each once. *)
Lemma buildMountMap_default l name :
  default [] (buildMountMap l !! name) = info <$> filter (λ b, name ∈ names b) l.
Proof.
  unfold buildMountMap. induction l as [|b l IH] using rev_ind; [done|].
  rewrite foldl_app, filter_app, fmap_app. cbn [foldl].
  rewrite addMounts_lookup, <-IH. case_bool_decide as Hb.
  - by rewrite filter_cons_True.
  - rewrite filter_cons_False by done. by rewrite filter_nil, app_nil_r.
Qed.

(** A name has an entry when something mounts it. *)
Lemma buildMountMap_None l name :
  buildMountMap l !! name = None ↔ ∀ b, b ∈ l → name ∉ names b.
Proof.
  unfold buildMountMap. induction l as [|b l IH] using rev_ind; [set_solver|].
  rewrite foldl_app. cbn [foldl]. rewrite addMounts_lookup. case_bool_decide; set_solver.
Qed.
End mounts.

(** The names of the Secrets and of the claims that a Workspace mounts. *)
Definition secretNames (ws : Workspace) : list string :=
  psm_SecretName <$> wpv_Secrets (wpt_Volumes (wsSpec_PodTemplate (ws_Spec ws))).

Definition claimNames (ws : Workspace) : list string :=
  let volumes := wpt_Volumes (wsSpec_PodTemplate (ws_Spec ws)) in
  match wpv_Home volumes with Some pvcName => [pvcName] | None => [] end
  ++ (pvm_PVCName <$> wpv_Data volumes).

(** The names of the claims that a Pod mounts. *)
Definition podClaimNames (pod : Pod) : list string := omap id (pod_Volumes pod).
