(* ===== verification/Secrets.v ===== *)
(** * Secrets ([backend/internal/models/secrets], [repositories/secrets])

    Clients list, create, update and delete Secrets of a namespace.  Values travel one
    way: a client sends them in base64, the API answers with the keys only
    ([secret_values_hidden]); an update keeps the values of the keys sent without one,
    so that what the API answers can be edited and sent back.  Only Secrets labelled
    [can-update] are changed. *)

From Stdlib Require Import ZArith.
From stdpp Require Import base gmap strings list fin_maps.
From S2P Require Import Prelude K8sTypes ApiTypes Client Examples Field Base64 Owned.
From S2P Require Import Validation Revision WorkspaceModel Mounts.

(** ** Models *)

Record SecretValue := mkSecretValue { sv_Base64 : option string }.

Abbreviation SecretData := (gmap string SecretValue) (only parsing).

Record SecretCreate := mkSecretCreate {
  scr_Name : string;
  scr_Type : string;
  scr_Immutable : bool;
  scr_Contents : SecretData;
}.

Record SecretUpdate := mkSecretUpdate {
  sup_Type : string;
  sup_Immutable : bool;
  sup_Contents : SecretData;
}.

Record SecretMount := mkSecretMount { sm_Group : string; sm_Kind : string; sm_Name : string }.

Record SecretListItem := mkSecretListItem {
  sli_Name : string;
  sli_CanUpdate : bool;
  sli_CanMount : bool;
  sli_Mounts : list SecretMount;
  sli_Audit : AuditInfo;
}.

(** ** Validation of requests *)

Section validate.
Context `{NameLib} `{MapOrder}.

Definition SecretValue_Validate (s : SecretValue) (prefix : string) : list field_error :=
  match sv_Base64 s with
  | Some value => ValidateFieldIsSecretBase64Value (Child prefix ["base64"]) value
  | None => []
  end.

Definition SecretData_Validate (s : SecretData) (prefix : string) : list field_error :=
  concat ((λ e, ValidateFieldIsConfigMapKey prefix e.1 ++ SecretValue_Validate e.2 (Key prefix e.1))
    <$> range "SecretData.Validate" s).

Definition SecretCreate_Validate (s : SecretCreate) (prefix : string) : list field_error :=
  ValidateKubernetesSecretName (Child prefix ["name"]) (scr_Name s)
  ++ SecretData_Validate (scr_Contents s) (Child prefix ["contents"]).

Definition SecretUpdate_Validate (s : SecretUpdate) (prefix : string) : list field_error :=
  SecretData_Validate (sup_Contents s) (Child prefix ["contents"]).
End validate.

(** ** Conversions *)

(** The keys, with no values. *)
Definition secretDataFromKubernetesSecret (data : gmap string string) : SecretData :=
  (λ _, mkSecretValue None) <$> data.

Definition NewSecretCreateModelFromSecret (secret : Secret) : SecretCreate :=
  mkSecretCreate (meta_Name (secret_Meta secret)) (secret_Type secret)
    (default false (secret_Immutable secret))
    (secretDataFromKubernetesSecret (secret_Data secret)).

Definition NewSecretUpdateModelFromSecret (secret : Secret) : SecretUpdate :=
  mkSecretUpdate (secret_Type secret) (default false (secret_Immutable secret))
    (secretDataFromKubernetesSecret (secret_Data secret)).

(** The loop over the contents: a value is decoded, and a key without one keeps the value
    it has in [old]. *)
Fixpoint contentsLoop (old : gmap string string) (l : list (string * SecretValue))
    (newData : gmap string string) : go (gmap string string) :=
  match l with
  | [] => Ok newData
  | (key, value) :: rest =>
    match sv_Base64 value with
    | Some encoded =>
      match DecodeString encoded with
      | inl decoded => contentsLoop old rest (<[key := decoded]> newData)
      | inr err => Err (ErrorMsg err)
      end
    | None =>
      match old !! key with
      | Some existingValue => contentsLoop old rest (<[key := existingValue]> newData)
      | None => contentsLoop old rest newData
      end
    end
  end.

Section conversions.
Context `{MapOrder}.

Definition ApplySecretUpdateModelToSecret (secretUpdate : SecretUpdate) (secret : Secret)
    : go Secret :=
  let! newData := contentsLoop (secret_Data secret)
    (range "secretUpdate.Contents" (sup_Contents secretUpdate)) ∅ in
  Ok (mkSecret (secret_Meta secret) (sup_Type secretUpdate) (Some (sup_Immutable secretUpdate))
        newData).

Definition NewSecretFromSecretCreateModel (secretCreate : SecretCreate) (namespace : string)
    : go Secret :=
  let! data := contentsLoop ∅ (range "secretCreate.Contents" (scr_Contents secretCreate)) ∅ in
  Ok (mkSecret
        (setLabels (nameMeta (scr_Name secretCreate) namespace)
           (Some {[LabelCanMount := "true"; LabelCanUpdate := "true"]}))
        (scr_Type secretCreate) (Some (scr_Immutable secretCreate)) data).
End conversions.

Section items.
Context `{TimeLib}.

Definition NewSecretListItemFromSecretMetadata (secret : PartialObjectMetadata)
    (secretToMountsList : gmap string (list SecretMount)) : SecretListItem :=
  let m := pom_Meta secret in
  mkSecretListItem (meta_Name m)
    (bool_decide (gm_index (meta_Labels m) LabelCanUpdate = "true"))
    (bool_decide (gm_index (meta_Labels m) LabelCanMount = "true"))
    (default [] (secretToMountsList !! meta_Name m)) (NewAuditFromObjectMeta m).
End items.

(** ** The repository *)

(** [kubefloworgv1beta1.GroupVersion.Group]. *)
Definition secretMountOfWorkspace (ws : Workspace) : SecretMount :=
  mkSecretMount "kubeflow.org" "Workspace" (ws_Name ws).

Definition buildSecretMountMap (workspaceList : list Workspace) : gmap string (list SecretMount) :=
  buildMountMap secretNames secretMountOfWorkspace workspaceList.

Definition getSecret (namespace secretName : string) : repo Secret :=
  attempt (call (Get KSecret namespace secretName)) (notFoundAs ErrSecretNotFound).

Definition GetSecret (namespace secretName : string) : repo SecretUpdate :=
  secret <=- getSecret namespace secretName ;;
  ret (NewSecretUpdateModelFromSecret secret).

Definition DeleteSecret (namespace secretName : string) : repo () :=
  deleteLabelled KSecret ErrSecretNotFound ErrSecretNotCanUpdate namespace secretName.

Definition secret_setMeta (s : Secret) (m : ObjectMeta) : Secret :=
  mkSecret m (secret_Type s) (secret_Immutable s) (secret_Data s).

Section repository.
Context `{TimeLib} `{MapOrder}.

Definition GetSecrets (namespace : string) : repo (list SecretListItem) :=
  secretMetaList <=- attempt (call (List KSecretMetadata (mkListOptions None ∅ namespace))) Cause ;;
  workspaceList <=- attempt (call (List KWorkspace (mkListOptions None ∅ namespace))) Cause ;;
  let secretToMountsList := buildSecretMountMap workspaceList in
  ret ((λ secret, NewSecretListItemFromSecretMetadata secret secretToMountsList)
         <$> secretMetaList).

Definition CreateSecret (actor : option string) (secretCreate : SecretCreate)
    (namespace : string) : repo SecretCreate :=
  secret <=- repo_go (NewSecretFromSecretCreateModel secretCreate namespace) ;;
  let secret := secret_setMeta secret (UpdateObjectMetaForCreate (secret_Meta secret) actor) in
  created <=- attempt (call (Create KSecret secret))
    (λ err, if IsAlreadyExists err then ErrSecretAlreadyExists else Cause err) ;;
  ret (NewSecretCreateModelFromSecret created).

Definition UpdateSecret (actor : option string) (secretUpdate : SecretUpdate)
    (namespace secretName : string) : repo SecretUpdate :=
  now <-- call Now ;;
  secret <=- getSecret namespace secretName ;;
  if negb (canUpdate (secret_Meta secret)) then throw ErrSecretNotCanUpdate
  else
    secret <=- repo_go (ApplySecretUpdateModelToSecret secretUpdate secret) ;;
    let secret := secret_setMeta secret
      (UpdateObjectMetaForUpdate (secret_Meta secret) actor now) in
    updated <=- attempt (call (Update KSecret secret)) (notFoundAs ErrSecretNotFound) ;;
    ret (NewSecretUpdateModelFromSecret updated).
End repository.

(** ** What an update does to the data *)

Definition decodes (v : SecretValue) : Prop :=
  ∀ encoded, sv_Base64 v = Some encoded → ∃ decoded, DecodeString encoded = inl decoded.

(** The value of a key that is sent with [v] and had the value [old]. *)
Definition value_after (old : option string) (v : SecretValue) : option string :=
  match sv_Base64 v with
  | None => old
  | Some encoded => match DecodeString encoded with inl decoded => Some decoded | inr _ => None end
  end.

Lemma contentsLoop_Ok old l acc d :
  contentsLoop old l acc = Ok d → NoDup l.*1 →
  (∀ key v, (key, v) ∈ l → decodes v) ∧
  ∀ key, d !! key = match (list_to_map l : gmap string SecretValue) !! key with
                    | Some v => match value_after (old !! key) v with
                                | Some x => Some x | None => acc !! key end
                    | None => acc !! key
                    end.
Proof.
  revert acc. induction l as [|[k v] l IH]; intros acc Hd Hnd.
  { injection Hd as <-. split; [set_solver|done]. }
  apply NoDup_cons in Hnd as [Hk Hnd].
  pose proof (not_elem_of_list_to_map_1 (M := gmap string) l k Hk) as Hnone.
  assert (∃ acc', contentsLoop old l acc' = Ok d ∧ decodes v ∧
    ∀ key, acc' !! key = if bool_decide (k = key)
                         then match value_after (old !! key) v with
                              | Some x => Some x | None => acc !! key end
                         else acc !! key) as (acc' & Hd' & Hv & Hacc).
  { cbn [contentsLoop] in Hd. unfold decodes, value_after.
    destruct (sv_Base64 v) as [encoded|].
    - destruct (DecodeString encoded) as [decoded|err] eqn:E; [|done].
      eexists. split; [exact Hd|]. split; [intros ? [= <-]; eauto|]. intros key.
      case_bool_decide as Hkey; [by subst; rewrite lookup_insert_eq|by rewrite lookup_insert_ne].
    - destruct (old !! k) as [x|] eqn:E; (eexists; split; [exact Hd|]; split; [done|]); intros key;
        case_bool_decide as Hkey; subst; rewrite ?E, ?lookup_insert_eq, ?lookup_insert_ne; done. }
  destruct (IH acc' Hd' Hnd) as [Hall Hl]. split.
  { intros key v' [[= -> ->]|Hin]%elem_of_cons; [done|by eapply Hall]. }
  intros key. rewrite Hl, Hacc. cbn [list_to_map foldr uncurry fst snd].
  case_bool_decide as Hkey.
  - subst key. by rewrite Hnone, lookup_insert_eq.
  - by rewrite lookup_insert_ne.
Qed.

(** Only a value that does not decode makes the loop fail, whatever the old data. *)
Lemma contentsLoop_Err old l acc :
  (∃ d, contentsLoop old l acc = Ok d) ∨
  (∃ e key v, contentsLoop old l acc = Err e ∧ (key, v) ∈ l ∧ ¬ decodes v ∧
     ∀ old' acc', contentsLoop old' l acc' = Err e).
Proof.
  revert acc. induction l as [|[k v] l IH]; intros acc; [left; by eexists|].
  assert (∀ acc', (∃ d, contentsLoop old l acc' = Ok d) ∨
    (∃ e key v, contentsLoop old l acc' = Err e ∧ (key, v) ∈ l ∧ ¬ decodes v ∧
       ∀ old' acc', contentsLoop old' l acc' = Err e)) as IH' by done. clear IH.
  cbn [contentsLoop].
  destruct (sv_Base64 v) as [encoded|] eqn:E; [destruct (DecodeString encoded) as [d|err] eqn:D|].
  - destruct (IH' (<[k := d]> acc)) as [?|(e & key & v' & He & Hin & Hd & Hall)]; [by left|right].
    exists e, key, v'. rewrite elem_of_cons. split_and!; [done|by right|done|by intros].
  - right. exists (ErrorMsg err), k, v. rewrite elem_of_cons. split_and!; [done|by left| |done].
    intros Hdec. destruct (Hdec _ E) as [? ?]. congruence.
  - assert (∃ acc', match old !! k with
                    | Some x => contentsLoop old l (<[k := x]> acc)
                    | None => contentsLoop old l acc end = contentsLoop old l acc') as [acc' ->]
      by (destruct (old !! k); by eexists).
    destruct (IH' acc') as [?|(e & key & v' & He & Hin & Hd & Hall)]; [by left|right].
    exists e, key, v'. rewrite elem_of_cons. split_and!; [done|by right|done|].
    intros old' acc''. by destruct (old' !! k).
Qed.

Section data.
Context `{MapOrderLaws}.

Lemma contents_Ok old (c : SecretData) site d :
  contentsLoop old (range site c) ∅ = Ok d →
  (∀ key v, c !! key = Some v → decodes v) ∧
  ∀ key, d !! key = c !! key ≫= value_after (old !! key).
Proof.
  intros Hd. destruct (contentsLoop_Ok _ _ _ _ Hd (range_NoDup site c)) as [Hall Hl]. split.
  - intros key v Hin. apply (Hall key). by apply elem_of_range.
  - intros key. rewrite Hl, range_list_to_map, lookup_empty.
    destruct (c !! key) as [v|]; simpl; [|done]. by destruct (value_after _ v).
Qed.

(** Contents that pass the request's validation convert. *)
Lemma validated_decodes `{NameLib} (c : SecretData) prefix key v :
  SecretData_Validate c prefix = [] → c !! key = Some v → decodes v.
Proof.
  intros Hv Hin encoded He. unfold SecretData_Validate in Hv. rewrite concat_map_nil in Hv.
  specialize (Hv (key, v)). rewrite elem_of_range in Hv. specialize (Hv Hin).
  apply app_nil in Hv as [_ Hv]. cbn [snd] in Hv. unfold SecretValue_Validate in Hv.
  rewrite He in Hv. unfold ValidateFieldIsSecretBase64Value in Hv.
  destruct (DecodeString encoded); [by eexists|done].
Qed.

Lemma contents_total `{NameLib} old (c : SecretData) site prefix :
  SecretData_Validate c prefix = [] → ∃ d, contentsLoop old (range site c) ∅ = Ok d.
Proof.
  intros Hv. destruct (contentsLoop_Err old (range site c) ∅) as [?|(e & key & v & _ & Hin & Hd & _)];
    [done|]. destruct Hd. eapply validated_decodes; [done|]. by apply elem_of_range in Hin.
Qed.

(** ** Round trips *)

(** C28: Values sent in base64 are stored as they are, under their keys only; and sending the
    answer to a read back unchanged leaves the data of the Secret unchanged. *)
Theorem secret_roundtrip :
  (∀ u s data, sup_Contents u = (λ v, mkSecretValue (Some (encode v))) <$> data →
     ApplySecretUpdateModelToSecret u s =
       Ok (mkSecret (secret_Meta s) (sup_Type u) (Some (sup_Immutable u)) data)) ∧
  (∀ s, ApplySecretUpdateModelToSecret (NewSecretUpdateModelFromSecret s) s =
     Ok (mkSecret (secret_Meta s) (secret_Type s) (Some (default false (secret_Immutable s)))
           (secret_Data s))).
Proof.
  assert (∀ old c site (data : gmap string string),
    (∀ key v, c !! key = Some v → decodes v) →
    (∀ key, data !! key = c !! key ≫= value_after (old !! key)) →
    contentsLoop old (range site c) ∅ = Ok data) as Hloop.
  { intros old c site data Hdec Hdata.
    destruct (contentsLoop_Err old (range site c) ∅) as [[d Hd]|(e & key & v & _ & Hin & Hnd & _)].
    - rewrite Hd. f_equal. apply map_eq. intros key. rewrite Hdata. by apply (contents_Ok old c site).
    - destruct Hnd. eapply Hdec. by apply elem_of_range in Hin. }
  split.
  - intros u s data Hc. unfold ApplySecretUpdateModelToSecret. erewrite Hloop; [done|..];
      rewrite Hc; intros key; rewrite lookup_fmap.
    + intros v. destruct (data !! key) as [x|]; [|done]. intros [= <-] ? [= <-].
      rewrite decode_encode. by eexists.
    + destruct (data !! key) as [x|]; [|done]. simpl. unfold value_after. simpl.
      by rewrite decode_encode.
  - intros s. unfold ApplySecretUpdateModelToSecret. erewrite Hloop; [done|..];
      intros key; unfold NewSecretUpdateModelFromSecret, secretDataFromKubernetesSecret; simpl;
      rewrite lookup_fmap.
    + intros v. by destruct (secret_Data s !! key); [intros [= <-]|].
    + by destruct (secret_Data s !! key).
Qed.
End data.

(** ** What is written *)

Section writes.
Context `{TimeLib} `{MapOrderLaws}.

(** The data of an updated Secret: the keys sent, with the value sent or the value kept. *)
Definition secret_updated (u : SecretUpdate) (s s' : Secret) : Prop :=
  secret_Type s' = sup_Type u ∧ secret_Immutable s' = Some (sup_Immutable u) ∧
  (∀ key, secret_Data s' !! key = sup_Contents u !! key ≫= value_after (secret_Data s !! key)) ∧
  meta_UID (secret_Meta s') = meta_UID (secret_Meta s) ∧
  meta_ResourceVersion (secret_Meta s') = meta_ResourceVersion (secret_Meta s) ∧
  meta_Labels (secret_Meta s') = meta_Labels (secret_Meta s).

Definition secret_update_outcome (u : SecretUpdate) (namespace secretName : string)
    (h : list event) (r : SecretUpdate + repo_error) : Prop :=
  (reads_only h ∧ ∃ e, r = inr e) ∨
  ∃ h0 s s' x, h = h0 ++ [Ev (Update KSecret s') x] ∧ reads_only h0 ∧
    updatable KSecret namespace secretName h0 s ∧ secret_updated u s s' ∧
    r = match x with
        | inl updated => inl (NewSecretUpdateModelFromSecret updated)
        | inr e => inr (notFoundAs ErrSecretNotFound e)
        end.

Lemma UpdateSecret_outcome actor u namespace secretName h r :
  runs (UpdateSecret actor u namespace secretName) h r →
  secret_update_outcome u namespace secretName h r.
Proof.
  revert h r. apply (sat_runs _ []). unfold UpdateSecret. apply sat_bind, sat_call. intros now.
  assert (reads_only ([] ++ [Ev Now now])) as Hr0 by (by constructor).
  apply sat_rbind, sat_attempt; [intros s|intros e].
  2: { left. split; [by apply reads_only_snoc|]. by eexists. }
  pose proof (reads_only_snoc _ (Get KSecret namespace secretName) (inl s) Hr0 eq_refl) as Hr1.
  destruct (canUpdate (secret_Meta s)) eqn:Hc; cbn [negb]; [|left; eauto].
  apply canUpdate_true in Hc. unfold ApplySecretUpdateModelToSecret.
  destruct (contentsLoop _ _ _) as [d| |] eqn:Hd; [|left; eauto..].
  destruct (contents_Ok _ _ _ _ Hd) as [_ Hdata].
  apply sat_rbind. cbn [go_bind repo_go ret sat]. apply sat_rbind, sat_attempt; [intros updated|intros e]; right;
    (eexists _, s, _, _; split_and!; [reflexivity|done|split; [set_solver|done]| |done];
     split_and!; by try apply Hdata).
Qed.

(** C27: Secrets change only by one request, the last, on a Secret that was read in the same
    call and is labelled [can-update]: an update stores exactly the keys sent, each with
    the value sent or, when none is, the value it had, at the resource version read; a
    deletion names the Secret read. *)
Theorem secret_changes_guarded actor u namespace secretName :
  (∀ h r, runs (UpdateSecret actor u namespace secretName) h r →
     secret_update_outcome u namespace secretName h r) ∧
  (∀ h r, runs (DeleteSecret namespace secretName) h r →
     delete_outcome KSecret ErrSecretNotFound namespace secretName h r).
Proof. split; intros h r; [apply UpdateSecret_outcome|apply deleteLabelled_outcome]. Qed.
End writes.

(** ** Confidentiality *)

(** A Secret with its values erased; its keys stay. *)
Definition blind (s : Secret) : Secret :=
  mkSecret (secret_Meta s) (secret_Type s) (secret_Immutable s) ((λ _, "") <$> secret_Data s).

(** What an answer shows, but for the values of Secrets. *)
Inductive shown :=
| ShownSecret (a : Secret + error)
| ShownSecrets (a : list Secret + error)
| ShownMetadata (a : list PartialObjectMetadata + error)
| ShownWorkspaces (a : list Workspace + error)
| ShownDeletion (a : () + error).

(** Requests are not seen at all. *)
Definition secret_view (e : event) : option shown :=
  match e with
  | @Ev X q x =>
    match q in req X return X → _ with
    | Get KSecret _ _ | Create KSecret _ | Update KSecret _ => λ x,
        Some (ShownSecret (match x with inl s => inl (blind s) | inr e => inr e end))
    | List KSecret _ => λ x,
        Some (ShownSecrets (match x with inl l => inl (blind <$> l) | inr e => inr e end))
    | List KSecretMetadata _ => λ x, Some (ShownMetadata x)
    | List KWorkspace _ => λ x, Some (ShownWorkspaces x)
    | Delete KSecret _ _ => λ x, Some (ShownDeletion x)
    | _ => λ _, None
    end x
  end.

(** What the program answers is a function of the Secrets' metadata and keys, and holds no
    values. *)
Definition hides_values {C} (contents : C → SecretData) (p : repo C) : Prop :=
  (∃ f : list shown → C + repo_error,
     ∀ h r, runs p h r → r = f (omap secret_view h)) ∧
  ∀ h c, runs p h (inl c) → ∀ key v, contents c !! key = Some v → sv_Base64 v = None.

Lemma keys_blind data : secretDataFromKubernetesSecret data = secretDataFromKubernetesSecret ((λ _, "") <$> data).
Proof. unfold secretDataFromKubernetesSecret. by rewrite <-map_fmap_compose. Qed.

Lemma keys_only data key v : secretDataFromKubernetesSecret data !! key = Some v → sv_Base64 v = None.
Proof. unfold secretDataFromKubernetesSecret. rewrite lookup_fmap. by destruct (data !! key); [intros [= <-]|]. Qed.

Lemma update_model_blind s : NewSecretUpdateModelFromSecret s = NewSecretUpdateModelFromSecret (blind s).
Proof. unfold NewSecretUpdateModelFromSecret. simpl. by rewrite <-keys_blind. Qed.

Lemma create_model_blind s : NewSecretCreateModelFromSecret s = NewSecretCreateModelFromSecret (blind s).
Proof. unfold NewSecretCreateModelFromSecret. simpl. by rewrite <-keys_blind. Qed.

Section hidden.
Context `{TimeLib} `{MapOrder}.

(** C26: The values of stored Secrets never leave the API: what listing, reading, creating,
    updating and deleting answer is determined by the metadata and the keys of the Secrets the
    API server returned and by what it returned of other objects (two histories that differ in
    the values of Secrets only get the same answer), and carries no value; an item of the list
    has no contents at all. *)
Theorem secret_values_hidden actor c u namespace secretName :
  hides_values (λ _, ∅) (GetSecrets namespace) ∧
  hides_values sup_Contents (GetSecret namespace secretName) ∧
  hides_values scr_Contents (CreateSecret actor c namespace) ∧
  hides_values sup_Contents (UpdateSecret actor u namespace secretName) ∧
  hides_values (λ _, ∅) (DeleteSecret namespace secretName).
Proof.
  split_and!; split; try (intros h m _ key v; by rewrite lookup_empty).
  - exists (λ l, match l with
                 | ShownMetadata (inr e) :: _ => inr (Cause e)
                 | [ShownMetadata (inl _); ShownWorkspaces (inr e)] => inr (Cause e)
                 | [ShownMetadata (inl l); ShownWorkspaces (inl ws)] =>
                     inl ((λ s, NewSecretListItemFromSecretMetadata s (buildSecretMountMap ws)) <$> l)
                 | _ => inr ErrSecretNotFound end).
    intros h r ([l|e] & h1 & -> & Hr); [|by destruct Hr as [-> <-]].
    destruct Hr as ([ws|e] & h2 & -> & Hr); by destruct Hr as [-> <-].
  - exists (λ l, match l with
                 | ShownSecret (inl s) :: _ => inl (NewSecretUpdateModelFromSecret s)
                 | ShownSecret (inr e) :: _ => inr (notFoundAs ErrSecretNotFound e)
                 | _ => inr ErrSecretNotFound end).
    intros h r ([s|e] & h' & -> & [-> <-]); simpl; [|done]. exact (f_equal inl (update_model_blind _)).
  - intros h m ([s|e] & h' & -> & [-> Hm]); [|done]. injection Hm as <-. apply keys_only.
  - exists (λ l, match NewSecretFromSecretCreateModel c namespace, l with
                 | Err e, _ => inr (Cause e)
                 | Panic w, _ => inr (Panics w)
                 | Ok _, ShownSecret (inl s) :: _ => inl (NewSecretCreateModelFromSecret s)
                 | Ok _, ShownSecret (inr e) :: _ =>
                     inr (if IsAlreadyExists e then ErrSecretAlreadyExists else Cause e)
                 | Ok _, _ => inr ErrSecretNotFound end).
    intros h r. unfold CreateSecret. destruct (NewSecretFromSecretCreateModel c namespace) as [s|e|w].
    + intros ([s'|e] & h' & -> & [-> <-]); simpl; [|done]. exact (f_equal inl (create_model_blind _)).
    + by intros [-> <-].
    + by intros [-> <-].
  - intros h m. unfold CreateSecret. destruct (NewSecretFromSecretCreateModel c namespace) as [s|e|w];
      [|by intros [_ ?]..].
    intros ([s'|e] & h' & -> & [-> Hm]); [|done]. injection Hm as <-. apply keys_only.
  - exists (λ l, match l with
                 | ShownSecret (inr e) :: _ => inr (notFoundAs ErrSecretNotFound e)
                 | [ShownSecret (inl s)] => if canUpdate (secret_Meta s)
                              then match ApplySecretUpdateModelToSecret u s with
                                   | Err e => inr (Cause e)
                                   | Panic w => inr (Panics w)
                                   | Ok _ => inr ErrSecretNotFound end
                              else inr ErrSecretNotCanUpdate
                 | ShownSecret (inl _) :: ShownSecret (inl s) :: _ => inl (NewSecretUpdateModelFromSecret s)
                 | ShownSecret (inl _) :: ShownSecret (inr e) :: _ => inr (notFoundAs ErrSecretNotFound e)
                 | _ => inr ErrSecretNotFound end).
    intros h r (now & h1 & -> & [s|e] & h2 & -> & Hr); simpl in Hr |- *; [|by destruct Hr as [-> <-]].
    destruct (canUpdate (secret_Meta s)); cbn [negb] in Hr; [|by destruct Hr as [-> <-]].
    unfold ApplySecretUpdateModelToSecret in Hr |- *.
    destruct (contentsLoop_Err (secret_Data s) (range "secretUpdate.Contents" (sup_Contents u)) ∅)
      as [[d Hd]|(e & key & v & He & _ & _ & Hall)].
    + rewrite Hd in Hr. destruct Hr as ([s'|e] & h' & -> & [-> <-]); simpl; [|done].
      exact (f_equal inl (update_model_blind _)).
    + rewrite He in Hr. rewrite Hall. by destruct Hr as [-> <-].
  - intros h m (now & h1 & -> & [s|e] & h2 & -> & Hr); simpl in Hr; [|by destruct Hr].
    destruct (canUpdate (secret_Meta s)); cbn [negb] in Hr; [|by destruct Hr].
    destruct (ApplySecretUpdateModelToSecret u s) as [s'|e|w]; [|by destruct Hr..].
    destruct Hr as ([s''|e] & h' & -> & [-> Hm]); [|done]. injection Hm as <-. apply keys_only.
  - exists (λ l, match l with
                 | ShownSecret (inr e) :: _ => inr (notFoundAs ErrSecretNotFound e)
                 | [ShownSecret (inl _)] => inr ErrSecretNotCanUpdate
                 | [ShownSecret (inl _); ShownDeletion (inl _)] => inl ()
                 | [ShownSecret (inl _); ShownDeletion (inr e)] => inr (notFoundAs ErrSecretNotFound e)
                 | _ => inr ErrSecretNotFound end).
    intros h r ([s|e] & h1 & -> & Hr); simpl in Hr; [|by destruct Hr as [-> <-]].
    destruct (canUpdate (secret_Meta s)); cbn [negb] in Hr; [|by destruct Hr as [-> <-]].
    destruct Hr as ([[]|e] & h2 & -> & Hr); by destruct Hr as [-> <-].
Qed.
End hidden.

(** ** Examples *)

Definition exSecret : Secret :=
  mkSecret (exLabelledMeta "s" "ns" {[LabelCanUpdate := "true"]}) "Opaque" None
    {["k" := "old"; "drop" := "x"]}.

(** Keep [k], set [new] to [hi], drop the rest. *)
Definition exSecretUpdate : SecretUpdate :=
  mkSecretUpdate "Opaque" false {["k" := mkSecretValue None; "new" := mkSecretValue (Some "aGk=")]}.

Example secret_update_example :
  ApplySecretUpdateModelToSecret (H := canonicalOrder) exSecretUpdate exSecret =
  Ok (mkSecret (secret_Meta exSecret) "Opaque" (Some false) {["k" := "old"; "new" := "hi"]}).
Proof. vm_compute. reflexivity. Qed.

Lemma secret_roundtrip_witness :
  ApplySecretUpdateModelToSecret (H := canonicalOrder) (NewSecretUpdateModelFromSecret exSecret)
    exSecret =
  Ok (mkSecret (secret_Meta exSecret) "Opaque" (Some false) (secret_Data exSecret)).
Proof.
  exact (proj2 (secret_roundtrip (H := canonicalOrder) (H0 := canonicalOrder_laws)) exSecret).
Defined.

Lemma secret_changes_guarded_witness :
  ∃ h s s', updatable KSecret "ns" "s" h s ∧ secret_updated exSecretUpdate s s' ∧
    secret_Data s' !! "new" = Some "hi" ∧ secret_Data s' !! "drop" = None.
Proof.
  set (w := exWorkspace "test" false "img" "pod" (exStatus WorkspaceStateRunning emptyActivity 0)).
  set (p := UpdateSecret (H := exampleTimeLib) (H0 := canonicalOrder) (Some "alice")
    exSecretUpdate "ns" "s").
  pose proof (interp_runs (exBackend w {[LabelCanUpdate := "true"]}) p ()) as Hr.
  assert (∃ m, (interp (exBackend w {[LabelCanUpdate := "true"]}) p ()).1 = inl m) as [m Hm]
    by (vm_compute; eexists; reflexivity).
  rewrite Hm in Hr.
  destruct (proj1 (secret_changes_guarded (H := exampleTimeLib) (H0 := canonicalOrder)
    (H1 := canonicalOrder_laws) (Some "alice") exSecretUpdate "ns" "s") _ _ Hr)
    as [(_ & e & [=])|(h0 & s & s' & x & _ & _ & Hu & Hs & _)].
  exists h0, s, s'. split_and!; [exact Hu|exact Hs|..]; destruct Hs as (_ & _ & Hd & _); by rewrite Hd.
Defined.
