(* ===== verification/Pvcs.v ===== *)
(** * Volume claims ([backend/internal/models/pvcs], [repositories/pvcs])

    Clients list the claims of a namespace with the volume they are bound to and who uses
    them, create claims of a storage class that is labelled [can-use], and delete claims
    that are labelled [can-update].  Quantities are parsed and printed by apimachinery's
    [resource] package ([QuantityLib]). *)

From Stdlib Require Import ZArith.
From stdpp Require Import base gmap strings list.
From S2P Require Import Prelude K8sTypes ApiTypes Client Examples Field Owned.
From S2P Require Import Validation Revision WorkspaceModel Mounts.

(** [resource.ParseQuantity], or the message of its error, and [Quantity.String]. *)
Class QuantityLib := {
  ParseQuantity : string → opaque + string;
  QuantityString : opaque → string;
}.

(** ** Models *)

Record PVCCreate := mkPVCCreate {
  pcr_Name : string;
  pcr_AccessModes : list string;
  pcr_StorageClassName : string;
  pcr_Storage : string;  (** [requests.storage] *)
}.

Record PodInfo := mkPodInfo {
  pin_Name : string;
  pin_Phase : string;
  pin_Node : option string;
}.

(** [WorkspaceInfo], with the name and the node of [PodTemplatePod]. *)
Record WorkspaceInfo := mkWorkspaceInfo {
  win_Name : string;
  win_State : WorkspaceState;
  win_StateMessage : string;
  win_PodTemplatePod : option (string * option string);
}.

Record StorageClassInfo := mkStorageClassInfo {
  sci_Name : string;
  sci_DisplayName : string;
  sci_Description : string;
}.

Record PVInfo := mkPVInfo {
  pvin_Name : string;
  pvin_ReclaimPolicy : string;
  pvin_VolumeMode : string;
  pvin_AccessModes : list string;
  pvin_StorageClass : option StorageClassInfo;
}.

Record PVCSpecModel := mkPVCSpecModel {
  psp_Storage : string;
  psp_AccessModes : list string;
  psp_VolumeMode : string;
  psp_StorageClassName : string;
}.

Record PVCListItem := mkPVCListItem {
  pli_Name : string;
  pli_CanMount : bool;
  pli_CanUpdate : bool;
  pli_Pods : list PodInfo;
  pli_Workspaces : list WorkspaceInfo;
  pli_Audit : AuditInfo;
  pli_Spec : PVCSpecModel;
  pli_PV : option PVInfo;
}.

(** ** Who uses a claim *)

(** A node name, if set. *)
Definition nodeOf (name : string) : option string :=
  if bool_decide (name = "") then None else Some name.

Definition podInfoOf (pod : Pod) : PodInfo :=
  mkPodInfo (meta_Name (pod_Meta pod)) (pod_Phase pod) (nodeOf (pod_NodeName pod)).

Definition workspaceInfoOf (ws : Workspace) : WorkspaceInfo :=
  let pod := st_PodTemplatePod (ws_Status ws) in
  mkWorkspaceInfo (ws_Name ws) (st_State (ws_Status ws)) (st_StateMessage (ws_Status ws))
    (if bool_decide (wps_Name pod = "") then None
     else Some (wps_Name pod, nodeOf (wps_NodeName pod))).

Definition buildPodInfoMap (podList : list Pod) : gmap string (list PodInfo) :=
  buildMountMap podClaimNames podInfoOf podList.

Definition buildWorkspaceInfoMap (workspaceList : list Workspace)
    : gmap string (list WorkspaceInfo) :=
  buildMountMap claimNames workspaceInfoOf workspaceList.

(** ** Conversions *)

(** Volumes and classes that were not found are zero objects. *)
Definition pvExists (pv : option PersistentVolume) : bool :=
  match pv with Some pv => negb (bool_decide (meta_UID (pv_Meta pv) = "")) | None => false end.

Definition scExists (sc : option StorageClass) : bool :=
  match sc with Some sc => negb (bool_decide (meta_UID (sc_Meta sc) = "")) | None => false end.

Definition storageClassInfo (sc : option StorageClass) : option StorageClassInfo :=
  if scExists sc
  then (λ sc, mkStorageClassInfo (meta_Name (sc_Meta sc)) (GetDisplayNameFromObjectMeta (sc_Meta sc))
                (GetDescriptionFromObjectMeta (sc_Meta sc))) <$> sc
  else None.

(** [corev1.PersistentVolumeFilesystem]. *)
Definition PersistentVolumeFilesystem : string := "Filesystem".

Definition pvInfo (pv : option PersistentVolume) (sc : option StorageClass) : option PVInfo :=
  if pvExists pv
  then (λ pv, mkPVInfo (meta_Name (pv_Meta pv)) (pv_ReclaimPolicy pv)
                (default PersistentVolumeFilesystem (pv_VolumeMode pv)) (pv_AccessModes pv)
                (storageClassInfo sc)) <$> pv
  else None.

Section claims.
Context `{QuantityLib} `{TimeLib}.

(** [requests.Storage().String()]; an absent quantity is zero. *)
Definition storageString (q : option opaque) : string :=
  match q with Some q => QuantityString q | None => "0" end.

Definition NewPVCCreateModelFromPVC (pvc : PersistentVolumeClaim) : PVCCreate :=
  let spec := pvc_Spec pvc in
  mkPVCCreate (meta_Name (pvc_Meta pvc)) (pvcSpec_AccessModes spec)
    (default "" (pvcSpec_StorageClassName spec)) (storageString (pvcSpec_Storage spec)).

Definition NewPVCListItemFromPVC (pvc : PersistentVolumeClaim) (pv : option PersistentVolume)
    (sc : option StorageClass) (pvcToPodInfoList : gmap string (list PodInfo))
    (pvcToWorkspaceInfoList : gmap string (list WorkspaceInfo)) : PVCListItem :=
  let m := pvc_Meta pvc in
  let spec := pvc_Spec pvc in
  mkPVCListItem (meta_Name m)
    (bool_decide (gm_index (meta_Labels m) LabelCanMount = "true")) (canUpdate m)
    (default [] (pvcToPodInfoList !! meta_Name m))
    (default [] (pvcToWorkspaceInfoList !! meta_Name m))
    (NewAuditFromObjectMeta m)
    (mkPVCSpecModel (storageString (pvcSpec_Storage spec)) (pvcSpec_AccessModes spec)
       (default PersistentVolumeFilesystem (pvcSpec_VolumeMode spec))
       (default "" (pvcSpec_StorageClassName spec)))
    (pvInfo pv sc).

(** ** The repository *)

(** [r.client.Get] of an object named, if it is, where a missing one is ignored. *)
Definition getIfNamed (k : kind) (name : string) : repo (option (obj k)) :=
  if bool_decide (name = "") then ret None
  else
    r <-- call (Get k "" name) ;;
    match r with
    | inl o => ret (Some o)
    | inr err => if IsNotFound err then ret None else throw (Cause err)
    end.

Fixpoint pvcModels (pods : gmap string (list PodInfo)) (workspaces : gmap string (list WorkspaceInfo))
    (l : list PersistentVolumeClaim) : repo (list PVCListItem) :=
  match l with
  | [] => ret []
  | pvc :: rest =>
    pv <=- getIfNamed KPersistentVolume (pvcSpec_VolumeName (pvc_Spec pvc)) ;;
    sc <=- getIfNamed KStorageClass (default "" (pvcSpec_StorageClassName (pvc_Spec pvc))) ;;
    items <=- pvcModels pods workspaces rest ;;
    ret (NewPVCListItemFromPVC pvc pv sc pods workspaces :: items)
  end.

Definition GetPVCs (namespace : string) : repo (list PVCListItem) :=
  pvcList <=- attempt (call (List KPersistentVolumeClaim (mkListOptions None ∅ namespace))) Cause ;;
  podList <=- attempt (call (List KPod (mkListOptions None ∅ namespace))) Cause ;;
  workspaceList <=- attempt (call (List KWorkspace (mkListOptions None ∅ namespace))) Cause ;;
  pvcModels (buildPodInfoMap podList) (buildWorkspaceInfoMap workspaceList) pvcList.

(** The claim that a request creates. *)
Definition pvcOf (pvcCreate : PVCCreate) (namespace : string) (quantity : opaque)
    : PersistentVolumeClaim :=
  mkPVC
    (setLabels (nameMeta (pcr_Name pvcCreate) namespace)
       (Some {[LabelCanMount := "true"; LabelCanUpdate := "true"; LabelOdhDashboard := "true"]}))
    (mkPVCSpec (pcr_AccessModes pvcCreate) "" (Some (pcr_StorageClassName pvcCreate)) None
       (Some quantity)).

Definition CreatePVC (actor : option string) (pvcCreate : PVCCreate) (namespace : string)
    : repo PVCCreate :=
  scErrs <=- ValidateKubernetesStorageClassIsUsable (NewPath ["storageClassName"])
               (pcr_StorageClassName pvcCreate) ;;
  let '(quantity, qErrs) :=
    match ParseQuantity (pcr_Storage pvcCreate) with
    | inl q => (q, [])
    | inr err => ("0", [FieldInvalid (Child (NewPath ["requests"]) ["storage"])
                          (BVString (pcr_Storage pvcCreate)) err])
    end in
  match scErrs ++ qErrs with
  | [] =>
    let pvc := pvcOf pvcCreate namespace quantity in
    let pvc := mkPVC (UpdateObjectMetaForCreate (pvc_Meta pvc) actor) (pvc_Spec pvc) in
    created <=- attempt (call (Create KPersistentVolumeClaim pvc))
      (λ err, if IsAlreadyExists err then ErrPVCAlreadyExists else Cause err) ;;
    ret (NewPVCCreateModelFromPVC created)
  | errs => throw (InternalValidationError errs)
  end.
End claims.

Definition DeletePVC (namespace pvcName : string) : repo () :=
  deleteLabelled KPersistentVolumeClaim ErrPVCNotFound ErrPVCNotCanUpdate namespace pvcName.

(** ** Validation of requests *)

Section validate.
Context `{NameLib} `{QuantityLib}.

Definition StorageRequestsMutate_Validate (storage prefix : string) : list field_error :=
  match ParseQuantity storage with
  | inl _ => []
  | inr err => [FieldInvalid (Child prefix ["storage"]) (BVString storage) err]
  end.

Definition PVCCreate_Validate (p : PVCCreate) (prefix : string) : list field_error :=
  ValidateKubernetesPVCName (Child prefix ["name"]) (pcr_Name p)
  ++ match pcr_AccessModes p with
     | [] => [FieldRequired (Child prefix ["accessModes"]) "at least one access mode is required"]
     | _ => []
     end
  ++ ValidateKubernetesStorageClassName (Child prefix ["storageClassName"]) (pcr_StorageClassName p)
  ++ StorageRequestsMutate_Validate (pcr_Storage p) (Child prefix ["requests"]).
End validate.

(** ** What is written *)

Section writes.
Context `{QuantityLib} `{TimeLib}.

(** Either nothing was written and creation failed, or the last request creates a claim of
    the class that was read and is labelled [can-use], with what the client asked for and
    the labels with which it can be mounted and deleted. *)
Definition pvc_create_outcome (actor : option string) (c : PVCCreate) (ns : string)
    (h : list event) (r : PVCCreate + repo_error) : Prop :=
  (reads_only h ∧ ∃ e, r = inr e) ∨
  ∃ h0 pvc q x, h = h0 ++ [Ev (Create KPersistentVolumeClaim pvc) x] ∧ reads_only h0 ∧
    checked KStorageClass LabelCanUse "" (pcr_StorageClassName c) h0 ∧
    ParseQuantity (pcr_Storage c) = inl q ∧
    NewPVCCreateModelFromPVC pvc =
      mkPVCCreate (pcr_Name c) (pcr_AccessModes c) (pcr_StorageClassName c) (QuantityString q) ∧
    meta_Namespace (pvc_Meta pvc) = ns ∧
    audit_CreatedBy (NewAuditFromObjectMeta (pvc_Meta pvc)) = actor ∧
    canUpdate (pvc_Meta pvc) = true ∧
    gm_index (meta_Labels (pvc_Meta pvc)) LabelCanMount = "true" ∧
    r = match x with
        | inl created => inl (NewPVCCreateModelFromPVC created)
        | inr e => inr (if IsAlreadyExists e then ErrPVCAlreadyExists else Cause e)
        end.

Lemma validateLabelled_reads k noun label where_ ns path value :
  calls_ok (λ _ q, is_write q = false) (validateLabelled k noun label where_ ns path value).
Proof. split; [done|]. intros [o|e]; simpl; unfold throw, ret; by case_match. Qed.

(** Claims are created only of classes that may be used, and deleted only when labelled
    [can-update]; a created claim can be mounted and deleted by clients. *)
Theorem pvc_changes_guarded actor c ns name :
  (∀ h r, runs (CreatePVC actor c ns) h r → pvc_create_outcome actor c ns h r) ∧
  (∀ h r, runs (DeletePVC ns name) h r →
     delete_outcome KPersistentVolumeClaim ErrPVCNotFound ns name h r).
Proof.
  split; [|intros h r; apply deleteLabelled_outcome].
  apply (sat_runs _ []). unfold CreatePVC. apply sat_rbind.
  eapply sat_mono;
    [apply sat_reads; [apply validateLabelled_reads|apply validateLabelled_sat|by constructor]|].
  intros h [scErrs|e] (Hro & _ & Hc); [|by left; eauto].
  destruct (ParseQuantity (pcr_Storage c)) as [q|err] eqn:Hq.
  2: { destruct scErrs; left; eauto. }
  rewrite app_nil_r. destruct scErrs; [|left; eauto].
  apply sat_rbind, sat_attempt; [intros created|intros e]; right;
    (eexists h, _, q, _; split_and!; [reflexivity|done|by apply Hc|done..| |done| |done];
     [by apply (audit_of_create (pvc_Meta (pvcOf c ns q)) actor)|by simplify_map_eq]).
Qed.
End writes.

(** ** What is listed *)

Section listing.
Context `{QuantityLib} `{TimeLib}.

(** The object of a name was asked for, if there is a name, and this is what was found. *)
Definition looked_up (k : kind) (name : string) (h : list event) (o : option (obj k)) : Prop :=
  match o with
  | Some x => name ≠ "" ∧ Ev (Get k "" name) (inl x) ∈ h
  | None => name = "" ∨ ∃ e, IsNotFound e = true ∧ Ev (Get k "" name) (inr e) ∈ h
  end.

(** The item of a claim: exactly who mounts it, each once, in the order listed, and the
    volume it is bound to if that exists. *)
Record lists_claim (pods : list Pod) (wss : list Workspace) (h : list event)
    (pvc : PersistentVolumeClaim) (item : PVCListItem) : Prop := {
  lc_name : pli_Name item = meta_Name (pvc_Meta pvc);
  lc_pods : pli_Pods item =
    podInfoOf <$> filter (λ pod, meta_Name (pvc_Meta pvc) ∈ podClaimNames pod) pods;
  lc_workspaces : pli_Workspaces item =
    workspaceInfoOf <$> filter (λ ws, meta_Name (pvc_Meta pvc) ∈ claimNames ws) wss;
  lc_canUpdate : pli_CanUpdate item = canUpdate (pvc_Meta pvc);
  lc_volume : ∃ pv sc, looked_up KPersistentVolume (pvcSpec_VolumeName (pvc_Spec pvc)) h pv ∧
    looked_up KStorageClass (default "" (pvcSpec_StorageClassName (pvc_Spec pvc))) h sc ∧
    (pvin_Name <$> pli_PV item) =
      (if pvExists pv then (λ pv, meta_Name (pv_Meta pv)) <$> pv else None) ∧
    (pli_PV item ≫= pvin_StorageClass) = (if pvExists pv then storageClassInfo sc else None);
}.

Lemma looked_up_mono k name h h' o :
  h `prefix_of` h' → looked_up k name h o → looked_up k name h' o.
Proof.
  intros Hp. unfold looked_up. destruct o as [x|].
  - intros [? ?]. split; [done|]. by eapply elem_of_prefix.
  - intros [?|(e & ? & ?)]; [by left|right]. exists e. split; [done|]. by eapply elem_of_prefix.
Qed.

Lemma getIfNamed_sat k name h :
  sat (getIfNamed k name) h (λ h' r, h `prefix_of` h' ∧ ∀ o, r = inl o → looked_up k name h' o).
Proof.
  unfold getIfNamed. case_bool_decide as Hn.
  - split; [done|]. intros o [= <-]. by left.
  - intros [o|e]; simpl.
    + split; [by eexists|]. intros o' [= <-]. split; [done|]. set_solver.
    + destruct (IsNotFound e) eqn:He; (split; [by eexists|]); intros o [= <-].
      right. exists e. split; [done|]. set_solver.
Qed.

Lemma pvcModels_sat pods wss l h :
  sat (pvcModels (buildPodInfoMap pods) (buildWorkspaceInfoMap wss) l) h
    (λ h' r, h `prefix_of` h' ∧ ∀ items, r = inl items → Forall2 (lists_claim pods wss h') l items).
Proof.
  revert h. induction l as [|pvc l IH]; intros h.
  { split; [done|]. intros items [= <-]. constructor. }
  cbn [pvcModels]. apply sat_rbind. eapply sat_mono; [apply getIfNamed_sat|].
  intros h1 [pv|e] [Hp1 Hpv]; [|by split].
  apply sat_rbind. eapply sat_mono; [apply getIfNamed_sat|].
  intros h2 [sc|e] [Hp2 Hsc]; [|by split; [etrans|]].
  apply sat_rbind. eapply sat_mono; [apply IH|].
  intros h3 [items|e] [Hp3 Hi]; [|by split; [etrans; [|etrans]|]].
  split; [by etrans; [|etrans]|]. intros items' [= <-]. constructor; [|by apply Hi].
  split; [done|apply buildMountMap_default|apply buildMountMap_default|done|].
  exists pv, sc. split_and!.
  - eapply looked_up_mono; [|by apply Hpv]. by etrans.
  - eapply looked_up_mono; [|by apply Hsc]. done.
  - simpl. unfold pvInfo. destruct (pvExists pv); by destruct pv.
  - simpl. unfold pvInfo. destruct pv as [pv|]; [|done]. by destruct (pvExists (Some pv)).
Qed.

(** Listing the claims of a namespace shows every claim, in order, with exactly the Pods
    and the Workspaces of the namespace that mount it, each once and in order, and the bound
    volume if it exists; a storage class is shown only with a bound volume. *)
Theorem GetPVCs_correct ns h items :
  runs (GetPVCs ns) h (inl items) →
  ∃ pvcs pods wss,
    Ev (List KPersistentVolumeClaim (mkListOptions None ∅ ns)) (inl pvcs) ∈ h ∧
    Ev (List KPod (mkListOptions None ∅ ns)) (inl pods) ∈ h ∧
    Ev (List KWorkspace (mkListOptions None ∅ ns)) (inl wss) ∈ h ∧
    Forall2 (lists_claim pods wss h) pvcs items.
Proof.
  intros ([pvcs|e] & h1 & -> & Hr); [|by destruct Hr].
  destruct Hr as ([pods|e] & h2 & -> & Hr); [|by destruct Hr].
  destruct Hr as ([wss|e] & h3 & -> & Hr); [|by destruct Hr].
  exists pvcs, pods, wss. split_and!; [set_solver..|].
  destruct (proj1 (sat_runs _ _ _) (pvcModels_sat pods wss pvcs
    [Ev (List KPersistentVolumeClaim (mkListOptions None ∅ ns)) (inl pvcs);
     Ev (List KPod (mkListOptions None ∅ ns)) (inl pods);
     Ev (List KWorkspace (mkListOptions None ∅ ns)) (inl wss)]) _ _ Hr) as [_ Hi].
  by apply Hi.
Qed.
End listing.

(** ** Examples *)

(** Quantities stand for themselves, but for ["bad"]. *)
Definition exampleQuantityLib : QuantityLib := {|
  ParseQuantity s := if bool_decide (s = "bad") then inr "unable to parse quantity" else inl s;
  QuantityString q := q |}.

Definition exClaimUser : Workspace :=
  exWorkspace "test" false "img" "pod" (exStatus WorkspaceStateRunning emptyActivity 0).

Definition exPVCCreate : PVCCreate := mkPVCCreate "home-pvc" ["ReadWriteOnce"] "fast" "10Gi".

Lemma pvc_changes_guarded_witness :
  ∃ h0 pvc, checked KStorageClass LabelCanUse "" "fast" h0 ∧ canUpdate (pvc_Meta pvc) = true ∧
    NewPVCCreateModelFromPVC (H := exampleQuantityLib) pvc = exPVCCreate.
Proof.
  set (e := exBackend exClaimUser {[LabelCanUse := "true"]}).
  set (p := CreatePVC (H := exampleQuantityLib) (Some "alice") exPVCCreate "ns").
  pose proof (interp_runs e p ()) as Hr.
  assert (∃ m, (interp e p ()).1 = inl m) as [m Hm] by (vm_compute; eexists; reflexivity).
  rewrite Hm in Hr.
  destruct (proj1 (pvc_changes_guarded (H := exampleQuantityLib) (H0 := exampleTimeLib)
    (Some "alice") exPVCCreate "ns" "home-pvc") _ _ Hr)
    as [(_ & err & [=])|(h0 & pvc & q & x & _ & _ & Hc & [= <-] & Hm' & _ & _ & Hu & _)].
  exists h0, pvc. by split_and!.
Defined.

(** A namespace with one bound claim, used by one Workspace twice. *)
Definition exClaims : handler () := λ X q s,
  (match q in req X return X → X with
   | List KPersistentVolumeClaim _ => λ _,
       inl [mkPVC (exMeta "home-pvc" "ns") (mkPVCSpec ["ReadWriteOnce"] "pv-1" (Some "fast") None (Some "10Gi"))]
   | List KWorkspace _ => λ _, inl [exClaimUser]
   | Get KPersistentVolume _ name => λ _, inl (mkPV (exMeta name "") "Delete" None ["ReadWriteOnce"])
   | _ => λ x, x
   end (exEnv 0 (mkExecOutcome [] None) X q s).1, s).

Lemma GetPVCs_correct_witness :
  ∃ h items, runs (GetPVCs (H := exampleQuantityLib) (H0 := exampleTimeLib) "ns") h (inl items) ∧
    (∃ pvcs pods wss, Forall2 (lists_claim pods wss h) pvcs items) ∧
    ((λ i, win_Name <$> pli_Workspaces i) <$> items) = [["test"]].
Proof.
  set (p := GetPVCs (H := exampleQuantityLib) (H0 := exampleTimeLib) "ns").
  pose proof (interp_runs exClaims p ()) as Hr.
  assert (∃ items, (interp exClaims p ()).1 = inl items ∧
    ((λ i, win_Name <$> pli_Workspaces i) <$> items) = [["test"]]) as (items & Hi & Hw)
    by (vm_compute; eexists; split; reflexivity).
  rewrite Hi in Hr. eexists _, items. split_and!; [exact Hr| |exact Hw].
  destruct (GetPVCs_correct (H := exampleQuantityLib) (H0 := exampleTimeLib) "ns" _ _ Hr)
    as (pvcs & pods & wss & _ & _ & _ & Hf). by exists pvcs, pods, wss.
Defined.
