(* ===== verification/PodLogs.v ===== *)
(** * Container logs ([backend/internal/repositories/podlogs])

    The logs of a Workspace are those of the Pod its status names.  Before it opens the
    stream, the repository resolves the container, checks it against the status of the
    Workspace, and reads the Pod to tell containers that have not started. *)

From Stdlib Require Import ZArith.
From stdpp Require Import base gmap strings list.
From S2P Require Import Prelude K8sTypes ApiTypes Client Examples Field Owned.
From S2P Require Import Validation WorkspaceRepo.

(** [models.LogOptions]. *)
Record LogOptions := mkLogOptions {
  log_Container : string;
  log_TailLines : Z;
  log_Previous : bool;
  log_SinceTime : option Z;
}.

Definition safeLimitBytes : Z := (100 * 1024 * 1024)%Z.
Definition defaultTailLines : Z := 1000%Z.
Definition primaryContainerName : string := "main".

Definition containerExists (name : string)
    (containers initContainers : list WorkspacePodContainer) : bool :=
  existsb (λ c, bool_decide (wpc_Name c = name)) containers
  || existsb (λ c, bool_decide (wpc_Name c = name)) initContainers.

(** [checkStatus]. *)
Definition checkStatus (previous : bool) (cs : ContainerStatus) : repo () :=
  if previous then
    if negb (cstat_LastTerminated cs) then throw ErrPreviousLogsNotFound else ret ()
  else
    match cstat_WaitingReason cs with
    | Some _ => throw ErrContainerNotRunning
    | None => ret ()
    end.

(** The search for the container among the statuses of the Pod. *)
Definition podChecked (pod : Pod) (name : string) (previous : bool) : repo () :=
  let named cs := bool_decide (cstat_Name cs = name) in
  match List.find named (pod_ContainerStatuses pod) with
  | Some cs => checkStatus previous cs
  | None => match List.find named (pod_InitContainerStatuses pod) with
            | Some cs => checkStatus previous cs
            | None => throw ErrContainerNotRunning
            end
  end.

Definition ensureLogsAvailable (namespace podName containerName : string) (previous : bool)
    : repo () :=
  pod <=- attempt (call (Get KPod namespace podName))
    (λ err, if IsNotFound err then ErrWorkspacePodNotRunning
            else Cause (ErrorWrap ("failed to get pod " +:+ podName +:+ ": " +:+ Error err) err)) ;;
  podChecked pod containerName previous.

(** The container a request means: the one it names, if the Pod has it, or the primary one. *)
Definition resolveContainer (podStatus : WorkspacePodStatus) (requested : string) : repo string :=
  if negb (bool_decide (requested = "")) then
    if negb (containerExists requested (wps_Containers podStatus) (wps_InitContainers podStatus))
    then throw ErrContainerNotFound
    else ret requested
  else if (length (wps_Containers podStatus) =? 0)%nat then throw ErrContainerNotRunning
  else if negb (containerExists primaryContainerName (wps_Containers podStatus) [])
  then throw ErrContainerNotFound
  else ret primaryContainerName.

Definition resolvePodAndContainer (namespace workspaceName : string) (opts : LogOptions)
    : repo (string * string) :=
  workspace <=- getWorkspace namespace workspaceName ;;
  let podStatus := st_PodTemplatePod (ws_Status workspace) in
  let podName := wps_Name podStatus in
  if bool_decide (podName = "") then throw ErrWorkspacePodNotRunning
  else
    containerName <=- resolveContainer podStatus (log_Container opts) ;;
    _ <=- ensureLogsAvailable namespace podName containerName (log_Previous opts) ;;
    ret (podName, containerName).

Definition OpenLogStream (namespace workspaceName : string) (opts : LogOptions) : repo string :=
  '(podName, containerName) <=- resolvePodAndContainer namespace workspaceName opts ;;
  let tailLines := if (log_TailLines opts <=? 0)%Z then defaultTailLines else log_TailLines opts in
  attempt
    (call (GetPodLogs namespace podName
       (mkPodLogOptions containerName tailLines safeLimitBytes (log_Previous opts) false true
          (log_SinceTime opts))))
    (λ err, Cause (ErrorWrap ("failed to open log stream for pod " +:+ podName
                    +:+ ", container " +:+ containerName +:+ ": " +:+ Error err) err)).

(** ** What a stream is opened on *)

(** The status the Pod reports of a container: that of the first container with the name,
    or else of the first init container. *)
Definition status_of (pod : Pod) (name : string) (cs : ContainerStatus) : Prop :=
  cstat_Name cs = name ∧
  (cs ∈ pod_ContainerStatuses pod ∨
   (∀ c, c ∈ pod_ContainerStatuses pod → cstat_Name c ≠ name) ∧
   cs ∈ pod_InitContainerStatuses pod).

(** The container has the logs asked for. *)
Definition has_logs (previous : bool) (cs : ContainerStatus) : Prop :=
  if previous then cstat_LastTerminated cs = true else cstat_WaitingReason cs = None.

(** The container that the Workspace's status allows for a request. *)
Definition allowed_container (podStatus : WorkspacePodStatus) (requested name : string) : Prop :=
  if decide (requested = "")
  then name = primaryContainerName ∧ name ∈ wpc_Name <$> wps_Containers podStatus
  else name = requested ∧
    name ∈ wpc_Name <$> (wps_Containers podStatus ++ wps_InitContainers podStatus).

(** The options of the stream: those requested, at least one line, at most the limit. *)
Definition stream_options (opts : LogOptions) (name : string) (o : PodLogOptions) : Prop :=
  plo_Container o = name ∧ plo_Previous o = log_Previous opts ∧
  plo_SinceTime o = log_SinceTime opts ∧ plo_Follow o = false ∧ plo_Timestamps o = true ∧
  plo_LimitBytes o = safeLimitBytes ∧ (0 < plo_TailLines o)%Z ∧
  ((0 < log_TailLines opts)%Z → plo_TailLines o = log_TailLines opts).

(** What a request for logs may do: the requests it sends with their answers, and what the
    client gets. *)
Inductive log_spec (namespace workspaceName : string) (opts : LogOptions)
    : list event → string + repo_error → Prop :=
| logs_no_workspace e :
    log_spec namespace workspaceName opts [Ev (Get KWorkspace namespace workspaceName) (inr e)]
      (inr (notFoundAs ErrWorkspaceNotFound e))
| logs_no_pod w :
    wps_Name (st_PodTemplatePod (ws_Status w)) = "" →
    log_spec namespace workspaceName opts [Ev (Get KWorkspace namespace workspaceName) (inl w)]
      (inr ErrWorkspacePodNotRunning)
| logs_no_container w e :
    wps_Name (st_PodTemplatePod (ws_Status w)) ≠ "" →
    (∀ name, ¬ allowed_container (st_PodTemplatePod (ws_Status w)) (log_Container opts) name) →
    e = (if decide (log_Container opts = "" ∧ wps_Containers (st_PodTemplatePod (ws_Status w)) = [])
         then ErrContainerNotRunning else ErrContainerNotFound) →
    log_spec namespace workspaceName opts [Ev (Get KWorkspace namespace workspaceName) (inl w)]
      (inr e)
| logs_pod_unread w podName name e err :
    wps_Name (st_PodTemplatePod (ws_Status w)) = podName → podName ≠ "" →
    allowed_container (st_PodTemplatePod (ws_Status w)) (log_Container opts) name →
    err = (if IsNotFound e then ErrWorkspacePodNotRunning
           else Cause (ErrorWrap ("failed to get pod " +:+ podName +:+ ": " +:+ Error e) e)) →
    log_spec namespace workspaceName opts
      [Ev (Get KWorkspace namespace workspaceName) (inl w); Ev (Get KPod namespace podName) (inr e)]
      (inr err)
| logs_unavailable w podName name pod err :
    wps_Name (st_PodTemplatePod (ws_Status w)) = podName → podName ≠ "" →
    allowed_container (st_PodTemplatePod (ws_Status w)) (log_Container opts) name →
    ((∀ cs, ¬ status_of pod name cs) ∧ err = ErrContainerNotRunning ∨
     ∃ cs, status_of pod name cs ∧ ¬ has_logs (log_Previous opts) cs ∧
       err = if log_Previous opts then ErrPreviousLogsNotFound else ErrContainerNotRunning) →
    log_spec namespace workspaceName opts
      [Ev (Get KWorkspace namespace workspaceName) (inl w); Ev (Get KPod namespace podName) (inl pod)]
      (inr err)
| logs_stream w podName name pod cs o x :
    wps_Name (st_PodTemplatePod (ws_Status w)) = podName → podName ≠ "" →
    allowed_container (st_PodTemplatePod (ws_Status w)) (log_Container opts) name →
    status_of pod name cs → has_logs (log_Previous opts) cs → stream_options opts name o →
    log_spec namespace workspaceName opts
      [Ev (Get KWorkspace namespace workspaceName) (inl w); Ev (Get KPod namespace podName) (inl pod);
       Ev (GetPodLogs namespace podName o) x]
      match x with
      | inl stream => inl stream
      | inr err => inr (Cause (ErrorWrap ("failed to open log stream for pod " +:+ podName
                     +:+ ", container " +:+ name +:+ ": " +:+ Error err) err))
      end.

Lemma containerExists_iff name cs ics :
  containerExists name cs ics = true ↔ name ∈ wpc_Name <$> (cs ++ ics).
Proof.
  unfold containerExists. rewrite orb_true_iff, !existsb_exists, list_elem_of_fmap.
  setoid_rewrite bool_decide_eq_true. setoid_rewrite elem_of_app.
  setoid_rewrite <-list_elem_of_In. naive_solver.
Qed.

Lemma find_status name (l : list ContainerStatus) :
  match List.find (λ cs, bool_decide (cstat_Name cs = name)) l with
  | Some cs => cs ∈ l ∧ cstat_Name cs = name
  | None => ∀ cs, cs ∈ l → cstat_Name cs ≠ name
  end.
Proof.
  destruct (List.find _ l) as [cs|] eqn:E.
  - apply find_some in E as [Hin Hn]. by rewrite bool_decide_eq_true, list_elem_of_In in *.
  - intros cs Hin Hn. apply (find_none _ _ E) in Hin || apply list_elem_of_In, (find_none _ _ E) in Hin.
    by apply bool_decide_eq_false in Hin.
Qed.

(** How a container is resolved: to one that is allowed, or to an error when none is. *)
Lemma resolveContainer_cases podStatus requested :
  (∃ name, resolveContainer podStatus requested = ret name ∧
     allowed_container podStatus requested name) ∨
  (∃ e, resolveContainer podStatus requested = throw e ∧
     (∀ name, ¬ allowed_container podStatus requested name) ∧
     e = if decide (requested = "" ∧ wps_Containers podStatus = [])
         then ErrContainerNotRunning else ErrContainerNotFound).
Proof.
  unfold resolveContainer, allowed_container.
  pose proof (containerExists_iff requested (wps_Containers podStatus) (wps_InitContainers podStatus)) as Hreq.
  pose proof (containerExists_iff primaryContainerName (wps_Containers podStatus) []) as Hprim.
  rewrite app_nil_r in Hprim.
  destruct (decide (requested = "")) as [->|Hne].
  - rewrite bool_decide_eq_true_2 by done. cbn [negb].
    destruct (wps_Containers podStatus) as [|c cs] eqn:E; cbn [length Nat.eqb].
    { right. eexists. split; [reflexivity|]. rewrite decide_True by done.
      split; [|done]. intros name [_ Hin]. by apply not_elem_of_nil in Hin. }
    destruct (containerExists primaryContainerName _ _); cbn [negb].
    + left. eexists. split; [reflexivity|]. split; [done|]. by apply Hprim.
    + right. eexists. split; [reflexivity|]. rewrite decide_False by naive_solver.
      split; [|done]. intros name [-> Hin%Hprim]. done.
  - rewrite bool_decide_eq_false_2 by done. cbn [negb].
    destruct (containerExists _ _ _); cbn [negb].
    + left. eexists. split; [reflexivity|]. split; [done|]. by apply Hreq.
    + right. eexists. split; [reflexivity|]. rewrite decide_False by naive_solver.
      split; [|done]. intros name [-> Hin%Hreq]. done.
Qed.

(** How a Pod that was read is checked. *)
Lemma checkStatus_cases previous cs :
  (checkStatus previous cs = ret () ∧ has_logs previous cs) ∨
  (checkStatus previous cs =
     throw (if previous then ErrPreviousLogsNotFound else ErrContainerNotRunning) ∧
   ¬ has_logs previous cs).
Proof.
  unfold checkStatus, has_logs. destruct previous.
  - destruct (cstat_LastTerminated cs); [left|right]; by split.
  - destruct (cstat_WaitingReason cs); [right|left]; by split.
Qed.

Lemma podChecked_cases pod name previous :
  (podChecked pod name previous = ret () ∧ ∃ cs, status_of pod name cs ∧ has_logs previous cs) ∨
  (∃ e, podChecked pod name previous = throw e ∧
     ((∀ cs, ¬ status_of pod name cs) ∧ e = ErrContainerNotRunning ∨
      ∃ cs, status_of pod name cs ∧ ¬ has_logs previous cs ∧
        e = if previous then ErrPreviousLogsNotFound else ErrContainerNotRunning)).
Proof.
  unfold podChecked, status_of.
  pose proof (find_status name (pod_ContainerStatuses pod)) as H1.
  pose proof (find_status name (pod_InitContainerStatuses pod)) as H2.
  destruct (List.find _ (pod_ContainerStatuses pod)) as [cs|].
  - destruct (checkStatus_cases previous cs) as [[-> ?]|[-> ?]]; [left|right]; naive_solver.
  - destruct (List.find _ (pod_InitContainerStatuses pod)) as [cs|].
    + destruct (checkStatus_cases previous cs) as [[-> ?]|[-> ?]]; [left|right]; naive_solver.
    + right. naive_solver.
Qed.

(** C29: [OpenLogStream] refines [log_spec]: the stream is opened only on the Pod the
    Workspace's status names, for a container of that status (the one requested or
    [main]) whose live status has the logs, with at least one line and a bounded size;
    otherwise nothing is opened and the error says why; nothing is written. *)
Theorem OpenLogStream_refines namespace workspaceName opts h r :
  runs (OpenLogStream namespace workspaceName opts) h r → log_spec namespace workspaceName opts h r.
Proof.
  unfold OpenLogStream, resolvePodAndContainer, getWorkspace.
  intros ([w|e] & h1 & -> & Hr); [|destruct Hr as [-> <-]; constructor].
  cbn [pbind attempt ret] in Hr. cbv beta zeta in Hr.
  case_bool_decide as Hn; [destruct Hr as [-> <-]; by constructor|].
  destruct (resolveContainer_cases (st_PodTemplatePod (ws_Status w)) (log_Container opts))
    as [(name & E & Ha)|(e & E & Hno & He)]; rewrite E in Hr; clear E;
    [|destruct Hr as [-> <-]; by econstructor].
  destruct Hr as ([pod|e] & h2 & -> & Hr); [|destruct Hr as [-> <-]; by econstructor].
  destruct (podChecked_cases pod name (log_Previous opts)) as [[E (cs & Hst & Hl)]|(e & E & Hx)].
  all: cbn -[podChecked] in Hr; rewrite E in Hr.
  - destruct Hr as (x & h3 & -> & Hr).
    destruct x as [stream|err]; destruct Hr as [-> <-];
      refine (logs_stream _ _ _ w _ name pod cs _ _ _ Hn Ha Hst Hl _); try done;
      by (split_and!; try done; simpl; destruct (Z.leb_spec (log_TailLines opts) 0); try done; lia).
  - destruct Hr as [-> <-]. by econstructor.
Qed.

(** ** Examples *)

Definition exLogWorkspace : Workspace :=
  exWorkspace "test" false "img" "pod"
    (mkWorkspaceStatus emptyActivity 0 0 false
       (mkPodOptionsStatus (mkPodOptionInfo "" []) (mkPodOptionInfo "" []))
       (mkWorkspacePodStatus "ws-test-abc-0" "node" "sa" [mkWorkspacePodContainer "main"] [])
       WorkspaceStateRunning "").

Definition exLogs : handler () := λ X q s,
  (match q in req X return X → X with
   | Get KWorkspace _ _ => λ _, inl exLogWorkspace
   | Get KPod _ _ => λ _, inl (exPod "uid" "Running" [] [mkContainerStatus "main" None false])
   | GetPodLogs _ _ _ => λ _, inl "a line"
   | _ => λ x, x
   end (exEnv 0 (mkExecOutcome [] None) X q s).1, s).

Lemma OpenLogStream_refines_witness :
  let opts := mkLogOptions "" 0 false None in
  ∃ h, runs (OpenLogStream "ns" "test" opts) h (inl "a line") ∧
    log_spec "ns" "test" opts h (inl "a line").
Proof.
  intros opts. pose proof (interp_runs exLogs (OpenLogStream "ns" "test" opts) ()) as Hr.
  assert ((interp exLogs (OpenLogStream "ns" "test" opts) ()).1 = inl "a line") as Hi
    by (vm_compute; reflexivity).
  rewrite Hi in Hr. eexists. split; [exact Hr|]. exact (OpenLogStream_refines _ _ _ _ _ Hr).
Defined.

(** Without previous logs, asking for them opens nothing. *)
Example previous_logs_missing :
  (interp exLogs (OpenLogStream "ns" "test" (mkLogOptions "main" 10 true None)) ()).1 =
  inr ErrPreviousLogsNotFound.
Proof. vm_compute. reflexivity. Qed.
