(* ===== verification/Cluster.v ===== *)
(** * Namespaces, storage classes and health of the backend

    [backend/internal/repositories/{namespaces,storageclasses,health_check}] with their
    models: listings of cluster-scoped objects without a filter, and the constant health
    report. *)

From stdpp Require Import base gmap strings list.
From S2P Require Import Prelude K8sTypes ApiTypes Client Examples Validation Revision.

Record NamespaceModel := mkNamespaceModel { nm_Name : string }.

Definition NewNamespaceModelFromNamespace (ns : Namespace) : NamespaceModel :=
  mkNamespaceModel (meta_Name (nsObj_Meta ns)).

Definition GetNamespaces : repo (list NamespaceModel) :=
  namespaces <=- attempt (call (List KNamespace (mkListOptions None ∅ ""))) Cause ;;
  ret (NewNamespaceModelFromNamespace <$> namespaces).

Record StorageClassListItem := mkStorageClassListItem {
  scl_Name : string;
  scl_DisplayName : string;
  scl_Description : string;
  scl_CanUse : bool;
}.

Definition NewStorageClassListItemFromStorageClass (sc : StorageClass) : StorageClassListItem :=
  let m := sc_Meta sc in
  mkStorageClassListItem (meta_Name m) (GetDisplayNameFromObjectMeta m)
    (GetDescriptionFromObjectMeta m)
    (bool_decide (gm_index (meta_Labels m) LabelCanUse = "true")).

Definition GetStorageClasses : repo (list StorageClassListItem) :=
  storageClasses <=- attempt (call (List KStorageClass (mkListOptions None ∅ ""))) Cause ;;
  ret (NewStorageClassListItemFromStorageClass <$> storageClasses).

(** [HealthCheck]: the version, always healthy. *)
Record HealthCheckModel := mkHealthCheckModel { hc_Status : string; hc_Version : string }.

Definition HealthCheck (version : string) : repo HealthCheckModel :=
  ret (mkHealthCheckModel "Healthy" version).
