(* ===== verification/Metrics.v ===== *)
(** * Resource usage of a Workspace ([backend/internal/repositories/metrics])

    [GetWorkspaceResourceUsage] joins the resources declared by the containers of the
    Workspace's Pod with the sample of the Metrics Server.  Whether the Metrics API is
    served is asked of the REST mapper at most once per [apiAvailabilityTTL]: the memo is
    the repository's state, passed in and out.  Models: [models/workspaces/podtemplate/
    resources]. *)

From Stdlib Require Import ZArith.
From stdpp Require Import base gmap strings list.
From S2P Require Import Prelude K8sTypes ApiTypes Client Examples Validation Revision Pvcs.

(** ** Models *)

Record ResourceValues := mkResourceValues { rv_CPU : string; rv_Memory : string }.

Record MetricsFromMetricsServer := mkMetricsFromMetricsServer {
  mms_Timestamp : string;
  mms_Usage : ResourceValues;
}.

Record ContainerResourceUsage := mkContainerResourceUsage {
  cru_Metrics : option MetricsFromMetricsServer;
  cru_Resources : opaque;
}.

Record WorkspaceResourceUsage := mkWorkspaceResourceUsage {
  wru_Containers : gmap string ContainerResourceUsage;
}.

(** The loop over [pod.Spec.Containers]. *)
Definition containerUsages (usageByContainer : gmap string MetricsFromMetricsServer)
    (l : list PodContainer) : gmap string ContainerResourceUsage :=
  foldl (λ containers c,
      <[pc_Name c := mkContainerResourceUsage (usageByContainer !! pc_Name c) (pc_Resources c)]>
        containers) ∅ l.

(** Reading a nil map finds nothing, as reading an empty one. *)
Definition NewWorkspaceResourceUsage (pod : option Pod)
    (usageByContainer : gmap string MetricsFromMetricsServer) : option WorkspaceResourceUsage :=
  match pod with
  | None => None
  | Some pod =>
      Some (mkWorkspaceResourceUsage (containerUsages usageByContainer (pod_Containers pod)))
  end.

Section usage.
Context `{QuantityLib} `{TimeLib}.

Definition resourceValues (rl : gmap string opaque) : ResourceValues :=
  mkResourceValues
    match rl !! "cpu" with Some cpu => QuantityString cpu | None => "" end
    match rl !! "memory" with Some mem => QuantityString mem | None => "" end.

Definition UsageForPod (pm : option PodMetrics) : gmap string MetricsFromMetricsServer :=
  match pm with
  | None => ∅
  | Some pm =>
    let timestamp := FormatRFC3339 (pmx_Timestamp pm) in
    foldl (λ byContainer c,
        <[cmx_Name c := mkMetricsFromMetricsServer timestamp (resourceValues (cmx_Usage c))]>
          byContainer) ∅ (pmx_Containers pm)
  end.
End usage.

(** ** Availability of the Metrics API *)

Definition apiAvailabilityTTL : Z := 60 * Second.

(** The variables that [memoize] closes over; None is the zero time. *)
Record memo := mkMemo { memo_val : bool; memo_checkedAt : option Z }.

Definition emptyMemo : memo := mkMemo false None.

(** [val, checkedAt = probe(), time.Now()]. *)
Definition refresh (probe : prog bool) : prog (bool * memo) :=
  val <-- probe ;;
  now <-- call Now ;;
  Ret (val, mkMemo val (Some now)).

Definition memoize (ttl : Z) (probe : prog bool) (m : memo) : prog (bool * memo) :=
  match memo_checkedAt m with
  | None => refresh probe
  | Some checkedAt =>
    now <-- call Now ;;
    if (ttl <=? now - checkedAt)%Z then refresh probe else Ret (memo_val m, m)
  end.

Definition metricsAPIServed : prog bool :=
  r <-- call MetricsRESTMapping ;;
  Ret match r with inl _ => true | inr _ => false end.

Definition apiAvailable : memo → prog (bool * memo) :=
  memoize apiAvailabilityTTL metricsAPIServed.

(** ** The repository *)

(** The Pod of an existing Workspace. *)
Definition workspacePod (ns workspace : string) : repo Pod :=
  _ <=- attempt (call (Get KWorkspace ns workspace)) (notFoundAs ErrWorkspaceNotFound) ;;
  podList <=- attempt
    (call (List KPod (mkListOptions None {[LabelWorkspaceName := workspace]} ns))) Cause ;;
  match podList with
  | [] => throw ErrWorkspacePodNotRunning
  | pod :: _ => ret pod
  end.

Section repository.
Context `{QuantityLib} `{TimeLib}.

(** The sample of the Pod's metrics, None when there is none to be had. *)
Definition podUsage (ns : string) (pod : Pod) : repo (option WorkspaceResourceUsage) :=
  r <-- call (Get KPodMetrics ns (meta_Name (pod_Meta pod))) ;;
  match r with
  | inl podMetrics => ret (NewWorkspaceResourceUsage (Some pod) (UsageForPod (Some podMetrics)))
  | inr _ =>
    ctxErr <-- call ContextErr ;;
    match ctxErr with
    | Some e => throw (Cause e)
    | None => ret (NewWorkspaceResourceUsage (Some pod) ∅)
    end
  end.

Definition GetWorkspaceResourceUsage (ns workspace : string) (m : memo)
    : prog ((option WorkspaceResourceUsage + repo_error) * memo) :=
  r <-- workspacePod ns workspace ;;
  match r with
  | inr err => Ret (inr err, m)
  | inl pod =>
    '(available, m) <-- apiAvailable m ;;
    if negb available then Ret (inl (NewWorkspaceResourceUsage (Some pod) ∅), m)
    else r <-- podUsage ns pod ;; Ret (r, m)
  end.
End repository.

(** ** Properties *)

Section facts.
Context `{QuantityLib} `{TimeLib}.

(** Every container of the Pod has an entry: its declared resources, and its usage when the
    sample has one; a name that occurs twice has that of its last occurrence. *)
Definition usage_of_sample (pm : PodMetrics) (name : string) : option MetricsFromMetricsServer :=
  (λ c, mkMetricsFromMetricsServer (FormatRFC3339 (pmx_Timestamp pm))
          (resourceValues (cmx_Usage c)))
    <$> last (filter (λ c, cmx_Name c = name) (pmx_Containers pm)).

Definition joined (pod : Pod) (sample : option PodMetrics) (u : WorkspaceResourceUsage) : Prop :=
  ∀ name, wru_Containers u !! name =
    (λ c, mkContainerResourceUsage (sample ≫= λ pm, usage_of_sample pm name) (pc_Resources c))
      <$> last (filter (λ c, pc_Name c = name) (pod_Containers pod)).

Lemma UsageForPod_lookup pm name :
  UsageForPod (Some pm) !! name = usage_of_sample pm name.
Proof. unfold UsageForPod. by rewrite foldl_insert_lookup. Qed.

Lemma containerUsages_joined pod sample usage :
  (∀ name, usage !! name = sample ≫= λ pm, usage_of_sample pm name) →
  joined pod sample (mkWorkspaceResourceUsage (containerUsages usage (pod_Containers pod))).
Proof.
  intros Hu name. cbn. unfold containerUsages. rewrite foldl_insert_lookup.
  destruct (last _) as [c|] eqn:Hc; [|done]. cbn. do 2 f_equal.
  apply last_Some_elem_of, list_elem_of_filter in Hc as [-> _]. apply Hu.
Qed.

Definition podsOf (ns workspace : string) : req (answer (list Pod)) :=
  List KPod (mkListOptions None {[LabelWorkspaceName := workspace]} ns).

(** What a call of [GetWorkspaceResourceUsage] returns, by the answers it got. *)
Definition usage_outcome (ns workspace : string) (h : list event) (m' : memo)
    (r : option WorkspaceResourceUsage + repo_error) : Prop :=
  (∃ w pod pods sample u,
     Ev (Get KWorkspace ns workspace) (inl w) ∈ h ∧
     Ev (podsOf ns workspace) (inl (pod :: pods)) ∈ h ∧
     match sample with
     | Some pm => Ev (Get KPodMetrics ns (meta_Name (pod_Meta pod))) (inl pm) ∈ h
     | None => memo_val m' = false ∨
               ∃ e, Ev (Get KPodMetrics ns (meta_Name (pod_Meta pod))) (inr e) ∈ h
     end ∧
     joined pod sample u ∧ r = inl (Some u)) ∨
  (∃ e, Ev (Get KWorkspace ns workspace) (inr e) ∈ h ∧
        r = inr (notFoundAs ErrWorkspaceNotFound e)) ∨
  (∃ e, Ev (podsOf ns workspace) (inr e) ∈ h ∧ r = inr (Cause e)) ∨
  (Ev (podsOf ns workspace) (inl []) ∈ h ∧ r = inr ErrWorkspacePodNotRunning) ∨
  (∃ e, Ev ContextErr (Some e) ∈ h ∧ r = inr (Cause e)).

(** The answer about availability is the memo's while it is younger than [ttl]; otherwise
    it is that of a new probe, remembered with the time at which the probe returned. *)
Lemma memoize_cases ttl probe m h v m' :
  runs (memoize ttl probe m) h (v, m') →
  (∃ t now, memo_checkedAt m = Some t ∧ (now - t < ttl)%Z ∧ h = [Ev Now now] ∧
            v = memo_val m ∧ m' = m) ∨
  (∃ h0 h1 now, h = h0 ++ h1 ++ [Ev Now now] ∧ runs probe h1 v ∧ m' = mkMemo v (Some now) ∧
     match memo_checkedAt m with
     | None => h0 = []
     | Some t => ∃ now0, h0 = [Ev Now now0] ∧ (ttl <= now0 - t)%Z
     end).
Proof.
  assert (Hrefresh : ∀ h v m', runs (refresh probe) h (v, m') →
    ∃ h1 now, h = h1 ++ [Ev Now now] ∧ runs probe h1 v ∧ m' = mkMemo v (Some now)).
  { clear. intros h v m' Hr. unfold refresh in Hr.
    apply runs_bind in Hr as (h1 & h2 & v1 & -> & Hp & (now & h3 & -> & -> & [= <- <-])).
    by exists h1, now. }
  unfold memoize. destruct (memo_checkedAt m) as [t|] eqn:Ht.
  - intros (now & h' & -> & Hr). cbn [pbind] in Hr. destruct (ttl <=? now - t)%Z eqn:E.
    + right. apply Hrefresh in Hr as (h1 & now' & -> & Hp & ->).
      exists [Ev Now now], h1, now'. split_and!; try done. exists now. split; [done|lia].
    + left. destruct Hr as [-> [= <- <-]]. exists t, now. split_and!; done || lia.
  - intros Hr. right. apply Hrefresh in Hr as (h1 & now & -> & Hp & ->).
    by exists [], h1, now.
Qed.

Lemma memoize_val ttl probe m h v m' :
  runs (memoize ttl probe m) h (v, m') → memo_val m' = v.
Proof.
  intros [(t & now & ? & ? & ? & -> & ->)|(? & ? & ? & ? & ? & -> & ?)]%memoize_cases; done.
Qed.

(** the Metrics API's availability is taken from the memo only while less than
    [apiAvailabilityTTL] has passed since the mapper last answered; otherwise the mapper is
    asked exactly once, its answer is returned, and it is remembered with the time at which
    it came.  So two questions to the mapper are at least that long apart. *)
Theorem apiAvailable_bounded m h v m' :
  runs (apiAvailable m) h (v, m') →
  (v = memo_val m ∧ m' = m ∧
   ∃ t now, memo_checkedAt m = Some t ∧ (now - t < apiAvailabilityTTL)%Z ∧ h = [Ev Now now]) ∨
  (∃ h0 x now, h = h0 ++ [Ev MetricsRESTMapping x; Ev Now now] ∧
     (v = true ↔ ∃ y, x = inl y) ∧ m' = mkMemo v (Some now) ∧
     match memo_checkedAt m with
     | None => h0 = []
     | Some t => ∃ now0, h0 = [Ev Now now0] ∧ (apiAvailabilityTTL <= now0 - t)%Z
     end).
Proof.
  intros [(t & now & ? & ? & -> & -> & ->)|(h0 & h1 & now & -> & Hp & -> & Hm)]%memoize_cases.
  - left. split_and!; [done..|]. by exists t, now.
  - right. destruct Hp as (x & h' & -> & -> & <-). exists h0, x, now. split_and!; try done.
    destruct x as [y|e]; naive_solver.
Qed.

Lemma apiAvailable_reads m : calls_ok (λ _ q, is_write q = false) (apiAvailable m).
Proof.
  unfold apiAvailable, memoize. destruct (memo_checkedAt m); simpl; [|naive_solver].
  split; [done|]. intros now. by destruct (apiAvailabilityTTL <=? now - z)%Z.
Qed.

(** a successful answer has one entry per container of the first Pod labelled with
    the Workspace's name, with the resources the Pod declares and the usage of the Pod's
    sample; entries are without usage only when the Metrics API is not served or the sample
    could not be read.  A Workspace that does not exist is told from one without a Pod, and
    nothing is written. *)
Theorem GetWorkspaceResourceUsage_correct ns workspace m h r m' :
  runs (GetWorkspaceResourceUsage ns workspace m) h (r, m') →
  usage_outcome ns workspace h m' r ∧ reads_only h.
Proof.
  intros Hr. split.
  - revert Hr. unfold GetWorkspaceResourceUsage, usage_outcome.
    intros ([w|e] & h1 & -> & Hr); cbn in Hr;
      [|destruct Hr as [-> [= <- <-]]; right; left; set_solver].
    destruct Hr as ([[|pod pods]|e] & h2 & -> & Hr); cbn -[apiAvailable podUsage] in Hr.
    { destruct Hr as [-> [= <- <-]]. do 3 right. left. set_solver. }
    2: { destruct Hr as [-> [= <- <-]]. do 2 right. left. set_solver. }
    apply runs_bind in Hr as (h3 & h4 & [v m1] & -> & Hav & Hr).
    pose proof (memoize_val _ _ _ _ _ _ Hav) as <-.
    destruct (memo_val m1) eqn:Hv; cbn [negb] in Hr.
    2: { destruct Hr as [-> [= <- <-]].
         pose proof (containerUsages_joined pod None ∅) as Hu.
         left. exists w, pod, pods, None. eexists. split_and!. 4: by apply Hu. all: set_solver. }
    destruct Hr as ([pm|e] & h5 & -> & Hr).
    + destruct Hr as [-> [= <- <-]].
      left. exists w, pod, pods, (Some pm). eexists.
      split_and!. 4: apply (containerUsages_joined pod (Some pm) (UsageForPod (Some pm))), UsageForPod_lookup. all: set_solver.
    + destruct Hr as ([e'|] & h6 & -> & -> & [= <- <-]); [do 4 right; set_solver|].
      left. exists w, pod, pods, None. eexists.
      split_and!. 4: by apply (containerUsages_joined pod None ∅). 4: done. 3: right; exists e. all: set_solver.
  - eapply reads_only_runs, Hr.
    unfold GetWorkspaceResourceUsage, workspacePod, podUsage.
    repeat first [done|apply apiAvailable_reads|apply calls_ok_rbind|apply calls_ok_bind
                 |apply calls_ok_attempt|case_match|split|intros ?].
Qed.
End facts.

(** ** Examples *)

(** A Workspace with a Pod of two containers, of which the Metrics API samples one. *)
Definition exMetrics : handler () := λ X q s,
  (match q in req X return X → X with
   | Get KWorkspace ns name => λ _,
       inl (exWorkspace name false "img" "pod" (exStatus WorkspaceStateRunning emptyActivity 0))
   | List KPod _ => λ _,
       inl [mkPod (exMeta "ws-test-0" "ns") "node"
              [mkPodContainer "main" "1cpu"; mkPodContainer "proxy" ""] [] [] "Running" "" [] [] []]
   | Get KPodMetrics _ _ => λ _,
       inl (mkPodMetrics 7 [mkContainerMetrics "main" {["cpu" := "50m"]}])
   | MetricsRESTMapping => λ _, inl ()
   | _ => λ x, x
   end (exEnv 5 (mkExecOutcome [] None) X q s).1, s).

Lemma apiAvailable_bounded_witness :
  ∃ h, runs (apiAvailable emptyMemo) h (true, mkMemo true (Some 5%Z)) ∧
    ∃ x now, h = [Ev MetricsRESTMapping x; Ev Now now].
Proof.
  pose proof (interp_runs exMetrics (apiAvailable emptyMemo) ()) as Hr.
  assert ((interp exMetrics (apiAvailable emptyMemo) ()).1 = (true, mkMemo true (Some 5%Z)))
    as Hi by (vm_compute; reflexivity).
  rewrite Hi in Hr. eexists. split; [exact Hr|].
  destruct (apiAvailable_bounded _ _ _ _ Hr)
    as [(_ & [=] & _)|(h0 & x & now & Hh & _ & _ & Hm)].
  exists x, now. rewrite Hh. simpl in Hm. by rewrite Hm.
Defined.

Lemma GetWorkspaceResourceUsage_correct_witness :
  let p := GetWorkspaceResourceUsage (H := exampleQuantityLib) (H0 := exampleTimeLib)
             "ns" "test" emptyMemo in
  ∃ h r m', runs p h (r, m') ∧
    usage_outcome (H := exampleQuantityLib) (H0 := exampleTimeLib) "ns" "test" h m' r ∧
    r = inl (Some (mkWorkspaceResourceUsage
      {["main" := mkContainerResourceUsage
                    (Some (mkMetricsFromMetricsServer "7" (mkResourceValues "50m" ""))) "1cpu";
        "proxy" := mkContainerResourceUsage None ""]})).
Proof.
  intros p. pose proof (interp_runs exMetrics p ()) as Hr.
  destruct (interp exMetrics p ()).1 as [r m'] eqn:Hi. eexists _, r, m'.
  split; [exact Hr|].
  split; [exact (proj1 (GetWorkspaceResourceUsage_correct _ _ _ _ _ _ Hr))|].
  apply (f_equal fst) in Hi. simpl in Hi. rewrite <-Hi. vm_compute. reflexivity.
Defined.
