(* ===== verification/Http.v ===== *)
(** * Requests and responses of the backend ([backend/api])

    A request as the handlers read it, the responses they write ([response_errors.go],
    [response_success.go], [helpers.go]) and the monad of the handlers: a piece of a handler
    either hands a value to the code below or has replied.  Decoding of bodies, parsing of
    media types and the rendering of field and API errors are the libraries' ([CodecLib]);
    a response carries the value that is marshalled.  Logging, and failures to marshal or to
    write to the connection, are not modelled. *)

From Stdlib Require Import ZArith Ascii.
From stdpp Require Import base gmap strings list.
From S2P Require Import Prelude K8sTypes ApiTypes Client Examples Field Validation.
From S2P Require Import ListValues WorkspaceModel KindModel WorkspaceList Secrets Pvcs.
From S2P Require Import Cluster Metrics.

(** ** Requests *)

(** A body: its bytes, and the error (the size limit's, or another) by which it breaks off. *)
Record decode_error := mkDecodeError {
  de_MaxBytes : bool;  (** [errors.As] finds a [MaxBytesError] *)
  de_EOF : bool;       (** [errors.Is] finds [io.EOF] *)
  de_Msg : string;
}.

Record http_body := mkBody { body_Bytes : string; body_Error : option decode_error }.

(** The header is keyed by canonical names, the query by the parameters' names. *)
Record http_request := mkRequest {
  rq_Params : gmap string string;  (** what the router bound *)
  rq_Header : gmap string (list string);
  rq_Query : gmap string (list string);
  rq_Body : http_body;
}.

(** [ps.ByName]. *)
Definition ByName (r : http_request) (name : string) : string := default "" (rq_Params r !! name).

(** [r.URL.Query().Get]. *)
Definition QueryGet (r : http_request) (name : string) : string :=
  default "" (rq_Query r !! name ≫= head).

(** [textproto.CanonicalMIMEHeaderKey]. *)
Definition in_range (lo hi : N) (c : ascii) : bool :=
  (lo <=? N_of_ascii c)%N && (N_of_ascii c <=? hi)%N.
Definition is_upper : ascii → bool := in_range 65 90.
Definition is_lower : ascii → bool := in_range 97 122.

Definition validHeaderFieldByte (c : ascii) : bool :=
  is_upper c || is_lower c || in_range 48 57 c
  || bool_decide (c ∈ chars "!#$%&'*+-.^_`|~").

Fixpoint canonicalise (upper : bool) (s : string) : string :=
  match s with
  | EmptyString => EmptyString
  | String c s =>
    let c' := if upper && is_lower c then ascii_of_N (N_of_ascii c - 32)
              else if negb upper && is_upper c then ascii_of_N (N_of_ascii c + 32)
              else c in
    String c' (canonicalise (bool_decide (c = "-"%char)) s)
  end.

Definition CanonicalHeaderKey (s : string) : string :=
  if forallb validHeaderFieldByte (chars s) then canonicalise true s else s.

(** [r.Header.Values] and [r.Header.Get]. *)
Definition HeaderValues (r : http_request) (key : string) : list string :=
  default [] (rq_Header r !! CanonicalHeaderKey key).
Definition HeaderGet (r : http_request) (key : string) : string :=
  default "" (head (HeaderValues r key)).

(** ** Bodies *)

(** The [Data] of the envelopes that requests carry. *)
Inductive body_type :=
| BWorkspaceCreate | BWorkspaceUpdate | BWorkspaceActionPause | BListValues
| BWorkspaceKindUpdate | BSecretCreate | BSecretUpdate | BPVCCreate.

Definition body_of (t : body_type) : Type :=
  match t with
  | BWorkspaceCreate => WorkspaceCreate
  | BWorkspaceUpdate => WorkspaceUpdate
  | BWorkspaceActionPause => WorkspaceActionPause
  | BListValues => ListValuesRequest
  | BWorkspaceKindUpdate => WorkspaceKindUpdate
  | BSecretCreate => SecretCreate
  | BSecretUpdate => SecretUpdate
  | BPVCCreate => PVCCreate
  end.

(** [metav1.StatusCause]. *)
Record StatusCause := mkStatusCause {
  scs_Type : string; scs_Field : string; scs_Message : string
}.

(** Errors of [runtime.DecodeInto]: a strict decoding error with its list, or another. *)
Inductive yaml_error :=
| StrictDecodingError (errs : list (option string))
| DecodingError (msg : string).

Class CodecLib := {
  (** [json.Decoder] without unknown fields, into an envelope: its [Data] *)
  Decode : ∀ t : body_type, http_body → option (body_of t) + decode_error;
  (** [runtime.DecodeInto(StrictYamlSerializer, ...)]: [apiVersion], [kind], the object *)
  DecodeWorkspaceKind : string → (string * string * WorkspaceKind) + yaml_error;
  (** [mime.ParseMediaType], without the parameters *)
  ParseMediaType : string → string + string;
  (** [field.Error.ErrorBody] and [field.ErrorList.ToAggregate().Error()] *)
  ErrorBody : field_error → string;
  AggregateError : list field_error → string;
  (** the [APIStatus] that [errors.As] finds, if any; its [Details], if any; their causes *)
  APIStatusDetails : error → option (option (list StatusCause));
}.

(** ** Responses *)

Inductive ErrorCauseOrigin := OriginInternal | OriginKubernetes.

Record ConflictError := mkConflictError {
  cfe_Origin : ErrorCauseOrigin;
  cfe_Message : string;
}.

Record ValidationErrorModel := mkValidationErrorModel {
  ve_Origin : ErrorCauseOrigin;
  ve_Type : string;
  ve_Field : string;
  ve_Message : string;
}.

Record ErrorCause := mkErrorCause {
  ec_ConflictCauses : list ConflictError;
  ec_ValidationErrors : list ValidationErrorModel;
}.

(** [HTTPError] with its embedded [ErrorResponse]. *)
Record HTTPErrorModel := mkHTTPError {
  he_StatusCode : Z;
  he_Code : string;
  he_Message : string;
  he_Cause : option ErrorCause;
}.

Record UserResponse := mkUserResponse { ur_UserId : string; ur_ClusterAdmin : bool }.

(** The [Data] of the envelopes of responses. *)
Inductive envelope :=
| EnvWorkspace (d : WorkspaceUpdate) | EnvWorkspaceCreate (d : WorkspaceCreate)
| EnvWorkspaceList (d : list WorkspaceListItem) | EnvActionPause (d : WorkspaceActionPause)
| EnvDetails (d : WorkspaceDetails) | EnvUsage (d : option WorkspaceResourceUsage)
| EnvKind (d : WorkspaceKindUpdate) | EnvKindCreate (d : WorkspaceKindCreate)
| EnvKindList (d : list WorkspaceKindListItem) | EnvOptions (d : PodTemplateOptions)
| EnvNamespaces (d : list NamespaceModel) | EnvStorageClasses (d : list StorageClassListItem)
| EnvSecret (d : SecretUpdate) | EnvSecretCreate (d : SecretCreate)
| EnvSecretList (d : list SecretListItem)
| EnvPVCList (d : list PVCListItem) | EnvPVCCreate (d : PVCCreate)
| EnvUser (d : UserResponse).

Inductive content :=
| ErrorEnvelope (e : HTTPErrorModel)
| DataEnvelope (d : envelope)
| HealthBody (d : HealthCheckModel)
| Bytes (bytes : string)
| NoContent.

Record http_response := mkResponse {
  rs_StatusCode : Z;
  rs_Header : gmap string string;
  rs_Body : content;
}.

Definition MediaTypeJson : string := "application/json".
Definition MediaTypeYaml : string := "application/yaml".
Definition MediaTypeSVG : string := "image/svg+xml".

Definition WriteJSON (status : Z) (body : content) (headers : gmap string string)
    : http_response :=
  mkResponse status (<["Content-Type" := MediaTypeJson]> headers) body.

Definition WriteSVG (status : Z) (bytes : string) : http_response :=
  mkResponse status {["Content-Type" := MediaTypeSVG]} (Bytes bytes).

(** ** Error responses *)

Definition errMsgNotFound : string := "the requested resource could not be found".
Definition errMsgUnauthorized : string := "authentication is required to access this resource".
Definition errMsgForbidden : string := "you are not authorized to access this resource".
Definition errMsgPathParamsInvalid : string := "path parameters were invalid".
Definition errMsgQueryParamsInvalid : string := "query parameters were invalid".
Definition errMsgRequestBodyInvalid : string := "request body was invalid".
Definition errMsgInternalValidation : string :=
  "validation error (see .cause.validation_errors[] for details)".
Definition errMsgKubernetesValidation : string :=
  "kubernetes validation error (see .cause.validation_errors[] for details) (note: .cause.validation_errors[].field values correspond to the internal k8s object, NOT the request body)".
Definition errMsgKubernetesConflict : string :=
  "kubernetes conflict error (see .cause.conflict_cause[] for details)".

Definition errorResponse (e : HTTPErrorModel) : http_response :=
  WriteJSON (he_StatusCode e) (ErrorEnvelope e) ∅.

(** An error response with the status as its code. *)
Definition httpError (status : Z) (msg : string) (cause : option ErrorCause) : http_response :=
  errorResponse (mkHTTPError status (itoa status) msg cause).

Definition serverErrorResponse : http_response :=
  httpError 500 "the server encountered a problem and could not process your request" None.
Definition badRequestResponse (err : string) : http_response := httpError 400 err None.
Definition unauthorizedResponse : http_response := httpError 401 errMsgUnauthorized None.
Definition forbiddenResponse : http_response := httpError 403 errMsgForbidden None.
Definition notFoundResponse : http_response := httpError 404 errMsgNotFound None.
Definition methodNotAllowedResponse (method : string) : http_response :=
  httpError 405 ("the " +:+ method +:+ " method is not supported for this resource") None.

Definition conflictResponse (err : string) (k8sCauses : list StatusCause) : http_response :=
  let conflictErrs := (λ cause, mkConflictError OriginKubernetes (scs_Message cause)) <$> k8sCauses in
  let msg := if (0 <? length conflictErrs)%nat then errMsgKubernetesConflict else err in
  httpError 409 msg (Some (mkErrorCause conflictErrs [])).

Definition internalConflictResponse (err : string) : http_response :=
  httpError 409 err (Some (mkErrorCause [mkConflictError OriginInternal err] [])).

Definition requestEntityTooLargeResponse (err : string) : http_response := httpError 413 err None.
Definition unsupportedMediaTypeResponse (err : string) : http_response := httpError 415 err None.

Section responses.
Context `{CodecLib}.

Definition failedValidationResponse (msg : string) (errs : list field_error)
    (k8sCauses : list StatusCause) : http_response :=
  let valErrs :=
    ((λ err, mkValidationErrorModel OriginInternal (field_Type err) (field_Field err)
               (ErrorBody err)) <$> errs)
    ++ ((λ cause, mkValidationErrorModel OriginKubernetes (scs_Type cause) (scs_Field cause)
                    (scs_Message cause)) <$> k8sCauses) in
  httpError 422 msg (Some (mkErrorCause [] valErrs)).

(** [err.Error()] of the errors that repositories return. *)
Definition repo_Error (err : repo_error) : string :=
  match err with
  | InternalValidationError errs =>
      if (length errs =? 0)%nat then "validation error" else AggregateError errs
  | ErrWorkspaceNotFound => "workspace not found"
  | ErrWorkspacePodNotRunning => "workspace pod is not running"
  | ErrWorkspaceAlreadyExists => "workspace already exists"
  | ErrWorkspaceInvalidState => "workspace is in an invalid state for this operation"
  | ErrWorkspaceRevisionConflict => "current workspace revision does not match request"
  | ErrWorkspaceKindNotFound => "workspace kind not found"
  | ErrWorkspaceKindAlreadyExists => "workspacekind already exists"
  | ErrWorkspaceKindRevisionConflict =>
      "current workspace kind revision does not match request"
  | ErrWorkspaceKindAssetConfigMapNotFound =>
      "workspacekind asset configmap not found, or does not have notebooks.kubeflow.org/image-source=true label"
  | ErrWorkspaceKindAssetConfigMapKeyMissing =>
      "workspacekind asset configmap missing expected key"
  | ErrWorkspaceKindAssetNotConfigMap => "workspacekind asset does not reference a configmap"
  | ErrSecretNotFound => "secret not found"
  | ErrSecretAlreadyExists => "secret already exists"
  | ErrSecretNotCanUpdate =>
      "secret cannot be modified because it is not labeled with " +:+ LabelCanUpdate +:+ "=true"
  | ErrPVCNotFound => "PVC not found"
  | ErrPVCAlreadyExists => "PVC already exists"
  | ErrPVCNotCanUpdate =>
      "PVC cannot be modified because it is not labeled with " +:+ LabelCanUpdate +:+ "=true"
  | ErrContainerNotFound => "container not found in workspace pod"
  | ErrContainerNotRunning => "container has not started yet"
  | ErrPreviousLogsNotFound => "no logs found for the previous container instance"
  | Cause e => Error e
  | Panics why => why
  end.

(** Only errors of the API server carry a status. *)
Definition StatusCausesFromAPIStatus (err : repo_error) : list StatusCause :=
  match err with
  | Cause e =>
    match APIStatusDetails e with
    | None => []
    | Some None => []
    | Some (Some causes) => causes
    end
  | _ => []
  end.
End responses.

(** [apierrors.IsInvalid(err)] and [apierrors.IsConflict(err)]. *)
Definition repo_IsReason (reason : api_reason) (err : repo_error) : bool :=
  match err with Cause e => IsReason reason e | _ => false end.

(** ** Success responses *)

Definition dataResponse (d : envelope) : http_response := WriteJSON 200 (DataEnvelope d) ∅.

Definition wskAssetResponse (bytes mediaType : string) : http_response :=
  if bool_decide (mediaType = "image/svg+xml") then WriteSVG 200 bytes else serverErrorResponse.

Definition createdResponse (d : envelope) (location : string) : http_response :=
  WriteJSON 201 (DataEnvelope d) {["Location" := location]}.

Definition deletedResponse : http_response := mkResponse 204 ∅ NoContent.

(** ** Handlers *)

(** A handler has written a response, or its goroutine panics. *)
Inductive reply :=
| Reply (r : http_response)
| Panicked (why : string).

Abbreviation hnd A := (prog (A + reply)).

Definition hbind {A B} (p : hnd A) (f : A → hnd B) : hnd B :=
  pbind p (λ r, match r with inl a => f a | inr rep => Ret (inr rep) end).

Notation "x <~- p ;; k" := (hbind p (λ x, k))
  (at level 20, p at level 99, k at level 200) : go_scope.

(** Write the response and [return]. *)
Definition respond {A} (r : http_response) : hnd A := Ret (inr (Reply r)).

(** [if len(valErrs) > 0 { a.failedValidationResponse(...); return }]. *)
Definition validate `{CodecLib} (msg : string) (valErrs : list field_error) : hnd () :=
  if (0 <? length valErrs)%nat then respond (failedValidationResponse msg valErrs [])
  else Ret (inl ()).

(** [v, err := repository(...); if err != nil { ...; return }]. *)
Definition caught {A} (r : A + repo_error) (onErr : repo_error → http_response) : A + reply :=
  match r with
  | inl v => inl v
  | inr (Panics why) => inr (Panicked why)
  | inr err => inr (Reply (onErr err))
  end.

Definition catch {A} (p : repo A) (onErr : repo_error → http_response) : hnd A :=
  r <-- p ;; Ret (caught r onErr).

(** The last statement of a handler writes the response. *)
Definition to_reply (r : http_response + reply) : reply :=
  match r with inl resp => Reply resp | inr rep => rep end.

Section bodies.
Context `{CodecLib}.

Definition ValidateContentType (r : http_request) (expectedMediaType : string) : hnd () :=
  let contentType := HeaderGet r "Content-Type" in
  if bool_decide (contentType = "")
  then respond (unsupportedMediaTypeResponse "Content-Type header is missing")
  else
    match ParseMediaType contentType with
    | inr err => respond (badRequestResponse ("error parsing Content-Type header: " +:+ err))
    | inl mediaType =>
      if negb (bool_decide (mediaType = expectedMediaType))
      then respond (unsupportedMediaTypeResponse
             ("unsupported media type: " +:+ mediaType +:+ ", expected: " +:+ expectedMediaType))
      else Ret (inl ())
    end.

(** [fmt.Errorf("...: %w", err)] of a decoding error. *)
Definition wrapDecode (prefix : string) (err : decode_error) : decode_error :=
  mkDecodeError (de_MaxBytes err) (de_EOF err) (prefix +:+ de_Msg err).

Definition DecodeJSON (t : body_type) (r : http_request) : option (body_of t) + decode_error :=
  match Decode t (rq_Body r) with
  | inl v => inl v
  | inr err =>
    if de_MaxBytes err then inr err
    else if de_EOF err then inr (wrapDecode "request body was empty: " err)
    else inr (wrapDecode "error decoding JSON: " err)
  end.

(** Decoding the body and the check that it has data, as every handler does it. *)
Definition decodeData (t : body_type) (r : http_request) : hnd (body_of t) :=
  match DecodeJSON t r with
  | inr err =>
    if de_MaxBytes err then respond (requestEntityTooLargeResponse (de_Msg err))
    else respond (badRequestResponse (de_Msg (wrapDecode "error decoding request body: " err)))
  | inl None =>
    respond (failedValidationResponse errMsgRequestBodyInvalid
      [FieldRequired (NewPath ["data"]) "data is required"] [])
  | inl (Some data) => Ret (inl data)
  end.
End bodies.
