(* ===== verification/Auth.v ===== *)
(** * Authentication and authorization ([backend/internal/auth], [backend/api/auth.go])

    Two authenticators: one trusts headers set by a proxy (apiserver's [headerrequest],
    [HeaderAuthLib]), the other asks the API server to review a bearer token.  A handler
    states the actions it takes as [ResourcePolicy]s; [requireAuth] has the authorizer
    decide on each for the authenticated user before the handler goes on. *)

From Stdlib Require Import ZArith.
From stdpp Require Import base gmap strings list.
From S2P Require Import Prelude K8sTypes ApiTypes Client Examples Probe Validation Http.

(** ** Authentication *)

Definition AuthenticatedGroup : string := "system:authenticated".

Definition withAuthenticatedGroup (groups : list string) : list string :=
  if negb (bool_decide (AuthenticatedGroup ∈ groups)) then groups ++ [AuthenticatedGroup]
  else groups.

(** [authenticator.Request]: None when the request is not authenticated. *)
Definition authenticator : Type := http_request → prog (answer (option UserInfo)).

(** [headerrequest.New]: the headers of the user name, the UID, the groups and the prefixes
    of extra headers. *)
Class HeaderAuthLib := {
  headerrequest_New : list string → list string → list string → list string →
    (http_request → answer (option UserInfo)) + error;
}.

(** [strings.HasPrefix] and [strings.TrimPrefix]. *)
Definition HasPrefix (s prefix : string) : bool := String.prefix prefix s.
Definition TrimPrefix (s prefix : string) : string :=
  if HasPrefix s prefix
  then String.substring (slen prefix) (slen s - slen prefix) s else s.

Definition NewRequestAuthenticator `{HeaderAuthLib}
    (useridHeader useridPrefix groupsHeader : string) : authenticator + error :=
  match headerrequest_New [useridHeader] [] [groupsHeader] [] with
  | inr err =>
      inr (ErrorWrap ("failed to create request header authenticator: " +:+ Error err) err)
  | inl AuthenticateRequest => inl (λ req, Ret
      match AuthenticateRequest req with
      | inr err => inr err
      | inl None => inl None
      | inl (Some u) =>
        let username := if negb (bool_decide (useridPrefix = ""))
                        then TrimPrefix (user_Name u) useridPrefix else user_Name u in
        inl (Some (mkUserInfo username "" (withAuthenticatedGroup (user_Groups u))
                     (user_Extra u)))
      end)
  end.

(** The token of a header value: None when it does not start with the prefix. *)
Definition bearerToken (prefix raw : string) : option string :=
  if negb (bool_decide (prefix = "")) then
    if negb (HasPrefix raw prefix) then None else Some (TrimSpace (TrimPrefix raw prefix))
  else Some (TrimSpace raw).

Definition NewBearerTokenAuthenticator (header prefix : string) : authenticator := λ req,
  match HeaderValues req header with
  | [] => Ret (inl None)
  | _ :: _ :: _ =>
      Ret (inr (ErrorMsg ("multiple values found for header " +:+ quote header
                          +:+ "; refusing to authenticate")))
  | [raw] =>
    match bearerToken prefix raw with
    | None => Ret (inl None)
    | Some token =>
      if bool_decide (token = "") then Ret (inl None)
      else
        review <-- call (CreateTokenReview token) ;;
        Ret match review with
            | inr err => inr (ErrorWrap ("failed to create TokenReview: " +:+ Error err) err)
            | inl status =>
              if negb (trs_Authenticated status) then inl None
              else
                let u := trs_User status in
                inl (Some (mkUserInfo (user_Name u) (user_UID u)
                             (withAuthenticatedGroup (user_Groups u)) (user_Extra u)))
            end
    end
  end.

(** ** Policies *)

Definition VerbCreate : string := "create".
Definition VerbDelete : string := "delete".
Definition VerbGet : string := "get".
Definition VerbList : string := "list".
Definition VerbUpdate : string := "update".

Definition Namespaces : string := "namespaces".
Definition PersistentVolumeClaims : string := "persistentvolumeclaims".
Definition Secrets_ : string := "secrets".
Definition StorageClasses : string := "storageclasses".
Definition WorkspaceKinds : string := "workspacekinds".
Definition Workspaces : string := "workspaces".

(** [schema.GroupVersionResource]. *)
Record GroupVersionResource := mkGVR { gvr_Group : string; gvr_Version : string; gvr_Resource : string }.

Definition resourceGVRMap : gmap string GroupVersionResource :=
  let core := mkGVR "" "v1" in
  let storage := mkGVR "storage.k8s.io" "v1" in
  let kubeflow := mkGVR "kubeflow.org" "v1beta1" in
  {[ Namespaces := core Namespaces;
     PersistentVolumeClaims := core PersistentVolumeClaims;
     Secrets_ := core Secrets_;
     StorageClasses := storage StorageClasses;
     WorkspaceKinds := kubeflow WorkspaceKinds;
     Workspaces := kubeflow Workspaces ]}.

(** Empty means every namespace, or every object. *)
Record ResourcePolicyResourceMeta := mkResourceMeta { rm_Namespace : string; rm_Name : string }.

Record ResourcePolicy := mkResourcePolicy {
  rp_Verb : string;
  rp_GVR : GroupVersionResource;
  rp_ResourceMeta : ResourcePolicyResourceMeta;
}.

Definition NewResourcePolicy (verb resource : string) (meta : ResourcePolicyResourceMeta)
    : go ResourcePolicy :=
  match resourceGVRMap !! resource with
  | None => Panic ("unsupported ResourcePolicyResource: " +:+ resource)
  | Some gvr => Ok (mkResourcePolicy verb gvr meta)
  end.

Definition AttributesFor (p : ResourcePolicy) (u : UserInfo) : Attributes :=
  mkAttributes u (rp_Verb p) (rm_Namespace (rp_ResourceMeta p)) (gvr_Group (rp_GVR p))
    (gvr_Version (rp_GVR p)) (gvr_Resource (rp_GVR p)) "" (rm_Name (rp_ResourceMeta p)) true.

(** ** Authorization *)

(** The loop over the policies. *)
Fixpoint checkPolicies (u : UserInfo) (policies : list ResourcePolicy) : hnd UserInfo :=
  match policies with
  | [] => Ret (inl u)
  | policy :: rest =>
    r <-- call (Authorize (AttributesFor policy u)) ;;
    match r with
    | inr err => respond serverErrorResponse
    | inl (DecisionAllow, _) => checkPolicies u rest
    | inl (_, reason) => respond forbiddenResponse
    end
  end.

Definition requireAuth (authn : authenticator) (r : http_request)
    (policies : list ResourcePolicy) : hnd UserInfo :=
  res <-- authn r ;;
  match res with
  | inr err => respond serverErrorResponse
  | inl None => respond unauthorizedResponse
  | inl (Some u) => checkPolicies u policies
  end.

(** The slice literal of policies, then [requireAuth]. *)
Fixpoint newPolicies (l : list (go ResourcePolicy)) : go (list ResourcePolicy) :=
  match l with
  | [] => Ok []
  | p :: rest => let! p := p in let! ps := newPolicies rest in Ok (p :: ps)
  end.

Definition withAuth (authn : authenticator) (r : http_request)
    (policies : list (go ResourcePolicy)) : hnd UserInfo :=
  match newPolicies policies with
  | Ok ps => requireAuth authn r ps
  | Err _ => respond serverErrorResponse
  | Panic why => Ret (inr (Panicked why))
  end.

(** ** Properties *)

(** The requests an authenticator may make. *)
Definition is_review {X} (q : req X) : Prop :=
  match q with CreateTokenReview _ => True | _ => False end.

Definition reviews_only (authn : authenticator) : Prop :=
  ∀ r, calls_ok (λ _ q, is_review q) (authn r).

Lemma NewBearerTokenAuthenticator_reviews header prefix :
  reviews_only (NewBearerTokenAuthenticator header prefix).
Proof.
  intros r. unfold NewBearerTokenAuthenticator. by repeat case_match.
Qed.

Lemma NewRequestAuthenticator_reviews `{HeaderAuthLib} useridHeader useridPrefix groupsHeader authn :
  NewRequestAuthenticator useridHeader useridPrefix groupsHeader = inl authn → reviews_only authn.
Proof. unfold NewRequestAuthenticator. case_match; [|done]. by intros [= <-] r. Qed.

Lemma withAuthenticatedGroup_spec groups :
  AuthenticatedGroup ∈ withAuthenticatedGroup groups ∧
  ∀ g, g ∈ withAuthenticatedGroup groups ↔ g ∈ groups ∨ g = AuthenticatedGroup.
Proof. unfold withAuthenticatedGroup. case_bool_decide; simpl; set_solver. Qed.

(** The token that a request presents: exactly one value of the header, with the prefix,
    and something after it. *)
Definition presents (header prefix : string) (r : http_request) (token : string) : Prop :=
  ∃ raw, HeaderValues r header = [raw] ∧ bearerToken prefix raw = Some token ∧ token ≠ "".

(** The user of a review, as a member of the group of authenticated users. *)
Definition reviewed (st : TokenReviewStatus) : UserInfo :=
  let u := trs_User st in
  mkUserInfo (user_Name u) (user_UID u) (withAuthenticatedGroup (user_Groups u)) (user_Extra u).

(** The review that an event is. *)
Definition as_review (e : event) : option (string * answer TokenReviewStatus) :=
  match e with
  | Ev q x => match q in req X return X → option (string * answer TokenReviewStatus) with
              | CreateTokenReview token => λ x, Some (token, x)
              | _ => λ _, None
              end x
  end.

Lemma review_inj token x token' x' :
  [Ev (CreateTokenReview token) x] = [Ev (CreateTokenReview token') x'] ↔ token = token' ∧ x = x'.
Proof.
  split; [|by intros [-> ->]]. intros He.
  apply (f_equal (λ l, head l ≫= as_review)) in He. by injection He as -> ->.
Qed.

Lemma presents_inj header prefix r token token' :
  presents header prefix r token → presents header prefix r token' → token = token'.
Proof. intros (raw & Hr & Ht & _) (raw' & Hr' & Ht' & _). congruence. Qed.

(** The answer of a review, as the authenticator's. *)
Definition review_result (x : answer TokenReviewStatus) : answer (option UserInfo) :=
  match x with
  | inr err => inr (ErrorWrap ("failed to create TokenReview: " +:+ Error err) err)
  | inl st => if negb (trs_Authenticated st) then inl None else inl (Some (reviewed st))
  end.

Lemma bearer_cases header prefix r h res :
  runs (NewBearerTokenAuthenticator header prefix r) h res →
  let values := length (HeaderValues r header) in
  (h = [] ∧ (∀ token, ~ presents header prefix r token) ∧
   (res = inl None ∧ (values <= 1)%nat ∨ (∃ e, res = inr e) ∧ (1 < values)%nat)) ∨
  (∃ token x, presents header prefix r token ∧ values = 1%nat ∧
     h = [Ev (CreateTokenReview token) x] ∧ res = review_result x).
Proof.
  unfold NewBearerTokenAuthenticator, presents.
  destruct (HeaderValues r header) as [|raw [|raw' l]] eqn:Hv; simpl.
  - intros [-> <-]. left. split_and!; [done|naive_solver|left; split; [done|lia]].
  - destruct (bearerToken prefix raw) as [token|] eqn:Ht; [|intros [-> <-]].
    2: { left. split_and!; [done| |left; split; [done|lia]].
         intros token (raw0 & [= <-] & Ht' & _). congruence. }
    case_bool_decide as Hne; [intros [-> <-]|].
    + left. split_and!; [done| |left; split; [done|lia]].
      intros token' (raw0 & [= <-] & Ht' & Hne'). congruence.
    + intros (x & h' & -> & -> & <-). right. exists token, x. split_and!; try done.
      by exists raw.
  - intros [-> <-]. left. split_and!; [done|naive_solver|].
    right. split; [by eexists|lia].
Qed.

(** C12: a request is authenticated exactly when it presents one token and the API server's
    review of that very token says it is authentic, as the user of the review, with its UID,
    groups and scopes, who is also in [system:authenticated]; it fails with an error exactly
    when the header has several values or the review could not be made; nothing but that one
    review is requested. *)
Theorem bearer_authenticates header prefix r h res :
  runs (NewBearerTokenAuthenticator header prefix r) h res →
  (∀ u, res = inl (Some u) ↔
     ∃ token st, presents header prefix r token ∧
       h = [Ev (CreateTokenReview token) (inl st)] ∧ trs_Authenticated st = true ∧
       u = reviewed st) ∧
  ((∃ e, res = inr e) ↔
     (1 < length (HeaderValues r header))%nat ∨
     ∃ token e, presents header prefix r token ∧ h = [Ev (CreateTokenReview token) (inr e)]) ∧
  (h = [] ∨ ∃ token x, presents header prefix r token ∧ h = [Ev (CreateTokenReview token) x]).
Proof.
  intros [(-> & Hp & Hres)|(token & x & Hp & Hv & -> & ->)]%bearer_cases.
  - split_and!; [|split|by left].
    + intros u. split; [naive_solver|]. intros (token & st & Hp' & _). by destruct (Hp token).
    + intros [e ->]. destruct Hres as [[[=] _]|[_ ?]]. by left.
    + intros [Hlen|(token & e & Hp' & _)]; [|by destruct (Hp token)].
      destruct Hres as [[_ ?]|[? _]]; [lia|done].
  - split_and!; [|split|right; by exists token, x].
    + intros u. split.
      * destruct x as [st|e]; [|done]. simpl. destruct (trs_Authenticated st) eqn:Ha; [|done].
        intros [= <-]. by exists token, st.
      * intros (token' & st & _ & [_ ->]%review_inj & Ha & ->). simpl. by rewrite Ha.
    + destruct x as [st|e]; simpl; [by case_match; intros [? [=]]|]. intros _. right.
      by exists token, e.
    + intros [Hlen|(token' & e & _ & [_ ->]%review_inj)]; [lia|]. by eexists.
Qed.

(** ** Examples *)

Definition exUser : UserInfo := mkUserInfo "alice" "uid-7" ["developers"] ∅.

(** An API server that knows one token and allows everything. *)
Definition exAuth {S} (e : handler S) : handler S := λ X q s,
  (match q in req X return X → X with
   | CreateTokenReview token => λ _, inl (mkTokenReviewStatus (bool_decide (token = "t0k3n")) exUser)
   | Authorize _ => λ _, inl (DecisionAllow, "")
   | _ => λ x, x
   end (e X q s).1, (e X q s).2).

Definition exRequest (params query : gmap string (list string)) (body : string) : http_request :=
  mkRequest (omap head params)
    {["Authorization" := ["Bearer  t0k3n"]; "Content-Type" := ["application/json"]]} query
    (mkBody body None).

Example canonical_header :
  CanonicalHeaderKey "kubeflow-userid" = "Kubeflow-Userid" ∧
  CanonicalHeaderKey "CONTENT-type" = "Content-Type" ∧
  CanonicalHeaderKey "not a key" = "not a key".
Proof. repeat split; vm_compute; reflexivity. Qed.

Lemma bearer_authenticates_witness :
  ∃ h u, runs (NewBearerTokenAuthenticator "Authorization" "Bearer " (exRequest ∅ ∅ "")) h
           (inl (Some u)) ∧
    u = mkUserInfo "alice" "uid-7" ["developers"; AuthenticatedGroup] ∅ ∧
    ∃ st, h = [Ev (CreateTokenReview "t0k3n") (inl st)].
Proof.
  set (p := NewBearerTokenAuthenticator "Authorization" "Bearer " (exRequest ∅ ∅ "")).
  pose proof (interp_runs (exAuth (exEnv 0 (mkExecOutcome [] None))) p ()) as Hr.
  assert ((interp (exAuth (exEnv 0 (mkExecOutcome [] None))) p ()).1
          = inl (Some (mkUserInfo "alice" "uid-7" ["developers"; AuthenticatedGroup] ∅))) as Hi
    by (vm_compute; reflexivity).
  rewrite Hi in Hr. eexists _, _. split; [exact Hr|]. split; [reflexivity|].
  destruct (proj1 (proj1 (bearer_authenticates _ _ _ _ _ Hr) _) eq_refl)
    as (token & st & (raw & Hv & Ht & _) & -> & _ & _).
  assert (HeaderValues (exRequest ∅ ∅ "") "Authorization" = ["Bearer  t0k3n"]) as Hv'
    by (vm_compute; reflexivity).
  rewrite Hv' in Hv. injection Hv as <-.
  assert (bearerToken "Bearer " "Bearer  t0k3n" = Some "t0k3n") as Ht' by (vm_compute; reflexivity).
  rewrite Ht' in Ht. injection Ht as <-. by exists st.
Defined.
