(* ===== verification/Handlers.v ===== *)
(** * The handlers of the backend's API ([backend/api/*_handler.go], [app.go])

    One definition per handler, in the order of its code: path and query parameters, for
    some the body, [requireAuth], the repository, the response to each of its errors.
    [Routes] is the table of [app.go]; matching paths is httprouter's ([RouterLib]).  The
    Swagger pages and the static files are not modelled. *)

From Stdlib Require Import ZArith Ascii.
From stdpp Require Import base gmap strings list.
From S2P Require Import Prelude K8sTypes ApiTypes Client Examples Field FilterRules Validation.
From S2P Require Import ListValues WorkspaceModel WorkspaceRepo KindModel KindRepo WorkspaceList.
From S2P Require Import Secrets Pvcs PodLogs Cluster Metrics Http Auth Paths.

(** ** Version and locations ([version.go], [helpers.go]) *)

Definition Version : string := "1.0.0".

Definition replaceParam (path param value : string) : string :=
  ReplaceFirst path (":" +:+ param) value.

Definition LocationGetWorkspace (namespace name : string) : string :=
  let path := replaceParam WorkspacesByNamePath NamespacePathParam namespace in
  replaceParam path ResourceNamePathParam name.

Definition LocationGetWorkspaceKind (name : string) : string :=
  replaceParam WorkspaceKindsByNamePath ResourceNamePathParam name.

Definition LocationGetSecret (namespace name : string) : string :=
  let path := replaceParam SecretsByNamePath NamespacePathParam namespace in
  replaceParam path ResourceNamePathParam name.

(** ** The application *)

Record App := mkApp {
  app_Config : BackendConfig;
  app_UserIdHeader : string;
  app_UserIdPrefix : string;
  app_RequestAuthN : authenticator;
}.

Definition paramPath (name : string) : string := NewPath [name].
Definition dataPath : string := NewPath ["data"].

Section handlers.
Context `{CodecLib} `{NameLib} `{ValidationLib} `{MapOrder} `{QuantityLib} `{TimeLib} `{SelectorLib}.
Context (a : App).

Definition requirePolicy (r : http_request) (verb resource namespace name : string)
    : hnd UserInfo :=
  withAuth (app_RequestAuthN a) r
    [NewResourcePolicy verb resource (mkResourceMeta namespace name)].

(** The checks of the path parameters. *)
Definition namespaceErrs (namespace : string) : list field_error :=
  ValidateKubernetesNamespaceName (paramPath NamespacePathParam) namespace.

(** [ValidateWorkspaceName], [ValidateWorkspaceKindName], [ValidateKubernetesSecretName] and
    [ValidateKubernetesPVCName] are the same function. *)
Definition nameErrs (name : string) : list field_error :=
  ValidateFieldIsDNS1123Subdomain (paramPath ResourceNamePathParam) name.

(** The optional namespace of a query. *)
Definition queryNamespaceErrs (param namespace : string) : list field_error :=
  if negb (bool_decide (namespace = ""))
  then ValidateKubernetesNamespaceName (paramPath param) namespace else [].

(** *** Health, user, cluster *)

Definition GetHealthcheckHandler (r : http_request) : hnd http_response :=
  healthCheck <~- catch (HealthCheck Version) (λ _, serverErrorResponse) ;;
  Ret (inl (WriteJSON 200 (HealthBody healthCheck) ∅)).

Definition GetUserHandler (r : http_request) : hnd http_response :=
  let userId := HeaderGet r (app_UserIdHeader a) in
  let userId := if negb (bool_decide (app_UserIdPrefix a = ""))
                then TrimPrefix userId (app_UserIdPrefix a) else userId in
  let userId := if bool_decide (userId = "") then HeaderGet r "X-Auth-Request-User" else userId in
  let userId := if bool_decide (userId = "") then HeaderGet r "kubeflow-userid" else userId in
  let userId := if bool_decide (userId = "") then "anonymous" else userId in
  Ret (inl (dataResponse (EnvUser (mkUserResponse userId true)))).

Definition GetNamespacesHandler (r : http_request) : hnd http_response :=
  _ <~- requirePolicy r VerbList Namespaces "" "" ;;
  namespaces <~- catch GetNamespaces (λ _, serverErrorResponse) ;;
  Ret (inl (dataResponse (EnvNamespaces namespaces))).

Definition GetStorageClassesHandler (r : http_request) : hnd http_response :=
  let namespace := QueryGet r NamespaceQueryParam in
  _ <~- validate errMsgQueryParamsInvalid (queryNamespaceErrs NamespaceQueryParam namespace) ;;
  _ <~- (if negb (bool_decide (namespace = ""))
         then requirePolicy r VerbCreate PersistentVolumeClaims namespace ""
         else requirePolicy r VerbList StorageClasses "" "") ;;
  storageClasses <~- catch GetStorageClasses (λ _, serverErrorResponse) ;;
  Ret (inl (dataResponse (EnvStorageClasses storageClasses))).

(** *** Secrets *)

Definition GetSecretsByNamespaceHandler (r : http_request) : hnd http_response :=
  let namespace := ByName r NamespacePathParam in
  _ <~- validate errMsgPathParamsInvalid (namespaceErrs namespace) ;;
  _ <~- requirePolicy r VerbList Secrets_ namespace "" ;;
  secrets <~- catch (GetSecrets namespace) (λ _, serverErrorResponse) ;;
  Ret (inl (dataResponse (EnvSecretList secrets))).

Definition GetSecretHandler (r : http_request) : hnd http_response :=
  let namespace := ByName r NamespacePathParam in
  let secretName := ByName r ResourceNamePathParam in
  _ <~- validate errMsgPathParamsInvalid (namespaceErrs namespace ++ nameErrs secretName) ;;
  _ <~- requirePolicy r VerbGet Secrets_ namespace secretName ;;
  secret <~- catch (GetSecret namespace secretName) (λ err,
    match err with ErrSecretNotFound => notFoundResponse | _ => serverErrorResponse end) ;;
  Ret (inl (dataResponse (EnvSecret secret))).

Definition CreateSecretHandler (r : http_request) : hnd http_response :=
  let namespace := ByName r NamespacePathParam in
  _ <~- validate errMsgPathParamsInvalid (namespaceErrs namespace) ;;
  _ <~- ValidateContentType r MediaTypeJson ;;
  secretCreate <~- decodeData BSecretCreate r ;;
  _ <~- validate errMsgRequestBodyInvalid (SecretCreate_Validate secretCreate dataPath) ;;
  actor <~- requirePolicy r VerbCreate Secrets_ namespace (scr_Name secretCreate) ;;
  createdSecret <~- catch (CreateSecret (Some (user_Name actor)) secretCreate namespace) (λ err,
    match err with
    | ErrSecretAlreadyExists => conflictResponse (repo_Error err) (StatusCausesFromAPIStatus err)
    | _ => if repo_IsReason Invalid err
           then failedValidationResponse errMsgKubernetesValidation []
                  (StatusCausesFromAPIStatus err)
           else serverErrorResponse
    end) ;;
  Ret (inl (createdResponse (EnvSecretCreate createdSecret)
              (LocationGetSecret namespace (scr_Name createdSecret)))).

Definition UpdateSecretHandler (r : http_request) : hnd http_response :=
  let namespace := ByName r NamespacePathParam in
  let secretName := ByName r ResourceNamePathParam in
  _ <~- validate errMsgPathParamsInvalid (namespaceErrs namespace ++ nameErrs secretName) ;;
  actor <~- requirePolicy r VerbUpdate Secrets_ namespace secretName ;;
  _ <~- ValidateContentType r MediaTypeJson ;;
  secretUpdate <~- decodeData BSecretUpdate r ;;
  _ <~- validate errMsgRequestBodyInvalid (SecretUpdate_Validate secretUpdate dataPath) ;;
  updatedSecret <~- catch
    (UpdateSecret (Some (user_Name actor)) secretUpdate namespace secretName) (λ err,
    match err with
    | ErrSecretNotFound => notFoundResponse
    | ErrSecretNotCanUpdate => forbiddenResponse
    | _ => if repo_IsReason Invalid err
           then failedValidationResponse errMsgKubernetesValidation []
                  (StatusCausesFromAPIStatus err)
           else serverErrorResponse
    end) ;;
  Ret (inl (dataResponse (EnvSecret updatedSecret))).

Definition DeleteSecretHandler (r : http_request) : hnd http_response :=
  let namespace := ByName r NamespacePathParam in
  let secretName := ByName r ResourceNamePathParam in
  _ <~- validate errMsgPathParamsInvalid (namespaceErrs namespace ++ nameErrs secretName) ;;
  _ <~- requirePolicy r VerbDelete Secrets_ namespace secretName ;;
  _ <~- catch (DeleteSecret namespace secretName) (λ err,
    match err with
    | ErrSecretNotFound => notFoundResponse
    | ErrSecretNotCanUpdate => forbiddenResponse
    | _ => if repo_IsReason Conflict err
           then conflictResponse (repo_Error err) (StatusCausesFromAPIStatus err)
           else serverErrorResponse
    end) ;;
  Ret (inl deletedResponse).

(** *** Volume claims *)

Definition GetPVCsByNamespaceHandler (r : http_request) : hnd http_response :=
  let namespace := ByName r NamespacePathParam in
  _ <~- validate errMsgPathParamsInvalid (namespaceErrs namespace) ;;
  _ <~- requirePolicy r VerbList PersistentVolumeClaims namespace "" ;;
  pvcs <~- catch (GetPVCs namespace) (λ _, serverErrorResponse) ;;
  Ret (inl (dataResponse (EnvPVCList pvcs))).

Definition CreatePVCHandler (r : http_request) : hnd http_response :=
  let namespace := ByName r NamespacePathParam in
  _ <~- validate errMsgPathParamsInvalid (namespaceErrs namespace) ;;
  _ <~- ValidateContentType r MediaTypeJson ;;
  pvcCreate <~- decodeData BPVCCreate r ;;
  _ <~- validate errMsgRequestBodyInvalid (PVCCreate_Validate pvcCreate dataPath) ;;
  actor <~- requirePolicy r VerbCreate PersistentVolumeClaims namespace (pcr_Name pvcCreate) ;;
  createdPVC <~- catch (CreatePVC (Some (user_Name actor)) pvcCreate namespace) (λ err,
    if IsInternalValidationError err
    then failedValidationResponse errMsgInternalValidation
           (FieldErrorsFromInternalValidationError err) []
    else match err with
         | ErrPVCAlreadyExists => conflictResponse (repo_Error err) (StatusCausesFromAPIStatus err)
         | _ => if repo_IsReason Invalid err
                then failedValidationResponse errMsgKubernetesValidation []
                       (StatusCausesFromAPIStatus err)
                else serverErrorResponse
         end) ;;
  Ret (inl (createdResponse (EnvPVCCreate createdPVC) "")).

Definition DeletePVCHandler (r : http_request) : hnd http_response :=
  let namespace := ByName r NamespacePathParam in
  let pvcName := ByName r ResourceNamePathParam in
  _ <~- validate errMsgPathParamsInvalid (namespaceErrs namespace ++ nameErrs pvcName) ;;
  _ <~- requirePolicy r VerbDelete PersistentVolumeClaims namespace pvcName ;;
  _ <~- catch (DeletePVC namespace pvcName) (λ err,
    match err with
    | ErrPVCNotFound => notFoundResponse
    | ErrPVCNotCanUpdate => forbiddenResponse
    | _ => if repo_IsReason Conflict err
           then conflictResponse (repo_Error err) (StatusCausesFromAPIStatus err)
           else serverErrorResponse
    end) ;;
  Ret (inl deletedResponse).

(** *** Workspaces *)

Definition GetWorkspaceHandler (r : http_request) : hnd http_response :=
  let namespace := ByName r NamespacePathParam in
  let workspaceName := ByName r ResourceNamePathParam in
  _ <~- validate errMsgPathParamsInvalid (namespaceErrs namespace ++ nameErrs workspaceName) ;;
  _ <~- requirePolicy r VerbGet Workspaces namespace workspaceName ;;
  workspace <~- catch (GetWorkspace namespace workspaceName) (λ err,
    match err with ErrWorkspaceNotFound => notFoundResponse | _ => serverErrorResponse end) ;;
  Ret (inl (dataResponse (EnvWorkspace workspace))).

(** The namespace is empty on the route of all Workspaces. *)
Definition getWorkspacesHandler (r : http_request) : hnd http_response :=
  let namespace := ByName r NamespacePathParam in
  _ <~- validate errMsgPathParamsInvalid (queryNamespaceErrs NamespacePathParam namespace) ;;
  _ <~- requirePolicy r VerbList Workspaces namespace "" ;;
  workspaces <~- catch (getWorkspaceModels (app_Config a) namespace) (λ _, serverErrorResponse) ;;
  Ret (inl (dataResponse (EnvWorkspaceList workspaces))).

Definition CreateWorkspaceHandler (r : http_request) : hnd http_response :=
  let namespace := ByName r NamespacePathParam in
  _ <~- validate errMsgPathParamsInvalid (namespaceErrs namespace) ;;
  _ <~- ValidateContentType r MediaTypeJson ;;
  workspaceCreate <~- decodeData BWorkspaceCreate r ;;
  _ <~- validate errMsgRequestBodyInvalid (WorkspaceCreate_Validate workspaceCreate dataPath) ;;
  actor <~- requirePolicy r VerbCreate Workspaces namespace (wcr_Name workspaceCreate) ;;
  createdWorkspace <~- catch
    (CreateWorkspace (Some (user_Name actor)) workspaceCreate namespace) (λ err,
    if IsInternalValidationError err
    then failedValidationResponse errMsgInternalValidation
           (FieldErrorsFromInternalValidationError err) []
    else match err with
         | ErrWorkspaceAlreadyExists =>
             conflictResponse (repo_Error err) (StatusCausesFromAPIStatus err)
         | _ => if repo_IsReason Invalid err
                then failedValidationResponse errMsgKubernetesValidation []
                       (StatusCausesFromAPIStatus err)
                else serverErrorResponse
         end) ;;
  Ret (inl (createdResponse (EnvWorkspaceCreate createdWorkspace)
              (LocationGetWorkspace namespace (wcr_Name createdWorkspace)))).

Definition UpdateWorkspaceHandler (r : http_request) : hnd http_response :=
  let namespace := ByName r NamespacePathParam in
  let workspaceName := ByName r ResourceNamePathParam in
  _ <~- validate errMsgPathParamsInvalid (namespaceErrs namespace ++ nameErrs workspaceName) ;;
  actor <~- requirePolicy r VerbUpdate Workspaces namespace workspaceName ;;
  _ <~- ValidateContentType r MediaTypeJson ;;
  workspaceUpdate <~- decodeData BWorkspaceUpdate r ;;
  _ <~- validate errMsgRequestBodyInvalid (WorkspaceUpdate_Validate workspaceUpdate dataPath) ;;
  updatedWorkspace <~- catch
    (UpdateWorkspace (Some (user_Name actor)) workspaceUpdate namespace workspaceName) (λ err,
    match err with
    | ErrWorkspaceNotFound => notFoundResponse
    | _ =>
      if IsInternalValidationError err
      then failedValidationResponse errMsgInternalValidation
             (FieldErrorsFromInternalValidationError err) []
      else match err with
           | ErrWorkspaceRevisionConflict => internalConflictResponse (repo_Error err)
           | _ => if repo_IsReason Invalid err
                  then failedValidationResponse errMsgKubernetesValidation []
                         (StatusCausesFromAPIStatus err)
                  else serverErrorResponse
           end
    end) ;;
  Ret (inl (dataResponse (EnvWorkspace updatedWorkspace))).

Definition DeleteWorkspaceHandler (r : http_request) : hnd http_response :=
  let namespace := ByName r NamespacePathParam in
  let workspaceName := ByName r ResourceNamePathParam in
  _ <~- validate errMsgPathParamsInvalid (namespaceErrs namespace ++ nameErrs workspaceName) ;;
  _ <~- requirePolicy r VerbDelete Workspaces namespace workspaceName ;;
  _ <~- catch (DeleteWorkspace namespace workspaceName) (λ err,
    match err with
    | ErrWorkspaceNotFound => notFoundResponse
    | _ => if repo_IsReason Conflict err
           then conflictResponse (repo_Error err) (StatusCausesFromAPIStatus err)
           else serverErrorResponse
    end) ;;
  Ret (inl deletedResponse).

(** A failed test of the patch has no causes of its own: the error is put before them. *)
Definition PauseActionWorkspaceHandler (r : http_request) : hnd http_response :=
  let namespace := ByName r NamespacePathParam in
  let workspaceName := ByName r ResourceNamePathParam in
  _ <~- validate errMsgPathParamsInvalid (namespaceErrs namespace ++ nameErrs workspaceName) ;;
  _ <~- ValidateContentType r "application/json" ;;
  workspaceActionPause <~- decodeData BWorkspaceActionPause r ;;
  _ <~- requirePolicy r VerbUpdate Workspaces namespace workspaceName ;;
  workspaceActionPauseState <~- catch
    (HandlePauseAction namespace workspaceName workspaceActionPause) (λ err,
    match err with
    | ErrWorkspaceNotFound => notFoundResponse
    | ErrWorkspaceInvalidState =>
        conflictResponse (repo_Error err)
          (mkStatusCause "" "" (repo_Error err) :: StatusCausesFromAPIStatus err)
    | _ => serverErrorResponse
    end) ;;
  Ret (inl (dataResponse (EnvActionPause workspaceActionPauseState))).

Definition GetWorkspacePodTemplateDetailsHandler (r : http_request) : hnd http_response :=
  let namespace := ByName r NamespacePathParam in
  let workspaceName := ByName r ResourceNamePathParam in
  _ <~- validate errMsgPathParamsInvalid (namespaceErrs namespace ++ nameErrs workspaceName) ;;
  _ <~- requirePolicy r VerbGet Workspaces namespace workspaceName ;;
  details <~- catch (GetWorkspaceDetails namespace workspaceName) (λ err,
    match err with ErrWorkspaceNotFound => notFoundResponse | _ => serverErrorResponse end) ;;
  Ret (inl (dataResponse (EnvDetails details))).

Definition queryErrs {A} (r : http_request) (param : string)
    (check : string → string → A * list field_error) (set : A → LogOptions → LogOptions)
    (opts : LogOptions) : LogOptions * list field_error :=
  let raw := QueryGet r param in
  if bool_decide (raw = "") then (opts, [])
  else
    let '(v, errs) := check (paramPath param) raw in
    if (0 <? length errs)%nat then (opts, errs) else (set v opts, []).

Definition parseLogOptions (r : http_request) : LogOptions * list field_error :=
  let opts := mkLogOptions "" 0 false None in
  let '(opts, errs1) := queryErrs r ContainerQueryParam
    (λ path raw, (raw, ValidateKubernetesContainersName path raw))
    (λ v o, mkLogOptions v (log_TailLines o) (log_Previous o) (log_SinceTime o)) opts in
  let '(opts, errs2) := queryErrs r TailLinesQueryParam ValidateFieldIsPositiveInt64
    (λ v o, mkLogOptions (log_Container o) v (log_Previous o) (log_SinceTime o)) opts in
  let '(opts, errs3) := queryErrs r PreviousQueryParam ValidateFieldIsBool
    (λ v o, mkLogOptions (log_Container o) (log_TailLines o) v (log_SinceTime o)) opts in
  let '(opts, errs4) := queryErrs r SinceTimeQueryParam ValidateFieldIsRFC3339Time
    (λ v o, mkLogOptions (log_Container o) (log_TailLines o) (log_Previous o) v) opts in
  (opts, errs1 ++ errs2 ++ errs3 ++ errs4).

Definition GetWorkspacePodTemplateLogsHandler (r : http_request) : hnd http_response :=
  let namespace := ByName r NamespacePathParam in
  let workspaceName := ByName r ResourceNamePathParam in
  _ <~- validate errMsgPathParamsInvalid (namespaceErrs namespace ++ nameErrs workspaceName) ;;
  let '(opts, valErrs) := parseLogOptions r in
  _ <~- validate errMsgQueryParamsInvalid valErrs ;;
  _ <~- requirePolicy r VerbGet Workspaces namespace workspaceName ;;
  stream <~- catch (OpenLogStream namespace workspaceName opts) (λ err,
    match err with
    | ErrWorkspaceNotFound => notFoundResponse
    | ErrPreviousLogsNotFound | ErrWorkspacePodNotRunning
    | ErrContainerNotFound | ErrContainerNotRunning => badRequestResponse (repo_Error err)
    | _ => serverErrorResponse
    end) ;;
  Ret (inl (mkResponse 200 {["Content-Type" := "text/plain"]} (Bytes stream))).

Definition resourceUsageError (err : repo_error) : http_response :=
  match err with
  | ErrWorkspaceNotFound => notFoundResponse
  | ErrWorkspacePodNotRunning => badRequestResponse (repo_Error err)
  | _ => serverErrorResponse
  end.

Definition GetWorkspacePodTemplateResourcesHandler (r : http_request) (m : memo)
    : prog ((http_response + reply) * memo) :=
  let namespace := ByName r NamespacePathParam in
  let workspaceName := ByName r ResourceNamePathParam in
  cleared <--
    (_ <~- validate errMsgPathParamsInvalid (namespaceErrs namespace ++ nameErrs workspaceName) ;;
     requirePolicy r VerbGet Workspaces namespace workspaceName) ;;
  match cleared with
  | inr rep => Ret (inr rep, m)
  | inl _ =>
    '(usage, m) <-- GetWorkspaceResourceUsage namespace workspaceName m ;;
    Ret (match caught usage resourceUsageError with
         | inl usage => inl (dataResponse (EnvUsage usage))
         | inr rep => inr rep
         end, m)
  end.

(** *** WorkspaceKinds *)

Definition kindNotFound (err : repo_error) : http_response :=
  match err with ErrWorkspaceKindNotFound => notFoundResponse | _ => serverErrorResponse end.

Definition GetWorkspaceKindHandler (r : http_request) : hnd http_response :=
  let name := ByName r ResourceNamePathParam in
  _ <~- validate errMsgPathParamsInvalid (nameErrs name) ;;
  _ <~- requirePolicy r VerbGet WorkspaceKinds "" name ;;
  workspaceKind <~- catch (GetWorkspaceKind name) kindNotFound ;;
  Ret (inl (dataResponse (EnvKind workspaceKind))).

Definition GetWorkspaceKindsHandler (r : http_request) : hnd http_response :=
  let namespace := QueryGet r NamespaceFilterQueryParam in
  _ <~- validate errMsgQueryParamsInvalid (queryNamespaceErrs NamespaceFilterQueryParam namespace) ;;
  _ <~- (if negb (bool_decide (namespace = ""))
         then requirePolicy r VerbCreate Workspaces namespace ""
         else requirePolicy r VerbList WorkspaceKinds "" "") ;;
  workspaceKinds <~- catch (GetWorkspaceKinds (app_Config a) namespace) (λ err,
    if IsInternalValidationError err
    then failedValidationResponse errMsgInternalValidation
           (FieldErrorsFromInternalValidationError err) []
    else serverErrorResponse) ;;
  Ret (inl (dataResponse (EnvKindList workspaceKinds))).

Definition DeleteWorkspaceKindHandler (r : http_request) : hnd http_response :=
  let name := ByName r ResourceNamePathParam in
  _ <~- validate errMsgPathParamsInvalid (nameErrs name) ;;
  _ <~- requirePolicy r VerbDelete WorkspaceKinds "" name ;;
  _ <~- catch (DeleteWorkspaceKind name) (λ err,
    match err with
    | ErrWorkspaceKindNotFound => notFoundResponse
    | _ => if repo_IsReason Conflict err
           then conflictResponse (repo_Error err) (StatusCausesFromAPIStatus err)
           else serverErrorResponse
    end) ;;
  Ret (inl deletedResponse).

(** [io.ReadAll] and the strict decoding of YAML. *)
Definition readKind (r : http_request) : hnd (string * string * WorkspaceKind) :=
  match body_Error (rq_Body r) with
  | Some err =>
      if de_MaxBytes err then respond (requestEntityTooLargeResponse (de_Msg err))
      else respond serverErrorResponse
  | None =>
    match DecodeWorkspaceKind (body_Bytes (rq_Body r)) with
    | inl v => Ret (inl v)
    | inr (StrictDecodingError errs) =>
        let valErrs := (λ e, FieldInvalid nilPath BVNil e) <$> omap id errs in
        respond (failedValidationResponse errMsgRequestBodyInvalid valErrs [])
    | inr (DecodingError msg) =>
        respond (badRequestResponse ("error decoding request body: " +:+ msg))
    end
  end.

Definition CreateWorkspaceKindHandler (r : http_request) : hnd http_response :=
  _ <~- ValidateContentType r MediaTypeYaml ;;
  decoded <~- readKind r ;;
  let '(apiVersion, kind, workspaceKind) := decoded in
  _ <~- validate errMsgRequestBodyInvalid
          (ValidateWorkspaceKindGVK apiVersion kind
           ++ ValidateWorkspaceKindName (NewPath ["metadata"; "name"]) (wsk_Name workspaceKind)) ;;
  actor <~- requirePolicy r VerbCreate WorkspaceKinds "" (wsk_Name workspaceKind) ;;
  createdWorkspaceKind <~- catch
    (CreateWorkspaceKind (Some (user_Name actor)) workspaceKind) (λ err,
    match err with
    | ErrWorkspaceKindAlreadyExists =>
        conflictResponse (repo_Error err) (StatusCausesFromAPIStatus err)
    | _ => if repo_IsReason Invalid err
           then failedValidationResponse errMsgKubernetesValidation []
                  (StatusCausesFromAPIStatus err)
           else serverErrorResponse
    end) ;;
  Ret (inl (createdResponse (EnvKindCreate createdWorkspaceKind)
              (LocationGetWorkspaceKind (wkc_Name createdWorkspaceKind)))).

Definition UpdateWorkspaceKindHandler (r : http_request) : hnd http_response :=
  let name := ByName r ResourceNamePathParam in
  _ <~- validate errMsgPathParamsInvalid (nameErrs name) ;;
  actor <~- requirePolicy r VerbUpdate WorkspaceKinds "" name ;;
  _ <~- ValidateContentType r MediaTypeJson ;;
  workspaceKindUpdate <~- decodeData BWorkspaceKindUpdate r ;;
  _ <~- validate errMsgRequestBodyInvalid
          (WorkspaceKindUpdate_Validate workspaceKindUpdate dataPath) ;;
  updatedWorkspaceKind <~- catch
    (UpdateWorkspaceKind (Some (user_Name actor)) workspaceKindUpdate name) (λ err,
    match err with
    | ErrWorkspaceKindNotFound => notFoundResponse
    | _ =>
      if IsInternalValidationError err
      then failedValidationResponse errMsgInternalValidation
             (FieldErrorsFromInternalValidationError err) []
      else match err with
           | ErrWorkspaceKindRevisionConflict => internalConflictResponse (repo_Error err)
           | _ => if repo_IsReason Invalid err
                  then failedValidationResponse errMsgKubernetesValidation []
                         (StatusCausesFromAPIStatus err)
                  else serverErrorResponse
           end
    end) ;;
  Ret (inl (dataResponse (EnvKind updatedWorkspaceKind))).

Definition PodTemplateOptionsListValuesHandler (r : http_request) : hnd http_response :=
  let name := ByName r ResourceNamePathParam in
  _ <~- validate errMsgPathParamsInvalid (nameErrs name) ;;
  _ <~- ValidateContentType r MediaTypeJson ;;
  listValuesRequest <~- decodeData BListValues r ;;
  _ <~- validate errMsgRequestBodyInvalid (ListValuesRequest_Validate listValuesRequest dataPath) ;;
  let namespace := match lvc_Namespace (lvr_Context listValuesRequest) with
                   | Some ns => cns_Name ns | None => "" end in
  _ <~- (if negb (bool_decide (namespace = ""))
         then requirePolicy r VerbCreate Workspaces namespace ""
         else requirePolicy r VerbGet WorkspaceKinds "" name) ;;
  listValuesResponse <~- catch (ListPodTemplateOptionsValues name listValuesRequest) (λ err,
    match err with
    | ErrWorkspaceKindNotFound => notFoundResponse
    | _ => if IsInternalValidationError err
           then failedValidationResponse errMsgInternalValidation
                  (FieldErrorsFromInternalValidationError err) []
           else serverErrorResponse
    end) ;;
  Ret (inl (dataResponse (EnvOptions listValuesResponse))).

Definition getWorkspaceKindAssetHandler (assetType : wskAssetType) (r : http_request)
    : hnd http_response :=
  let wskName := ByName r ResourceNamePathParam in
  let namespace := QueryGet r NamespaceQueryParam in
  _ <~- validate errMsgPathParamsInvalid (nameErrs wskName) ;;
  _ <~- validate errMsgQueryParamsInvalid (queryNamespaceErrs NamespaceQueryParam namespace) ;;
  _ <~- (if negb (bool_decide (namespace = ""))
         then requirePolicy r VerbList Workspaces namespace ""
         else requirePolicy r VerbGet WorkspaceKinds "" wskName) ;;
  asset <~- catch (getWorkspaceKindAssetBytes wskName assetType) (λ err,
    match err with
    | ErrWorkspaceKindNotFound | ErrWorkspaceKindAssetNotConfigMap => notFoundResponse
    | _ => serverErrorResponse
    end) ;;
  Ret (inl (wskAssetResponse asset.1 asset.2)).
End handlers.

(** ** Routes ([app.go]) *)

Inductive endpoint :=
| GetHealthcheck | GetUser | GetNamespaces_
| GetSecretsByNamespace | CreateSecret_ | GetSecret_ | UpdateSecret_ | DeleteSecret_
| GetAllWorkspaces | GetWorkspacesByNamespace | GetWorkspace_ | CreateWorkspace_
| UpdateWorkspace_ | DeleteWorkspace_ | PauseActionWorkspace
| GetWorkspacePodTemplateDetails | GetWorkspacePodTemplateLogs | GetWorkspacePodTemplateResources
| GetWorkspaceKinds_ | GetWorkspaceKind_ | CreateWorkspaceKind_ | DeleteWorkspaceKind_
| UpdateWorkspaceKind_ | PodTemplateOptionsListValues | GetWorkspaceKindIcon | GetWorkspaceKindLogo
| GetStorageClasses_ | GetPVCsByNamespace | CreatePVC_ | DeletePVC_.

#[global] Instance endpoint_eq_dec : EqDecision endpoint.
Proof. solve_decision. Defined.

Definition Routes : list (string * string * endpoint) :=
  [("GET", HealthCheckPath, GetHealthcheck);
   ("GET", UserPath, GetUser);
   ("GET", AllNamespacesPath, GetNamespaces_);
   ("GET", SecretsByNamespacePath, GetSecretsByNamespace);
   ("POST", SecretsByNamespacePath, CreateSecret_);
   ("GET", SecretsByNamePath, GetSecret_);
   ("PUT", SecretsByNamePath, UpdateSecret_);
   ("DELETE", SecretsByNamePath, DeleteSecret_);
   ("GET", AllWorkspacesPath, GetAllWorkspaces);
   ("GET", WorkspacesByNamespacePath, GetWorkspacesByNamespace);
   ("GET", WorkspacesByNamePath, GetWorkspace_);
   ("POST", WorkspacesByNamespacePath, CreateWorkspace_);
   ("PUT", WorkspacesByNamePath, UpdateWorkspace_);
   ("DELETE", WorkspacesByNamePath, DeleteWorkspace_);
   ("POST", PauseWorkspacePath, PauseActionWorkspace);
   ("GET", WorkspacePodTemplateDetailsPath, GetWorkspacePodTemplateDetails);
   ("GET", WorkspacePodTemplatePodLogsBatchPath, GetWorkspacePodTemplateLogs);
   ("GET", WorkspacePodTemplateResourcesPath, GetWorkspacePodTemplateResources);
   ("GET", AllWorkspaceKindsPath, GetWorkspaceKinds_);
   ("GET", WorkspaceKindsByNamePath, GetWorkspaceKind_);
   ("POST", AllWorkspaceKindsPath, CreateWorkspaceKind_);
   ("DELETE", WorkspaceKindsByNamePath, DeleteWorkspaceKind_);
   ("PUT", WorkspaceKindsByNamePath, UpdateWorkspaceKind_);
   ("POST", PodTemplateOptionsListValuesPath, PodTemplateOptionsListValues);
   ("GET", WorkspaceKindIconPath, GetWorkspaceKindIcon);
   ("GET", WorkspaceKindLogoPath, GetWorkspaceKindLogo);
   ("GET", AllStorageClassesPath, GetStorageClasses_);
   ("GET", PVCsByNamespacePath, GetPVCsByNamespace);
   ("POST", PVCsByNamespacePath, CreatePVC_);
   ("DELETE", PVCsByNamePath, DeletePVC_)].

(** What httprouter finds for a method and a path: a handler with the parameters it binds,
    or one of the router's own answers. *)
Inductive route_match :=
| Matched (e : endpoint) (params : gmap string string)
| NotFoundRoute
| MethodNotAllowedRoute
| RouterResponse (r : http_response).  (** redirects and OPTIONS *)

Class RouterLib := { Lookup : list (string * string * endpoint) → string → string → route_match }.

(** A match is one of the registered routes. *)
Class RouterLibLaws `{RouterLib} : Prop :=
  lookup_registered routes method path e params :
    Lookup routes method path = Matched e params → ∃ p, (method, p, e) ∈ routes.

Section serve.
Context `{CodecLib} `{NameLib} `{ValidationLib} `{MapOrder} `{QuantityLib} `{TimeLib} `{SelectorLib}.

(** A handler without state of its own. *)
Definition stateless (p : hnd http_response) (m : memo) : prog ((http_response + reply) * memo) :=
  r <-- p ;; Ret (r, m).

Definition handlerOf (a : App) (e : endpoint) (r : http_request)
    : memo → prog ((http_response + reply) * memo) :=
  match e with
  | GetHealthcheck => stateless (GetHealthcheckHandler r)
  | GetUser => stateless (GetUserHandler a r)
  | GetNamespaces_ => stateless (GetNamespacesHandler a r)
  | GetSecretsByNamespace => stateless (GetSecretsByNamespaceHandler a r)
  | CreateSecret_ => stateless (CreateSecretHandler a r)
  | GetSecret_ => stateless (GetSecretHandler a r)
  | UpdateSecret_ => stateless (UpdateSecretHandler a r)
  | DeleteSecret_ => stateless (DeleteSecretHandler a r)
  | GetAllWorkspaces | GetWorkspacesByNamespace => stateless (getWorkspacesHandler a r)
  | GetWorkspace_ => stateless (GetWorkspaceHandler a r)
  | CreateWorkspace_ => stateless (CreateWorkspaceHandler a r)
  | UpdateWorkspace_ => stateless (UpdateWorkspaceHandler a r)
  | DeleteWorkspace_ => stateless (DeleteWorkspaceHandler a r)
  | PauseActionWorkspace => stateless (PauseActionWorkspaceHandler a r)
  | GetWorkspacePodTemplateDetails => stateless (GetWorkspacePodTemplateDetailsHandler a r)
  | GetWorkspacePodTemplateLogs => stateless (GetWorkspacePodTemplateLogsHandler a r)
  | GetWorkspacePodTemplateResources => GetWorkspacePodTemplateResourcesHandler a r
  | GetWorkspaceKinds_ => stateless (GetWorkspaceKindsHandler a r)
  | GetWorkspaceKind_ => stateless (GetWorkspaceKindHandler a r)
  | CreateWorkspaceKind_ => stateless (CreateWorkspaceKindHandler a r)
  | DeleteWorkspaceKind_ => stateless (DeleteWorkspaceKindHandler a r)
  | UpdateWorkspaceKind_ => stateless (UpdateWorkspaceKindHandler a r)
  | PodTemplateOptionsListValues => stateless (PodTemplateOptionsListValuesHandler a r)
  | GetWorkspaceKindIcon => stateless (getWorkspaceKindAssetHandler a wskAssetTypeIcon r)
  | GetWorkspaceKindLogo => stateless (getWorkspaceKindAssetHandler a wskAssetTypeLogo r)
  | GetStorageClasses_ => stateless (GetStorageClassesHandler a r)
  | GetPVCsByNamespace => stateless (GetPVCsByNamespaceHandler a r)
  | CreatePVC_ => stateless (CreatePVCHandler a r)
  | DeletePVC_ => stateless (DeletePVCHandler a r)
  end.

(** ** The middleware ([middleware.go]) *)

Definition setHeader (key value : string) (resp : http_response) : http_response :=
  mkResponse (rs_StatusCode resp) (<[key := value]> (rs_Header resp)) (rs_Body resp).

Definition recoverPanic (rep : reply) : http_response :=
  match rep with
  | Reply resp => resp
  | Panicked _ => setHeader "Connection" "close" serverErrorResponse
  end.

Definition enableCORS (resp : http_response) : http_response :=
  setHeader "Access-Control-Allow-Origin" "*" resp.

Definition bindParams (r : http_request) (params : gmap string string) : http_request :=
  mkRequest params (rq_Header r) (rq_Query r) (rq_Body r).

(** [Routes()] below [/api/v1]: the CORS header is set before the handler runs, so the
    response to a panic has it too. *)
Definition ServeHTTP `{RouterLib} (a : App) (method path : string) (r : http_request) (m : memo)
    : prog (http_response * memo) :=
  match Lookup Routes method path with
  | NotFoundRoute => Ret (enableCORS notFoundResponse, m)
  | MethodNotAllowedRoute => Ret (enableCORS (methodNotAllowedResponse method), m)
  | RouterResponse resp => Ret (enableCORS resp, m)
  | Matched e params =>
    '(res, m) <-- handlerOf a e (bindParams r params) m ;;
    Ret (enableCORS (recoverPanic (to_reply res)), m)
  end.
End serve.

(** ** Examples *)

(** A codec that reads a Secret's name from the body, media types without parameters, and a
    router that knows paths by their patterns. *)
Definition exampleCodecLib : CodecLib := {|
  Decode t b := match t return option (body_of t) + decode_error with
                | BSecretCreate => inl (Some (mkSecretCreate (body_Bytes b) "Opaque" false ∅))
                | _ => inl None
                end;
  DecodeWorkspaceKind s := inr (DecodingError s);
  ParseMediaType s := inl s;
  ErrorBody _ := "invalid";
  AggregateError _ := "invalid";
  APIStatusDetails _ := None |}.

Definition exampleRouterLib : RouterLib := {|
  Lookup routes method path :=
    match List.find (λ '(m, p, _), bool_decide (m = method) && bool_decide (p = path)) routes with
    | Some (_, _, e) => Matched e {["namespace" := "ns"; "name" := "s"]}
    | None => NotFoundRoute
    end |}.

Lemma exampleRouterLib_laws : @RouterLibLaws exampleRouterLib.
Proof.
  intros routes method path e params. simpl.
  destruct (List.find _ routes) as [[[m p] e']|] eqn:Hf; [|done]. intros [= -> _].
  apply List.find_some in Hf as [Hin [->%bool_decide_eq_true _]%andb_true_iff].
  exists p. by apply list_elem_of_In.
Qed.

Definition exApp : App :=
  mkApp (mkBackendConfig "") "kubeflow-userid" ""
    (NewBearerTokenAuthenticator "Authorization" "Bearer ").

(** An API server with Secrets that may be updated. *)
Definition exServer : handler () :=
  exAuth (exBackend (exWorkspace "test" false "img" "pod"
    (exStatus WorkspaceStateRunning emptyActivity 0)) {[LabelCanUpdate := "true"]}).

Example locations :
  LocationGetWorkspace "ns" "ws" = "/api/v1/workspaces/ns/ws" ∧
  LocationGetSecret "ns" "s" = "/api/v1/secrets/ns/s" ∧
  LocationGetWorkspaceKind "jupyterlab" = "/api/v1/workspacekinds/jupyterlab".
Proof. repeat split; vm_compute; reflexivity. Qed.
