(* ===== verification/Startup.v ===== *)
(** * Start-up ([controller/cmd/main.go], [backend/cmd/main.go], [backend/internal/server])

    The configuration of both programs from the command line and the environment, the checks
    before they start, the TLS options of the controller's servers with the watcher that
    restarts it, the retries of the field indexers, and the backend's choice of an
    authenticator.  What comes after, the manager's loop, is controller-runtime's.  The
    theorems close assumptions of the other files: a started controller has an image for
    the proxies it injects, a started backend authenticates with token reviews only. *)

From Stdlib Require Import ZArith Ascii.
From stdpp Require Import base gmap strings list.
From S2P Require Import Prelude K8sTypes ApiTypes Names Client Examples Probe TLS Generate Field Validation.
From S2P Require Import ListValues WorkspaceModel KindModel WorkspaceList Secrets Pvcs.
From S2P Require Import Cluster Metrics Http Auth Paths Handlers.

(** ** Environment and flags *)

(** [os.LookupEnv]. *)
Abbreviation environment := (gmap string string).

Definition getEnvAsStr (env : environment) (name defaultVal : string) : string :=
  default defaultVal (env !! name).

Definition getEnvAsBool (env : environment) (name : string) (defaultVal : bool) : bool :=
  default defaultVal (env !! name ≫= ParseBool).

(** [strconv.Atoi] on a 64-bit platform. *)
Definition getEnvAsInt (env : environment) (name : string) (defaultVal : Z) : Z :=
  default defaultVal (env !! name ≫= ParseInt).

(** What [flag.Parse] found on the command line. *)
Record flags := mkFlags {
  fl_Str : gmap string string;
  fl_Bool : gmap string bool;
  fl_Int : gmap string Z;
}.

Definition StringVar (fl : flags) (name value : string) : string := default value (fl_Str fl !! name).
Definition BoolVar (fl : flags) (name : string) (value : bool) : bool := default value (fl_Bool fl !! name).
Definition IntVar (fl : flags) (name : string) (value : Z) : Z := default value (fl_Int fl !! name).

(** ** The controller *)

Definition namespaceFile : string := "/var/run/secrets/kubernetes.io/serviceaccount/namespace".

(** The first of the service account's file and [POD_NAMESPACE] that is not blank. *)
Definition getControllerNamespace (env : environment) (defaultVal : string) : prog string :=
  data <-- call (ReadFile namespaceFile) ;;
  let fallback :=
    match env !! "POD_NAMESPACE" with
    | Some value => let namespace := TrimSpace value in
                    if negb (bool_decide (namespace = "")) then namespace else defaultVal
    | None => defaultVal
    end in
  Ret match data with
      | inl data => let namespace := TrimSpace data in
                    if negb (bool_decide (namespace = "")) then namespace else fallback
      | inr _ => fallback
      end.

Definition controllerConfig (env : environment) (fl : flags) (namespace : string) : EnvConfig := {|
  cfg_IstioGateway := StringVar fl "istio-gateway" (getEnvAsStr env "ISTIO_GATEWAY" "");
  cfg_IstioHosts := StringVar fl "istio-hosts" (getEnvAsStr env "ISTIO_HOSTS" "*");
  cfg_ClusterDomain := StringVar fl "cluster-domain" (getEnvAsStr env "CLUSTER_DOMAIN" "cluster.local");
  cfg_UseIstio := BoolVar fl "use-istio" (getEnvAsBool env "USE_ISTIO" false);
  cfg_UseKubeGateway := BoolVar fl "use-kube-gateway" (getEnvAsBool env "USE_KUBE_GATEWAY" false);
  cfg_KubeGatewayName :=
    StringVar fl "kube-gateway-name" (getEnvAsStr env "KUBE_GATEWAY_NAME" "kubeflow-gateway");
  cfg_KubeGatewayNamespace :=
    StringVar fl "kube-gateway-namespace" (getEnvAsStr env "KUBE_GATEWAY_NAMESPACE" "kubeflow");
  cfg_ControllerNamespace := namespace;
  cfg_KubeRbacProxyImage :=
    StringVar fl "kube-rbac-proxy-image" (getEnvAsStr env "KUBE_RBAC_PROXY_IMAGE" "") |}.

(** The checks before anything starts; an error is logged and the process exits with 1. *)
Definition checkConfig (cfg : EnvConfig) : go () :=
  if cfg_UseIstio cfg && cfg_UseKubeGateway cfg
  then Err (ErrorMsg "use-istio and use-kube-gateway cannot both be enabled")
  else if cfg_UseKubeGateway cfg && bool_decide (cfg_KubeRbacProxyImage cfg = "")
  then Err (ErrorMsg "kube-rbac-proxy-image is required when use-kube-gateway is enabled")
  else Ok ().

(** The retries of [SetupManagerFieldIndexers]: [setup i] is what attempt [i] returns.  The
    result is the last error and the time slept after each failed attempt. *)
Fixpoint retryLoop (setup : nat → option error) (attempts : list nat) (indexerErr : option error)
    : option error * list Z :=
  match attempts with
  | [] => (indexerErr, [])
  | i :: attempts =>
    match setup i with
    | None => (None, [])
    | Some err => let '(res, slept) := retryLoop setup attempts (Some err) in
                  (res, (Z.of_nat (i + 1) * Second)%Z :: slept)
    end
  end.

Definition maxRetries : nat := 5.
Definition setupIndexers (setup : nat → option error) : option error * list Z :=
  retryLoop setup (seq 0 maxRetries) None.

(** What the manager is built with. *)
Record Controller := mkController {
  ct_Config : EnvConfig;
  ct_TLSOpts : TLSOpts;
  ct_NextProtos : list string;
  ct_MaxConcurrentReconciles : Z;
  ct_Webhooks : bool;
  ct_Watcher : option ProfileWatcher;
}.

(** The protocols that the resolved options set, unless a later option overrides them. *)
Definition nextProtos (enableHTTP2 : bool) : list string :=
  let NextProtos := ["h2"; "http/1.1"] in
  if negb enableHTTP2 then ["http/1.1"] else NextProtos.

Section controller.
Context `{UnstructuredLib}.

(** The watcher, as [SetupWithManager] starts it. *)
Definition profileWatcher (tlsResult : TLSResult) : option ProfileWatcher :=
  if tr_APIAvailable tlsResult
  then Some (mkProfileWatcher (default "" (tr_Profile tlsResult)) (tr_Adherence tlsResult))
  else None.

Definition startController (env : environment) (fl : flags) (setup : nat → option error)
    : prog (go Controller) :=
  namespace <-- getControllerNamespace env "kubeflow-workspaces" ;;
  let cfg := controllerConfig env fl namespace in
  match checkConfig cfg with
  | Ok _ =>
    tlsResult <-- resolve ;;
    Ret match tlsResult with
        | Ok tlsResult =>
          match (setupIndexers setup).1 with
          | None =>
            Ok (mkController cfg (tr_TLSOpts tlsResult)
                  (nextProtos (BoolVar fl "enable-http2" false))
                  (IntVar fl "max-concurrent-reconciles"
                     (getEnvAsInt env "MAX_CONCURRENT_RECONCILES" 10))
                  (negb (bool_decide (env !! "ENABLE_WEBHOOKS" = Some "false")))
                  (profileWatcher tlsResult))
          | Some err => Err err
          end
        | Err err => Err err
        | Panic why => Panic why
        end
  | Err err => Ret (Err err)
  | Panic why => Ret (Panic why)
  end.
End controller.

(** ** The backend *)

Definition DefaultAuthTokenHeader : string := "Authorization".
Definition DefaultAuthTokenPrefix : string := "Bearer ".

(** The backend's configuration ([config/environment.go]), as far as the handlers and the
    server use it. *)
Record BackendEnvConfig := mkBackendEnvConfig {
  be_Port : Z;
  be_AuthMethod : string;
  be_AuthTokenHeader : string;
  be_AuthTokenPrefix : string;
  be_UserIdHeader : string;
  be_UserIdPrefix : string;
  be_GroupsHeader : string;
  be_ProxyUrlPrefix : string;
}.

Definition backendConfig (env : environment) (fl : flags) : BackendEnvConfig := {|
  be_Port := IntVar fl "port" (getEnvAsInt env "PORT" 4000);
  be_AuthMethod := StringVar fl "auth-method" (getEnvAsStr env "AUTH_METHOD" "internal");
  be_AuthTokenHeader :=
    StringVar fl "auth-token-header" (getEnvAsStr env "AUTH_TOKEN_HEADER" DefaultAuthTokenHeader);
  be_AuthTokenPrefix :=
    StringVar fl "auth-token-prefix" (getEnvAsStr env "AUTH_TOKEN_PREFIX" DefaultAuthTokenPrefix);
  be_UserIdHeader := StringVar fl "userid-header" (getEnvAsStr env "USERID_HEADER" "kubeflow-userid");
  be_UserIdPrefix := StringVar fl "userid-prefix" (getEnvAsStr env "USERID_PREFIX" ":");
  be_GroupsHeader := StringVar fl "groups-header" (getEnvAsStr env "GROUPS_HEADER" "kubeflow-groups");
  be_ProxyUrlPrefix := StringVar fl "proxy-url-prefix" (getEnvAsStr env "PROXY_URL_PREFIX" "") |}.

Section backend.
Context `{HeaderAuthLib}.

Definition selectAuthenticator (cfg : BackendEnvConfig) : authenticator + error :=
  if bool_decide (be_AuthMethod cfg = "user_token")
  then inl (NewBearerTokenAuthenticator (be_AuthTokenHeader cfg) (be_AuthTokenPrefix cfg))
  else if bool_decide (be_AuthMethod cfg = "internal")
  then NewRequestAuthenticator (be_UserIdHeader cfg) (be_UserIdPrefix cfg) (be_GroupsHeader cfg)
  else inr (ErrorMsg ("unsupported auth method " +:+ quote (be_AuthMethod cfg)
                      +:+ ": must be " +:+ quote "internal" +:+ " or " +:+ quote "user_token")).

(** [NewServer], up to the listener: whether it serves TLS. *)
Definition NewServer (certFile keyFile : string) : go bool :=
  if xorb (bool_decide (certFile = "")) (bool_decide (keyFile = ""))
  then Err (ErrorMsg "cert-file and key-file must be provided together")
  else Ok (negb (bool_decide (certFile = "")) && negb (bool_decide (keyFile = ""))).

(** The exit status is 1 on an error; the steps that only call libraries are left out. *)
Definition startBackend (env : environment) (fl : flags) : go (App * bool) :=
  let cfg := backendConfig env fl in
  match selectAuthenticator cfg with
  | inr err => Err err
  | inl reqAuthN =>
    let! tlsEnabled := NewServer (StringVar fl "cert-file" (getEnvAsStr env "CERT_FILE" ""))
                         (StringVar fl "key-file" (getEnvAsStr env "KEY_FILE" "")) in
    Ok (mkApp (mkBackendConfig (be_ProxyUrlPrefix cfg)) (be_UserIdHeader cfg) (be_UserIdPrefix cfg)
          reqAuthN, tlsEnabled)
  end.
End backend.

Definition maxBodyBytes : Z := Z.shiftl 1 22.

(** [http.MaxBytesHandler]: reading beyond the limit fails. *)
Definition MaxBytesHandler (n : Z) (r : http_request) : http_request :=
  let b := rq_Body r in
  if (Z.of_nat (slen (body_Bytes b)) <=? n)%Z then r
  else mkRequest (rq_Params r) (rq_Header r) (rq_Query r)
         (mkBody (String.substring 0 (Z.to_nat n) (body_Bytes b))
            (Some (mkDecodeError true false "http: request body too large"))).

(** The handler of the server. *)
Definition serve `{CodecLib} `{NameLib} `{ValidationLib} `{MapOrder} `{QuantityLib} `{TimeLib}
    `{SelectorLib} `{RouterLib} (a : App) (method path : string) (r : http_request) (m : memo)
    : prog (http_response * memo) :=
  ServeHTTP a method path (MaxBytesHandler maxBodyBytes r) m.

(** ** Properties *)

Lemma retryLoop_spec setup attempts last :
  attempts ≠ [] →
  ((retryLoop setup attempts last).1 = None ↔ ∃ i, i ∈ attempts ∧ setup i = None) ∧
  ∃ failed, failed `prefix_of` attempts ∧ Forall (λ i, is_Some (setup i)) failed ∧
    (retryLoop setup attempts last).2 = (λ i, (Z.of_nat (i + 1) * Second)%Z) <$> failed ∧
    (failed = attempts ∨ ∃ i, failed ++ [i] `prefix_of` attempts ∧ setup i = None).
Proof.
  revert last. induction attempts as [|i l IH]; intros last Hne; [done|]. simpl.
  destruct (setup i) as [err|] eqn:Hi; simpl.
  - destruct (decide (l = [])) as [->|Hl].
    { simpl. split; [|exists [i]; split_and!; [done|by constructor|done|by left]].
      split; [done|]. intros (j & ->%list_elem_of_singleton & Hj). congruence. }
    destruct (IH (Some err) Hl) as [Hres (failed & Hp & Hf & Hs & Hend)].
    destruct (retryLoop setup l (Some err)) as [res slept] eqn:Hr. simpl in *. split.
    + rewrite Hres. split; [intros (j & Hj & Hn); exists j; split; [by right|done]|].
      intros (j & [->|Hj]%elem_of_cons & Hn); [congruence|by exists j].
    + exists (i :: failed). split_and!; [by apply prefix_cons|by constructor|by rewrite Hs|].
      destruct Hend as [->|(j & Hj & Hn)]; [by left|right; exists j]. split; [by apply prefix_cons|done].
  - split; [split; [|done]; intros _; exists i; split; [by left|done]|].
    exists []. split_and!; [apply prefix_nil|done|done|right; exists i]. split; [|done].
    by apply prefix_cons, prefix_nil.
Qed.

(** The field indexers are set up at most five times: the set-up succeeds exactly when one
    of the five attempts does, no attempt follows a success, and the pauses after the
    failures, of one to five seconds, add up to at most fifteen. *)
Theorem setupIndexers_correct setup :
  ((setupIndexers setup).1 = None ↔ ∃ i, (i < 5)%nat ∧ setup i = None) ∧
  ∃ n, (n ≤ 5)%nat ∧ (∀ i, (i < n)%nat → is_Some (setup i)) ∧ (n = 5%nat ∨ setup n = None) ∧
    (setupIndexers setup).2 = (λ i, (Z.of_nat (i + 1) * Second)%Z) <$> seq 0 n ∧
    (foldr Z.add 0 (setupIndexers setup).2 ≤ 15 * Second)%Z.
Proof.
  destruct (retryLoop_spec setup (seq 0 maxRetries) None ltac:(done))
    as [Hres (failed & [rest Hp] & Hf & Hs & Hend)].
  unfold setupIndexers. split.
  - rewrite Hres. unfold maxRetries. split; intros (i & Hi & Hn); exists i; (split; [|done]);
      [apply elem_of_seq in Hi|apply elem_of_seq]; lia.
  - assert (length failed ≤ 5)%nat as Hle.
    { pose proof (f_equal length Hp) as Hl. rewrite length_seq, length_app in Hl.
      unfold maxRetries in Hl. lia. }
    assert (failed = seq 0 (length failed)) as Hseq.
    { pose proof (f_equal (take (length failed)) Hp) as Ht.
      by rewrite take_app_length, take_seq, Nat.min_l in Ht by (unfold maxRetries; lia). }
    exists (length failed). rewrite Hs, Hseq, length_seq. split_and!; [done|..].
    + intros i Hi. rewrite Forall_forall in Hf. apply Hf. rewrite Hseq. apply elem_of_seq. lia.
    + destruct Hend as [->|(i & [rest' Hi] & Hn)]; [left; by rewrite length_seq|right].
      assert (i = length failed) as <-; [|done].
      assert (seq 0 maxRetries !! length failed = Some i) as Hl.
      { rewrite Hi, <-(assoc_L (++)). by apply list_lookup_middle. }
      apply lookup_seq in Hl as [-> _]. done.
    + done.
    + clear -Hle. revert Hle. generalize (length failed).
      intros [|[|[|[|[|[|n]]]]]] Hle; [vm_compute; discriminate..|lia].
Qed.

Definition as_unstructured (e : event) : option (answer string) :=
  match e with
  | @Ev X q x => match q in req X return X → option (answer string) with
                 | GetUnstructured _ _ => λ x, Some x
                 | _ => λ _, None
                 end x
  end.

Lemma unstructured_inj gvk name x gvk' name' x' h h' :
  Ev (GetUnstructured gvk name) x :: h = Ev (GetUnstructured gvk' name') x' :: h' → x = x'.
Proof. intros [Heq _]%(app_inj_1 [_] [_]); [|done]. by injection (f_equal (omap as_unstructured) Heq). Qed.

Lemma nonblank_or s d : d ≠ "" → (if negb (bool_decide (s = "")) then s else d) ≠ "".
Proof. by case_bool_decide. Qed.

Section controller_facts.
Context `{UnstructuredLib}.

(** What the start of a controller went through, when it got to run. *)
Lemma startController_Ok env fl setup h c :
  runs (startController env fl setup) h (Ok c) →
  ∃ data x tlsResult,
    h = [Ev (ReadFile namespaceFile) data; Ev (GetUnstructured apiServerGVK apiServerName) x] ∧
    runs resolve [Ev (GetUnstructured apiServerGVK apiServerName) x] (Ok tlsResult) ∧
    (∃ namespace, ct_Config c = controllerConfig env fl namespace ∧ namespace ≠ "") ∧
    checkConfig (ct_Config c) = Ok () ∧ (setupIndexers setup).1 = None ∧
    ct_NextProtos c = nextProtos (BoolVar fl "enable-http2" false) ∧
    ct_TLSOpts c = tr_TLSOpts tlsResult ∧ ct_Watcher c = profileWatcher tlsResult.
Proof.
  unfold startController. intros Hr. apply runs_bind in Hr as (h1 & h2 & ns & -> & Hns & Hr).
  destruct Hns as (data & h' & -> & -> & Hns).
  assert (ns ≠ "") as Hne.
  { rewrite <-Hns. destruct data as [data|]; [apply nonblank_or|]; (destruct (env !! _); [|done]);
      by apply nonblank_or. }
  destruct (checkConfig (controllerConfig env fl ns)) as [[]|e|w] eqn:Hc; [|by destruct Hr..].
  apply runs_bind in Hr as (h3 & h4 & tlsResult & -> & Htls & Hr). destruct Hr as [-> Hr].
  destruct tlsResult as [tlsResult|e|w]; [|done..].
  destruct (setupIndexers setup).1 eqn:Hi; [done|]. injection Hr as <-.
  destruct Htls as (x & h5 & -> & Hk). exists data, x, tlsResult. simpl.
  assert (h5 = []) as -> by apply Hk. split_and!; try done.
  - by exists x, [].
  - by exists ns.
Qed.

(** A controller that starts is configured consistently: Istio and the Kubernetes Gateway
    are not both on; with the Gateway every kube-rbac-proxy sidecar it generates has an
    image; it knows its namespace; HTTP/2 is served only when asked for, whatever the
    cluster's TLS profile; and all it did was to read. *)
Theorem controller_starts_consistent env fl setup h c :
  runs (startController env fl setup) h (Ok c) →
  reads_only h ∧
  (cfg_UseIstio (ct_Config c) = true → cfg_UseKubeGateway (ct_Config c) = false) ∧
  (cfg_UseKubeGateway (ct_Config c) = true →
   ∀ w k spec tls container volumes,
     generateKubeRBACProxySidecar (ct_Config c) w k spec tls = Ok (Some (container, volumes)) →
     ctr_Image container ≠ "") ∧
  cfg_ControllerNamespace (ct_Config c) ≠ "" ∧
  ("h2" ∈ ct_NextProtos c ↔ fl_Bool fl !! "enable-http2" = Some true).
Proof.
  intros (data & x & res & -> & _ & (ns & Hns & Hne) & Hc & _ & Hp & _ & _)%startController_Ok.
  unfold checkConfig in Hc. split_and!.
  - by repeat constructor.
  - intros Hi. rewrite Hi in Hc. by destruct (cfg_UseKubeGateway _).
  - intros Hg w k spec tls container volumes Hs. rewrite Hg, andb_true_r in Hc.
    destruct (cfg_UseIstio _); [done|]. simpl in Hc. case_bool_decide as Himg; [done|].
    unfold generateKubeRBACProxySidecar in Hs. destruct (firstHTTPPort _ _); [|done].
    destruct (generateWorkspaceSuffixedName _ _); [|done..].
    destruct (generateWorkspaceSuffixedName _ _); [|done..]. by injection Hs as <- _.
  - by rewrite Hns.
  - rewrite Hp. unfold nextProtos, BoolVar.
    destruct (fl_Bool fl !! "enable-http2") as [[]|]; simpl; set_solver.
Qed.

(** Starting up does not loop: the watcher of a controller that resolved its TLS profile
    from an APIServer does not restart it when it sees that same object, and there is no
    watcher only when the cluster has no such API or object. *)
Theorem restart_only_on_change env fl setup h c :
  runs (startController env fl setup) h (Ok c) →
  (∀ apiServer, Ev (GetUnstructured apiServerGVK apiServerName) (inl apiServer) ∈ h →
     ∃ w, ct_Watcher c = Some w ∧
       runs (watcherReconcile w apiServerName)
         [Ev (GetUnstructured apiServerGVK apiServerName) (inl apiServer)] (w, false, None)) ∧
  (ct_Watcher c = None →
     ∃ err, Ev (GetUnstructured apiServerGVK apiServerName) (inr err) ∈ h ∧
       IsNoMatchError err || IsNotFound err = true).
Proof.
  intros (data & x & res & -> & (y & h' & Hx & -> & Hr) & _ & _ & _ & _ & _ & Hw)%startController_Ok.
  apply unstructured_inj in Hx as <-. rewrite Hw. unfold profileWatcher. split.
  - intros obj [Hin|Hin]%elem_of_cons; [by apply (f_equal as_unstructured) in Hin|].
    apply list_elem_of_singleton, (f_equal as_unstructured) in Hin. injection Hin as <-.
    destruct (readProfile obj) as [profile adherence] eqn:Hrp.
    destruct (parseProfile obj) as [minVersion ciphers]. case_bool_decide; [done|].
    injection Hr as <-. eexists. split; [reflexivity|]. exists (inl obj), []. split; [done|].
    split; [done|]. rewrite Hrp. by rewrite !bool_decide_eq_true_2.
  - destruct x as [obj|err].
    + destruct (readProfile obj), (parseProfile obj). case_bool_decide; [done|]. by injection Hr as <-.
    + destruct (IsNoMatchError err || IsNotFound err) eqn:He.
      * intros _. exists err. split; [|done]. right. left.
      * destruct (existsb _ _); [|done]. by injection Hr as <-.
Qed.
End controller_facts.

Section backend_facts.
Context `{HeaderAuthLib}.

Lemma startBackend_Ok env fl a tls :
  startBackend env fl = Ok (a, tls) →
  selectAuthenticator (backendConfig env fl) = inl (app_RequestAuthN a) ∧
  NewServer (StringVar fl "cert-file" (getEnvAsStr env "CERT_FILE" ""))
    (StringVar fl "key-file" (getEnvAsStr env "KEY_FILE" "")) = Ok tls.
Proof.
  unfold startBackend. destruct (selectAuthenticator _) as [authn|]; [|done].
  destruct (NewServer _ _); [|done..]. by intros [= <- <-].
Qed.

(** The authenticator that was chosen asks the API server for token reviews only. *)
Lemma startBackend_reviews env fl a tls :
  startBackend env fl = Ok (a, tls) → reviews_only (app_RequestAuthN a).
Proof.
  intros [Ha _]%startBackend_Ok. unfold selectAuthenticator in Ha.
  case_bool_decide; [injection Ha as <-; apply NewBearerTokenAuthenticator_reviews|].
  case_bool_decide; [by eapply NewRequestAuthenticator_reviews|done].
Qed.
End backend_facts.

Lemma MaxBytesHandler_large n r :
  (n < Z.of_nat (slen (body_Bytes (rq_Body r))))%Z →
  ∃ err, body_Error (rq_Body (MaxBytesHandler n r)) = Some err ∧ de_MaxBytes err = true.
Proof.
  intros Hn. unfold MaxBytesHandler. rewrite (proj2 (Z.leb_gt _ _)) by lia. by eexists.
Qed.

Lemma MaxBytesHandler_header n r name :
  HeaderGet (MaxBytesHandler n r) name = HeaderGet r name.
Proof. unfold MaxBytesHandler. by case_match. Qed.

(** C38: The server takes bodies of up to 4 MiB as they are; a WorkspaceKind of more is refused
    (413, unless its content type is refused first) before anything is asked of the API server,
    even who the caller is. *)
Theorem large_kind_refused `{CodecLib} `{NameLib} `{ValidationLib} `{MapOrder} `{QuantityLib}
    `{TimeLib} `{SelectorLib} `{RouterLib} a method path params r m h resp m' :
  Lookup Routes method path = Matched CreateWorkspaceKind_ params →
  runs (serve a method path r m) h (resp, m') →
  ((Z.of_nat (slen (body_Bytes (rq_Body r))) ≤ 4 * 1024 * 1024)%Z →
   runs (ServeHTTP a method path r m) h (resp, m')) ∧
  ((4 * 1024 * 1024 < Z.of_nat (slen (body_Bytes (rq_Body r))))%Z →
   h = [] ∧ rs_StatusCode resp =
     (if bool_decide (HeaderGet r "Content-Type" = "") then 415
      else match ParseMediaType (HeaderGet r "Content-Type") with
           | inr _ => 400
           | inl t => if bool_decide (t = MediaTypeYaml) then 413 else 415
           end)%Z).
Proof.
  intros Hroute Hr. split; intros Hn.
  { revert Hr. unfold serve, MaxBytesHandler. by rewrite (proj2 (Z.leb_le _ maxBodyBytes)). }
  destruct (MaxBytesHandler_large maxBodyBytes r Hn) as (err & He & Hmax).
  assert (∀ name, HeaderGet (bindParams (MaxBytesHandler maxBodyBytes r) params) name = HeaderGet r name)
    as Hh by apply MaxBytesHandler_header.
  assert (body_Error (rq_Body (bindParams (MaxBytesHandler maxBodyBytes r) params)) = Some err)
    as He' by exact He.
  revert Hr. unfold serve, ServeHTTP. rewrite Hroute. generalize dependent (bindParams (MaxBytesHandler maxBodyBytes r) params).
  intros r' Hh He'. cbn [handlerOf]. unfold stateless, CreateWorkspaceKindHandler, ValidateContentType.
  rewrite Hh. unfold hbind, respond. case_bool_decide; cbn [pbind]; [by intros [-> [= <- <-]]; eauto|].
  destruct (ParseMediaType _) as [t|]; cbn [pbind]; [|by intros [-> [= <- <-]]; eauto].
  case_bool_decide; cbn [negb pbind]; [|by intros [-> [= <- <-]]; eauto].
  unfold readKind. rewrite He', Hmax. unfold respond. cbn [pbind]. intros [-> [= <- <-]]. eauto.
Qed.

(** ** Witnesses *)

(** A controller behind the Kubernetes Gateway, on a cluster with a Modern profile. *)
Definition exEnvironment : environment :=
  {["USE_KUBE_GATEWAY" := "true"; "KUBE_RBAC_PROXY_IMAGE" := "quay.io/proxy:v1"]}.

Definition exStartHistory : list event :=
  [Ev (ReadFile namespaceFile) (inl "kubeflow"); Ev (GetUnstructured apiServerGVK apiServerName) (inl "apiserver")].

(** The first attempt to set up the indexers fails. *)
Definition exSetup (i : nat) : option error :=
  match i with O => Some (ErrorMsg "no token yet") | _ => None end.

Definition exController : Controller :=
  mkController (controllerConfig exEnvironment (mkFlags ∅ ∅ ∅) "kubeflow")
    (mkTLSOpts VersionTLS13 None) ["http/1.1"] 10 true
    (Some (mkProfileWatcher "profile" "StrictAllComponents")).

Lemma exController_starts :
  runs (startController (H := exampleUnstructured) exEnvironment (mkFlags ∅ ∅ ∅) exSetup)
    exStartHistory (Ok exController).
Proof.
  exists (inl "kubeflow"). eexists. split; [reflexivity|].
  exists (inl "apiserver"), []. split; [reflexivity|]. split; [reflexivity|]. vm_compute. reflexivity.
Qed.

Lemma controller_starts_consistent_witness :
  cfg_UseKubeGateway (ct_Config exController) = true ∧
  cfg_ControllerNamespace (ct_Config exController) ≠ "" ∧ reads_only exStartHistory.
Proof.
  pose proof (controller_starts_consistent (H := exampleUnstructured) _ _ _ _ _ exController_starts)
    as (Hr & _ & _ & Hns & _).
  split; [vm_compute; reflexivity|by split].
Defined.

Lemma restart_only_on_change_witness :
  ∃ w, ct_Watcher exController = Some w ∧
    runs (watcherReconcile (H := exampleUnstructured) w apiServerName)
      [Ev (GetUnstructured apiServerGVK apiServerName) (inl "apiserver")] (w, false, None).
Proof.
  apply (proj1 (restart_only_on_change (H := exampleUnstructured) _ _ _ _ _ exController_starts)).
  right. left.
Defined.

(** A body of one byte more than the limit. *)
Definition exLargeBody : string :=
  String.string_of_list_ascii (replicate (Z.to_nat (maxBodyBytes + 1)) "x"%char).

Lemma exLargeBody_large : (maxBodyBytes < Z.of_nat (slen exLargeBody))%Z.
Proof.
  assert (∀ l, slen (String.string_of_list_ascii l) = length l) as Hlen
    by (induction l as [|c l IH]; simpl; [done|by rewrite <-IH]).
  unfold exLargeBody. rewrite Hlen, length_replicate, Z2Nat.id; [lia|done].
Qed.

#[local] Existing Instances exampleCodecLib exampleNameLib exampleValidation canonicalOrder
  exampleQuantityLib exampleTimeLib exampleSelectorLib exampleRouterLib.

Lemma large_kind_refused_witness :
  let r := mkRequest ∅ {["Content-Type" := ["application/yaml"]]} ∅ (mkBody exLargeBody None) in
  ∃ resp m', runs (serve exApp "POST" AllWorkspaceKindsPath r emptyMemo) [] (resp, m') ∧
    rs_StatusCode resp = 413%Z.
Proof.
  intros r. assert (4 * 1024 * 1024 < Z.of_nat (slen (body_Bytes (rq_Body r))))%Z as Hlarge
    by exact exLargeBody_large.
  assert (HeaderGet r "Content-Type" = "application/yaml") as Hct by reflexivity.
  clearbody r. destruct (runs_exists (serve exApp "POST" AllWorkspaceKindsPath r emptyMemo))
    as (h & [resp m'] & Hr).
  assert (Lookup Routes "POST" AllWorkspaceKindsPath
    = Matched CreateWorkspaceKind_ {["namespace" := "ns"; "name" := "s"]}) as Hroute
    by (vm_compute; reflexivity).
  destruct (proj2 (large_kind_refused exApp "POST" AllWorkspaceKindsPath _ r emptyMemo h resp m'
    Hroute Hr) Hlarge) as [Hh Hst].
  exists resp, m'. rewrite Hh in Hr. split; [exact Hr|]. by rewrite Hst, Hct.
Defined.
