(* ===== verification/Indexes.v ===== *)
(** * Registering indexes and watches ([SetupManagerFieldIndexers], [SetupWithManager])

    The reconcilers list through a cache, by field selectors: the cache refuses a selector
    whose index was not registered, and a change of an object reaches a reconciler only if its
    kind is watched.  [lists_indexed] relates what the reconcilers and the webhook ask for to
    what is registered; [pod_change_requeues] the Pods of a Workspace to the watch on Pods;
    [retry_after_partial_setup_fails] is about the retries of the registration. *)

From Stdlib Require Import ZArith.
From stdpp Require Import base gmap strings list.
From S2P Require Import Prelude K8sTypes ApiTypes Names CopyFields Options Client Examples.
From S2P Require Import Probe Activity State TLS Generate Field Webhook Owned RoleBindings Reconcile.
From S2P Require Import ReconcileSpec KindController Watches Startup.

(** ** Field indexes *)

(** The indexes of [SetupManagerFieldIndexers], in the order they are registered. *)
Definition fieldIndexes (cfg : EnvConfig) : list (kind * string) :=
  [(KEvent, IndexEventInvolvedObjectUidField);
   (KStatefulSet, IndexWorkspaceOwnerField);
   (KService, IndexWorkspaceOwnerField);
   (KServiceAccount, IndexWorkspaceOwnerField);
   (KRoleBinding, IndexWorkspaceOwnerField)]
  ++ (if cfg_UseIstio cfg then [(KVirtualService, IndexWorkspaceOwnerField)] else [])
  ++ [(KWorkspace, IndexWorkspaceKindField);
      (KWorkspaceKind, IndexWorkspaceKindConfigMapImageSourceField)].

(** [mgr.GetFieldIndexer().IndexField], with the manager's state. *)
Class IndexerLib (M : Type) := {
  IndexField : kind * string → M → option error * M;
  isIndexed : kind * string → M → Prop;
}.

(** A registered index stays; registering it again is a conflict. *)
Class IndexerLaws (M : Type) `{IndexerLib M} : Prop := {
  index_registered i s s' : IndexField i s = (None, s') → isIndexed i s';
  index_kept i j s : isIndexed j s → isIndexed j (IndexField i s).2;
  index_conflict i s : isIndexed i s → is_Some (IndexField i s).1;
}.

Section setup.
Context `{IndexerLib M}.

(** The [if err := ...; err != nil { return err }] chain. *)
Fixpoint registerIndexes (indexes : list (kind * string)) (s : M) : option error * M :=
  match indexes with
  | [] => (None, s)
  | i :: indexes =>
    match IndexField i s with
    | (Some err, s') => (Some err, s')
    | (None, s') => registerIndexes indexes s'
    end
  end.

Definition SetupManagerFieldIndexers (cfg : EnvConfig) (s : M) : option error * M :=
  registerIndexes (fieldIndexes cfg) s.

(** The manager after some attempts that failed. *)
Fixpoint afterAttempts (cfg : EnvConfig) (s : M) (n : nat) : M :=
  match n with
  | O => s
  | S n => (SetupManagerFieldIndexers cfg (afterAttempts cfg s n)).2
  end.

(** What each attempt of the retry loop returns. *)
Definition attemptIndexers (cfg : EnvConfig) (s : M) (n : nat) : option error :=
  (SetupManagerFieldIndexers cfg (afterAttempts cfg s n)).1.
End setup.

(** ** Watches of the Workspace controller *)

Definition mapPodToRequest (pod : Pod) : list (string * string) :=
  [(meta_Namespace (pod_Meta pod),
    default "" (gm (meta_Labels (pod_Meta pod)) !! workspaceNameLabel))].

Definition predPodHasWSLabel (pod : Pod) : bool :=
  bool_decide (is_Some (gm (meta_Labels (pod_Meta pod)) !! workspaceNameLabel)).

Definition WorkspaceReconciler_SetupWithManager (cfg : EnvConfig) : list watch :=
  [For KWorkspace; Owns KStatefulSet; Owns KService; Owns KServiceAccount; Owns KRoleBinding]
  ++ (if cfg_UseIstio cfg then [Owns KVirtualService] else [])
  ++ [WatchesMap KWorkspaceKind mapWorkspaceKindToRequest GenerationChanged (λ _, true);
      WatchesMap KPod (λ pod, Ret (mapPodToRequest pod)) ResourceVersionChanged predPodHasWSLabel].

(** ** What is listed is indexed and watched *)

(** A list by a field selector uses a registered index; a list of owned objects, a kind whose
    changes wake the owner up. *)
Definition indexed (cfg : EnvConfig) (X : Type) (q : req X) : Prop :=
  match q with
  | List k opts =>
    match lo_field opts with
    | None => True
    | Some (f, _) => (k, f) ∈ fieldIndexes cfg ∧
        (f = IndexWorkspaceOwnerField → Owns k ∈ WorkspaceReconciler_SetupWithManager cfg)
    end
  | _ => True
  end.

Lemma indexed_owned cfg k n ns :
  k ∈ [KStatefulSet; KService; KServiceAccount; KRoleBinding] ∨ (k = KVirtualService ∧ cfg_UseIstio cfg = true) →
  indexed cfg _ (List k (ownedListOptions n ns)).
Proof.
  intros Hk. simpl. unfold fieldIndexes, WorkspaceReconciler_SetupWithManager.
  destruct Hk as [Hk|[-> ->]]; [|set_solver].
  rewrite !elem_of_cons, elem_of_nil in Hk. destruct Hk as [->|[->|[->|[->|[]]]]]; set_solver.
Qed.

Section lists.
Context `{OwnerLib} `{ValidationLib} `{TemplateLib} `{SelectorLib} `{ProbeLib} `{MapOrder} `{UnstructuredLib}.
Context (cfg : EnvConfig) (hasHTTPProber hasPodExecutor : bool).

(** After [calls]: only the lists are left. *)
Ltac lists :=
  calls;
  try (apply indexed_owned; first [left; set_solver|by right]);
  try (split; [unfold fieldIndexes; simpl; set_solver|by intros [=]]).

Lemma prune_indexed todo items : calls_ok (indexed cfg) (pruneRoleBindings todo items).
Proof.
  revert todo. induction items as [|f items IH]; intros todo; cbn [pruneRoleBindings]; [done|].
  destruct (todo !! _); [case_bool_decide; [destruct (CopyRoleBindingFields _ _) as [[? []]| |]|]|];
    try done; try (split; [done|]; intros [?|?]; simpl; repeat case_match; done || apply IH).
Qed.

Lemma create_indexed todo : calls_ok (indexed cfg) (createRoleBindings todo).
Proof.
  induction todo as [|[n rb] todo IH]; cbn [createRoleBindings]; [done|].
  split; [done|]. by intros [?|?].
Qed.

#[local] Hint Resolve prune_indexed create_indexed : calls.

(** The VirtualServices are listed only when their index is registered. *)
Lemma routing_indexed ns w wk img svc sa :
  calls_ok (indexed cfg) (reconcileRouting cfg ns w wk img svc sa).
Proof. unfold reconcileRouting. destruct (cfg_UseIstio cfg) eqn:HI; lists. Qed.

Lemma resources_indexed ns w : calls_ok (indexed cfg) (reconcileResources cfg ns w).
Proof.
  unfold reconcileResources.
  do 7 (apply calls_ok_fbind; [lists|intros ?; repeat case_match]).
  apply calls_ok_fbind; [apply routing_indexed|]. lists.
Qed.

Lemma Reconcile_indexed c ns name :
  calls_ok (indexed cfg) (Reconcile cfg hasHTTPProber hasPodExecutor c ns name).
Proof.
  unfold Reconcile. apply calls_ok_bind; [lists|]. intros [w|o]; [|done].
  apply calls_ok_bind; [apply resources_indexed|]. lists.
Qed.

Lemma kind_reconcile_indexed name : calls_ok (indexed cfg) (WorkspaceKindReconciler_Reconcile name).
Proof. lists. Qed.

(** The webhook asks for the Workspaces of a kind only. *)
Lemma usage_indexed {V} `{OptionValue V} proj wk cache id :
  calls_ok (indexed cfg) (getUsageCount (V := V) proj wk cache id).
Proof. lists. Qed.

Lemma optionChanges_indexed {V} `{OptionSpec V} proj wk idMap validateAll values cache :
  calls_ok (indexed cfg) (optionChanges (V := V) proj wk idMap validateAll values cache).
Proof.
  unfold optionChanges. apply calls_ok_bind.
  - generalize noChanges. revert cache. induction values as [|v values IH]; intros cache c;
      cbn [newValuesLoop]; [done|].
    destruct (idMap !! _); [|apply IH]. destruct (bool_decide _); [apply IH|].
    apply calls_ok_bind; [apply usage_indexed|]. intros [[n|err] cache']; [apply IH|done].
  - intros [[c cache']|err]; [|done]. generalize ((range ("old:" +:+ opt_noun (V := V)) idMap).*1).
    intros ids. revert c cache'. induction ids as [|id ids IH]; intros c cache'; cbn [oldIdsLoop]; [done|].
    destruct (_ !! id); [apply IH|].
    apply calls_ok_bind; [apply usage_indexed|]. intros [[n|err] cache2]; [apply IH|done].
Qed.

Lemma kind_update_indexed old new : calls_ok (indexed cfg) (WorkspaceKindValidator_ValidateUpdate old new).
Proof.
  unfold WorkspaceKindValidator_ValidateUpdate. destruct (updatePartErrors old new) as [errs warnings].
  apply calls_ok_bind; [apply optionChanges_indexed|]. intros [[ic cache]|err]; [|done].
  apply calls_ok_bind; [apply optionChanges_indexed|]. by intros [[pc cache2]|err].
Qed.

Lemma mapWorkspaceKind_indexed wk : calls_ok (indexed cfg) (mapWorkspaceKindToRequest wk).
Proof. lists. Qed.

Lemma mapConfigMap_indexed cm : calls_ok (indexed cfg) (mapConfigMapToRequests cm).
Proof. lists. Qed.

(** The VirtualServices are indexed and watched exactly when Istio is used. *)
Lemma virtualservices_istio :
  ((KVirtualService, IndexWorkspaceOwnerField) ∈ fieldIndexes cfg ↔ cfg_UseIstio cfg = true) ∧
  (Owns KVirtualService ∈ WorkspaceReconciler_SetupWithManager cfg ↔ cfg_UseIstio cfg = true).
Proof.
  unfold fieldIndexes, WorkspaceReconciler_SetupWithManager.
  destruct (cfg_UseIstio cfg); simpl.
  - split; (split; [done|intros _; do 5 right; left]).
  - split; (split; [intros Hin|done]); exfalso;
      repeat (apply elem_of_cons in Hin as [Hin|Hin]; [done|]); by apply elem_of_nil in Hin.
Qed.

(** C33: Whatever the configuration, the controller lists through its cache only by field
    selectors whose index was registered, so that no list is refused: the reconcilers, the
    webhook for updates of kinds, and the functions that map a changed kind or ConfigMap to
    requests.  The owned objects it lists by their owner are of kinds whose changes queue the
    owner (the Events of a Pod, listed by another index, are not watched).  The VirtualServices
    are indexed and watched exactly when Istio is used, and listed only then. *)
Theorem lists_indexed :
  (∀ c ns name h r, runs (Reconcile cfg hasHTTPProber hasPodExecutor c ns name) h r →
     Forall (event_ok (indexed cfg)) h ∧
     (∀ n ns' x, Ev (List KVirtualService (ownedListOptions n ns')) x ∈ h → cfg_UseIstio cfg = true)) ∧
  (∀ name h r, runs (WorkspaceKindReconciler_Reconcile name) h r → Forall (event_ok (indexed cfg)) h) ∧
  (∀ old new h r, runs (WorkspaceKindValidator_ValidateUpdate old new) h r →
     Forall (event_ok (indexed cfg)) h) ∧
  (∀ wk h r, runs (mapWorkspaceKindToRequest wk) h r → Forall (event_ok (indexed cfg)) h) ∧
  (∀ cm h r, runs (mapConfigMapToRequests cm) h r → Forall (event_ok (indexed cfg)) h) ∧
  ((KVirtualService, IndexWorkspaceOwnerField) ∈ fieldIndexes cfg ↔ cfg_UseIstio cfg = true) ∧
  (Owns KVirtualService ∈ WorkspaceReconciler_SetupWithManager cfg ↔ cfg_UseIstio cfg = true).
Proof.
  split_and!; [|intros; (eapply calls_ok_runs; [|eassumption])..|apply virtualservices_istio|apply virtualservices_istio].
  - intros c ns name h r Hr.
    pose proof (calls_ok_runs _ _ _ _ (Reconcile_indexed c ns name) Hr) as Hall. split; [done|].
    intros n ns' x Hin. rewrite Forall_forall in Hall. destruct (Hall _ Hin) as [Hidx _].
    exact (proj1 (proj1 virtualservices_istio) Hidx).
  - apply kind_reconcile_indexed.
  - apply kind_update_indexed.
  - apply mapWorkspaceKind_indexed.
  - apply mapConfigMap_indexed.
Qed.
End lists.

(** ** Pods *)

(** A Pod as the StatefulSet makes it: in its namespace, with at least the labels of the
    template. *)
Definition pod_of (sts : StatefulSet) (template : PodTemplateSpec) (pod : Pod) : Prop :=
  ptpl_Labels template ⊆ gm (meta_Labels (pod_Meta pod)) ∧
  meta_Namespace (pod_Meta pod) = meta_Namespace (sts_Meta sts).

Lemma generated_pod `{TemplateLib} w wk ispec pspec sa sts template pod :
  generateStatefulSet w wk ispec pspec sa = Ok sts →
  (template = stsSpec_Template (sts_Spec sts) ∨
   ∃ sidecar volumes, template = stsSpec_Template (sts_Spec (addSidecar sts sidecar volumes))) →
  pod_of sts template pod →
  predPodHasWSLabel pod = true ∧ mapPodToRequest pod = [(ws_Namespace w, ws_Name w)].
Proof.
  intros Hgen Ht [Hlabels Hns].
  assert (ptpl_Labels template = ptpl_Labels (stsSpec_Template (sts_Spec sts))) as Heq.
  { by destruct Ht as [->|(sidecar & volumes & ->)]. }
  assert (meta_Namespace (sts_Meta sts) = ws_Namespace w ∧
          ptpl_Labels (stsSpec_Template (sts_Spec sts)) !! workspaceNameLabel = Some (ws_Name w))
    as [Hmeta Hlabel].
  { unfold generateStatefulSet in Hgen.
    destruct (generateNamePrefix _ _) as [pre| |]; cbn [go_bind] in Hgen; [|done..].
    destruct (generateContainerPorts _ _) as [cs| |]; cbn [go_bind] in Hgen; [|done..].
    destruct (generateContainerEnv _ _) as [envs| |]; cbn [go_bind] in Hgen; [|done..].
    destruct (generateVolumes w wk) as [st| |]; cbn [go_bind] in Hgen; [|done..].
    injection Hgen as <-. split; [done|].
    cbn [sts_Spec stsSpec_Template ptpl_Labels]. by apply lookup_union_Some_l. }
  rewrite <-Heq in Hlabel. pose proof (lookup_weaken _ _ _ _ Hlabel Hlabels) as Hpod.
  unfold predPodHasWSLabel, mapPodToRequest. rewrite Hpod, Hns, Hmeta.
  by rewrite bool_decide_eq_true_2.
Qed.

(** C34: A change of a Pod of a Workspace's StatefulSet queues that Workspace and no other,
    whatever labels and annotations the kind or the user put on Pods: its creation, its
    deletion, and any update that gives it a new resource version, whatever it changes, pass
    the predicates of the controller's watch on Pods and are mapped to exactly the Workspace,
    also with the sidecar of the kube-rbac-proxy. *)
Theorem pod_change_requeues `{TemplateLib} `{WatchLibLaws} cfg w wk ispec pspec sa sts template
    (c : change Pod) h reqs :
  generateStatefulSet w wk ispec pspec sa = Ok sts →
  (template = stsSpec_Template (sts_Spec sts) ∨
   ∃ sidecar volumes, template = stsSpec_Template (sts_Spec (addSidecar sts sidecar volumes))) →
  (∀ pod, pod ∈ objects c → pod_of sts template pod) → versioned KPod c →
  runs (queueOf (WorkspaceReconciler_SetupWithManager cfg) KPod c) h reqs →
  reqs ≠ [] ∧ ∀ req, req ∈ reqs → req = (ws_Namespace w, ws_Name w).
Proof.
  intros Hgen Ht Hpods Hv Hrun.
  assert (Hpod : ∀ pod, pod ∈ objects c →
    predPodHasWSLabel pod = true ∧ mapPodToRequest pod = [(ws_Namespace w, ws_Name w)]).
  { intros pod Hin. by eapply generated_pod, Hpods. }
  set (map := λ pod, Ret (mapPodToRequest pod)).
  set (wt := WatchesMap KPod map ResourceVersionChanged predPodHasWSLabel).
  assert (∃ pre, WorkspaceReconciler_SetupWithManager cfg = pre ++ [wt] ∧
    Forall (λ wt, requestsOf wt KPod = None) pre) as (pre & Hset & Hpre).
  { unfold WorkspaceReconciler_SetupWithManager. destruct (cfg_UseIstio cfg).
    - exists [For KWorkspace; Owns KStatefulSet; Owns KService; Owns KServiceAccount;
        Owns KRoleBinding; Owns KVirtualService;
        WatchesMap KWorkspaceKind mapWorkspaceKindToRequest GenerationChanged (λ _, true)].
      split; [done|by repeat constructor].
    - exists [For KWorkspace; Owns KStatefulSet; Owns KService; Owns KServiceAccount;
        Owns KRoleBinding;
        WatchesMap KWorkspaceKind mapWorkspaceKindToRequest GenerationChanged (λ _, true)].
      split; [done|by repeat constructor]. }
  rewrite Hset in Hrun.
  apply (queueOf_one pre wt [] KPod (filtered KPod map ResourceVersionChanged predPodHasWSLabel))
    in Hrun; [|done|done|done].
  unfold filtered in Hrun. rewrite (passes_versioned KPod) in Hrun by (done || by apply Hpod).
  apply enqueue_runs in Hrun as [Hall Hsome]. split.
  - assert (∃ pod, pod ∈ objects c) as [pod Hin] by (destruct c as [o|old new|o]; eexists; left).
    destruct (Hall pod Hin) as (h1 & r1 & _ & [_ Hr1] & Hsub). intros ->.
    destruct (Hpod pod Hin) as [_ Hreq]. rewrite Hreq in Hr1. subst r1. set_solver.
  - intros req Hreq. destruct (Hsome req Hreq) as (pod & h1 & r1 & Hin & _ & [_ <-] & Hr1).
    destruct (Hpod pod Hin) as [_ Heq]. rewrite Heq in Hr1. by apply list_elem_of_singleton in Hr1.
Qed.

(** ** Retrying the registration *)

Section retry.
Context `{IndexerLaws M}.

Lemma register_kept i indexes s : isIndexed i s → isIndexed i (registerIndexes indexes s).2.
Proof.
  revert s. induction indexes as [|j indexes IH]; intros s Hi; [done|]. simpl.
  pose proof (index_kept j i s Hi) as Hk. destruct (IndexField j s) as [[err|] s']; [done|by apply IH].
Qed.

Lemma register_conflict i indexes s : isIndexed i s → is_Some (registerIndexes (i :: indexes) s).1.
Proof.
  intros Hi. simpl. destruct (index_conflict i s Hi) as [err Herr].
  destruct (IndexField i s) as [e s']. simpl in Herr. by rewrite Herr.
Qed.

(** Once the first index is registered, an attempt that fails makes every later one fail: the
    registration does not skip what is registered, and registering an index again is a
    conflict, so that the retries cannot recover from a failure of a later index. *)
Theorem retry_after_partial_setup_fails cfg s :
  is_Some (SetupManagerFieldIndexers cfg s).1 →
  isIndexed (KEvent, IndexEventInvolvedObjectUidField) (SetupManagerFieldIndexers cfg s).2 →
  is_Some (setupIndexers (attemptIndexers cfg s)).1.
Proof.
  intros Hfirst Hidx.
  assert (∀ n, isIndexed (KEvent, IndexEventInvolvedObjectUidField) (afterAttempts cfg s (S n))) as Hall.
  { induction n as [|n IH]; [done|]. by apply register_kept. }
  destruct (setupIndexers (attemptIndexers cfg s)).1 as [err|] eqn:Hres; [done|].
  apply (proj1 (retryLoop_spec (attemptIndexers cfg s) (seq 0 maxRetries) None ltac:(done))) in Hres
    as ([|n] & _ & Hn).
  - unfold attemptIndexers in Hn. simpl in Hn. rewrite Hn in Hfirst. by destruct Hfirst.
  - unfold attemptIndexers, SetupManagerFieldIndexers in Hn.
    destruct (register_conflict _ (tail (fieldIndexes cfg)) _ (Hall n)) as [err Herr].
    change (fieldIndexes cfg) with
      ((KEvent, IndexEventInvolvedObjectUidField) :: tail (fieldIndexes cfg)) in Hn.
    by rewrite Hn in Herr.
Qed.
End retry.

(** ** Witnesses *)

(** A Pod of the StatefulSet generated for an example Workspace. *)
Definition exLabelledPod (labels : gmap string string) (version : string) : Pod :=
  mkPod (mkObjectMeta "ws-test-abc-0" "" "ns" "pod-uid" version 1 0 None (Some labels) None [] [])
    "node" [mkPodContainer "main" ""] [] [] "Running" "10.0.0.1" [] [] [].

(** Its status changes. *)
Lemma pod_change_requeues_witness :
  ∃ sts, generateStatefulSet (H := exampleTemplates) exWorkspaceRunning exKindBasic
    (icv_Spec (exImage "img" None exPorts)) (pcv_Spec (exPodConfig "pod" None)) "ws-test" = Ok sts ∧
  let labels := ptpl_Labels (stsSpec_Template (sts_Spec sts)) in
  let reqs := [("ns", "test"); ("ns", "test")] in
  runs (queueOf (H := exampleWatchLib) (WorkspaceReconciler_SetupWithManager (exCfg true)) KPod
    (Updated (exLabelledPod labels "1") (exLabelledPod labels "2"))) [] reqs ∧
  ∀ req, req ∈ reqs → req = ("ns", "test").
Proof.
  destruct (generateStatefulSet (H := exampleTemplates) exWorkspaceRunning exKindBasic
    (icv_Spec (exImage "img" None exPorts)) (pcv_Spec (exPodConfig "pod" None)) "ws-test")
    as [sts| |] eqn:Hsts; [|vm_compute in Hsts; discriminate..].
  exists sts. split; [reflexivity|].
  assert (Hrun : runs (queueOf (H := exampleWatchLib) (WorkspaceReconciler_SetupWithManager (exCfg true)) KPod
    (Updated (exLabelledPod (ptpl_Labels (stsSpec_Template (sts_Spec sts))) "1")
       (exLabelledPod (ptpl_Labels (stsSpec_Template (sts_Spec sts))) "2")))
    [] [("ns", "test"); ("ns", "test")]).
  { vm_compute in Hsts. injection Hsts as <-. vm_compute. split; reflexivity. }
  split; [exact Hrun|].
  refine (proj2 (pod_change_requeues (H := exampleTemplates) (H0 := exampleWatchLib)
    (H1 := exampleWatchLib_laws) (exCfg true) exWorkspaceRunning exKindBasic
    (icv_Spec (exImage "img" None exPorts)) (pcv_Spec (exPodConfig "pod" None)) "ws-test" sts
    (stsSpec_Template (sts_Spec sts)) _ _ _ Hsts (or_introl eq_refl) _ _ Hrun)).
  - intros pod [->| ->%list_elem_of_singleton]%elem_of_cons; (split; [done|]);
      vm_compute in Hsts; injection Hsts as <-; reflexivity.
  - vm_compute. discriminate.
Defined.

(** A manager that does not know the kind of the last two indexes yet. *)
#[local] Instance exIndexer : IndexerLib (list (kind * string)) := {|
  IndexField i s :=
    if decide (i ∈ s) then (Some (ErrorMsg "indexer conflict"), s)
    else if decide (i = (KWorkspace, IndexWorkspaceKindField))
    then (Some (ErrorMsg "no matches for kind"), s)
    else (None, i :: s);
  isIndexed i s := i ∈ s;
|}.

#[local] Instance exIndexer_laws : IndexerLaws (list (kind * string)).
Proof.
  split; simpl.
  - intros i s s'. repeat case_decide; intros [= <-]. set_solver.
  - intros i j s Hj. repeat case_decide; set_solver.
  - intros i s Hi. rewrite decide_True by done. by eexists.
Qed.

Lemma retry_after_partial_setup_fails_witness :
  is_Some (setupIndexers (attemptIndexers (exCfg false) [])).1.
Proof.
  apply (retry_after_partial_setup_fails (M := list (kind * string)) (exCfg false) []).
  - vm_compute. by eexists.
  - vm_compute. set_solver.
Defined.
