(* ===== verification/HandlersSpec.v ===== *)
(** * What the handlers guarantee

    [serve_authorized]: no request reaches the API server on behalf of a caller before the
    caller is authenticated and the authorizer has allowed the one action the endpoint
    stands for.  [started_backend_authorized]: a backend that starts enforces this, with the
    authenticator its configured method stands for.  The replies are in [Replies] and
    [Acknowledged]. *)

From Stdlib Require Import ZArith.
From stdpp Require Import base gmap strings list.
From S2P Require Import Prelude K8sTypes ApiTypes Client Examples Field FilterRules Validation.
From S2P Require Import ListValues WorkspaceModel WorkspaceRepo KindModel KindRepo WorkspaceList.
From S2P Require Import Base64 Secrets Pvcs PodLogs Cluster Metrics Http Auth Handlers.
From S2P Require Import Paths Startup.

(** ** Authorization *)

(** The policy an endpoint stands for: what it does, to which resource, in which namespace
    (empty: in all), to which object (empty: to all). *)
Definition policy (verb group version resource namespace name : string) : ResourcePolicy :=
  mkResourcePolicy verb (mkGVR group version resource) (mkResourceMeta namespace name).

Definition corePolicy verb resource := policy verb "" "v1" resource.
Definition workspacePolicy verb := policy verb "kubeflow.org" "v1beta1" "workspaces".
Definition kindPolicy verb := policy verb "kubeflow.org" "v1beta1" "workspacekinds" "".

Section required.
Context `{CodecLib} `{NameLib} `{ValidationLib} `{MapOrder} `{QuantityLib} `{TimeLib} `{SelectorLib}.

(** A part of the decoded body, empty without one. *)
Definition bodyPart (t : body_type) (part : body_of t → string) (r : http_request) : string :=
  match Decode t (rq_Body r) with inl (Some d) => part d | _ => "" end.

Definition listValuesNamespace (d : ListValuesRequest) : string :=
  match lvc_Namespace (lvr_Context d) with Some ns => cns_Name ns | None => "" end.

(** None for the endpoints that anyone may call. *)
Definition required (e : endpoint) (r : http_request) : option ResourcePolicy :=
  let namespace := ByName r "namespace" in
  let name := ByName r "name" in
  let scoped ns (p q : ResourcePolicy) := if bool_decide (ns = "") then p else q in
  match e with
  | GetHealthcheck | GetUser => None
  | GetNamespaces_ => Some (corePolicy "list" "namespaces" "" "")
  | GetSecretsByNamespace => Some (corePolicy "list" "secrets" namespace "")
  | CreateSecret_ =>
      Some (corePolicy "create" "secrets" namespace (bodyPart BSecretCreate scr_Name r))
  | GetSecret_ => Some (corePolicy "get" "secrets" namespace name)
  | UpdateSecret_ => Some (corePolicy "update" "secrets" namespace name)
  | DeleteSecret_ => Some (corePolicy "delete" "secrets" namespace name)
  | GetAllWorkspaces | GetWorkspacesByNamespace => Some (workspacePolicy "list" namespace "")
  | GetWorkspace_ | GetWorkspacePodTemplateDetails | GetWorkspacePodTemplateLogs
  | GetWorkspacePodTemplateResources => Some (workspacePolicy "get" namespace name)
  | CreateWorkspace_ =>
      Some (workspacePolicy "create" namespace (bodyPart BWorkspaceCreate wcr_Name r))
  | UpdateWorkspace_ | PauseActionWorkspace => Some (workspacePolicy "update" namespace name)
  | DeleteWorkspace_ => Some (workspacePolicy "delete" namespace name)
  | GetWorkspaceKinds_ =>
      let ns := QueryGet r "namespaceFilter" in
      Some (scoped ns (kindPolicy "list" "") (workspacePolicy "create" ns ""))
  | GetWorkspaceKind_ => Some (kindPolicy "get" name)
  | CreateWorkspaceKind_ =>
      Some (kindPolicy "create" match DecodeWorkspaceKind (body_Bytes (rq_Body r)) with
                                | inl (_, _, k) => wsk_Name k | inr _ => "" end)
  | DeleteWorkspaceKind_ => Some (kindPolicy "delete" name)
  | UpdateWorkspaceKind_ => Some (kindPolicy "update" name)
  | PodTemplateOptionsListValues =>
      let ns := bodyPart BListValues listValuesNamespace r in
      Some (scoped ns (kindPolicy "get" name) (workspacePolicy "create" ns ""))
  | GetWorkspaceKindIcon | GetWorkspaceKindLogo =>
      let ns := QueryGet r "namespace" in
      Some (scoped ns (kindPolicy "get" name) (workspacePolicy "list" ns ""))
  | GetStorageClasses_ =>
      let ns := QueryGet r "namespace" in
      Some (scoped ns (policy "list" "storage.k8s.io" "v1" "storageclasses" "" "")
              (corePolicy "create" "persistentvolumeclaims" ns ""))
  | GetPVCsByNamespace => Some (corePolicy "list" "persistentvolumeclaims" namespace "")
  | CreatePVC_ =>
      Some (corePolicy "create" "persistentvolumeclaims" namespace (bodyPart BPVCCreate pcr_Name r))
  | DeletePVC_ => Some (corePolicy "delete" "persistentvolumeclaims" namespace name)
  end.
End required.

(** The history begins with the authentication of a user for whom the policy was allowed. *)
Definition cleared (authn : authenticator) (r : http_request) (p : ResourcePolicy)
    (h : list event) : Prop :=
  ∃ u h1 h2 reason, h = h1 ++ Ev (Authorize (AttributesFor p u)) (inl (DecisionAllow, reason)) :: h2 ∧
    runs (authn r) h1 (inl (Some u)).

(** A request that may be made after [h]: the authenticator's, the question to the
    authorizer about the authenticated user, and anything once it is answered. *)
Definition permitted (authn : authenticator) (r : http_request) (p : option ResourcePolicy)
    (h : list event) X (q : req X) : Prop :=
  match p with
  | None => False
  | Some p =>
      is_review q ∨
      match q with
      | Authorize attrs => ∃ u, runs (authn r) h (inl (Some u)) ∧ attrs = AttributesFor p u
      | _ => False
      end ∨
      cleared authn r p h
  end.

Lemma cleared_prefix authn r p h h' : cleared authn r p h → h `prefix_of` h' → cleared authn r p h'.
Proof.
  intros (u & h1 & h2 & reason & -> & Hu) [k ->]. exists u, h1, (h2 ++ k), reason.
  by rewrite <-app_assoc.
Qed.

Section authorization.
Context (authn : authenticator) (Hauthn : reviews_only authn).

Lemma requireAuth_permitted r p :
  calls_after (permitted authn r (Some p)) (requireAuth authn r [p]) [].
Proof.
  apply calls_after_bind.
  { eapply calls_ok_after; [|apply Hauthn]. intros h X q Hq. by left. }
  apply sat_runs. intros h [[u|]|err] Hres; [|done..]. split; [right; left; by exists u|].
  by intros [[[] reason]|err].
Qed.

Lemma requireAuth_cleared r p :
  sat (requireAuth authn r [p]) []
    (λ h res, match res with inl _ => cleared authn r p h | inr _ => True end).
Proof.
  apply sat_bind, sat_runs. intros h [[u|]|err] Hres; [|done..].
  intros [[[] reason]|err]; try done. by exists u, h, [], reason.
Qed.

(** Whatever comes after [requireAuth] is permitted, if nothing comes after a refusal. *)
Lemma requireAuth_after {B} r p (g : UserInfo + reply → prog B) :
  (∀ rep, ∃ b, g (inr rep) = Ret b) →
  calls_after (permitted authn r (Some p)) (pbind (requireAuth authn r [p]) g) [].
Proof.
  intros Hg. apply calls_after_bind; [apply requireAuth_permitted|].
  eapply sat_mono; [apply requireAuth_cleared|]. intros h [u|rep] Hc.
  - apply calls_after_prefix. intros h' X q Hh'. right. right. by eapply cleared_prefix.
  - by destruct (Hg rep) as [b ->].
Qed.
End authorization.

Section handlers_permitted.
Context `{CodecLib} `{NameLib} `{ValidationLib} `{MapOrder} `{QuantityLib} `{TimeLib} `{SelectorLib}.
Context (a : App) (Hauthn : reviews_only (app_RequestAuthN a)).

Lemma validate_after {A} P msg errs (f : () → hnd A) h :
  calls_after P (f ()) h → calls_after P (hbind (validate msg errs) f) h.
Proof. unfold validate. by destruct (0 <? length errs)%nat. Qed.

Lemma contentType_after {A} P r t (f : () → hnd A) h :
  calls_after P (f ()) h → calls_after P (hbind (ValidateContentType r t) f) h.
Proof. intros Hf. unfold ValidateContentType. by repeat case_match. Qed.

Lemma decodeData_after {A} P t r (f : body_of t → hnd A) h :
  (∀ d, Decode t (rq_Body r) = inl (Some d) → calls_after P (f d) h) →
  calls_after P (hbind (decodeData t r) f) h.
Proof.
  intros Hf. unfold decodeData, DecodeJSON. destruct (Decode t (rq_Body r)) as [[d|]|err];
    [by apply Hf|done|by repeat case_match].
Qed.

Lemma readKind_after {A} P r (f : string * string * WorkspaceKind → hnd A) h :
  (∀ d, DecodeWorkspaceKind (body_Bytes (rq_Body r)) = inl d → calls_after P (f d) h) →
  calls_after P (hbind (readKind r) f) h.
Proof.
  intros Hf. unfold readKind. destruct (body_Error _); [by case_match|].
  destruct (DecodeWorkspaceKind _) as [d|[]]; [by apply Hf|done..].
Qed.

Lemma requirePolicy_eq r verb resource gvr ns name :
  resourceGVRMap !! resource = Some gvr →
  requirePolicy a r verb resource ns name =
  requireAuth (app_RequestAuthN a) r [mkResourcePolicy verb gvr (mkResourceMeta ns name)].
Proof. intros Hg. unfold requirePolicy, NewResourcePolicy. by rewrite Hg. Qed.

Lemma requirePolicy_after {B} r verb resource gvr ns name (f : UserInfo → hnd B) p :
  resourceGVRMap !! resource = Some gvr →
  p = mkResourcePolicy verb gvr (mkResourceMeta ns name) →
  calls_after (permitted (app_RequestAuthN a) r (Some p))
    (hbind (requirePolicy a r verb resource ns name) f) [].
Proof.
  intros Hg ->. rewrite (requirePolicy_eq _ _ _ gvr) by done.
  apply requireAuth_after; [done|]. intros rep. by eexists.
Qed.

(** The two policies of an optional namespace. *)
Lemma scopedPolicy_after {B} r verb resource gvr name verb' resource' gvr' ns name'
    (f : UserInfo → hnd B) p :
  resourceGVRMap !! resource = Some gvr → resourceGVRMap !! resource' = Some gvr' →
  p = (if bool_decide (ns = "")
       then mkResourcePolicy verb' gvr' (mkResourceMeta "" name')
       else mkResourcePolicy verb gvr (mkResourceMeta ns name)) →
  calls_after (permitted (app_RequestAuthN a) r (Some p))
    (hbind (if negb (bool_decide (ns = ""))
            then requirePolicy a r verb resource ns name
            else requirePolicy a r verb' resource' "" name') f) [].
Proof.
  intros Hg Hg' ->. case_bool_decide; cbn [negb]; by eapply requirePolicy_after.
Qed.

Lemma stateless_after P p m h : calls_after P p h → calls_after P (stateless p m) h.
Proof. intros Hp. apply calls_after_bind; [done|]. by apply sat_runs. Qed.

Ltac permitted_step :=
  first [ apply validate_after | apply contentType_after
        | apply decodeData_after; intros ? ? | apply readKind_after; intros [[? ?] ?] ?
        | eapply requirePolicy_after; [vm_compute; reflexivity|]
        | eapply scopedPolicy_after; [vm_compute; reflexivity..|] ].

Lemma resources_permitted r m :
  calls_after (permitted (app_RequestAuthN a) r (required GetWorkspacePodTemplateResources r))
    (GetWorkspacePodTemplateResourcesHandler a r m) [].
Proof.
  unfold GetWorkspacePodTemplateResourcesHandler, validate.
  destruct (0 <? _)%nat; [done|]. cbn [hbind pbind].
  rewrite (requirePolicy_eq _ _ _ (mkGVR "kubeflow.org" "v1beta1" "workspaces"))
    by (vm_compute; reflexivity).
  apply (requireAuth_after _ Hauthn). intros rep. by eexists.
Qed.

Lemma handlers_permitted e r m :
  calls_after (permitted (app_RequestAuthN a) r (required e r)) (handlerOf a e r m) [].
Proof.
  destruct e; try apply resources_permitted; apply stateless_after; try done.
  all: repeat permitted_step; try reflexivity.
  all: try (unfold bodyPart; match goal with Hd : Decode _ _ = _ |- _ => by rewrite Hd end).
  - destruct (parseLogOptions r). repeat permitted_step. reflexivity.
  - match goal with Hd : DecodeWorkspaceKind _ = _ |- _ => by rewrite Hd end.
Qed.

(** What [ServeHTTP] may do at any point. *)
Lemma serve_permitted `{RouterLib} method path r m :
  calls_after
    (λ h X q, ∃ e params, Lookup Routes method path = Matched e params ∧
       let r := bindParams r params in
       permitted (app_RequestAuthN a) r (required e r) h X q)
    (ServeHTTP a method path r m) [].
Proof.
  unfold ServeHTTP. destruct (Lookup Routes method path) as [e params| | |resp]; try done.
  apply calls_after_bind; [|by apply sat_runs; intros h [res m']].
  eapply calls_after_mono; [|apply handlers_permitted]. intros h X q Hq. by exists e, params.
Qed.
(** C5: below [/api/v1] no request is sent to the API server before the caller is
    authenticated and the authorizer has allowed, for that user, the one action the endpoint
    stands for; the authorizer is asked about exactly that action.  Health and user
    information, which anyone may have, and paths without a handler send no request at all.
    So a repository never runs for a caller that the authorizer did not let through. *)
Theorem serve_authorized `{RouterLib} method path r m :
  calls_after
    (λ h X q, ∃ e params, Lookup Routes method path = Matched e params ∧
       let r := bindParams r params in
       permitted (app_RequestAuthN a) r (required e r) h X q)
    (ServeHTTP a method path r m) [].
Proof. apply serve_permitted. Qed.
End handlers_permitted.

(** C13: A backend that starts enforces this for every request, whatever the configuration: its
    authenticator is the one its configured method stands for: with [user_token] the reviewer
    of bearer tokens, on the configured header and prefix; with [internal], the default, the
    one that trusts the configured headers; with any other method it does not start.  It asks
    the API server for token reviews only, everything else is asked for a caller whom it named
    and whom the authorizer let through.  TLS is served exactly when a certificate and a key are
    configured (one without the other stops the start). *)
Theorem started_backend_authorized `{HeaderAuthLib} `{CodecLib} `{NameLib} `{ValidationLib}
    `{MapOrder} `{QuantityLib} `{TimeLib} `{SelectorLib} `{RouterLib} env fl a tls method path r m :
  startBackend env fl = Ok (a, tls) →
  let option name variable value := StringVar fl name (getEnvAsStr env variable value) in
  let authMethod := option "auth-method" "AUTH_METHOD" "internal" in
  ((authMethod = "user_token" ∧
    app_RequestAuthN a = NewBearerTokenAuthenticator
      (option "auth-token-header" "AUTH_TOKEN_HEADER" "Authorization")
      (option "auth-token-prefix" "AUTH_TOKEN_PREFIX" "Bearer ")) ∨
   (authMethod = "internal" ∧
    NewRequestAuthenticator
      (option "userid-header" "USERID_HEADER" "kubeflow-userid")
      (option "userid-prefix" "USERID_PREFIX" ":")
      (option "groups-header" "GROUPS_HEADER" "kubeflow-groups") = inl (app_RequestAuthN a))) ∧
  (tls = true ↔ option "cert-file" "CERT_FILE" "" ≠ "") ∧
  (tls = true ↔ option "key-file" "KEY_FILE" "" ≠ "") ∧
  calls_after
    (λ h X q, ∃ e params, Lookup Routes method path = Matched e params ∧
       let r := bindParams (MaxBytesHandler maxBodyBytes r) params in
       permitted (app_RequestAuthN a) r (required e r) h X q)
    (serve a method path r m) [].
Proof.
  intros Hs. destruct (startBackend_Ok _ _ _ _ Hs) as [Ha Htls]. cbv zeta. split_and!.
  - revert Ha. unfold selectAuthenticator. case_bool_decide; [intros [= <-]; by left|].
    case_bool_decide; [|done]. intros Ha. by right.
  - revert Htls. unfold NewServer. repeat case_bool_decide; simpl; intros [= <-]; done.
  - revert Htls. unfold NewServer. repeat case_bool_decide; simpl; intros [= <-]; done.
  - apply serve_permitted. by eapply startBackend_reviews.
Qed.

(** ** Witness *)

#[local] Existing Instances exampleCodecLib exampleNameLib exampleValidation canonicalOrder
  exampleQuantityLib exampleTimeLib exampleSelectorLib exampleRouterLib.

(** A caller with a token deletes a Secret: the API server is asked for a review, then for the
    authorization, and only then for the Secret. *)
Lemma serve_authorized_witness :
  let r := exRequest ∅ ∅ "" in
  let p := ServeHTTP exApp "DELETE" SecretsByNamePath r emptyMemo in
  (interp exServer p ()).1.1 = enableCORS deletedResponse ∧
  (length (trace exServer p ()) = 4)%nat ∧
  calls_after
    (λ h X q, ∃ e params, Lookup Routes "DELETE" SecretsByNamePath = Matched e params ∧
       let r := bindParams r params in
       permitted (app_RequestAuthN exApp) r (required e r) h X q) p [].
Proof.
  split_and!; [vm_compute; reflexivity..|].
  apply (serve_authorized exApp (NewBearerTokenAuthenticator_reviews _ _)).
Defined.

(** A header authenticator that trusts nobody, which the bearer method does not use. *)
Definition exampleHeaderAuthLib : HeaderAuthLib := {|
  headerrequest_New _ _ _ _ := inl (λ _, inl None) |}.

Definition exBackendEnvironment : environment :=
  {["AUTH_METHOD" := "user_token"; "CERT_FILE" := "/tls/tls.crt"; "KEY_FILE" := "/tls/tls.key"]}.

Definition exStartedApp : App :=
  mkApp (mkBackendConfig "") "kubeflow-userid" ":" (NewBearerTokenAuthenticator "Authorization" "Bearer ").

Lemma started_backend_authorized_witness :
  let r := exRequest ∅ ∅ "" in
  let p := serve exStartedApp "DELETE" SecretsByNamePath r emptyMemo in
  (interp exServer p ()).1.1 = enableCORS deletedResponse ∧
  app_RequestAuthN exStartedApp = NewBearerTokenAuthenticator "Authorization" "Bearer " ∧
  calls_after
    (λ h X q, ∃ e params, Lookup Routes "DELETE" SecretsByNamePath = Matched e params ∧
       let r := bindParams (MaxBytesHandler maxBodyBytes r) params in
       permitted (app_RequestAuthN exStartedApp) r (required e r) h X q) p [].
Proof.
  split; [vm_compute; reflexivity|].
  assert (startBackend (H := exampleHeaderAuthLib) exBackendEnvironment (mkFlags ∅ ∅ ∅)
    = Ok (exStartedApp, true)) as Hs by reflexivity.
  destruct (started_backend_authorized (H := exampleHeaderAuthLib) exBackendEnvironment (mkFlags ∅ ∅ ∅)
           exStartedApp true "DELETE" SecretsByNamePath (exRequest ∅ ∅ "") emptyMemo Hs)
    as ([[_ Hauthn]|[Hmethod _]] & _ & _ & Hcalls); [|vm_compute in Hmethod; discriminate].
  split; [exact Hauthn|exact Hcalls].
Defined.
