(* ===== verification/Replies.v ===== *)
(** * The replies of the handlers

    Every response a handler can write is well formed ([wellformed]) and has one of the
    statuses that the handler's OpenAPI comments list ([documented]); below 400 only after
    the last step of the handler.  One pass over the handlers ([handlers_reply]) shows what
    the theorems on replies need. *)

From Stdlib Require Import ZArith.
From stdpp Require Import base gmap strings list.
From S2P Require Import Prelude K8sTypes ApiTypes Client Examples Field FilterRules Validation.
From S2P Require Import ListValues WorkspaceModel WorkspaceRepo KindModel KindRepo WorkspaceList.
From S2P Require Import Base64 Secrets Pvcs PodLogs Cluster Metrics Http Auth Handlers.
From S2P Require Import Paths.

(** ** What handlers end with *)

(** Responses written early satisfy [S], the values handed on [F]. *)
Definition ends {A} (S : http_response → Prop) (F : A → Prop) (p : hnd A) : Prop :=
  results (λ r, match r with
                | inl a => F a
                | inr (Reply resp) => S resp
                | inr (Panicked _) => True
                end) p.

Lemma ends_hbind {A B} S (F : B → Prop) (p : hnd A) (f : A → hnd B) :
  ends S (λ _, True) p → (∀ a, ends S F (f a)) → ends S F (hbind p f).
Proof. intros Hp Hf. eapply results_bind; [exact Hp|]. intros [a|[]] Ha; [apply Hf|done..]. Qed.

Lemma ends_ret {A} S (F : A → Prop) a : F a → ends S F (Ret (inl a)).
Proof. done. Qed.

Lemma ends_catch {A} S (p : repo A) onErr :
  (∀ err, S (onErr err)) → ends S (λ _, True) (catch p onErr).
Proof. intros HS. eapply results_bind; [by apply (results_true (λ _, True))|]. by intros [a|[]] _; simpl. Qed.

Section parts.
Context `{CodecLib}.

Lemma ends_validate (S : http_response → Prop) msg errs :
  (errs ≠ [] → S (failedValidationResponse msg errs [])) → ends S (λ _, True) (validate msg errs).
Proof. intros HS. unfold validate. destruct errs; [done|by apply HS]. Qed.

Lemma ends_contentType (S : http_response → Prop) r t :
  (∀ msg, S (unsupportedMediaTypeResponse msg)) → (∀ msg, S (badRequestResponse msg)) →
  ends S (λ _, True) (ValidateContentType r t).
Proof. intros Hs Hb. unfold ValidateContentType. repeat case_match; try done; apply Hs || apply Hb. Qed.

Lemma ends_decodeData (S : http_response → Prop) t r :
  (∀ msg, S (requestEntityTooLargeResponse msg)) → (∀ msg, S (badRequestResponse msg)) →
  (∀ errs, S (failedValidationResponse errMsgRequestBodyInvalid errs [])) →
  ends S (λ _, True) (decodeData t r).
Proof. intros Hl Hb Hf. unfold decodeData. repeat case_match; try done; apply Hl || apply Hb || apply Hf. Qed.

Lemma ends_readKind (S : http_response → Prop) r :
  (∀ msg, S (requestEntityTooLargeResponse msg)) → S serverErrorResponse →
  (∀ msg, S (badRequestResponse msg)) →
  (∀ errs, S (failedValidationResponse errMsgRequestBodyInvalid errs [])) →
  ends S (λ _, True) (readKind r).
Proof. intros Hl Hs Hb Hf. unfold readKind. repeat case_match; try done; apply Hl || apply Hb || apply Hf. Qed.
End parts.

Lemma ends_checkPolicies (S : http_response → Prop) u ps :
  S serverErrorResponse → S forbiddenResponse → ends S (λ _, True) (checkPolicies u ps).
Proof.
  intros Hs Hf. induction ps as [|p ps IH]; [done|]. intros [[[] reason]|err]; done || apply IH.
Qed.

Lemma ends_requirePolicy (S : http_response → Prop) a r verb resource ns name :
  S serverErrorResponse → S unauthorizedResponse → S forbiddenResponse →
  ends S (λ _, True) (requirePolicy a r verb resource ns name).
Proof.
  intros Hs Hu Hf. unfold requirePolicy, withAuth. case_match; [|done..].
  eapply results_bind; [by apply (results_true (λ _, True))|].
  intros [[u|]|err] _; [by apply ends_checkPolicies|done..].
Qed.

(** ** Well-formed responses *)

Definition errorStatuses : list Z := [400; 401; 403; 404; 405; 409; 413; 415; 422; 500]%Z.

Definition hasHeader (resp : http_response) (key : string) : bool :=
  match rs_Header resp !! key with Some _ => true | None => false end.

Definition contentTypeIs (resp : http_response) (value : string) : bool :=
  bool_decide (rs_Header resp !! "Content-Type" = Some value).

(** The status, the headers and the body agree: an error carries its status as its code, and
    a cause exactly for conflicts and failed validations; data come as JSON with 200, or with
    201 and a location; assets and logs with 200; nothing with 204. *)
Definition wellformed (resp : http_response) : bool :=
  let status := rs_StatusCode resp in
  match rs_Body resp with
  | ErrorEnvelope e =>
      bool_decide (status ∈ errorStatuses) && bool_decide (he_StatusCode e = status)
      && bool_decide (he_Code e = itoa status) && contentTypeIs resp "application/json"
      && negb (hasHeader resp "Location")
      && eqb (match he_Cause e with Some _ => true | None => false end)
             (bool_decide (status ∈ [409; 422]%Z))
  | DataEnvelope _ =>
      contentTypeIs resp "application/json"
      && (if hasHeader resp "Location" then bool_decide (status = 201%Z)
          else bool_decide (status = 200%Z))
  | HealthBody _ => contentTypeIs resp "application/json" && bool_decide (status = 200%Z)
  | Bytes _ =>
      bool_decide (status = 200%Z)
      && (contentTypeIs resp "image/svg+xml" || contentTypeIs resp "text/plain")
  | NoContent => bool_decide (status = 204%Z) && negb (hasHeader resp "Content-Type")
  end.

(** ** Documented statuses: [@Success] and [@Failure] of the handlers *)

Definition documented (e : endpoint) : list Z :=
  match e with
  | GetHealthcheck | GetUser => [200; 500]
  | GetNamespaces_ | GetAllWorkspaces => [200; 401; 403; 500]
  | GetPVCsByNamespace | GetSecretsByNamespace | GetStorageClasses_ | GetWorkspaceKinds_
  | GetWorkspacesByNamespace => [200; 401; 403; 422; 500]
  | CreatePVC_ | CreateSecret_ | CreateWorkspaceKind_ | CreateWorkspace_ =>
      [201; 400; 401; 403; 409; 413; 415; 422; 500]
  | DeletePVC_ | DeleteWorkspaceKind_ | DeleteWorkspace_ => [204; 401; 403; 404; 409; 422; 500]
  | DeleteSecret_ => [204; 400; 401; 403; 404; 409; 422; 500]
  | GetSecret_ | GetWorkspace_ | GetWorkspacePodTemplateDetails | GetWorkspaceKindIcon
  | GetWorkspaceKindLogo => [200; 401; 403; 404; 422; 500]
  | UpdateSecret_ | PauseActionWorkspace | UpdateWorkspaceKind_ | UpdateWorkspace_ =>
      [200; 400; 401; 403; 404; 409; 413; 415; 422; 500]
  | GetWorkspacePodTemplateLogs | GetWorkspacePodTemplateResources =>
      [200; 400; 401; 403; 404; 422; 500]
  | PodTemplateOptionsListValues => [200; 400; 401; 403; 404; 413; 415; 422; 500]
  | GetWorkspaceKind_ => [200; 400; 401; 403; 404; 500]
  end%Z.

(** The endpoints that change the cluster. *)
Definition mutates (e : endpoint) : bool :=
  match e with
  | CreateSecret_ | UpdateSecret_ | DeleteSecret_ | CreateWorkspace_ | UpdateWorkspace_
  | DeleteWorkspace_ | PauseActionWorkspace | CreateWorkspaceKind_ | DeleteWorkspaceKind_
  | UpdateWorkspaceKind_ | CreatePVC_ | DeletePVC_ => true
  | _ => false
  end.

(** The one status that is not documented. *)
Definition documentedOr422 (e : endpoint) : list Z :=
  match e with GetWorkspaceKind_ => 422%Z :: documented e | _ => documented e end.

(** A response written before the end of a handler, and the one written there. *)
Definition early_ok (e : endpoint) (resp : http_response) : bool :=
  wellformed resp && bool_decide (rs_StatusCode resp ∈ documentedOr422 e)
  && (400 <=? rs_StatusCode resp)%Z.

Definition last_ok (e : endpoint) (resp : http_response) : bool :=
  wellformed resp && bool_decide (rs_StatusCode resp ∈ documentedOr422 e)
  && (negb (mutates e) || (rs_StatusCode resp <? 400)%Z).

Abbreviation handler_ok e := (ends (λ resp, early_ok e resp = true) (λ resp, last_ok e resp = true)).

(** An error response is as good as its status. *)
Definition status_ok (e : endpoint) (status : Z) (cause : option ErrorCause) : bool :=
  bool_decide (status ∈ errorStatuses) && bool_decide (status ∈ documentedOr422 e)
  && (400 <=? status)%Z
  && eqb (match cause with Some _ => true | None => false end) (bool_decide (status ∈ [409; 422]%Z)).

Lemma early_httpError e status msg cause :
  status_ok e status cause = true → early_ok e (httpError status msg cause) = true.
Proof.
  unfold status_ok. intros [[[Hs He]%andb_true_iff Hl]%andb_true_iff Hc]%andb_true_iff.
  unfold early_ok, wellformed. cbn. rewrite Hs, He, Hl, Hc, !bool_decide_eq_true_2 by done.
  reflexivity.
Qed.

Section handlers.
Context `{CodecLib} `{NameLib} `{ValidationLib} `{MapOrder} `{QuantityLib} `{TimeLib} `{SelectorLib}.
Context (a : App).

Ltac reply_step :=
  lazymatch goal with
  | |- ends _ _ (hbind _ _) => apply ends_hbind; [|intros ?]
  | |- ends _ _ (validate _ _) => apply ends_validate; intros _
  | |- ends _ _ (ValidateContentType _ _) => apply ends_contentType
  | |- ends _ _ (decodeData _ _) => apply ends_decodeData
  | |- ends _ _ (readKind _) => apply ends_readKind
  | |- ends _ _ (requirePolicy _ _ _ _ _ _) => apply ends_requirePolicy
  | |- ends _ _ (catch _ _) => apply ends_catch; let err := fresh "err" in intros err; destruct err
  | |- ends _ _ (Ret _) => apply ends_ret
  | |- ends _ _ (match _ with _ => _ end) => case_match
  | |- ∀ _, _ => intros ?
  | |- early_ok _ (if _ then _ else _) = true => case_match
  | |- early_ok _ _ = true => apply early_httpError; vm_compute; reflexivity
  | |- last_ok _ (if _ then _ else _) = true => case_match
  | |- last_ok _ _ = true => vm_compute; reflexivity
  end.

Lemma secrets_reply r :
  handler_ok GetSecretsByNamespace (GetSecretsByNamespaceHandler a r) ∧
  handler_ok CreateSecret_ (CreateSecretHandler a r) ∧
  handler_ok GetSecret_ (GetSecretHandler a r) ∧
  handler_ok UpdateSecret_ (UpdateSecretHandler a r) ∧
  handler_ok DeleteSecret_ (DeleteSecretHandler a r).
Proof.
  split_and!; unfold GetSecretsByNamespaceHandler, CreateSecretHandler, GetSecretHandler,
    UpdateSecretHandler, DeleteSecretHandler; repeat reply_step.
Qed.

Lemma claims_reply r :
  handler_ok GetPVCsByNamespace (GetPVCsByNamespaceHandler a r) ∧
  handler_ok CreatePVC_ (CreatePVCHandler a r) ∧
  handler_ok DeletePVC_ (DeletePVCHandler a r).
Proof.
  split_and!; unfold GetPVCsByNamespaceHandler, CreatePVCHandler, DeletePVCHandler;
    repeat reply_step.
Qed.

Lemma cluster_reply r :
  handler_ok GetHealthcheck (GetHealthcheckHandler r) ∧
  handler_ok GetUser (GetUserHandler a r) ∧
  handler_ok GetNamespaces_ (GetNamespacesHandler a r) ∧
  handler_ok GetStorageClasses_ (GetStorageClassesHandler a r).
Proof.
  split_and!; unfold GetHealthcheckHandler, GetUserHandler, GetNamespacesHandler,
    GetStorageClassesHandler; repeat reply_step.
Qed.

Lemma workspaces_reply r :
  handler_ok GetWorkspacesByNamespace (getWorkspacesHandler a r) ∧
  handler_ok GetWorkspace_ (GetWorkspaceHandler a r) ∧
  handler_ok CreateWorkspace_ (CreateWorkspaceHandler a r) ∧
  handler_ok UpdateWorkspace_ (UpdateWorkspaceHandler a r) ∧
  handler_ok DeleteWorkspace_ (DeleteWorkspaceHandler a r) ∧
  handler_ok PauseActionWorkspace (PauseActionWorkspaceHandler a r) ∧
  handler_ok GetWorkspacePodTemplateDetails (GetWorkspacePodTemplateDetailsHandler a r) ∧
  handler_ok GetWorkspacePodTemplateLogs (GetWorkspacePodTemplateLogsHandler a r).
Proof.
  split_and!; unfold getWorkspacesHandler, GetWorkspaceHandler, CreateWorkspaceHandler,
    UpdateWorkspaceHandler, DeleteWorkspaceHandler, PauseActionWorkspaceHandler,
    GetWorkspacePodTemplateDetailsHandler, GetWorkspacePodTemplateLogsHandler;
    repeat reply_step.
Qed.

(** The route of all Workspaces binds no namespace, so there is nothing to be invalid. *)
Lemma allWorkspaces_reply r :
  ByName r NamespacePathParam = "" → handler_ok GetAllWorkspaces (getWorkspacesHandler a r).
Proof.
  intros Hn. unfold getWorkspacesHandler. rewrite Hn.
  apply ends_hbind; [by apply ends_validate|intros _]. repeat reply_step.
Qed.

Lemma kinds_reply r :
  handler_ok GetWorkspaceKinds_ (GetWorkspaceKindsHandler a r) ∧
  handler_ok GetWorkspaceKind_ (GetWorkspaceKindHandler a r) ∧
  handler_ok CreateWorkspaceKind_ (CreateWorkspaceKindHandler a r) ∧
  handler_ok DeleteWorkspaceKind_ (DeleteWorkspaceKindHandler a r) ∧
  handler_ok UpdateWorkspaceKind_ (UpdateWorkspaceKindHandler a r) ∧
  handler_ok PodTemplateOptionsListValues (PodTemplateOptionsListValuesHandler a r).
Proof.
  split_and!; unfold GetWorkspaceKindsHandler, GetWorkspaceKindHandler,
    CreateWorkspaceKindHandler, DeleteWorkspaceKindHandler, UpdateWorkspaceKindHandler,
    PodTemplateOptionsListValuesHandler, kindNotFound; repeat reply_step.
Qed.

Lemma asset_reply assetType r e :
  e = GetWorkspaceKindIcon ∨ e = GetWorkspaceKindLogo →
  handler_ok e (getWorkspaceKindAssetHandler a assetType r).
Proof.
  unfold getWorkspaceKindAssetHandler, wskAssetResponse. intros [-> | ->]; repeat reply_step.
Qed.

Lemma resources_reply r m :
  results (λ res, match res.1 with
                  | inl resp => last_ok GetWorkspacePodTemplateResources resp = true
                  | inr (Reply resp) => early_ok GetWorkspacePodTemplateResources resp = true
                  | inr (Panicked _) => True
                  end) (GetWorkspacePodTemplateResourcesHandler a r m).
Proof.
  unfold GetWorkspacePodTemplateResourcesHandler.
  set (cleared := hbind _ _).
  assert (ends (λ resp, early_ok GetWorkspacePodTemplateResources resp = true) (λ _, True) cleared)
    as Hc by (subst cleared; repeat reply_step).
  eapply results_bind; [exact Hc|]. intros [u|rep] Hrep; [|exact Hrep].
  eapply results_bind; [by apply (results_true (λ _, True))|].
  intros [[usage|err] m'] _; simpl; [vm_compute; reflexivity|].
  destruct err; simpl; try exact I; apply early_httpError; vm_compute; reflexivity.
Qed.

(** What a handler's result promises about its response. *)
Definition reply_ok (e : endpoint) (res : http_response + reply) : Prop :=
  match res with
  | inl resp => last_ok e resp = true
  | inr (Reply resp) => early_ok e resp = true
  | inr (Panicked _) => True
  end.

Lemma stateless_reply e p m :
  handler_ok e p → results (λ res, reply_ok e res.1) (stateless p m).
Proof. intros Hp. eapply results_bind; [exact Hp|]. by intros [resp|[]]. Qed.

Lemma handlers_reply e r m :
  (e = GetAllWorkspaces → ByName r NamespacePathParam = "") →
  results (λ res, reply_ok e res.1) (handlerOf a e r m).
Proof.
  intros Hall.
  pose proof (secrets_reply r) as (? & ? & ? & ? & ?).
  pose proof (claims_reply r) as (? & ? & ?).
  pose proof (cluster_reply r) as (? & ? & ? & ?).
  pose proof (workspaces_reply r) as (? & ? & ? & ? & ? & ? & ? & ?).
  pose proof (kinds_reply r) as (? & ? & ? & ? & ? & ?).
  destruct e; try (apply stateless_reply; assumption).
  - apply stateless_reply. by apply allWorkspaces_reply, Hall.
  - apply resources_reply.
  - apply stateless_reply, asset_reply. by left.
  - apply stateless_reply, asset_reply. by right.
Qed.

(** C7: every status a handler can answer with is among those that its OpenAPI comments
    list, panics included; the one exception is [GetWorkspaceKindHandler], which answers an
    invalid name with 422, a status its comments do not have (they say 400). *)
Theorem replies_documented e r m h res m' :
  runs (handlerOf a e r m) h (res, m') →
  (e = GetAllWorkspaces → ByName r NamespacePathParam = "") →
  let status := rs_StatusCode (recoverPanic (to_reply res)) in
  (status ∈ documented e ∨ e = GetWorkspaceKind_ ∧ status = 422%Z) ∧
  (e = GetWorkspaceKind_ → nameErrs (ByName r ResourceNamePathParam) ≠ [] →
   status = 422%Z ∧ status ∉ documented e ∧ h = []).
Proof.
  intros Hr Hall status. split.
  - pose proof (results_runs _ _ _ _ (handlers_reply e r m Hall) Hr) as Hok.
    assert (status ∈ documentedOr422 e) as Hs.
    { destruct res as [resp|[resp|why]]; simpl in Hok; [| |destruct e; vm_compute; set_solver];
        by apply andb_true_iff in Hok as [[_ Hs%bool_decide_eq_true]%andb_true_iff _]. }
    destruct e; try by left. apply elem_of_cons in Hs as [->|Hs]; [by right|by left].
  - intros -> Hn. revert Hr. unfold handlerOf, stateless, GetWorkspaceKindHandler, validate.
    destruct (nameErrs _) as [|err errs]; [done|]. intros [-> [= <- <-]].
    split_and!; [done| |done]. subst status. simpl. set_solver by lia.
Qed.

Lemma wellformed_setHeader key value resp :
  key ≠ "Content-Type" → key ≠ "Location" →
  wellformed (setHeader key value resp) = wellformed resp.
Proof.
  intros Hc Hl. unfold wellformed, contentTypeIs, hasHeader. cbn.
  by rewrite !(lookup_insert_ne _ key) by done.
Qed.

(** C8: whatever the request, the answers and the panics, the response below [/api/v1] is
    well formed: status, code, cause, headers and body agree; and every one carries the CORS
    header.  (The router's own redirects are the library's.) *)
Theorem replies_wellformed `{RouterLib} method path r m h resp m' :
  runs (ServeHTTP a method path r m) h (resp, m') →
  (∀ resp', Lookup Routes method path ≠ RouterResponse resp') →
  wellformed resp = true ∧ rs_Header resp !! "Access-Control-Allow-Origin" = Some "*".
Proof.
  intros Hr Hlib. unfold ServeHTTP in Hr.
  destruct (Lookup Routes method path) as [e params| | |resp']; [| | |by destruct (Hlib resp')].
  2,3: destruct Hr as [-> [= <- <-]].
  2: by split; vm_compute.
  2: { split; [|done]. unfold enableCORS. rewrite wellformed_setHeader by done.
       vm_compute. reflexivity. }
  apply runs_bind in Hr as (h1 & h2 & [res m1] & -> & Hr & [_ [= <- <-]]).
  split; [|apply lookup_insert_eq]. unfold enableCORS. rewrite wellformed_setHeader by done.
  set (e' := match e with GetAllWorkspaces => GetWorkspacesByNamespace | _ => e end).
  assert (runs (handlerOf a e' (bindParams r params) m) h1 (res, m1)) as Hr' by by destruct e.
  apply results_runs with (P := λ res, reply_ok e' res.1) in Hr';
    [|apply handlers_reply; by destruct e]. simpl in Hr'.
  destruct res as [resp|[resp|why]]; simpl in *;
    [by apply andb_true_iff in Hr' as [[Hw _]%andb_true_iff _]..|]. vm_compute. reflexivity.
Qed.
End handlers.

(** ** Witnesses *)

#[local] Existing Instances exampleCodecLib exampleNameLib exampleValidation canonicalOrder
  exampleQuantityLib exampleTimeLib exampleSelectorLib exampleRouterLib.

(** An invalid name of a WorkspaceKind. *)
Lemma replies_documented_witness :
  let r := exRequest {["name" := ["BAD"]]} ∅ "" in
  ∃ h res m', runs (handlerOf exApp GetWorkspaceKind_ r emptyMemo) h (res, m') ∧
    rs_StatusCode (recoverPanic (to_reply res)) = 422%Z ∧ 422%Z ∉ documented GetWorkspaceKind_.
Proof.
  intros r. set (p := handlerOf exApp GetWorkspaceKind_ r emptyMemo).
  pose proof (interp_runs exServer p ()) as Hr. destruct (interp exServer p ()).1 as [res m'].
  assert (nameErrs (ByName r ResourceNamePathParam) ≠ []) as Hn by (vm_compute; discriminate).
  destruct (replies_documented _ _ _ _ _ _ _ Hr ltac:(discriminate)) as [_ Hs].
  destruct (Hs eq_refl Hn) as (Heq & Hd & _).
  exists (trace exServer p ()), res, m'. split_and!; [exact Hr|exact Heq|by rewrite <-Heq].
Defined.

Lemma replies_wellformed_witness :
  ∃ h resp m', runs (ServeHTTP exApp "POST" SecretsByNamespacePath (exRequest ∅ ∅ "new")
                      emptyMemo) h (resp, m') ∧
    wellformed resp = true ∧ rs_StatusCode resp = 201%Z ∧
    rs_Header resp !! "Location" = Some "/api/v1/secrets/ns/new".
Proof.
  set (p := ServeHTTP _ _ _ _ _). pose proof (interp_runs exServer p ()) as Hr.
  assert ((interp exServer p ()).1 = (enableCORS (createdResponse
    (EnvSecretCreate (mkSecretCreate "new" "Opaque" false ∅)) "/api/v1/secrets/ns/new"), emptyMemo))
    as Hi by (vm_compute; reflexivity).
  rewrite Hi in Hr. eexists _, _, _. split; [exact Hr|].
  destruct (replies_wellformed _ _ _ _ _ _ _ _ Hr) as [Hw _]; [vm_compute; discriminate|].
  split_and!; [exact Hw|reflexivity|vm_compute; reflexivity].
Defined.
