(* ===== verification/Acknowledged.v ===== *)
(** * Replies and changes

    [write_acknowledged]: a reply below 400 to a request that changes the cluster comes
    after exactly one change acknowledged by the API server, and every other reply after
    none.  So a caller that is told of success knows the change was made, and one that is
    told of an error can repeat the request. *)

From Stdlib Require Import ZArith.
From stdpp Require Import base gmap strings list.
From S2P Require Import Prelude K8sTypes ApiTypes Client Examples Field FilterRules Validation.
From S2P Require Import ListValues WorkspaceModel WorkspaceRepo KindModel KindRepo WorkspaceList.
From S2P Require Import Base64 Secrets Pvcs PodLogs Cluster Metrics Http Auth Handlers Replies.
From S2P Require Import Paths.

(** ** Acknowledged changes *)

Definition is_ok {A} (x : answer A) : bool := match x with inl _ => true | inr _ => false end.

(** The event is a change that the API server acknowledged. *)
Definition acked (e : event) : bool :=
  match e with
  | Ev q x =>
    match q in req X return X → bool with
    | Create _ _ | Update _ _ | UpdateStatus _ _ | Patch _ _ _ | Delete _ _ _
    | JSONPatch _ _ _ _ => is_ok
    | _ => λ _, false
    end x
  end.

Definition acks (h : list event) : nat := length (filter (λ e, acked e = true) h).

Lemma acks_app h1 h2 : acks (h1 ++ h2) = (acks h1 + acks h2)%nat.
Proof. unfold acks. by rewrite filter_app, length_app. Qed.

Lemma acks_cons e h : acks (e :: h) = ((if acked e then 1 else 0) + acks h)%nat.
Proof. unfold acks. rewrite filter_cons. by destruct (acked e). Qed.

Lemma acked_write e : acked e = true → event_write e = true.
Proof. by destruct e as [X q x]; destruct q. Qed.

Lemma acks_reads h : reads_only h → acks h = 0%nat.
Proof.
  induction 1 as [|e h He Hh IH]; [done|]. rewrite acks_cons, IH.
  destruct (acked e) eqn:Ha; [|done]. by rewrite (acked_write _ Ha) in He.
Qed.

(** ** Programs that commit *)

(** On success [n] changes were acknowledged, on failure none. *)
Definition commits {A E} (n : nat) (p : prog (A + E)) : Prop :=
  ∀ h r, runs p h r → acks h = match r with inl _ => n | inr _ => 0%nat end.

Abbreviation reads p := (calls_ok (λ _ q, is_write q = false) p).

Lemma commits_reads {A E} (p : prog (A + E)) : reads p → commits 0 p.
Proof. intros Hp h r Hr. rewrite acks_reads; [by destruct r|by eapply reads_only_runs]. Qed.

Lemma commits_fail {A E} n (e : E) : commits n (Ret (inr e) : prog (A + E)).
Proof. by intros h r [-> <-]. Qed.

(** After a read. *)
Lemma commits_then {A E B F} n (p : prog (A + E)) (f : A + E → prog (B + F)) :
  commits 0 p → (∀ a, commits n (f (inl a))) → (∀ e, ∃ e', f (inr e) = Ret (inr e')) →
  commits n (pbind p f).
Proof.
  intros Hp Hf He h r (h1 & h2 & a & -> & Ha & Hr)%runs_bind. rewrite acks_app, (Hp _ _ Ha).
  destruct a as [a|e]; [by rewrite (Hf _ _ _ Hr)|].
  destruct (He e) as [e' He']. rewrite He' in Hr. by destruct Hr as [-> <-].
Qed.

(** Before a tail without requests that cannot fail. *)
Lemma commits_before {A E B F} n (p : prog (A + E)) (f : A + E → prog (B + F)) :
  commits n p → (∀ a, ∃ b, f (inl a) = Ret (inl b)) → (∀ e, ∃ e', f (inr e) = Ret (inr e')) →
  commits n (pbind p f).
Proof.
  intros Hp Hf He h r (h1 & h2 & a & -> & Ha & Hr)%runs_bind. rewrite acks_app, (Hp _ _ Ha).
  destruct a as [a|e].
  - destruct (Hf a) as [b Hb]. rewrite Hb in Hr. destruct Hr as [-> <-]. apply Nat.add_0_r.
  - destruct (He e) as [e' He']. rewrite He' in Hr. by destruct Hr as [-> <-].
Qed.

Lemma commits_rbind {A B} n (p : repo A) (f : A → repo B) :
  commits 0 p → (∀ a, commits n (f a)) → commits n (rbind p f).
Proof. intros Hp Hf. apply commits_then; [done..|]. intros e. by eexists. Qed.

Lemma commits_hbind {A B} n (p : hnd A) (f : A → hnd B) :
  commits 0 p → (∀ a, commits n (f a)) → commits n (hbind p f).
Proof. intros Hp Hf. apply commits_then; [done..|]. intros e. by eexists. Qed.

Lemma commits_ret {A B} n (p : repo A) (f : A → B) :
  commits n p → commits n (rbind p (λ a, ret (f a))).
Proof. intros Hp. apply commits_before; [done|..]; intros ?; by eexists. Qed.

Lemma commits_respond {A} n (p : hnd A) (f : A → http_response) :
  commits n p → commits n (hbind p (λ a, Ret (inl (f a)))).
Proof. intros Hp. apply commits_before; [done|..]; intros ?; by eexists. Qed.

Lemma commits_catch {A} n (p : repo A) onErr : commits n p → commits n (catch p onErr).
Proof.
  intros Hp. apply commits_before; [done|..]; [intros a; by eexists|]. intros []; by eexists.
Qed.

Lemma commits_now {A E} n (f : Z → prog (A + E)) :
  (∀ t, commits n (f t)) → commits n (pbind (call Now) f).
Proof. intros Hf h r (t & h' & -> & Hr). rewrite acks_cons. by rewrite (Hf _ _ _ Hr). Qed.

(** The changing requests commit. *)
Lemma commits_create k o tr : commits 1 (attempt (call (Create k o)) tr).
Proof. by intros h r ([a|e] & h' & -> & -> & <-). Qed.
Lemma commits_update k o tr : commits 1 (attempt (call (Update k o)) tr).
Proof. by intros h r ([a|e] & h' & -> & -> & <-). Qed.
Lemma commits_delete k ns name tr : commits 1 (attempt (call (Delete k ns name)) tr).
Proof. by intros h r ([a|e] & h' & -> & -> & <-). Qed.
Lemma commits_patch k ns name ops tr : commits 1 (attempt (call (JSONPatch k ns name ops)) tr).
Proof. by intros h r ([a|e] & h' & -> & -> & <-). Qed.

Lemma reads_repo_go {A} (g : go A) : reads (repo_go g).
Proof. by destruct g. Qed.

Ltac reads_tac :=
  repeat first [ done | apply reads_repo_go | apply calls_ok_rbind | apply calls_ok_attempt
               | apply calls_ok_bind | apply apiAvailable_reads | case_match | split | intros ? ].

(** ** The repositories *)

Section repositories.
Context `{NameLib} `{ValidationLib} `{MapOrder} `{QuantityLib} `{TimeLib} `{SelectorLib}.

Lemma CreateSecret_commits actor c ns : commits 1 (CreateSecret actor c ns).
Proof.
  apply commits_rbind; [apply commits_reads, reads_repo_go|]. intros s.
  apply commits_ret, commits_create.
Qed.

Lemma UpdateSecret_commits actor u ns name : commits 1 (UpdateSecret actor u ns name).
Proof.
  apply commits_now. intros t. apply commits_rbind; [apply commits_reads; reads_tac|]. intros s.
  case_match; [apply commits_fail|].
  apply commits_rbind; [apply commits_reads, reads_repo_go|]. intros s'.
  apply commits_ret, commits_update.
Qed.

Lemma deleteLabelled_commits k e e' ns name : commits 1 (deleteLabelled k e e' ns name).
Proof.
  apply commits_rbind; [apply commits_reads; reads_tac|]. intros o. cbv beta zeta.
  case_match; [apply commits_fail|apply commits_delete].
Qed.

Lemma CreatePVC_commits actor c ns : commits 1 (CreatePVC actor c ns).
Proof.
  apply commits_rbind; [apply commits_reads, validateLabelled_reads|]. intros errs.
  destruct (match ParseQuantity _ with inl _ => _ | inr _ => _ end) as [q qErrs].
  case_match; [|apply commits_fail]. apply commits_ret, commits_create.
Qed.

Lemma CreateWorkspace_commits actor c ns : commits 1 (CreateWorkspace actor c ns).
Proof.
  apply commits_rbind; [apply commits_reads, create_reads|]. intros w.
  apply commits_ret, commits_create.
Qed.

Lemma UpdateWorkspace_commits actor u ns name : commits 1 (UpdateWorkspace actor u ns name).
Proof.
  apply commits_now. intros t. apply commits_rbind; [apply commits_reads; reads_tac|]. intros w.
  cbv beta zeta. case_match; [apply commits_fail|].
  apply commits_rbind; [apply commits_reads, apply_reads|]. intros w'.
  apply commits_ret, commits_update.
Qed.

Lemma HandlePauseAction_commits ns name p : commits 1 (HandlePauseAction ns name p).
Proof. apply commits_ret, commits_patch. Qed.

Lemma CreateWorkspaceKind_commits actor k : commits 1 (CreateWorkspaceKind actor k).
Proof. apply commits_ret, commits_create. Qed.

Lemma UpdateWorkspaceKind_commits actor u name : commits 1 (UpdateWorkspaceKind actor u name).
Proof.
  apply commits_now. intros t. apply commits_rbind; [apply commits_reads; reads_tac|]. intros k.
  case_match; [apply commits_fail|]. apply commits_ret, commits_update.
Qed.

(** The listings and readings change nothing. *)
Lemma workspaceModels_reads cfg l : reads (workspaceModels cfg l).
Proof. induction l as [|w l IH]; simpl; unfold getKindOrEmpty; reads_tac. Qed.

Lemma pvcModels_reads pods wss l : reads (pvcModels pods wss l).
Proof. induction l as [|p l IH]; simpl; unfold getIfNamed; reads_tac. Qed.

Lemma getWorkspaceModels_reads cfg ns : reads (getWorkspaceModels cfg ns).
Proof. apply calls_ok_rbind; [reads_tac|]. intros l. apply workspaceModels_reads. Qed.

Lemma GetPVCs_reads ns : reads (GetPVCs ns).
Proof.
  unfold GetPVCs. repeat (apply calls_ok_rbind; [reads_tac|intros ?]). apply pvcModels_reads.
Qed.

Lemma GetWorkspaceKinds_reads cfg ns : reads (GetWorkspaceKinds cfg ns).
Proof. unfold GetWorkspaceKinds, resolveNamespaceLabels. reads_tac. Qed.

Lemma ListPodTemplateOptionsValues_reads name d : reads (ListPodTemplateOptionsValues name d).
Proof.
  unfold ListPodTemplateOptionsValues, getWorkspaceKind, resolveNamespaceLabels. reads_tac.
Qed.

Lemma getWorkspaceKindAssetBytes_reads name t : reads (getWorkspaceKindAssetBytes name t).
Proof. unfold getWorkspaceKindAssetBytes, getWorkspaceKind. reads_tac. Qed.

Lemma OpenLogStream_reads ns name opts : reads (OpenLogStream ns name opts).
Proof.
  unfold OpenLogStream, resolvePodAndContainer, resolveContainer, ensureLogsAvailable,
    podChecked, checkStatus. reads_tac.
Qed.
End repositories.

Create HintDb reads.
#[export] Hint Resolve getWorkspaceModels_reads GetPVCs_reads GetWorkspaceKinds_reads
  ListPodTemplateOptionsValues_reads getWorkspaceKindAssetBytes_reads OpenLogStream_reads : reads.

(** ** The handlers *)

Section handlers.
Context `{CodecLib} `{NameLib} `{ValidationLib} `{MapOrder} `{QuantityLib} `{TimeLib} `{SelectorLib}.
Context (a : App) (Hauthn : reviews_only (app_RequestAuthN a)).

Lemma validate_reads msg errs : reads (validate msg errs).
Proof. unfold validate. by case_match. Qed.

Lemma contentType_reads r t : reads (ValidateContentType r t).
Proof. unfold ValidateContentType. by repeat case_match. Qed.

Lemma decodeData_reads t r : reads (decodeData t r).
Proof. unfold decodeData. by repeat case_match. Qed.

Lemma readKind_reads r : reads (readKind r).
Proof. unfold readKind. by repeat case_match. Qed.

Lemma checkPolicies_reads u ps : reads (checkPolicies u ps).
Proof. induction ps as [|p ps IH]; [done|]. split; [done|]. by intros [[[] reason]|err]. Qed.

Lemma requirePolicy_reads r verb resource ns name : reads (requirePolicy a r verb resource ns name).
Proof.
  unfold requirePolicy, withAuth. case_match; [|done..]. apply calls_ok_bind.
  - eapply calls_ok_mono; [|apply Hauthn]. by intros X [].
  - intros [[u|]|err]; [apply checkPolicies_reads|done..].
Qed.

Lemma catch_reads {A} (p : repo A) onErr : reads p → reads (catch p onErr).
Proof. intros Hp. by apply calls_ok_bind. Qed.

Lemma hbind_reads {A B} (p : hnd A) (f : A → hnd B) :
  reads p → (∀ x, reads (f x)) → reads (hbind p f).
Proof. intros Hp Hf. apply calls_ok_bind; [done|]. by intros [x|rep]. Qed.

(** The steps before the repository, and the repository's change with the response. *)
Ltac commit_step :=
  lazymatch goal with
  | |- commits _ (hbind (catch _ _) _) => apply commits_respond, commits_catch
  | |- commits _ (hbind _ _) => apply commits_hbind; [apply commits_reads|intros ?]
  | |- commits _ (match _ with _ => _ end) => case_match
  | |- reads (validate _ _) => apply validate_reads
  | |- reads (ValidateContentType _ _) => apply contentType_reads
  | |- reads (decodeData _ _) => apply decodeData_reads
  | |- reads (readKind _) => apply readKind_reads
  | |- reads (requirePolicy _ _ _ _ _ _) => apply requirePolicy_reads
  | |- reads (hbind _ _) => apply hbind_reads; [|intros ?]
  | |- reads (catch _ _) => apply catch_reads
  | |- reads (match _ with _ => _ end) => case_match
  | |- reads (Ret _) => exact I
  end.

Lemma changing_commits e r m :
  mutates e = true → ∃ p, handlerOf a e r m = stateless p m ∧ commits 1 p.
Proof.
  destruct e; intros [=]; eexists; (split; [reflexivity|]).
  - unfold CreateSecretHandler. repeat commit_step. apply CreateSecret_commits.
  - unfold UpdateSecretHandler. repeat commit_step. apply UpdateSecret_commits.
  - unfold DeleteSecretHandler. repeat commit_step. apply deleteLabelled_commits.
  - unfold CreateWorkspaceHandler. repeat commit_step. apply CreateWorkspace_commits.
  - unfold UpdateWorkspaceHandler. repeat commit_step. apply UpdateWorkspace_commits.
  - unfold DeleteWorkspaceHandler. repeat commit_step. apply commits_delete.
  - unfold PauseActionWorkspaceHandler. repeat commit_step. apply HandlePauseAction_commits.
  - unfold CreateWorkspaceKindHandler. repeat commit_step. apply CreateWorkspaceKind_commits.
  - unfold DeleteWorkspaceKindHandler. repeat commit_step. apply commits_delete.
  - unfold UpdateWorkspaceKindHandler. repeat commit_step. apply UpdateWorkspaceKind_commits.
  - unfold CreatePVCHandler. repeat commit_step. apply CreatePVC_commits.
  - unfold DeletePVCHandler. repeat commit_step. apply deleteLabelled_commits.
Qed.

Lemma resources_reads r m : reads (GetWorkspacePodTemplateResourcesHandler a r m).
Proof.
  apply calls_ok_bind; [repeat commit_step|]. intros [u|rep]; [|exact I].
  unfold GetWorkspaceResourceUsage, workspacePod, podUsage. reads_tac.
Qed.

Lemma reading_reads e r m : mutates e = false → reads (handlerOf a e r m).
Proof.
  destruct e; intros [=]; try apply resources_reads; (apply calls_ok_bind; [|done]).
  all: unfold GetHealthcheckHandler, GetUserHandler, GetNamespacesHandler,
    GetSecretsByNamespaceHandler, GetSecretHandler, getWorkspacesHandler, GetWorkspaceHandler,
    GetWorkspacePodTemplateDetailsHandler, GetWorkspacePodTemplateLogsHandler,
    GetWorkspaceKindsHandler, GetWorkspaceKindHandler, PodTemplateOptionsListValuesHandler,
    getWorkspaceKindAssetHandler, GetStorageClassesHandler, GetPVCsByNamespaceHandler.
  all: repeat commit_step; first [by auto with reads|by reads_tac].
Qed.

(** C6: when an endpoint that changes the cluster replies with a status below 400, the API
    server has acknowledged exactly one change; when it replies with an error or panics, none.
    The other endpoints never change anything. *)
Theorem write_acknowledged e r m h res m' :
  runs (handlerOf a e r m) h (res, m') →
  acks h = match to_reply res with
           | Reply resp => if mutates e && (rs_StatusCode resp <? 400)%Z then 1%nat else 0%nat
           | Panicked _ => 0%nat
           end.
Proof.
  intros Hr. destruct (mutates e) eqn:He.
  2: { rewrite acks_reads; [by repeat case_match|].
       eapply reads_only_runs; [|exact Hr]. by apply reading_reads. }
  destruct (changing_commits e r m He) as (p & Hp & Hc).
  pose proof (results_runs _ _ _ _ (handlers_reply a e r m ltac:(by intros ->)) Hr) as Hok.
  rewrite Hp in Hr. apply runs_bind in Hr as (h1 & h2 & res' & -> & Hr & [-> [= <- <-]]).
  rewrite app_nil_r, (Hc _ _ Hr).
  destruct res' as [resp|[resp|why]]; simpl in *; [| |done];
    apply andb_true_iff in Hok as [_ Hs].
  - rewrite He in Hs. simpl in Hs. by rewrite Hs.
  - by rewrite (proj2 (Z.ltb_ge _ _)) by lia.
Qed.
End handlers.

(** ** Witness *)

#[local] Existing Instances exampleCodecLib exampleNameLib exampleValidation canonicalOrder
  exampleQuantityLib exampleTimeLib exampleSelectorLib.

(** A Secret is created: 201, after one acknowledged change. *)
Lemma write_acknowledged_witness :
  let r := exRequest {["namespace" := ["ns"]]} ∅ "new" in
  ∃ h res m', runs (handlerOf exApp CreateSecret_ r emptyMemo) h (res, m') ∧
    rs_StatusCode (recoverPanic (to_reply res)) = 201%Z ∧ acks h = 1%nat.
Proof.
  intros r. set (p := handlerOf exApp CreateSecret_ r emptyMemo).
  pose proof (interp_runs exServer p ()) as Hr.
  assert ((interp exServer p ()).1 = (inl (createdResponse
    (EnvSecretCreate (mkSecretCreate "new" "Opaque" false ∅)) "/api/v1/secrets/ns/new"), emptyMemo))
    as Hi by (vm_compute; reflexivity).
  rewrite Hi in Hr. eexists _, _, _. split_and!; [exact Hr|reflexivity|].
  exact (write_acknowledged exApp (NewBearerTokenAuthenticator_reviews _ _) _ _ _ _ _ _ Hr).
Defined.
