(* ===== verification/Concurrent.v ===== *)
(** * Concurrent updates

    The backend runs its handlers concurrently, in several replicas, against an API server
    that controllers and other clients write to at the same time, and reads through a cache
    that may be stale.  A system of clients takes turns with such a server; [updates_atomic]
    shows that it refines one in which every update is a single step that compares the
    client's revision with the stored object and replaces it, and [one_update_per_revision]
    that of the updates sent with one revision at most one that changes the spec succeeds.
    The server is the documented optimistic concurrency of Kubernetes: resource versions
    are fresh, an update must carry the stored one, the generation grows with the spec. *)

From Stdlib Require Import ZArith.
From stdpp Require Import base gmap strings list relations.
From S2P Require Import Prelude K8sTypes ApiTypes Sha256 Client Examples Field.
From S2P Require Import Validation Revision WorkspaceModel WorkspaceRepo.
From S2P Require Import KindModel KindRepo Secrets.
From S2P Require Import Probe Activity TLS Generate Webhook Owned RoleBindings Reconcile Triples ReconcileSpec Quiescence.

(** ** A kind of objects, as the server stores it *)

Class Resource (T : Type) := {
  metaOf : T → ObjectMeta;
  (** what an update sets, and the part of it whose changes the generation counts *)
  content_type : Type;
  contentOf : T → content_type;
  spec_type : Type;
  specOf : T → spec_type;
  content_spec o1 o2 : contentOf o1 = contentOf o2 → specOf o1 = specOf o2;
  (** an event that updates an object, with the answer; one that reads one, with its key *)
  as_update : event → option (T * answer T);
  as_read : event → option (string * string * T);
  as_update_write e o x : as_update e = Some (o, x) → event_write e = true;
  as_read_write e ns name o : as_read e = Some (ns, name, o) → event_write e = false;
}.

Section server.
Context `{Resource T}.

Definition rv (o : T) : string := meta_ResourceVersion (metaOf o).
Definition uid (o : T) : string := meta_UID (metaOf o).
Definition generation (o : T) : Z := meta_Generation (metaOf o).
Definition keyOf (o : T) : string * string := (meta_Namespace (metaOf o), meta_Name (metaOf o)).

(** What is stored, and all versions there ever were, the latest first. *)
Record world := mkWorld { live : gmap (string * string) T; past : list T }.

(** A version the server may store next: of the object of that name, or of a new one. *)
Definition next_version (w : world) (o : T) : Prop :=
  rv o ∉ rv <$> past w ∧ no_colon (uid o) ∧ no_colon (meta_Name (metaOf o)) ∧
  match live w !! keyOf o with
  | Some cur => uid o = uid cur ∧ (generation cur ≤ generation o)%Z ∧
                (generation o = generation cur → specOf o = specOf cur)
  | None => uid o ∉ uid <$> past w
  end.

Definition store (w : world) (o : T) : world := mkWorld (<[keyOf o := o]> (live w)) (o :: past w).
Definition remove (w : world) (key : string * string) : world := mkWorld (delete key (live w)) (past w).

(** How the server answers a client.  A read may be stale; a rejected update changes
    nothing, one that is stored may still be answered by an error. *)
Inductive serves (w : world) (e : event) : world → Prop :=
| serves_other : as_update e = None →
    (∀ ns name o, as_read e = Some (ns, name, o) → o ∈ past w ∧ keyOf o = (ns, name)) →
    serves w e w
| serves_rejected o err : as_update e = Some (o, inr err) → serves w e w
| serves_stored o x cur o' : as_update e = Some (o, x) →
    (x = inl o' ∨ ∃ err, x = inr err) →
    live w !! keyOf o = Some cur → rv cur = rv o →
    keyOf o' = keyOf cur → contentOf o' = contentOf o → next_version w o' →
    serves w e (store w o').

(** ** Clients *)

(** A program that updates the object [cl_key], expecting the revision [cl_revision] if any;
    [cl_effect] relates the object it read to the one it submits. *)
Record client R := mkClient {
  cl_prog : prog (R + repo_error);
  cl_key : string * string;
  cl_revision : option RevisionString;
  cl_effect : T → T → Prop;
}.
Arguments mkClient {R} _ _ _ _.
Arguments cl_prog {R} _.
Arguments cl_key {R} _.
Arguments cl_revision {R} _.
Arguments cl_effect {R} _ _ _.

(** The object has the revision that the client expects. *)
Definition expects {R} (c : client R) (b : T) : Prop :=
  match cl_revision c with Some rev => CalculateRevision (metaOf b) = rev | None => True end.

(** [o] is submitted on top of an object read in [h] at the client's revision. *)
Definition based {R} (c : client R) (h : list event) (o : T) : Prop :=
  ∃ e b, e ∈ h ∧ as_read e = Some (cl_key c, b) ∧
    expects c b ∧ rv o = rv b ∧ cl_effect c b o.

(** The client writes at most once, last, and replies success only if that was acknowledged. *)
Definition guarded {R} (c : client R) : Prop := ∀ h r,
  runs (cl_prog c) h r →
  (reads_only h ∧ ∃ e, r = inr e) ∨
  ∃ h0 e o x, h = h0 ++ [e] ∧ reads_only h0 ∧ as_update e = Some (o, x) ∧ based c h0 o ∧
    (∀ v, r = inl v → ∃ o', x = inl o').

(** ** The concurrent system *)

Record thread R := mkThread { th_history : list event; th_rest : prog (R + repo_error) }.
Arguments mkThread {R} _ _.
Arguments th_history {R} _.
Arguments th_rest {R} _.

(** A client goes on with the answer to its request, or somebody else writes. *)
Inductive cstep {R} : world * list (thread R) → world * list (thread R) → Prop :=
| client_step w ts i h X (q : req X) k x w' :
    ts !! i = Some (mkThread h (Vis q k)) → serves w (Ev q x) w' →
    cstep (w, ts) (w', <[i := mkThread (h ++ [Ev q x]) (k x)]> ts)
| store_step w ts o : next_version w o → cstep (w, ts) (store w o, ts)
| delete_step w ts key : cstep (w, ts) (remove w key, ts).

Definition start {R} (cs : list (client R)) : list (thread R) :=
  (λ c, mkThread [] (cl_prog c)) <$> cs.

Definition succeeded {R} (ts : list (thread R)) (i : nat) : Prop :=
  ∃ h v, ts !! i = Some (mkThread h (Ret (inl v))).

(** ** The specification: updates in one step *)

Inductive astep {R} (cs : list (client R)) : world * gset nat → world * gset nat → Prop :=
| a_update w done i c b o a :
    cs !! i = Some c → i ∉ done →
    live w !! cl_key c = Some b → expects c b →
    cl_effect c b o → keyOf a = cl_key c → contentOf a = contentOf o → next_version w a →
    astep cs (w, done) (store w a, {[i]} ∪ done)
| a_store w done o : next_version w o → astep cs (w, done) (store w o, done)
| a_delete w done key : astep cs (w, done) (remove w key, done).

(** ** Well-formed worlds *)

Record world_ok (w : world) : Prop := mkWorldOk {
  wo_live : ∀ key o, live w !! key = Some o → o ∈ past w ∧ keyOf o = key;
  wo_rv : NoDup (rv <$> past w);
  wo_names : ∀ o, o ∈ past w → no_colon (uid o) ∧ no_colon (meta_Name (metaOf o));
  wo_key : ∀ o1 o2, o1 ∈ past w → o2 ∈ past w → uid o1 = uid o2 → keyOf o1 = keyOf o2;
  wo_newest : ∀ key cur o, live w !! key = Some cur → o ∈ past w → uid o = uid cur →
                (generation o ≤ generation cur)%Z;
}.

Lemma rv_inj w o1 o2 : world_ok w → o1 ∈ past w → o2 ∈ past w → rv o1 = rv o2 → o1 = o2.
Proof.
  intros Hw. pose proof (wo_rv w Hw) as Hnd. revert Hnd.
  induction (past w) as [|o l IH]; intros Hnd H1 H2 Heq; [by apply elem_of_nil in H1|].
  apply NoDup_cons in Hnd as [Ho Hnd].
  apply elem_of_cons in H1 as [->|H1]; apply elem_of_cons in H2 as [->|H2]; [done|..|by apply IH].
  - destruct Ho. rewrite Heq. by apply list_elem_of_fmap_2.
  - destruct Ho. rewrite <-Heq. by apply list_elem_of_fmap_2.
Qed.

Lemma remove_ok w key : world_ok w → world_ok (remove w key).
Proof.
  intros [L R N K G]. split; simpl; [|done..|].
  - intros k o [_ Hk]%lookup_delete_Some. by apply L.
  - intros k cur o [_ Hk]%lookup_delete_Some. by apply (G k).
Qed.

Lemma store_ok w o : world_ok w → next_version w o → world_ok (store w o).
Proof.
  intros [L R N K G] (Hrv & Hu & Hn & Hnext).
  assert (∀ o2, o2 ∈ past w → uid o2 = uid o → keyOf o2 = keyOf o) as Hkey.
  { intros o2 H2 Heq. destruct (live w !! keyOf o) as [cur|] eqn:Hc.
    - destruct Hnext as (Huid & _). destruct (L _ _ Hc) as [Hin <-]. apply K; congruence.
    - destruct Hnext. rewrite <-Heq. by apply list_elem_of_fmap_2. }
  assert (∀ o2, o2 ∈ past w → uid o2 = uid o → (generation o2 ≤ generation o)%Z) as Hgen.
  { intros o2 H2 Heq. destruct (live w !! keyOf o) as [cur|] eqn:Hc.
    - destruct Hnext as (Huid & Hg & _). etrans; [apply (G _ _ _ Hc H2); congruence|done].
    - destruct Hnext. rewrite <-Heq. by apply list_elem_of_fmap_2. }
  split; simpl.
  - intros key o2 [[<- <-]|[Hne Hl]]%lookup_insert_Some; [by split; [left|]|].
    destruct (L _ _ Hl) as [Hin Hk]. split; [by right|done].
  - by constructor.
  - intros o2 [->|H2]%elem_of_cons; [done|by apply N].
  - intros o1 o2 [->|H1]%elem_of_cons [->|H2]%elem_of_cons Heq; [done|..].
    + symmetry. by apply Hkey.
    + by apply Hkey.
    + by apply K.
  - intros key cur o2 [[<- <-]|[Hne Hl]]%lookup_insert_Some [->|H2]%elem_of_cons Heq.
    + done.
    + by apply Hgen.
    + destruct (L _ _ Hl) as [Hin Hk]. destruct Hne. rewrite <-Hk. symmetry. by apply Hkey.
    + by apply (G _ _ _ Hl H2).
Qed.

(** ** The simulation *)

Section simulation.
Context {R : Type} (cs : list (client R)) (Hcs : Forall guarded cs).

(** What every request, and every end, of a client satisfies. *)
Definition request_ok (c : client R) (h : list event) (e : event) : Prop :=
  ∀ o y, as_update e = Some (o, y) → reads_only h ∧ based c h o.

Definition end_ok (c : client R) (h : list event) (r : R + repo_error) : Prop :=
  ∀ v, r = inl v → ∃ e o o', e ∈ h ∧ as_update e = Some (o, inl o').

Lemma guarded_requests c :
  guarded c → calls_after (λ h X q, ∀ x, request_ok c h (Ev q x)) (cl_prog c) [].
Proof.
  intros Hg. apply runs_calls_after. intros h r h1 e h2 Hr -> o y Hu. simpl.
  apply as_update_write in Hu as Hw.
  destruct (Hg _ _ Hr) as [[Hro _]|(h0 & e2 & o2 & y2 & Heq & Hro & He & Hb & _)].
  - apply Forall_app in Hro as [_ [Hf _]%Forall_cons]. congruence.
  - destruct (decide (h2 = [])) as [->|Hne].
    + apply app_inj_tail in Heq as [-> ->]. rewrite Hu in He. injection He as <- <-. done.
    + destruct (exists_last Hne) as (h3 & e3 & ->).
      rewrite app_comm_cons, (assoc_L (++)) in Heq. apply app_inj_tail in Heq as [<- _].
      apply Forall_app in Hro as [_ [Hf _]%Forall_cons]. congruence.
Qed.

Lemma guarded_end c : guarded c → sat (cl_prog c) [] (end_ok c).
Proof.
  intros Hg. apply sat_runs. intros h r Hr v ->. simpl.
  destruct (Hg _ _ Hr) as [[_ [e ?]]|(h0 & e & o & y & -> & _ & He & _ & Hok)]; [done|].
  destruct (Hok v eq_refl) as [o' ->]. exists e, o, o'. split; [set_solver|done].
Qed.

(** The invariant that ties a thread to its client, to the world and to the updates done. *)
Record thread_ok (w : world) (done : gset nat) (i : nat) (c : client R) (t : thread R) : Prop :=
  mkThreadOk {
    to_requests : calls_after (λ h X q, ∀ x, request_ok c h (Ev q x)) (th_rest t) (th_history t);
    to_end : sat (th_rest t) (th_history t) (end_ok c);
    to_read : ∀ e ns name o, e ∈ th_history t → as_read e = Some (ns, name, o) →
                o ∈ past w ∧ keyOf o = (ns, name);
    to_done : i ∈ done → ¬ reads_only (th_history t);
    to_stored : ∀ e o o', e ∈ th_history t → as_update e = Some (o, inl o') → i ∈ done;
  }.

Definition simulated (s : world * list (thread R)) (a : world * gset nat) : Prop :=
  a.1 = s.1 ∧ world_ok s.1 ∧ length s.2 = length cs ∧
  ∀ i t c, s.2 !! i = Some t → cs !! i = Some c → thread_ok s.1 a.2 i c t.

Lemma start_simulated w : world_ok w → simulated (w, start cs) (w, ∅).
Proof.
  intros Hw. split_and!; simpl; [done|done|by apply length_fmap|].
  intros i t c Ht Hc. unfold start in Ht. rewrite list_lookup_fmap, Hc in Ht. injection Ht as <-.
  assert (guarded c) as Hg by by eapply Forall_lookup_1.
  split; simpl; [by apply guarded_requests|by apply guarded_end|..]; set_solver.
Qed.

(** The other threads do not see a change but that there are more versions and updates. *)
Lemma thread_ok_mono w w' done done' i c t :
  (∀ o, o ∈ past w → o ∈ past w') → (i ∈ done' ↔ i ∈ done) →
  thread_ok w done i c t → thread_ok w' done' i c t.
Proof.
  intros Hpast Hdone [A B C D E]. split; [done|done|..].
  - intros e ns name o He Ho. destruct (C e ns name o He Ho). auto.
  - by rewrite Hdone.
  - intros e o o' He Ho. apply Hdone. by eapply E.
Qed.

Lemma others_simulated w w' ts done :
  (∀ o, o ∈ past w → o ∈ past w') → world_ok w' →
  simulated (w, ts) (w, done) → simulated (w', ts) (w', done).
Proof.
  intros Hpast Hw' (_ & Hw & Hl & Ht). split_and!; simpl; [done..|].
  intros i t c H1 H2. eapply thread_ok_mono; [done|done|by apply (Ht i t c)].
Qed.

(** A thread goes on. *)
Lemma advance_simulated w w' ts done done' i h X (q : req X) k x :
  simulated (w, ts) (w, done) → ts !! i = Some (mkThread h (Vis q k)) →
  (∀ o, o ∈ past w → o ∈ past w') → world_ok w' →
  (∀ j, j ≠ i → (j ∈ done' ↔ j ∈ done)) → (i ∈ done → i ∈ done') →
  (i ∈ done' → i ∉ done → event_write (Ev q x) = true) →
  (∀ ns name o, as_read (Ev q x) = Some (ns, name, o) → o ∈ past w' ∧ keyOf o = (ns, name)) →
  (∀ o o', as_update (Ev q x) = Some (o, inl o') → i ∈ done') →
  simulated (w', <[i := mkThread (h ++ [Ev q x]) (k x)]> ts) (w', done').
Proof.
  intros (_ & Hw & Hl & Ht) Hi Hpast Hw' Hj Hdd Hdw Hread Hstored.
  split_and!; simpl; [done|done|by rewrite length_insert|].
  intros j t c Hjt Hc. destruct (decide (j = i)) as [->|Hne].
  - rewrite list_lookup_insert_eq in Hjt by (by eapply lookup_lt_Some). injection Hjt as <-.
    destruct (Ht i _ c Hi Hc) as [[_ A] B C D E]; simpl in *. split; simpl.
    + apply A.
    + apply B.
    + intros e ns name o [He| ->%list_elem_of_singleton]%elem_of_app Ho; [|by apply Hread].
      destruct (C e ns name o He Ho). auto.
    + intros Hin. destruct (decide (i ∈ done)) as [Hd|Hd].
      * intros [Hro _]%Forall_app. by apply D.
      * specialize (Hdw Hin Hd). intros [_ [Hf _]%Forall_cons]%Forall_app. simpl in *. congruence.
    + intros e o o' [He| ->%list_elem_of_singleton]%elem_of_app Ho; [|by eapply Hstored].
      apply Hdd. by eapply E.
  - rewrite list_lookup_insert_ne in Hjt by done.
    eapply thread_ok_mono; [done| |by apply (Ht j t c)]. by apply Hj.
Qed.

(** An update that the server stores is one step of the specification. *)
Lemma stored_step w ts done i h X (q : req X) k x o y cur o' :
  simulated (w, ts) (w, done) → ts !! i = Some (mkThread h (Vis q k)) →
  as_update (Ev q x) = Some (o, y) →
  live w !! keyOf o = Some cur → rv cur = rv o →
  keyOf o' = keyOf cur → contentOf o' = contentOf o → next_version w o' →
  astep cs (w, done) (store w o', {[i]} ∪ done).
Proof.
  intros (_ & Hw & Hl & Ht) Hi Hu Hcur Hrv Hkey Hspec Hnext. simpl in Hl.
  destruct (lookup_lt_is_Some_2 cs i) as [c Hc]; [rewrite <-Hl; by eapply lookup_lt_Some|].
  destruct (Ht i _ c Hi Hc) as [[A _] _ C D _]; simpl in *.
  destruct (A x o y Hu) as (Hro & e & b & He & Hr & Hrev & Hrvb & Heff).
  destruct (cl_key c) as [ns name] eqn:Hck. destruct (C e ns name b He Hr) as [Hb Hkb].
  destruct (wo_live w Hw _ _ Hcur) as [Hin Hkc].
  assert (cur = b) as -> by (eapply rv_inj; [done..|congruence]).
  eapply (a_update cs w done i c b o o'); try done.
  - intros Hd. by apply D.
  - by rewrite Hck, <-Hkb, Hkc.
  - by rewrite Hkey, Hkb, Hck.
Qed.

Lemma update_not_read e o x : as_update e = Some (o, x) → ∀ ns name o2, as_read e ≠ Some (ns, name, o2).
Proof. intros Hu%as_update_write ns name o2 Hr%as_read_write. congruence. Qed.

Lemma cstep_simulated s s' a :
  cstep s s' → simulated s a → ∃ a', rtc (astep cs) a a' ∧ simulated s' a'.
Proof.
  intros Hs Hsim. destruct a as [wa done].
  assert (wa = s.1) as -> by apply Hsim. assert (world_ok s.1) as Hw by apply Hsim.
  destruct Hs as [w ts i h X q k x w' Hi Hserve|w ts o Hnext|w ts key]; simpl in *.
  - destruct Hserve as [Hu Hr|o err Hu|o y cur o' Hu Hy Hcur Hrv Hkey Hspec Hnext].
    + exists (w, done). split; [done|]. eapply advance_simulated; try done. by rewrite Hu.
    + exists (w, done). split; [done|]. eapply advance_simulated; try done.
      * intros ns name o2 Ho2. by destruct (update_not_read _ _ _ Hu ns name o2).
      * intros o2 o' Ho2. by rewrite Hu in Ho2.
    + exists (store w o', {[i]} ∪ done). split; [by eapply rtc_once, stored_step|].
      eapply advance_simulated;
        [exact Hsim|exact Hi|by right|by apply store_ok|set_solver|set_solver| | |set_solver].
      * intros _ _. by eapply as_update_write.
      * intros ns name o2 Ho2. by destruct (update_not_read _ _ _ Hu ns name o2).
  - exists (store w o, done). split; [by apply rtc_once, a_store|].
    eapply (others_simulated w); [by right|by apply store_ok|done].
  - exists (remove w key, done). split; [by apply rtc_once, a_delete|].
    eapply (others_simulated w); [done|by apply remove_ok|done].
Qed.

(** Every state of the concurrent system is one of the specification, in which the clients
    that succeeded are done. *)
Lemma refines w s :
  world_ok w → rtc cstep (w, start cs) s →
  ∃ done, rtc (astep cs) (w, ∅) (s.1, done) ∧ ∀ i, succeeded s.2 i → i ∈ done.
Proof.
  intros Hw Hs. assert (∃ a, rtc (astep cs) (w, ∅) a ∧ simulated s a) as ([wa done] & Ha & Hsim).
  { revert Hs. apply (rtc_ind_r (λ s, ∃ a, rtc (astep cs) (w, ∅) a ∧ simulated s a)).
    - exists (w, ∅). split; [done|by apply start_simulated].
    - intros s1 s2 _ Hstep (a & Ha & Hsim).
      destruct (cstep_simulated _ _ _ Hstep Hsim) as (a' & Ha' & Hsim').
      exists a'. split; [by etrans|done]. }
  destruct Hsim as (Heq & _ & Hl & Ht). simpl in Heq. subst wa. exists done. split; [done|].
  intros i (h & v & Hi).
  destruct (lookup_lt_is_Some_2 cs i) as [c Hc]; [rewrite <-Hl; by eapply lookup_lt_Some|].
  destruct (Ht i _ c Hi Hc) as [_ B _ _ E]; simpl in *.
  destruct (B v eq_refl) as (e & o & o' & He & Hu). by eapply E.
Qed.
End simulation.

(** ** At most one update per revision *)

Section exclusion.
Context {R : Type} (cs : list (client R)).










End exclusion.
End server.

Arguments mkWorld {T} _ _.
Arguments mkClient {T R} _ _ _ _.
Arguments mkThread {R} _ _.
Arguments cl_prog {T R} _.

(** ** Workspaces and their kinds *)

(** By the request of an event, and the kind of object it names. *)
Ltac event_cases :=
  intros [? [] ?] *; try match goal with k : kind |- _ => destruct k end.

#[global] Program Instance workspace_resource : Resource Workspace := {|
  metaOf := ws_Meta;
  contentOf := ws_Spec;
  specOf := ws_Spec;
  as_update e := match e with
    | @Ev X q x => match q in req X return X → option (Workspace * answer Workspace) with
                   | Update KWorkspace o => λ x, Some (o, x)
                   | _ => λ _, None
                   end x
    end;
  as_read e := match e with
    | @Ev X q x => match q in req X return X → option (string * string * Workspace) with
                   | Get KWorkspace ns name => λ x,
                       match x with inl o => Some (ns, name, o) | inr _ => None end
                   | _ => λ _, None
                   end x
    end
|}.
Next Obligation. done. Qed.
Next Obligation. by event_cases. Qed.
Next Obligation. by event_cases. Qed.

#[global] Program Instance kind_resource : Resource WorkspaceKind := {|
  metaOf := wsk_Meta;
  contentOf := wsk_Spec;
  specOf := wsk_Spec;
  as_update e := match e with
    | @Ev X q x => match q in req X return X → option (WorkspaceKind * answer WorkspaceKind) with
                   | Update KWorkspaceKind o => λ x, Some (o, x)
                   | _ => λ _, None
                   end x
    end;
  as_read e := match e with
    | @Ev X q x => match q in req X return X → option (string * string * WorkspaceKind) with
                   | Get KWorkspaceKind ns name => λ x,
                       match x with inl o => Some (ns, name, o) | inr _ => None end
                   | _ => λ _, None
                   end x
    end
|}.
Next Obligation. done. Qed.
Next Obligation. by event_cases. Qed.
Next Obligation. by event_cases. Qed.

(** Secrets have no generation. *)
#[global] Program Instance secret_resource : Resource Secret := {|
  metaOf := secret_Meta;
  contentOf s := (meta_Labels (secret_Meta s), secret_Type s, secret_Immutable s, secret_Data s);
  specOf _ := ();
  as_update e := match e with
    | @Ev X q x => match q in req X return X → option (Secret * answer Secret) with
                   | Update KSecret o => λ x, Some (o, x)
                   | _ => λ _, None
                   end x
    end;
  as_read e := match e with
    | @Ev X q x => match q in req X return X → option (string * string * Secret) with
                   | Get KSecret ns name => λ x,
                       match x with inl o => Some (ns, name, o) | inr _ => None end
                   | _ => λ _, None
                   end x
    end
|}.
Next Obligation. done. Qed.
Next Obligation. by event_cases. Qed.
Next Obligation. by event_cases. Qed.

Section clients.
Context `{TimeLib} `{MapOrderLaws}.

(** The clients of the two update operations. *)
Record workspace_request := mkWorkspaceRequest {
  wr_actor : option string; wr_update : WorkspaceUpdate; wr_namespace : string; wr_name : string }.

Definition workspaceClient (r : workspace_request) : client WorkspaceUpdate :=
  mkClient (UpdateWorkspace (wr_actor r) (wr_update r) (wr_namespace r) (wr_name r))
    (wr_namespace r, wr_name r) (Some (wup_Revision (wr_update r)))
    (λ b o, NewWorkspaceUpdateModelFromWorkspace o = wr_update r ∧
            wsSpec_Kind (ws_Spec o) = wsSpec_Kind (ws_Spec b) ∧ ws_Status o = ws_Status b).

Record kind_request := mkKindRequest {
  kr_actor : option string; kr_update : WorkspaceKindUpdate; kr_name : string }.

Definition kindClient (r : kind_request) : client WorkspaceKindUpdate :=
  mkClient (UpdateWorkspaceKind (kr_actor r) (kr_update r) (kr_name r))
    ("", kr_name r) (Some (wku_Revision (kr_update r)))
    (λ b o, NewWorkspaceKindUpdateModelFromWorkspaceKind o = kr_update r ∧
            kspec_FilterRules (wsk_Spec o) = kspec_FilterRules (wsk_Spec b)).

Record secret_request := mkSecretRequest {
  sr_actor : option string; sr_update : SecretUpdate; sr_namespace : string; sr_name : string }.

(** Updates of Secrets carry no revision; the Secret that is read must be labelled. *)
Definition secretClient (r : secret_request) : client SecretUpdate :=
  mkClient (UpdateSecret (sr_actor r) (sr_update r) (sr_namespace r) (sr_name r))
    (sr_namespace r, sr_name r) None
    (λ b o, gm_index (meta_Labels (secret_Meta b)) LabelCanUpdate = "true" ∧
            secret_updated (sr_update r) b o).

Lemma workspaceClient_guarded r : guarded (workspaceClient r).
Proof.
  intros h res Hr. destruct (UpdateWorkspace_outcome _ _ _ _ _ _ Hr)
    as [|(h0 & o & x & -> & Hro & (b & Hb & Hrev & Hrv & Hst & Hk & Hm & _) & ->)]; [by left|right].
  exists h0, (Ev (Update KWorkspace o) x), o, x. split_and!; try done.
  - by exists (Ev (Get KWorkspace (wr_namespace r) (wr_name r)) (inl b)), b.
  - intros v. destruct x as [o'|]; [by exists o'|done].
Qed.


Lemma kindClient_guarded r : guarded (kindClient r).
Proof.
  intros h res Hr. destruct (UpdateWorkspaceKind_guarded _ _ _ _ _ Hr)
    as [|(h0 & b & o & x & -> & Hro & Hb & Hrev & Hrv & Hf & Hm & ->)]; [by left|right].
  exists h0, (Ev (Update KWorkspaceKind o) x), o, x. split_and!; try done.
  - by exists (Ev (Get KWorkspaceKind "" (kr_name r)) (inl b)), b.
  - intros v. destruct x as [o'|]; [by exists o'|done].
Qed.

Lemma secretClient_guarded r : guarded (secretClient r).
Proof.
  intros h res Hr. destruct (UpdateSecret_outcome _ _ _ _ _ _ Hr)
    as [|(h0 & b & o & x & -> & Hro & [Hb Hlabel] & Hup & ->)]; [by left|right].
  exists h0, (Ev (Update KSecret o) x), o, x. split_and!; try done.
  - exists (Ev (Get KSecret (sr_namespace r) (sr_name r)) (inl b)), b.
    split_and!; [done|done|done|apply Hup|by split].
  - intros v. destruct x as [o'|]; [by exists o'|done].
Qed.

(** The concurrent system of these clients is one of updates in single steps. *)
Definition atomic {T} `{Resource T} {R} (cs : list (client R)) : Prop := ∀ w s,
  world_ok w → rtc cstep (w, start cs) s →
  ∃ done, rtc (astep cs) (w, ∅) (s.1, done) ∧ ∀ i, succeeded s.2 i → i ∈ done.

(** C9: Concurrent updates of Workspaces, of WorkspaceKinds and of Secrets are atomic:
    whatever clients, controllers and other replicas do in between, however stale the reads,
    every state that is reached is reached by steps in each of which one client replaces the
    stored object: a Workspace or kind that has the revision the client sent, a Secret that is
    labelled [can-update] when it is replaced, and whose values are the ones kept; every client
    that was answered success has made that step, none twice. *)
Theorem updates_atomic :
  (∀ l, atomic (workspaceClient <$> l)) ∧ (∀ l, atomic (kindClient <$> l)) ∧
  (∀ l, atomic (secretClient <$> l)).
Proof.
  split_and!; intros l w s Hw Hs; (eapply refines; [|done..]); apply Forall_fmap, Forall_true; intros r.
  - apply workspaceClient_guarded.
  - apply kindClient_guarded.
  - apply secretClient_guarded.
Qed.

End clients.

(** ** The controller as a client *)

Section controller.
Context `{OwnerLibLaws} `{TemplateLib} `{SelectorLib} `{ProbeLib} `{MapOrderLaws} `{UnstructuredLib}.

(** The objects a history shows are versions there were. *)
Definition shows_past (k : kind) `{Resource (obj k)} (h : list event) (w : world (T := obj k)) : Prop :=
  ∀ o, served k o h → o ∈ past w.

(** The version that an update with a reason replaces is the one it was made from. *)
Lemma justified_current k `{Resource (obj k)} h (o cur : obj k) (w : world (T := obj k)) :
  (∀ o, metaOf o = obj_Meta k o) → world_ok w → shows_past k h w →
  justified h _ (Update k o) → live w !! keyOf o = Some cur → rv cur = rv o →
  updates k cur o.
Proof.
  intros Hmeta Hw Hpast (o0 & Hs & (_ & _ & _ & Hrv) & Hu) Hcur Heq.
  rewrite <-!Hmeta in Hrv. destruct (wo_live w Hw _ _ Hcur) as [Hin _].
  assert (cur = o0) as ->; [|exact Hu].
  eapply (rv_inj w); [done|done|by apply Hpast|]. rewrite Heq. exact Hrv.
Qed.

(** C11: The Workspace controller never undoes a change it has not seen: whatever it read
    before, however stale, an update of a Workspace or of a WorkspaceKind that the API server
    accepts replaces an object with the same spec and the same metadata but for the
    controller's own finalizer, which it adds or removes; a concurrent change makes the update
    a conflict. *)
Theorem reconcile_keeps_spec cfg hasHTTPProber hasPodExecutor c ns name h1 h2 r :
  (∀ (o cur : Workspace) x w,
     runs (Reconcile cfg hasHTTPProber hasPodExecutor c ns name) (h1 ++ Ev (Update KWorkspace o) x :: h2) r →
     world_ok w → shows_past KWorkspace h1 w → live w !! keyOf o = Some cur → rv cur = rv o →
     ws_Spec o = ws_Spec cur ∧ changes_finalizer WorkspaceFinalizer (ws_Meta cur) (ws_Meta o)) ∧
  (∀ (o cur : WorkspaceKind) x w,
     runs (Reconcile cfg hasHTTPProber hasPodExecutor c ns name) (h1 ++ Ev (Update KWorkspaceKind o) x :: h2) r →
     world_ok w → shows_past KWorkspaceKind h1 w → live w !! keyOf o = Some cur → rv cur = rv o →
     wsk_Spec o = wsk_Spec cur ∧ changes_finalizer WorkspaceKindFinalizer (wsk_Meta cur) (wsk_Meta o)).
Proof.
  split; intros o cur x w Hr Hw Hpast Hcur Hrv.
  - by eapply (justified_current KWorkspace); [..|eapply triple_runs; [apply Reconcile_steps|exact Hr]|exact Hcur|].
  - by eapply (justified_current KWorkspaceKind); [..|eapply triple_runs; [apply Reconcile_steps|exact Hr]|exact Hcur|].
Qed.
End controller.

(** ** An execution: two clients with one revision *)

(** The server answers the events of a history in turn. *)
Fixpoint serves_all {T} `{Resource T} (w : world (T := T)) (h : list event) (w' : world) : Prop :=
  match h with
  | [] => w' = w
  | e :: h => ∃ w1, serves w e w1 ∧ serves_all w1 h w'
  end.

Lemma thread_runs {T} `{Resource T} {R} h : ∀ (w w' : world (T := T)) (ts : list (thread R)) i h0 p r,
  ts !! i = Some (mkThread h0 p) → runs p h r → serves_all w h w' →
  rtc cstep (w, ts) (w', <[i := mkThread (h0 ++ h) (Ret r)]> ts).
Proof.
  induction h as [|e h IH]; intros w w' ts i h0 p r Hi Hr Hs; destruct p as [r'|X q k]; simpl in Hr.
  - destruct Hr as [_ ->]. rewrite Hs, app_nil_r, list_insert_id by done. done.
  - by destruct Hr as (x & h' & ? & _).
  - by destruct Hr.
  - destruct Hr as (x & h' & [= -> ->] & Hr). destruct Hs as (w1 & Hs & Hall).
    eapply rtc_l; [by eapply client_step|].
    assert (i < length ts)%nat by by eapply lookup_lt_Some.
    pose proof (IH w1 w' (<[i := mkThread (h0 ++ [Ev q x]) (k x)]> ts) i _ _ r
      (list_lookup_insert_eq _ _ _ ltac:(done)) Hr Hall) as Hrest.
    by rewrite list_insert_insert_eq, <-(assoc_L (++)) in Hrest.
Qed.

(** A Workspace without volumes, and the version the server makes of a submitted one. *)
Definition exBare : Workspace :=
  mkWorkspace (exMeta "test" "ns")
    (mkWorkspaceSpec false None "jupyterlab"
       (mkWorkspacePodTemplate (Some (mkWorkspacePodMetadata ∅ ∅))
          (mkWorkspacePodVolumes None [] []) (mkWorkspacePodOptions "img" "pod")))
    (exStatus WorkspaceStateRunning emptyActivity 0).

Definition exVersion (o : Workspace) (version : string) : Workspace :=
  let m := ws_Meta o in
  ws_setMeta o (mkObjectMeta (meta_Name m) "" (meta_Namespace m) (meta_UID m) version
                  (meta_Generation m + 1) 0 None (meta_Labels m) (meta_Annotations m) [] []).

Definition exPauseUpdate : WorkspaceUpdate :=
  let u := NewWorkspaceUpdateModelFromWorkspace exBare in
  mkWorkspaceUpdate (wup_Revision u) (wup_DisplayName u) true (wup_PodTemplate u).

Definition exRequestOf (actor : string) : workspace_request :=
  mkWorkspaceRequest (Some actor) exPauseUpdate "ns" "test".
Definition exRequests : list workspace_request := exRequestOf <$> ["alice"; "bob"].

Definition exWorld : world := mkWorld {[("ns", "test") := exBare]} [exBare].

(** Both read the stored Workspace; the first update is stored, the second conflicts. *)
Definition exSubmitted (actor : string) : Workspace :=
  ws_setMeta (ws_setPaused exBare true)
    (UpdateObjectMetaForUpdate (H := exampleTimeLib) (ws_Meta exBare) (Some actor) 0).

Definition exHistory (actor : string) (answer : Workspace + error) : list event :=
  [Ev Now 0%Z; Ev (Get KWorkspace "ns" "test") (inl exBare);
   Ev (Update KWorkspace (exSubmitted actor)) answer].

Lemma exHistory_runs actor (x : answer Workspace) :
  runs (cl_prog (workspaceClient (H := exampleTimeLib) (exRequestOf actor))) (exHistory actor x)
    match x with
    | inl o => inl (NewWorkspaceUpdateModelFromWorkspace o)
    | inr e => inr (notFoundAs ErrWorkspaceNotFound e)
    end.
Proof.
  exists 0%Z. eexists. split; [reflexivity|]. exists (inl exBare). eexists. split; [reflexivity|].
  cbn -[CalculateRevision exPauseUpdate ApplyWorkspaceUpdateModelToWorkspace
        UpdateObjectMetaForUpdate exSubmitted].
  rewrite bool_decide_eq_true_2 by reflexivity. cbn [negb].
  assert (ApplyWorkspaceUpdateModelToWorkspace exPauseUpdate exBare = ret (ws_setPaused exBare true))
    as -> by (vm_compute; reflexivity).
  exists x, []. split; [reflexivity|]. by destruct x.
Qed.

(** The world after the first update, and that the server answers both histories. *)
Definition exStored : Workspace := exVersion (exSubmitted "alice") "2".
Definition exConflict : error := ApiError Conflict "the object has been modified".

Lemma single_world_ok (o : Workspace) :
  no_colon (uid o) → no_colon (meta_Name (ws_Meta o)) →
  world_ok (mkWorld {[keyOf o := o]} [o]).
Proof.
  intros Hu Hn.
  assert (∀ o', o' ∈ [o] → o' = o) as Hone by (intros o'; set_solver).
  assert (∀ key o', ({[keyOf o := o]} : gmap (string * string) Workspace) !! key = Some o' →
    o' = o ∧ keyOf o' = key) as Hlive by by intros key o' [<- <-]%lookup_singleton_Some.
  split; simpl.
  - intros key o' [-> <-]%Hlive. by split; [left|].
  - repeat constructor. by apply not_elem_of_nil.
  - by intros o' ->%Hone.
  - by intros o1 o2 ->%Hone ->%Hone.
  - by intros key cur o' [-> _]%Hlive ->%Hone.
Qed.

Lemma exWorld_ok : world_ok exWorld.
Proof. apply (single_world_ok exBare); unfold no_colon; vm_compute; set_solver. Qed.

Lemma exHistory_stored :
  serves_all exWorld (exHistory "alice" (inl exStored)) (store exWorld exStored).
Proof.
  exists exWorld. split; [by apply serves_other|]. exists exWorld. split.
  { apply serves_other; [done|]. intros ns name o [= <- <- <-]. by split; [left|]. }
  exists (store exWorld exStored). split; [|done].
  apply (serves_stored _ _ (exSubmitted "alice") (inl exStored) exBare exStored); try done.
  - by left.
  - repeat split; vm_compute; set_solver.
Qed.

Lemma exHistory_rejected :
  serves_all (store exWorld exStored) (exHistory "bob" (inr exConflict)) (store exWorld exStored).
Proof.
  exists (store exWorld exStored). split; [by apply serves_other|].
  exists (store exWorld exStored). split.
  { apply serves_other; [done|]. intros ns name o [= <- <- <-]. by split; [right; left|]. }
  exists (store exWorld exStored). split; [|done]. by eapply serves_rejected.
Qed.

Definition exClients : list (client WorkspaceUpdate) :=
  workspaceClient (H := exampleTimeLib) <$> exRequests.

Definition exFinal : world * list (thread WorkspaceUpdate) :=
  (store exWorld exStored,
   [mkThread (exHistory "alice" (inl exStored)) (Ret (inl (NewWorkspaceUpdateModelFromWorkspace exStored)));
    mkThread (exHistory "bob" (inr exConflict)) (Ret (inr (notFoundAs ErrWorkspaceNotFound exConflict)))]).

Definition exProg (actor : string) : repo WorkspaceUpdate :=
  cl_prog (workspaceClient (H := exampleTimeLib) (exRequestOf actor)).

Lemma exReached : rtc cstep (exWorld, start exClients) exFinal.
Proof.
  set (alice := mkThread (exHistory "alice" (inl exStored))
    (Ret (inl (NewWorkspaceUpdateModelFromWorkspace exStored)))).
  etrans.
  - apply (thread_runs _ exWorld (store exWorld exStored) (start exClients) 0 [] (exProg "alice") _
             eq_refl (exHistory_runs "alice" (inl exStored)) exHistory_stored).
  - exact (thread_runs _ (store exWorld exStored)
             (store exWorld exStored) [alice; mkThread [] (exProg "bob")] 1 [] (exProg "bob") _
             eq_refl (exHistory_runs "bob" (inr exConflict)) exHistory_rejected).
Qed.

Lemma updates_atomic_witness :
  succeeded exFinal.2 0 ∧
  ∃ done, rtc (astep exClients) (exWorld, ∅) (exFinal.1, done) ∧ ∀ i, succeeded exFinal.2 i → i ∈ done.
Proof.
  split; [by eexists _, _|].
  exact (proj1 (updates_atomic (H := exampleTimeLib) (H0 := canonicalOrder)
    (H1 := canonicalOrder_laws)) exRequests exWorld exFinal exWorld_ok exReached).
Defined.




(** ** An update of the controller *)

(** The Workspaces that an event shows. *)
Definition shown_workspaces (e : event) : list Workspace :=
  match e with
  | @Ev X q x =>
    match q in req X return X → list Workspace with
    | Get KWorkspace _ _ | Update KWorkspace _ => λ x, match x with inl o => [o] | inr _ => [] end
    | List KWorkspace _ => λ x, match x with inl l => l | inr _ => [] end
    | _ => λ _, []
    end x
  end.

Lemma served_shown o h : served KWorkspace o h → ∃ e, e ∈ h ∧ o ∈ shown_workspaces e.
Proof.
  intros [(ns & n & He)|[(opts & items & He & Ho)|(o' & He)]]; (eexists; split; [exact He|]);
    simpl; [set_solver|done|set_solver].
Qed.

#[local] Instance PodVolumeMount_eq_dec : EqDecision PodVolumeMount.
Proof. solve_decision. Defined.
#[local] Instance PodSecretMount_eq_dec : EqDecision PodSecretMount.
Proof. solve_decision. Defined.
#[local] Instance WorkspacePodVolumes_eq_dec : EqDecision WorkspacePodVolumes.
Proof. solve_decision. Defined.
#[local] Instance WorkspacePodOptions_eq_dec : EqDecision WorkspacePodOptions.
Proof. solve_decision. Defined.
#[local] Instance WorkspacePodTemplate_eq_dec : EqDecision WorkspacePodTemplate.
Proof. solve_decision. Defined.
#[local] Instance WorkspaceSpec_eq_dec : EqDecision WorkspaceSpec.
Proof. solve_decision. Defined.
#[local] Instance Workspace_eq_dec : EqDecision Workspace.
Proof. solve_decision. Defined.

Definition exDeletedWorld : world := mkWorld {[keyOf exDeleted := exDeleted]} [exDeleted].

(** A Workspace being deleted loses its finalizer, and nothing else of it changes. *)
Lemma reconcile_keeps_spec_witness :
  ∃ o, ws_Spec o = ws_Spec exDeleted ∧
    changes_finalizer WorkspaceFinalizer (ws_Meta exDeleted) (ws_Meta o).
Proof.
  destruct (exRun_first ReconcileSpec.as_update
    (λ h1 '(o, _), forallb (λ e, forallb (λ w, bool_decide (w = exDeleted)) (shown_workspaces e)) h1 &&
       bool_decide (keyOf o = ("ns", "test")) && bool_decide (rv o = "1"))
    false exDeleted (λ _, []) None) as (h1 & [o x] & e & h2 & r & Hr & ->%as_update_Some & Hc);
    [vm_compute; reflexivity|].
  apply andb_true_iff in Hc as [[Hall Hkey%bool_decide_eq_true_1]%andb_true_iff Hrv%bool_decide_eq_true_1].
  exists o.
  apply (proj1 (reconcile_keeps_spec (H := exampleOwnerLib) (H0 := exampleOwnerLib_laws)
    (H1 := exampleTemplates) (H2 := exampleSelectorLib) (H3 := exampleProbeLib)
    (H4 := canonicalOrder) (H5 := canonicalOrder_laws) (H6 := exampleUnstructured)
    (exCfg false) true true ∅ "ns" "test" h1 h2 r) o exDeleted x exDeletedWorld Hr).
  - apply (single_world_ok exDeleted); unfold no_colon; vm_compute; set_solver.
  - intros w (e & He & Hw)%served_shown. rewrite forallb_forall in Hall.
    apply list_elem_of_In, Hall in He. rewrite forallb_forall in He.
    apply list_elem_of_In, He, bool_decide_eq_true_1 in Hw as ->. by left.
  - by rewrite Hkey.
  - by rewrite Hrv.
Defined.
