(* ===== verification/BackendSpec.v ===== *)
(** * How the backend fits the controller and the webhooks

    The backend reads objects that the webhooks admitted and the controller reconciled.
    Here its functions meet theirs: listing Workspaces of admitted kinds never panics and
    shows the redirects that the controller followed; listing kinds without a namespace
    applies no rule; the bytes it serves for an icon are those the controller
    fingerprinted; and what the comments of the API promise about denied options, which no
    component enforces. *)

From Stdlib Require Import ZArith.
From stdpp Require Import base gmap strings list.
From S2P Require Import Prelude K8sTypes ApiTypes Sha256 Client Options Examples Generate Field.
From S2P Require Import Webhook WebhookSpec Owned KindController FilterRules Validation Revision.
From S2P Require Import ListValues WorkspaceModel WorkspaceRepo KindModel KindRepo WorkspaceList.

(** ** Listing Workspaces *)

Section list_items.
Context `{TimeLib}.

(** The ports of every image name ports of the kind. *)
Definition image_ports_known (wk : WorkspaceKind) : Prop :=
  ∀ id v p, index_by icv_Id (wsk_ImageValues wk) !! id = Some v → p ∈ ics_Ports (icv_Spec v) →
    is_Some (index_by kport_Id (kpt_Ports (wsk_PodTemplate wk)) !! iport_Id p).

Lemma KindValid_ports `{ValidationLib} `{TemplateLib} wk : KindValid wk → image_ports_known wk.
Proof.
  intros Hv id v p Hid Hp. apply index_by_is_Some.
  destruct (kv_ports wk Hv id v Hid) as [_ Hports]. destruct (Hports p Hp) as (kp & ? & ?). eauto.
Qed.

Lemma buildServicesLoop_total ws ports l :
  (∀ p, p ∈ l → is_Some (ports !! iport_Id p)) →
  ∃ services, buildServicesLoop ws ports l = Ok services.
Proof.
  induction l as [|p l IH]; intros Hl; [by eexists|]. cbn [buildServicesLoop].
  destruct (Hl p) as [kp Hkp]; [set_solver|]. unfold buildService. rewrite Hkp. cbn [go_bind].
  destruct IH as [services ->]; [set_solver|]. by eexists.
Qed.

(** A Workspace whose kind is missing, or is its own and has sound ports, is listed. *)
Lemma list_item_ok cfg ws wsk :
  (WskExists wsk = true → wsSpec_Kind (ws_Spec ws) = wsk_Name wsk ∧ image_ports_known wsk) →
  ∃ item, NewWorkspaceListItemFromWorkspace cfg ws wsk = Ok item ∧
    wli_Name item = ws_Name ws ∧ wki_Missing (wli_WorkspaceKind item) = negb (WskExists wsk).
Proof.
  intros Hk. unfold NewWorkspaceListItemFromWorkspace, EnsureWskMatchesWorkspace.
  destruct (WskExists wsk) eqn:He; cbn [andb].
  - destruct (Hk eq_refl) as [Hname Hports]. rewrite bool_decide_eq_true_2 by done. cbn [negb go_bind].
    unfold buildImageConfig, buildPodConfig, optionsById. rewrite He. unfold buildServices.
    change (index_by opt_Id (wsk_ImageValues wsk)) with (index_by icv_Id (wsk_ImageValues wsk)).
    destruct (index_by icv_Id (wsk_ImageValues wsk) !! wpo_ImageConfig (ws_Options ws))
      as [v|] eqn:Hv; cbn [go_bind].
    + destruct (buildServicesLoop_total ws (index_by kport_Id (kpt_Ports (wsk_PodTemplate wsk)))
        (ics_Ports (icv_Spec v))) as [services ->]; [by intros p; eapply Hports|].
      cbn [go_bind]. by eexists.
    + by eexists.
  - cbn [go_bind]. unfold buildImageConfig, buildPodConfig, optionsById. rewrite He.
    rewrite lookup_empty. cbn [buildServices go_bind]. by eexists.
Qed.

(** Every kind the API server returns is the one asked for, with sound ports. *)
Definition kinds_sound (h : list event) : Prop :=
  ∀ name wk, Ev (Get KWorkspaceKind "" name) (inl wk) ∈ h →
    wsk_Name wk = name ∧ image_ports_known wk.

Lemma workspaceModels_sat cfg wss h :
  sat (workspaceModels cfg wss) h (λ h' r, kinds_sound h' →
    match r with
    | inl items => wli_Name <$> items = ws_Name <$> wss
    | inr e => ∃ err, e = Cause err
    end).
Proof.
  revert h. induction wss as [|ws wss IH]; intros h; [done|]. cbn [workspaceModels].
  apply sat_rbind.
  apply (sat_mono _ _ (λ h' r, match r with
    | inl wsk => wsk = emptyKind ∨ Ev (Get KWorkspaceKind "" (wsSpec_Kind (ws_Spec ws))) (inl wsk) ∈ h'
    | inr e => ∃ err, e = Cause err end)).
  { intros [wk|err]; simpl; [right; set_solver|]. destruct (IsNotFound err); simpl; eauto. }
  intros h1 [wsk|e] Hwsk; [|by intros _]. apply sat_rbind.
  destruct (NewWorkspaceListItemFromWorkspace cfg ws wsk) as [item|err|why] eqn:Hitem; simpl.
  - apply sat_rbind.
    eapply sat_mono; [apply sat_and; [apply sat_prefix|apply IH]|].
    intros h2 [items|e] [Hp Hr]; simpl; intros Hs; [|by apply Hr].
    f_equal; [|by apply Hr].
    assert (WskExists wsk = true → wsSpec_Kind (ws_Spec ws) = wsk_Name wsk ∧ image_ports_known wsk)
      as Hk.
    { intros He. destruct Hwsk as [->|Hin]; [done|].
      destruct (Hs (wsSpec_Kind (ws_Spec ws)) wsk) as [Hn Hports]; [by eapply elem_of_prefix|done]. }
    destruct (list_item_ok cfg ws wsk Hk) as (item' & Heq & Hname & _). congruence.
  - intros Hs. by eexists.
  - intros Hs. exfalso.
    destruct (list_item_ok cfg ws wsk) as (item & Heq & _); [|congruence].
    intros He. destruct Hwsk as [->|Hin]; [done|]. by destruct (Hs _ _ Hin).
Qed.

(** Listing Workspaces never panics on kinds whose images name ports the kind has, as every
    kind the webhook admits does: when the API server returns for each kind name such a kind
    of that name (or none), the outcome is one item per listed Workspace, in order, or an
    error of the API server. *)
Theorem getWorkspaceModels_total cfg ns h r :
  runs (getWorkspaceModels cfg ns) h r → kinds_sound h →
  match r with
  | inl items => ∃ wss, Ev (List KWorkspace (mkListOptions None ∅ ns)) (inl wss) ∈ h ∧
      wli_Name <$> items = ws_Name <$> wss
  | inr e => ∃ err, e = Cause err
  end.
Proof.
  intros Hrun. assert (sat (getWorkspaceModels cfg ns) [] (λ h r, kinds_sound h → match r with
    | inl items => ∃ wss, Ev (List KWorkspace (mkListOptions None ∅ ns)) (inl wss) ∈ h ∧
        wli_Name <$> items = ws_Name <$> wss
    | inr e => ∃ err, e = Cause err
    end)) as Hs; [|exact (proj1 (sat_runs _ _ _) Hs h r Hrun)].
  unfold getWorkspaceModels. apply sat_rbind, sat_attempt.
  2: { intros e _. by eexists. }
  intros wss. eapply sat_mono; [apply sat_and; [apply sat_prefix|apply workspaceModels_sat]|].
  intros h' [items|e] [Hp Hr] Hs; [|by apply Hr]. exists wss. split; [|by apply Hr].
  eapply elem_of_prefix; [|exact Hp]. set_solver.
Qed.
End list_items.

(** ** Redirects *)

(** A shown step is a redirect of the kind, with its message and both options known. *)
Definition shows_redirect {V} `{ListedOption V} (values : gmap string V)
    (step : WorkspacePodOptionRedirectStep) (shown : RedirectStep) : Prop :=
  ∃ v w redirect, values !! step_Source step = Some v ∧ opt_Redirect v = Some redirect ∧
    redir_To redirect = step_Target step ∧ values !! step_Target step = Some w ∧
    rs_Message shown = buildRedirectMessage (redir_Message redirect) ∧
    oi_DisplayName (rs_Source shown) = osi_DisplayName (opt_Spawner v) ∧
    oi_DisplayName (rs_Target shown) = osi_DisplayName (opt_Spawner w).

Lemma resolves_shown {V} `{ListedOption V} (values : gmap string V) unknown v steps d :
  keyed values → values !! opt_Id v = Some v → resolves values v steps d →
  Forall2 (shows_redirect values) steps (buildRedirectStep values unknown <$> steps).
Proof.
  intros Hkey Hv Hr. revert Hv. induction Hr as [v Hend|v redirect w steps d Hred Hw Hr IH]; intros Hv.
  { constructor. }
  pose proof (Hkey _ _ Hw) as Hid. rewrite <-Hid in Hw. rewrite fmap_cons. constructor.
  - exists v, w, redirect. unfold buildRedirectStep. cbn [step_Source step_Target].
    rewrite Hv, Hw. cbn [fmap option_fmap option_map mbind option_bind]. rewrite Hred.
    rewrite bool_decide_eq_true_2 by congruence. by split_and!.
  - by apply IH.
Qed.

(** The redirects that the controller followed for a Workspace, which its status records,
    are shown step by step: every step is a redirect of the kind, both of its options are
    known, and its message is that redirect's. *)
Theorem listed_redirects ws wsk current desired chain :
  WskExists wsk = true →
  getImageConfig ws wsk = Ok (current, Some (desired, chain)) →
  poi_RedirectChain (pos_ImageConfig (st_PodTemplateOptions (ws_Status ws))) = chain →
  let '(model, value) := buildImageConfig ws wsk in
  value = Some current ∧ oi_DisplayName (so_Current model) = osi_DisplayName (icv_Spawner current) ∧
  Forall2 (shows_redirect (index_by icv_Id (wsk_ImageValues wsk))) chain (so_RedirectChain model).
Proof.
  intros He Hget Hchain. unfold getImageConfig in Hget.
  apply resolveOption_Ok in Hget as (Hcur & steps & d & Hres & Hout).
  assert (chain = steps) as -> by (destruct steps; congruence).
  unfold buildImageConfig, optionsById. rewrite He. unfold buildSelectedOption. rewrite Hchain.
  change (index_by opt_Id (wsk_ImageValues wsk)) with (index_by icv_Id (wsk_ImageValues wsk)) in *.
  rewrite Hcur. split_and!; [done|done|]. cbn [so_RedirectChain].
  eapply (@resolves_shown ImageConfigValue imageConfig_option imageConfig_listed);
    [exact (@index_by_keyed ImageConfigValue imageConfig_option _)| |exact Hres].
  pose proof (index_by_lookup_Some _ _ _ _ Hcur) as [_ Hid]. cbn. by rewrite Hid.
Qed.

(** ** Listing kinds without a namespace *)

Section admin.
Context `{SelectorLib} `{ValidationLib} `{TemplateLib}.

(** The conditions of a rule on the kind itself are about the namespace. *)
Lemma kind_rule_needs_namespace r own :
  filter_rule_ok r → ¬ applies FilterRuleScopeWorkspaceKind own None None None r.
Proof.
  intros [_ Hok] (Hscope & (m & Hm & Hw) & Hall).
  destruct (Hall m Hm Hw) as (s & sel & c & l & Hc & _ & Hl & _).
  destruct (Hok Hscope m Hm) as [Hi Hp]. unfold condition_of in Hc. rewrite Hi, Hp in Hc.
  destruct (frm_MatchNamespace m); [|done]. injection Hc as <- <-. done.
Qed.

(** Without a namespace, no rule of an admitted kind applies to the kind: it is listed,
    hidden only if the administrator said so, and not denied. *)
Theorem admin_listing_unfiltered cfg wsk :
  KindValid wsk →
  ∃ item, NewWorkspaceKindModelFromWorkspaceKind cfg wsk None = Ok (Some item) ∧
    wkl_Hidden item = default false (spawner_Hidden (kspec_Spawner (wsk_Spec wsk))) ∧
    wkl_Restrictions item = DefaultRestrictions.
Proof.
  intros Hv. assert (EvaluateWorkspaceKindFilterScopeRule wsk None = defaultResult) as Hd.
  { set (ctx := buildEvalContext wsk None workspaceKindScopes "" "").
    pose proof (evaluateRules_decides (kspec_FilterRules (wsk_Spec wsk)) workspaceKindScopes
      (mkEvalTarget FilterRuleScopeWorkspaceKind []) ∅ ctx eq_refl) as Hdec.
    eapply decides_unique; [exact Hdec|]. right. split; [|done].
    eapply Forall_impl; [exact (kv_filterRules wsk Hv)|]. intros r Hr.
    by apply kind_rule_needs_namespace. }
  unfold NewWorkspaceKindModelFromWorkspaceKind. rewrite Hd. cbn [er_APIHide defaultResult].
  destruct (ListValues_empty wsk None) as [r ->]. eexists. split; [done|].
  cbn. by rewrite orb_false_r.
Qed.
End admin.

(** ** Assets *)

Section assets.
Context `{MapOrderLaws}.

(** A run whose first event answers a read of a kind, or of a ConfigMap. *)
Lemma runs_kind {R} name (k : answer WorkspaceKind → prog R) a h r :
  runs (Vis (Get KWorkspaceKind "" name) k) (Ev (Get KWorkspaceKind "" name) a :: h) r →
  runs (k a) h r.
Proof.
  intros (x & h' & Heq & Hr).
  pose proof (f_equal (λ l, match l with
    | Ev (Get KWorkspaceKind _ _) z :: t => Some (z, t) | _ => None end) Heq) as Hp.
  by injection Hp as -> ->.
Qed.

Lemma runs_configMap {R} ns name (k : answer ConfigMap → prog R) a h r :
  runs (Vis (Get KConfigMap ns name) k) (Ev (Get KConfigMap ns name) a :: h) r →
  runs (k a) h r.
Proof.
  intros (x & h' & Heq & Hr).
  pose proof (f_equal (λ l, match l with
    | Ev (Get KConfigMap _ _) z :: t => Some (z, t) | _ => None end) Heq) as Hp.
  by injection Hp as -> ->.
Qed.

(** C37: The status the controller records for an asset and the bytes the backend serves for it
    agree when both caches hold the same ConfigMap: the fingerprint is the SHA-256 of the bytes, and
    a key that the backend finds missing is reported missing, unless the ConfigMap carries the
    cache's annotation for it itself.  No key is in both [data] and [binaryData]. *)
Theorem asset_hash_matches name ty cm wk ref asset st r :
  (∀ key, cm_Data cm !! key = None ∨ cm_BinaryData cm !! key = None) →
  asset = match ty with
          | wskAssetTypeIcon => spawner_Icon (kspec_Spawner (wsk_Spec wk))
          | wskAssetTypeLogo => spawner_Logo (kspec_Spawner (wsk_Spec wk))
          end →
  asset_Url asset = None → asset_ConfigMap asset = Some ref →
  runs (reconcileAssetStatus asset)
    [Ev (Get KConfigMap (acm_Namespace ref) (acm_Name ref)) (inl (TransformConfigMapSHA256 cm))] st →
  runs (getWorkspaceKindAssetBytes name ty)
    [Ev (Get KWorkspaceKind "" name) (inl wk);
     Ev (Get KConfigMap (acm_Namespace ref) (acm_Name ref)) (inl cm)] r →
  match r with
  | inl (bytes, mediaType) =>
      st = mkImageAssetStatus (sha256_hex bytes) None ∧ mediaType = acm_MediaType ref
  | inr e =>
      e = ErrWorkspaceKindAssetConfigMapKeyMissing ∧
      (gm (meta_Annotations (cm_Meta cm)) !! (SHA256AnnotationPrefix +:+ acm_Key ref) = None →
       ∃ msg, st = assetError ConfigMapErrorKeyNotFound msg)
  end.
Proof.
  intros Hdisj Hasset Hurl Hcm Hst Hr.
  unfold reconcileAssetStatus in Hst. rewrite Hurl, Hcm in Hst.
  apply runs_configMap in Hst as [_ <-]. rewrite transform_lookup. unfold cachedHash.
  unfold getWorkspaceKindAssetBytes in Hr. apply runs_kind in Hr. cbn [pbind ret] in Hr.
  rewrite <-Hasset, Hcm in Hr. apply runs_configMap in Hr. cbn [pbind ret] in Hr.
  destruct (Hdisj (acm_Key ref)) as [Hn|Hn]; rewrite Hn in *;
    [destruct (cm_BinaryData cm !! acm_Key ref) as [bytes|]
    |destruct (cm_Data cm !! acm_Key ref) as [bytes|]]; destruct Hr as [_ <-];
    (split; [done|]); try done; intros ->; by eexists.
Qed.
End assets.

(** ** Denied options *)

Definition withFilterRules (wk : WorkspaceKind) (rules : list FilterRule) : WorkspaceKind :=
  mkWorkspaceKind (wsk_Meta wk)
    (mkKindSpec (kspec_Spawner (wsk_Spec wk)) (kspec_PodTemplate (wsk_Spec wk))
       (kspec_ActivityRules (wsk_Spec wk)) rules) (wsk_Status wk).

(** A request that does not look at WorkspaceKinds or Namespaces. *)
Definition ignores_kinds X (q : req X) : Prop :=
  match q with
  | Get KWorkspaceKind _ _ | List KWorkspaceKind _ | Get KNamespace _ _ | List KNamespace _ => False
  | _ => True
  end.

Section deny.
Context `{ValidationLib} `{TimeLib}.

Lemma unpack_ignores_kinds v ns : calls_ok ignores_kinds (validateAndUnpackVolumes v ns).
Proof.
  apply unpack_calls; by intros.
Qed.

Lemma runs_kind_intro {R} name (k : answer WorkspaceKind → prog R) a h r :
  runs (k a) h r →
  runs (Vis (Get KWorkspaceKind "" name) k) (Ev (Get KWorkspaceKind "" name) a :: h) r.
Proof. intros Hr. by exists a, h. Qed.

(** [api.deny] is not enforced, although [workspacekind_types.go] says it makes the backend
    reject any create or update that selects the item: the backend's create and update read
    neither the WorkspaceKind nor the Namespace, and the webhook's verdict on a Workspace is
    the same whatever filter rules its kind has. *)
Theorem deny_not_enforced actor c u ns name :
  calls_ok ignores_kinds (CreateWorkspace actor c ns) ∧
  calls_ok ignores_kinds (UpdateWorkspace actor u ns name) ∧
  ∀ old w wk rules verdict,
    let ask wk := [Ev (Get KWorkspaceKind "" (wsSpec_Kind (ws_Spec w))) (inl wk)] in
    (runs (WorkspaceValidator_ValidateCreate w) (ask wk) verdict ↔
     runs (WorkspaceValidator_ValidateCreate w) (ask (withFilterRules wk rules)) verdict) ∧
    (runs (WorkspaceValidator_ValidateUpdate old w) (ask wk) verdict ↔
     runs (WorkspaceValidator_ValidateUpdate old w) (ask (withFilterRules wk rules)) verdict).
Proof.
  split_and!.
  - apply calls_ok_rbind; [apply calls_ok_rbind; [apply unpack_ignores_kinds|]|].
    + intros [[home ds] ss]. exact I.
    + intros ws. apply calls_ok_rbind; [by apply calls_ok_attempt|done].
  - split; [done|]. intros now. apply calls_ok_rbind; [by apply calls_ok_attempt|].
    intros w. cbv beta zeta. case_bool_decide; cbn [negb]; [|done].
    apply calls_ok_rbind; [apply calls_ok_rbind; [apply unpack_ignores_kinds|]|].
    + intros [[home ds] ss]. exact I.
    + intros w'. apply calls_ok_rbind; [by apply calls_ok_attempt|done].
  - intros old w wk rules verdict ask. split.
    + unfold WorkspaceValidator_ValidateCreate, validateWorkspaceKind. cbn [pbind call].
      split; intros Hr%runs_kind; apply runs_kind_intro; exact Hr.
    + unfold WorkspaceValidator_ValidateUpdate, validateWorkspaceKind.
      destruct (_ || _ || _ || _); [|by split; intros [? _]]. cbn [pbind call].
      split; intros Hr%runs_kind; apply runs_kind_intro; exact Hr.
Qed.
End deny.

(** ** Examples *)

(** The kinds that a history reads. *)
Definition kind_answer (e : event) : option (string * WorkspaceKind) :=
  match e with
  | @Ev X q x => match q in req X return X → _ with
                 | Get KWorkspaceKind _ name => λ a, match a with inl wk => Some (name, wk) | inr _ => None end
                 | _ => λ _, None
                 end x
  end.

Lemma kinds_sound_answers h :
  Forall (λ '(name, wk), wsk_Name wk = name ∧ image_ports_known wk) (omap kind_answer h) →
  kinds_sound h.
Proof.
  intros Hall name wk Hin. rewrite Forall_forall in Hall. apply (Hall (name, wk)).
  apply list_elem_of_omap. eexists. split; [exact Hin|done].
Qed.

Definition exSound : WorkspaceKind := exKindRedirect.

Lemma exSound_ports : image_ports_known exSound.
Proof.
  apply (KindValid_ports (H0 := exampleValidation) (H1 := exampleTemplates)), exKind_valid.
  vm_compute. reflexivity.
Qed.

Definition exListHandler : handler () := λ X q s,
  (match q in req X return X → X with
   | List KWorkspace _ => λ _, inl [exWorkspaceRunning]
   | Get KWorkspaceKind _ _ => λ _, inl exSound
   | _ => λ x, x
   end (exEnv 0 (mkExecOutcome [] None) X q s).1, s).

Lemma getWorkspaceModels_total_witness :
  let p := getWorkspaceModels (H := exampleTimeLib) (mkBackendConfig "") "ns" in
  ∃ h items, runs p h (inl items) ∧
    ∃ wss, wli_Name <$> items = ws_Name <$> wss.
Proof.
  intros p. pose proof (interp_runs exListHandler p ()) as Hr.
  assert (∃ items, (interp exListHandler p ()).1 = inl items) as [items Hi]
    by (vm_compute; eexists; reflexivity).
  rewrite Hi in Hr. eexists _, items. split; [exact Hr|].
  destruct (getWorkspaceModels_total (H := exampleTimeLib) (mkBackendConfig "") "ns" _ _ Hr)
    as (wss & _ & Hn); [|by exists wss].
  apply kinds_sound_answers.
  assert (omap kind_answer (trace exListHandler p ()) = [(wsk_Name exSound, exSound)]) as ->
    by (vm_compute; reflexivity).
  repeat constructor. apply exSound_ports.
Defined.

(** A Workspace that selects an image which redirects to another, as its status records. *)
Definition exRedirectedStep : WorkspacePodOptionRedirectStep := mkRedirectStep "old" "img".

Definition exRedirected : Workspace :=
  exWorkspace "test" false "old" "pod"
    (mkWorkspaceStatus emptyActivity 0 0 false
       (mkPodOptionsStatus (mkPodOptionInfo "" [exRedirectedStep]) (mkPodOptionInfo "" []))
       (mkWorkspacePodStatus "" "" "" [] []) WorkspaceStateRunning "").

Lemma listed_redirects_witness :
  Forall2 (shows_redirect (index_by icv_Id (wsk_ImageValues exSound))) [exRedirectedStep]
    (so_RedirectChain (buildImageConfig exRedirected exSound).1).
Proof.
  assert (∃ current desired,
    getImageConfig exRedirected exSound = Ok (current, Some (desired, [exRedirectedStep])))
    as (current & desired & Hget) by (vm_compute; do 2 eexists; reflexivity).
  pose proof (listed_redirects exRedirected exSound current desired [exRedirectedStep]
    ltac:(vm_compute; reflexivity) Hget eq_refl) as Hl.
  destruct (buildImageConfig exRedirected exSound). by destruct Hl as (_ & _ & ?).
Defined.

Lemma admin_listing_unfiltered_witness :
  ∃ item, NewWorkspaceKindModelFromWorkspaceKind (H := exampleSelectorLib) (mkBackendConfig "")
            exSound None = Ok (Some item) ∧ wkl_Restrictions item = DefaultRestrictions.
Proof.
  destruct (admin_listing_unfiltered (H := exampleSelectorLib) (H0 := exampleValidation)
    (H1 := exampleTemplates) (mkBackendConfig "") exSound) as (item & Hi & _ & Hd).
  - apply exKind_valid. vm_compute. reflexivity.
  - by exists item.
Defined.

Lemma asset_hash_matches_witness :
  let ref := mkAssetConfigMap "icons" "ns" "icon.svg" "image/svg+xml" in
  mkImageAssetStatus (sha256_hex "<svg/>") None = mkImageAssetStatus (sha256_hex "<svg/>") None ∧
  "image/svg+xml" = acm_MediaType ref.
Proof.
  intros ref.
  exact (asset_hash_matches (H := canonicalOrder) (H0 := canonicalOrder_laws) "jupyterlab"
    wskAssetTypeIcon exIcons exAssetKind ref (mkAsset None (Some ref))
    (mkImageAssetStatus (sha256_hex "<svg/>") None) (inl ("<svg/>", "image/svg+xml"))
    (λ key, or_intror (lookup_empty key)) eq_refl eq_refl eq_refl
    ltac:(eexists _, _; split; [reflexivity|vm_compute; split; reflexivity])
    ltac:(eexists _, _; split; [reflexivity|]; eexists _, _; split; [reflexivity|vm_compute; split; reflexivity])).
Defined.
